(* ===== verification/_CoqProject ===== *)
-Q . S2P
Prelude.v
Trace.v
RustStr.v
Paths.v
Json.v
JsonText.v
Sha256.v
Crypto.v
Instances.v
Payloads.v
Envelope.v
NonceCache.v
Config.v
Firewall.v
Demux.v
Http.v
Float64.v
Wire.v
Stats.v
Runtime.v
FakeRuntime.v
Docker.v
Db.v
Tail.v
Fs.v
Backup.v
MemFs.v
Dirsize.v
Dispatcher.v
ToyNode.v
DispatcherSpec.v
DispatcherFiles.v
DispatcherErrors.v
DispatcherWire.v
Heartbeat.v
DockerNode.v
Task.v
ConsoleStream.v
Concurrent.v
Pool.v
Session.v
WireText.v
SessionSpec.v
SessionPool.v
SessionLive.v
Client.v
Daemon.v
Main.v
TestKit.v
TestSkyperf.v
TestProtocol.v
TestRuntime.v
TestAgent.v
TestSession.v
