(* ===== verification/Prelude.v ===== *)
(** * sky-daemon: a verification library

    sky-daemon is the agent that runs on a game-server node. It dials the panel
    over a WebSocket, verifies signed commands, runs them against the local
    Docker Engine, the server's files and a MariaDB server, and reports console
    output, state changes and statistics back. This library models its three
    crates (src/protocol, src/daemon, src/skyperf-core) as executable
    definitions and proves what each part guarantees.

    ** The program and the files that model it

    - src/protocol/src: the wire types and their JSON (Payloads and Wire, on the
      JSON trees of Json), and the signed envelope (Envelope: [sign], [verify],
      [signed], [timestamp_is_fresh] with [i64] arithmetic, [now_unix]).
    - src/daemon/src/agent: the replay cache (NonceCache); the command
      dispatcher (Dispatcher: [handle], [heartbeat], [reconcile], one branch per
      [Action]); the same commands as tasks cut into turns (Concurrent, on the
      resumptions of Task), the console tasks (ConsoleStream) and the heartbeat
      (Heartbeat) cut likewise, interleaved in every way (Pool); one connection
      (Session: the select loop as a step function over what wakes it);
      reconnecting (Client).
    - src/daemon/src/runtime: the [ContainerRuntime] trait as a type class with
      laws (Runtime), its in-memory implementation (FakeRuntime) and its Docker
      implementation (Docker) with the parsing it needs (Http, Demux, Stats on
      the binary64 arithmetic of Float64) and the firewall helper (Firewall).
    - src/daemon/src/db.rs, config.rs and main.rs: Db, Config, Main.
    - src/skyperf-core/src: Tail, Backup, Dirsize.
    - The unit tests of the three crates: TestSkyperf, TestProtocol,
      TestRuntime, TestAgent and TestSession (with the assertions of TestKit)
      transcribe every [#[test]] of the repository as a check on the model and
      evaluate them all; each file ends with the statement that they pass.
    - Shared: this prelude; RustStr (the [str], UTF-8 and number routines of
      the standard library the code calls); Paths ([std::path] on Unix and the
      path checks written on it); Fs (the file system as an interface that
      records every access); Trace (the logic of recorded calls).

    How the parts interact is kept as in the code: Main builds a dispatcher over
    the Docker runtime and runs the client; each round of the client makes a
    session over the same dispatcher state; the session verifies, checks nonces
    and spawns commands, which outlive it. A command works on the shared state
    ([World]), whose fields are the runtime's state, the files, the database,
    the server-to-container map, the consoles and the event channel. [handle]
    is a command run alone; in Session, Client and Pool any number of commands
    run at once, each making the turns of [handle_task] between the others',
    and an uninterrupted one is exactly [handle] (handle_is_interleaving).
    SessionPool and Daemon show that the client over all its sessions is one
    run of Pool. DockerNode puts the dispatcher and the Docker runtime
    together.

    ** Modelling conventions

    Fallible code returns [result]; the error is the text [err.to_string()]
    shows. Effectful code is the state monad [M], which keeps the state reached
    before an error. Machine integers are [Z] with wrap-around written out, per
    build profile ([Checked] panics, [Wrapping] wraps). Bytes are [ascii],
    strings are byte strings. Hash maps are [gmap]; where the code iterates over
    one, no theorem depends on the order. A [serde_json::Value] is a tree whose
    objects are sorted ([to_value]). Clock readings, random bytes and the
    outcomes of I/O are arguments. Code that is not in the repository is a type
    class with its documented behaviour as laws ([Crypto], [SerdeJson],
    [WireJson], [HttpParse], [Engine], [Host], [MariaDb], [FileSystem],
    [Archive], [WalkDir], [Base64]). Concrete instances satisfy the laws, and
    the witnesses and tests run on them: SHA-256 and HMAC (Sha256, Instances), a
    printer and parser of JSON texts (JsonText) and of whole envelopes with
    their raw payload (WireText), a file system with archives (MemFs), a node
    over all of them (ToyNode) and the small modules in Db and Docker.

    ** What the theorems show

    - The whole daemon (Daemon): every run of the client is a run of the pool of
      interleaved commands (client_refines_pool), and every file and event
      belongs to the server of a command that verified under the node token
      (daemon_confined).
    - Authenticity and replay: a signature pins down one message
      (Envelope.forgery_is_collision); the swept nonce cache refines one that
      forgets nothing (NonceCache.nonce_cache_refines); in a connection only
      authentic commands run (SessionSpec.dispatched_authentic) and none runs
      twice (no_replay), but the next connection accepts a replay again
      (replay_after_reconnect); the freshness test from the clock reading on,
      per build profile (freshness_spec).
    - The wire types (Wire): every payload type implements [Wire] with its laws,
      round trip and decoding only to values of the Rust type
      (payloads_lawful); the dispatcher's acknowledgements and heartbeats obey
      them (DispatcherWire, DockerNode.node_heartbeat_readable).
    - Delivery: everything sent verifies at the panel (wire_verifies); commands
      and acknowledgements are conserved (acks_conserved); over a connection
      that stays up under a fair scheduler every command is answered
      (SessionLive.command_answered); events keep their
      order and at most one per connection is lost
      (Client.events_over_reconnects); the reconnect delays (backoff_spec).
    - The dispatcher (DispatcherSpec, DispatcherFiles, DispatcherErrors): which
      commands are refused, with which text and without any effect
      (handle_checks); every file access of every command stays below the server's directories (handle_confined), the
      groups of commands do not interfere (handle_separation), what is tracked
      (handle_tracks), what a server's life looks like against any lawful
      runtime (server_lifecycle), files read back what was written
      (file_roundtrip), how backups are listed.
    - Heartbeats (Heartbeat): they end and report the tracked servers with a
      container, whatever happens between their turns (heartbeat_complete).
    - Concurrency (Pool, for every interleaving): every command ends
      and is acknowledged once (commands_end); every registered console has its
      stream (console_has_pump); the converse fails
      in two ways (console_entry_lost), and a removal that overlaps a start
      leaves a ghost (start_remove_race).
    - Restarts (DockerNode.restart_controls): which containers a restarted daemon
      finds again, and that its first commands reach exactly these.
    - Docker: creation recovers at most once per cause and ends
      (create_container_recovers); port clean-up deletes exactly what it may
      (free_conflicting_ports_safe); start retries once; attaching yields the
      stream's lines; chunked bodies and multiplexed frames decode whatever the
      read boundaries; opening ports waits a bounded time (open_ports_spec).
    - Databases: no SQL injection, and the effect of creation and deletion on
      the set of databases. Backups: nothing is unpacked outside the
      destination. Tail: the last lines, and following a growing file.

    ** Fuel

    Loops that are not structural take fuel and are called with enough of it:
    [dechunk_loop] with one more than the bytes received (dechunk_terminates),
    [create_loop] with three rounds, as each recovery happens once
    (create_container_recovers covers every run), [read_new] and [tail_loop]
    with one more than the bytes left, the frame and line loops with the length
    of their buffer; the theorems about them are equations on the results, so
    running out of fuel would contradict them. The select loop and the client
    run over finite lists of wake-ups and attempts, and their theorems hold for
    every such list.

    ** Not modelled

    Logging, signal handling and the timing of timers; panics inside
    [spawn_blocking]; module re-exports. One call of the runtime and of the
    archive routines is one turn, so interleavings inside these are left out; a
    database query, a file operation and an await of a heartbeat are turns of
    their own. Paths are checked lexically, as the code does; symbolic links are
    outside the model. *)

From stdpp Require Export base tactics option list strings gmap pretty.
From Stdlib Require Export ZArith Lia Ascii.
From stdpp Require Import options.

(** ** Rust values *)

(** [u8] is [ascii]; [Vec<u8>] and [&[u8]] are [list byte]; [String] and
    [&str] are [string], the bytes of their UTF-8 encoding. *)
Abbreviation byte := ascii.

Definition as_bytes (s : string) : list byte := String.list_ascii_of_string s.
Definition of_bytes (l : list byte) : string := String.string_of_list_ascii l.

Definition byte_val (b : byte) : Z := Z.of_N (N_of_ascii b).

(** [anyhow::Result]: the message is what [err.to_string()] shows, that is the
    outermost context. *)
Inductive result (A : Type) : Type :=
| Ok (a : A)
| Err (msg : string).
Arguments Ok {A} a.
Arguments Err {A} msg.

Global Instance result_ret : MRet result := fun A a => Ok a.
Global Instance result_bind : MBind result := fun A B f m =>
  match m with Ok a => f a | Err e => Err e end.
Global Instance result_fmap : FMap result := fun A B f m =>
  match m with Ok a => Ok (f a) | Err e => Err e end.
Global Instance result_eq_dec `{EqDecision A} : EqDecision (result A).
Proof. solve_decision. Defined.

(** [.context(msg)] on a [Result] and on an [Option]. *)
Definition context {A} (msg : string) (r : result A) : result A :=
  match r with Ok a => Ok a | Err _ => Err msg end.
Definition ok_or {A} (msg : string) (o : option A) : result A :=
  match o with Some a => Ok a | None => Err msg end.

Definition is_ok {A} (r : result A) : bool :=
  match r with Ok _ => true | Err _ => false end.

Definition result_ok {A} (r : result A) : option A :=
  match r with Ok a => Some a | Err _ => None end.

(** Code that changes a state of type [S] and may fail. The state reached
    before a failure is kept: an error does not undo earlier effects. *)
Definition M (S A : Type) : Type := S -> S * result A.

Global Instance M_ret {S} : MRet (M S) := fun A a s => (s, Ok a).
Global Instance M_bind {S} : MBind (M S) := fun A B f m s =>
  let '(s', r) := m s in
  match r with Ok a => f a s' | Err e => (s', Err e) end.

Definition lift {S A} (r : result A) : M S A := fun s => (s, r).
Definition mcontext {S A} (msg : string) (m : M S A) : M S A := fun s =>
  let '(s', r) := m s in (s', context msg r).
(** [Result::ok] on an effectful call, or [let _ = call]: the outcome becomes a
    value and no error propagates. *)
Definition mtry {S A} (m : M S A) : M S (result A) := fun s =>
  let '(s', r) := m s in (s', Ok r).
Definition modify {S} (f : S -> S) : M S unit := fun s => (f s, Ok tt).
Definition gets {S A} (f : S -> A) : M S A := fun s => (s, Ok (f s)).

(** ** Machine integers *)

Definition i64_min : Z := (- 2 ^ 63)%Z.
Definition i64_max : Z := (2 ^ 63 - 1)%Z.
Definition u64_max : Z := (2 ^ 64 - 1)%Z.
Definition u16_max : Z := (2 ^ 16 - 1)%Z.
Definition in_i64 (z : Z) : Prop := (i64_min <= z <= i64_max)%Z.
Definition in_u64 (z : Z) : Prop := (0 <= z <= u64_max)%Z.

(** Two's-complement wrap to [i64], and wrap to [u64]. *)
Definition wrap_i64 (z : Z) : Z := ((z + 2 ^ 63) mod 2 ^ 64 - 2 ^ 63)%Z.
Definition wrap_u64 (z : Z) : Z := (z mod 2 ^ 64)%Z.

(** What an overflowing [+], [-] or [abs] does: [Checked] is a build with
    overflow checks (the dev profile: the operation panics), [Wrapping] one
    without them (the release profile). [None] is the panic. *)
Inductive profile := Checked | Wrapping.

Global Instance profile_eq_dec : EqDecision profile.
Proof. solve_decision. Defined.

Definition arith_i64 (p : profile) (z : Z) : option Z :=
  if bool_decide (i64_min <= z <= i64_max)%Z then Some z
  else match p with Checked => None | Wrapping => Some (wrap_i64 z) end.

Definition arith_u64 (p : profile) (z : Z) : option Z :=
  if bool_decide (0 <= z <= u64_max)%Z then Some z
  else match p with Checked => None | Wrapping => Some (wrap_u64 z) end.

(** ** Slices *)

(** [Iterator::position]: the index of the first match. *)
Fixpoint position {A} (p : A -> bool) (l : list A) : option nat :=
  match l with
  | [] => None
  | x :: l' => if p x then Some 0 else S <$> position p l'
  end.

(** [slice::split]: the pieces between the matching elements, one more than
    there are matches. *)
Fixpoint split_on {A} (p : A -> bool) (l : list A) : list (list A) :=
  match l with
  | [] => [[]]
  | x :: l' =>
      if p x then [] :: split_on p l'
      else match split_on p l' with
           | [] => [[x]]
           | piece :: rest => (x :: piece) :: rest
           end
  end.

(** [windows(w.len()).position(|x| x == w)]: where [w] first occurs. *)
Fixpoint find_sub {A} `{EqDecision A} (w l : list A) : option nat :=
  if bool_decide (w `prefix_of` l) then Some 0
  else match l with [] => None | _ :: l' => S <$> find_sub w l' end.

Fixpoint drop_while {A} (p : A -> bool) (l : list A) : list A :=
  match l with
  | [] => []
  | x :: l' => if p x then drop_while p l' else l
  end.

(** ** Automation *)

Create HintDb sky.

(** Run the error monads: unfold the binds and split on the outcome of each
    call that a hypothesis or the goal inspects. *)
Ltac run :=
  unfold mbind, M_bind, mret, M_ret, result_bind, result_ret in *;
  unfold lift, mcontext, mtry, modify, gets, context, ok_or in *.

Ltac step_match :=
  match goal with
  | H : context [match ?x with _ => _ end] |- _ => destruct x eqn:?; simplify_eq/=
  | |- context [match ?x with _ => _ end] => destruct x eqn:?; simplify_eq/=
  end.

(** ** Lemmas on slices *)

Lemma list_length_ind {A} (P : list A -> Prop) :
  (forall l, (forall k, length k < length l -> P k) -> P l) -> forall l, P l.
Proof.
  intros IH l. remember (length l) as n eqn:Hn. revert l Hn.
  induction n as [n IHn] using lt_wf_ind. intros l ->. apply IH.
  intros k Hk. by apply (IHn (length k)).
Qed.

Section slices.
Context {A : Type}.
Implicit Types (l : list A) (p : A -> bool).

Lemma position_Some p l i :
  position p l = Some i ->
  exists x, l = take i l ++ x :: drop (S i) l /\ p x = true /\
            Forall (fun y => p y = false) (take i l) /\ i < length l.
Proof.
  revert i. induction l as [|x l IH]; intros i H; simplify_eq/=.
  destruct (p x) eqn:Hx; simplify_eq/=.
  { exists x. rewrite drop_0. split_and!; eauto with lia. }
  destruct (position p l) as [j|] eqn:Hj; simplify_eq/=.
  destruct (IH j eq_refl) as (y & Hl & Hy & HF & Hlt).
  exists y. split_and!; eauto with lia.
  rewrite Hl at 1. done.
Qed.

Lemma position_None p l : position p l = None <-> Forall (fun y => p y = false) l.
Proof.
  induction l as [|x l IH]; simpl; [naive_solver|].
  rewrite Forall_cons. destruct (p x) eqn:Hx; [naive_solver|].
  rewrite <- IH. destruct (position p l); naive_solver.
Qed.

Lemma position_app_l p l k i :
  position p l = Some i -> position p (l ++ k) = Some i.
Proof.
  revert i. induction l as [|x l IH]; intros i H; simplify_eq/=.
  destruct (p x); simplify_eq/=; [done|].
  destruct (position p l) as [j|]; simplify_eq/=. by rewrite (IH j).
Qed.

Lemma position_app_mid p l x k :
  Forall (fun y => p y = false) l -> p x = true ->
  position p (l ++ x :: k) = Some (length l).
Proof.
  induction 1 as [|y l Hy _ IH]; intros Hx; simpl; [by rewrite Hx|].
  rewrite Hy, IH by done. done.
Qed.

Lemma split_on_ne p l : split_on p l <> [].
Proof. destruct l; simpl; repeat case_match; done. Qed.

Lemma split_on_app p l k x :
  p x = true -> split_on p (l ++ x :: k) = split_on p l ++ split_on p k.
Proof.
  intros Hx. induction l as [|y l IH]; simpl; [by rewrite Hx|].
  destruct (p y); [by rewrite IH|].
  rewrite IH. destruct (split_on p l) eqn:E; [by apply split_on_ne in E|done].
Qed.

Lemma split_on_none p l :
  Forall (fun y => p y = false) l -> split_on p l = [l].
Proof. induction 1 as [|x l Hx _ IH]; simpl; [done|]. by rewrite Hx, IH. Qed.

Lemma split_on_pieces p l :
  Forall (Forall (fun y => p y = false)) (split_on p l).
Proof.
  induction l as [|x l IH]; simpl; [repeat constructor|].
  destruct (p x) eqn:Hx; [by constructor|].
  destruct (split_on p l); [by repeat constructor|].
  inv IH. repeat constructor; done.
Qed.
End slices.

Lemma find_sub_Some `{EqDecision A} (w l : list A) i :
  find_sub w l = Some i ->
  l = take i l ++ w ++ drop (i + length w) l /\
  (forall j, j < i -> ~ w `prefix_of` drop j l).
Proof.
  revert i. induction l as [|x l IH]; intros i; simpl; case_bool_decide as Hw; intros H;
    simplify_eq/=.
  - destruct w; [|by apply prefix_nil_not in Hw]. simpl. split; [done|lia].
  - destruct Hw as [k Hk]. split; [|lia]. rewrite Hk, drop_app_length. done.
  - destruct (find_sub w l) as [j|] eqn:Hj; simplify_eq/=.
    destruct (IH j eq_refl) as [Hl Hno]. split; [by f_equal|].
    intros [|k] Hk; simpl; [done|]. apply Hno; lia.
Qed.

Lemma find_sub_here `{EqDecision A} (w l : list A) :
  w `prefix_of` l -> find_sub w l = Some 0.
Proof. intros H. destruct l; simpl; by rewrite bool_decide_true. Qed.

Lemma find_sub_app `{EqDecision A} (w l k : list A) :
  (forall j, j < length l -> ~ w `prefix_of` drop j (l ++ w ++ k)) ->
  find_sub w (l ++ w ++ k) = Some (length l).
Proof.
  induction l as [|x l IH]; intros Hno; simpl.
  { apply find_sub_here. by apply prefix_app_r. }
  rewrite bool_decide_false by (apply (Hno 0); simpl; lia).
  rewrite IH; [done|]. intros j Hj. apply (Hno (S j)); simpl; lia.
Qed.

Lemma find_sub_bound `{EqDecision A} (w l : list A) i :
  find_sub w l = Some i -> i + length w <= length l.
Proof.
  intros Hi. assert (Hlt : i <= length l).
  { revert i Hi. induction l as [|x l IH]; intros i; cbn; case_bool_decide; intros; simplify_eq;
      [lia..|].
    destruct (find_sub w l) as [j|]; [|done]. simplify_eq/=. pose proof (IH j eq_refl). lia. }
  apply find_sub_Some in Hi as [Hl _]. apply (f_equal length) in Hl.
  rewrite !length_app, length_take in Hl. lia.
Qed.

Lemma find_sub_app_l `{EqDecision A} (w l k : list A) i :
  find_sub w l = Some i -> find_sub w (l ++ k) = Some i.
Proof.
  revert i. induction l as [|x l IH]; intros i; cbn [find_sub app].
  - case_bool_decide as Hw; [|done]. intros [= <-].
    apply find_sub_here. destruct w; [apply prefix_nil|by apply prefix_nil_not in Hw].
  - case_bool_decide as Hw.
    + intros [= <-]. rewrite bool_decide_true; [done|]. by apply (prefix_app_r w (x :: l) k).
    + destruct (find_sub w l) as [j|] eqn:Hj; [|done]. intros [= <-].
      pose proof (find_sub_bound w l j Hj) as Hb.
      rewrite bool_decide_false; [by rewrite (IH j)|]. intros Hp. apply Hw.
      destruct (prefix_weak_total w (x :: l) (x :: l ++ k) Hp) as [?|Hq]; [|done|].
      { apply (prefix_app_r (x :: l) (x :: l) k). done. }
      apply prefix_length in Hq. cbn in Hq. lia.
Qed.

Lemma of_as_bytes s : of_bytes (as_bytes s) = s.
Proof. apply String.string_of_list_ascii_of_string. Qed.
Lemma as_of_bytes l : as_bytes (of_bytes l) = l.
Proof. apply String.list_ascii_of_string_of_list_ascii. Qed.

Lemma as_bytes_app s t : as_bytes (s +:+ t) = as_bytes s ++ as_bytes t.
Proof.
  induction s as [|c s IH]; [done|].
  change (c :: as_bytes (s +:+ t) = c :: as_bytes s ++ as_bytes t).
  by rewrite IH.
Qed.

Lemma of_bytes_app l k : of_bytes (l ++ k) = of_bytes l +:+ of_bytes k.
Proof.
  induction l as [|c l IH]; [done|].
  change (String c (of_bytes (l ++ k)) = String c (of_bytes l +:+ of_bytes k)).
  by rewrite IH.
Qed.

Global Instance as_bytes_inj : Inj (=) (=) as_bytes.
Proof. intros s t H. by rewrite <- (of_as_bytes s), H, of_as_bytes. Qed.

Lemma bind_lift_ok {S A B} (a : A) (f : A -> M S B) : lift (Ok a) ≫= f = f a.
Proof. reflexivity. Qed.

Lemma arith_i64_id p z : in_i64 z -> arith_i64 p z = Some z.
Proof. intros H. unfold arith_i64. by rewrite bool_decide_true. Qed.

Lemma arith_u64_id p z : in_u64 z -> arith_u64 p z = Some z.
Proof. intros H. unfold arith_u64. by rewrite bool_decide_true. Qed.

Lemma wrap_u64_id z : in_u64 z -> wrap_u64 z = z.
Proof. intros H. unfold wrap_u64. apply Z.mod_small. unfold in_u64, u64_max in H. lia. Qed.

Lemma wrap_u64_range z : in_u64 (wrap_u64 z).
Proof.
  unfold wrap_u64, in_u64, u64_max. pose proof (Z.mod_pos_bound z (2 ^ 64)). lia.
Qed.

Lemma byte_val_range b : (0 <= byte_val b < 256)%Z.
Proof.
  unfold byte_val. destruct b as [[] [] [] [] [] [] [] []]; cbn; lia.
Qed.

Global Instance byte_val_inj : Inj (=) (=) byte_val.
Proof.
  intros a b H. unfold byte_val in H. apply N2Z.inj in H.
  by rewrite <- (ascii_N_embedding a), H, ascii_N_embedding.
Qed.

#[export] Hint Resolve byte_val_range : sky.
#[export] Hint Rewrite of_as_bytes as_of_bytes as_bytes_app of_bytes_app : sky.
