(* ===== verification/Trace.v ===== *)
(** * What an effectful routine records

    Several components keep, in their state, the list of the calls they made to
    the outside (Engine requests, file accesses). [issues tr m Q] is the logic
    in which their theorems are proved: whatever the state, [m] appends some
    calls to the record [tr], and those calls and its result are in [Q]. *)

From S2P Require Import Prelude.
From stdpp Require Import options.

Definition issues {S C A} (tr : S -> list C) (m : M S A) (Q : list C -> result A -> Prop) : Prop :=
  forall s, exists cs, tr (m s).1 = tr s ++ cs /\ Q cs (m s).2.

Section trace.
Context {S C : Type} {tr : S -> list C}.

Lemma issues_mono {A} (m : M S A) (Q Q' : list C -> result A -> Prop) :
  issues tr m Q -> (forall cs r, Q cs r -> Q' cs r) -> issues tr m Q'.
Proof. intros Hm HQ s. destruct (Hm s) as (cs & Hc & Hq). exists cs. auto. Qed.

Lemma issues_ret {A} (a : A) : issues tr (mret a) (fun cs r => cs = [] /\ r = Ok a).
Proof. intros s. exists []. cbn. by rewrite app_nil_r. Qed.

Lemma issues_lift {A} (x : result A) : issues tr (lift x) (fun cs r => cs = [] /\ r = x).
Proof. intros s. exists []. cbn. by rewrite app_nil_r. Qed.

Lemma issues_bind {A B} (m : M S A) (f : A -> M S B) Q1 Q2 :
  issues tr m Q1 -> (forall a, issues tr (f a) (Q2 a)) ->
  issues tr (m ≫= f) (fun cs r =>
    exists cs1 r1, Q1 cs1 r1 /\
      match r1 with
      | Ok a => exists cs2, cs = cs1 ++ cs2 /\ Q2 a cs2 r
      | Err e => cs = cs1 /\ r = Err e
      end).
Proof.
  intros Hm Hf s. unfold mbind, M_bind. destruct (Hm s) as (cs1 & Hc1 & Hq1).
  destruct (m s) as [s1 [a|e]]; cbn in *; [|naive_solver].
  destruct (Hf a s1) as (cs2 & Hc2 & Hq2). exists (cs1 ++ cs2).
  rewrite Hc2, Hc1, app_assoc. split; [done|]. exists cs1, (Ok a). eauto.
Qed.

Lemma silent_lift {A} (x : result A) : issues tr (lift x) (fun cs _ => cs = []).
Proof. eapply issues_mono; [apply issues_lift|]. naive_solver. Qed.

Lemma silent_bind {A B} (m : M S A) (f : A -> M S B) :
  issues tr m (fun cs _ => cs = []) -> (forall a, issues tr (f a) (fun cs _ => cs = [])) ->
  issues tr (m ≫= f) (fun cs _ => cs = []).
Proof.
  intros Hm Hf. eapply issues_mono; [apply (issues_bind _ _ _ _ Hm Hf)|].
  intros cs r (cs1 & [a|e] & -> & Hr); naive_solver.
Qed.

Lemma issues_try {A} (m : M S A) Q :
  issues tr m Q -> issues tr (mtry m) (fun cs r => exists r1, Q cs r1 /\ r = Ok r1).
Proof.
  intros Hm s. unfold mtry. destruct (Hm s) as (cs & Hc & Hq). exists cs.
  destruct (m s) as [s1 r]; cbn in *. eauto.
Qed.
End trace.

(** ** What a routine leaves alone, and what it returns *)

(** [keeps g m]: running [m] does not change [g] of the state, error or not. *)
Definition keeps {S A B} (g : S -> B) (m : M S A) : Prop := forall s, g (m s).1 = g s.

(** [returns P m]: when [m] succeeds, its value is in [P]. *)
Definition returns {S A} (P : A -> Prop) (m : M S A) : Prop := forall s a, (m s).2 = Ok a -> P a.

Section keeps.
Context {S B : Type} {g : S -> B}.

Lemma keeps_ret {A} (a : A) : keeps g (mret a).
Proof. done. Qed.
Lemma keeps_lift {A} (r : result A) : keeps g (lift r).
Proof. done. Qed.
Lemma keeps_gets {A} (f : S -> A) : keeps g (gets f).
Proof. done. Qed.
Lemma keeps_modify (f : S -> S) : (forall s, g (f s) = g s) -> keeps g (modify f).
Proof. intros Hf s. apply Hf. Qed.
Lemma keeps_bind {A C} (m : M S A) (f : A -> M S C) :
  keeps g m -> (forall a, keeps g (f a)) -> keeps g (m ≫= f).
Proof.
  intros Hm Hf s. unfold mbind, M_bind. specialize (Hm s).
  destruct (m s) as [s1 [a|e]]; cbn in *; [|done]. by rewrite Hf.
Qed.
Lemma keeps_try {A} (m : M S A) : keeps g m -> keeps g (mtry m).
Proof. intros Hm s. unfold mtry. specialize (Hm s). by destruct (m s). Qed.
Lemma keeps_context {A} msg (m : M S A) : keeps g m -> keeps g (mcontext msg m).
Proof. intros Hm s. unfold mcontext. specialize (Hm s). by destruct (m s). Qed.
End keeps.

Lemma returns_bind {S A B} (P : B -> Prop) (m : M S A) (f : A -> M S B) :
  (forall a, returns P (f a)) -> returns P (m ≫= f).
Proof.
  intros Hf s b. unfold mbind, M_bind. destruct (m s) as [s1 [a|e]]; cbn; [|done]. apply Hf.
Qed.
Lemma returns_ret {S A} (P : A -> Prop) (a : A) : P a -> returns P (mret a : M S A).
Proof. intros HP s b. cbn. naive_solver. Qed.
Lemma returns_lift {S A} (P : A -> Prop) (r : result A) :
  match r with Ok a => P a | Err _ => True end -> returns P (lift r : M S A).
Proof. intros HP s b. cbn. by intros ->. Qed.

Lemma issues_context {S C A} {tr : S -> list C} msg (m : M S A) Q :
  issues tr m Q -> issues tr (mcontext msg m) (fun cs r => exists r1, Q cs r1 /\ r = context msg r1).
Proof.
  intros Hm s. unfold mcontext. destruct (Hm s) as (cs & Hc & Hq). exists cs.
  destruct (m s) as [s1 r]; cbn in *. eauto.
Qed.

(** Every call of [m] satisfies [P]. *)
Definition all_calls {S C A} (tr : S -> list C) (P : C -> Prop) (m : M S A) : Prop :=
  issues tr m (fun cs _ => Forall P cs).

Section all_calls.
Context {S C : Type} {tr : S -> list C} {P : C -> Prop}.

Lemma all_silent {A} (m : M S A) : keeps tr m -> all_calls tr P m.
Proof. intros Hk s. exists []. rewrite Hk, app_nil_r. split; [done|constructor]. Qed.
Lemma all_bind {A B} (m : M S A) (f : A -> M S B) :
  all_calls tr P m -> (forall a, all_calls tr P (f a)) -> all_calls tr P (m ≫= f).
Proof.
  intros Hm Hf. eapply issues_mono.
  { apply (issues_bind _ _ _ (fun _ cs _ => Forall P cs) Hm Hf). }
  intros cs r (cs1 & [a|e] & H1 & Hr); [|naive_solver].
  destruct Hr as (cs2 & -> & H2). by apply Forall_app.
Qed.
Lemma all_context {A} msg (m : M S A) : all_calls tr P m -> all_calls tr P (mcontext msg m).
Proof.
  intros Hm. eapply issues_mono; [apply (issues_context _ _ _ Hm)|]. naive_solver.
Qed.
Lemma all_try {A} (m : M S A) : all_calls tr P m -> all_calls tr P (mtry m).
Proof. intros Hm. eapply issues_mono; [apply (issues_try _ _ Hm)|]. naive_solver. Qed.
(** A bind after a pure check: the check's outcome is known afterwards. *)
Lemma all_lift_bind {A B} (r : result A) (f : A -> M S B) :
  (forall a, r = Ok a -> all_calls tr P (f a)) -> all_calls tr P (lift r ≫= f).
Proof.
  intros Hf. destruct r as [a|e]; [by apply Hf|].
  intros s. exists []. cbn. by rewrite app_nil_r.
Qed.
End all_calls.

#[export] Hint Resolve keeps_ret keeps_lift keeps_gets keeps_bind keeps_try keeps_context : sky.

(** ** What a routine adds to a counter *)

(** [grows g k m]: running [m] adds at least [k] to [g] of the state, error or not. *)
Definition grows {S A} (g : S -> nat) (k : nat) (m : M S A) : Prop := forall s, g s + k <= g (m s).1.

Section grows.
Context {S : Type} {g : S -> nat}.

Lemma grows_weaken {A} k (m : M S A) : grows g k m -> grows g 0 m.
Proof. intros Hm s. specialize (Hm s). lia. Qed.
Lemma grows_keeps {A} (m : M S A) : keeps g m -> grows g 0 m.
Proof. intros Hm s. rewrite Hm. lia. Qed.
Lemma grows_bind {A B} k (m : M S A) (f : A -> M S B) :
  grows g k m -> (forall a, grows g 0 (f a)) -> grows g k (m ≫= f).
Proof.
  intros Hm Hf s. unfold mbind, M_bind. specialize (Hm s).
  destruct (m s) as [s1 [a|e]]; cbn in *; [|done]. specialize (Hf a s1). lia.
Qed.
Lemma grows_try {A} k (m : M S A) : grows g k m -> grows g k (mtry m).
Proof. intros Hm s. unfold mtry. specialize (Hm s). by destruct (m s). Qed.
Lemma grows_context {A} k msg (m : M S A) : grows g k m -> grows g k (mcontext msg m).
Proof. intros Hm s. unfold mcontext. specialize (Hm s). by destruct (m s). Qed.
End grows.
