(* ===== verification/RustStr.v ===== *)
(** * The string and number functions of the Rust standard library

    What the daemon uses of [core::str], [core::num] and [u8]: UTF-8
    validation and lossy decoding, trimming, ASCII classes and case folding,
    integer parsing and printing. A [str] is the list of its UTF-8 bytes, so
    the Unicode cases are written on byte sequences. *)

From S2P Require Import Prelude.
From stdpp Require Import options.

(** ** Byte classes *)

Definition in_range (lo hi : Z) (b : byte) : bool :=
  (lo <=? byte_val b)%Z && (byte_val b <=? hi)%Z.

Definition is_ascii_digit : byte -> bool := in_range 48 57.
Definition is_ascii_uppercase : byte -> bool := in_range 65 90.
Definition is_ascii_lowercase : byte -> bool := in_range 97 122.
Definition is_ascii_alphanumeric (b : byte) : bool :=
  is_ascii_digit b || is_ascii_uppercase b || is_ascii_lowercase b.
Definition is_ascii_hexdigit (b : byte) : bool :=
  is_ascii_digit b || in_range 65 70 b || in_range 97 102 b.

(** [u8::is_ascii_whitespace]: space, tab, LF, FF, CR (not vertical tab). *)
Definition is_ascii_whitespace (b : byte) : bool :=
  match b with
  | "032" | "009" | "010" | "012" | "013" => true
  | _ => false
  end%char.

Definition to_ascii_lowercase_byte (b : byte) : byte :=
  if is_ascii_uppercase b then ascii_of_N (N_of_ascii b + 32) else b.

Definition to_ascii_lowercase (s : string) : string :=
  of_bytes (to_ascii_lowercase_byte <$> as_bytes s).

Definition eq_ignore_ascii_case (s t : string) : bool :=
  bool_decide (to_ascii_lowercase s = to_ascii_lowercase t).

Definition contains (s w : string) : bool :=
  match find_sub (as_bytes w) (as_bytes s) with Some _ => true | None => false end.

Definition is_empty (s : string) : bool :=
  match s with EmptyString => true | _ => false end.

(** ** UTF-8 *)

Definition utf8_cont : byte -> bool := in_range 128 191.

(** The second byte of a three- or four-byte sequence depends on the first. *)
Definition utf8_second (b0 b1 : byte) : bool :=
  let v := byte_val b0 in
  if (v =? 224)%Z then in_range 160 191 b1
  else if (v =? 237)%Z then in_range 128 159 b1
  else if (v =? 240)%Z then in_range 144 191 b1
  else if (v =? 244)%Z then in_range 128 143 b1
  else utf8_cont b1.

(** [core::str::Utf8Chunks]: the characters of the input in order, each with
    [true], and the maximal invalid sequences, each with [false]. *)
Fixpoint utf8_chunks (l : list byte) : list (list byte * bool) :=
  match l with
  | [] => []
  | b0 :: l1 =>
      if in_range 0 127 b0 then ([b0], true) :: utf8_chunks l1
      else if in_range 194 223 b0 then
        match l1 with
        | [] => [([b0], false)]
        | b1 :: l2 =>
            if utf8_cont b1 then ([b0; b1], true) :: utf8_chunks l2
            else ([b0], false) :: utf8_chunks l1
        end
      else if in_range 224 239 b0 then
        match l1 with
        | [] => [([b0], false)]
        | b1 :: l2 =>
            if negb (utf8_second b0 b1) then ([b0], false) :: utf8_chunks l1 else
            match l2 with
            | [] => [([b0; b1], false)]
            | b2 :: l3 =>
                if utf8_cont b2 then ([b0; b1; b2], true) :: utf8_chunks l3
                else ([b0; b1], false) :: utf8_chunks l2
            end
        end
      else if in_range 240 244 b0 then
        match l1 with
        | [] => [([b0], false)]
        | b1 :: l2 =>
            if negb (utf8_second b0 b1) then ([b0], false) :: utf8_chunks l1 else
            match l2 with
            | [] => [([b0; b1], false)]
            | b2 :: l3 =>
                if negb (utf8_cont b2) then ([b0; b1], false) :: utf8_chunks l2 else
                match l3 with
                | [] => [([b0; b1; b2], false)]
                | b3 :: l4 =>
                    if utf8_cont b3 then ([b0; b1; b2; b3], true) :: utf8_chunks l4
                    else ([b0; b1; b2], false) :: utf8_chunks l3
                end
            end
        end
      else ([b0], false) :: utf8_chunks l1
  end.

(** U+FFFD. *)
Definition replacement : list byte := ["239"%char; "191"%char; "189"%char].

(** [std::str::from_utf8] succeeds. *)
Definition utf8_valid (l : list byte) : bool := forallb snd (utf8_chunks l).

(** [String::from_utf8_lossy]: U+FFFD for each invalid sequence. *)
Definition chunk_text (c : list byte * bool) : list byte :=
  if snd c then fst c else replacement.
Definition from_utf8_lossy (l : list byte) : string :=
  of_bytes (concat (map chunk_text (utf8_chunks l))).

(** ** Trimming *)

(** The length in bytes of the White_Space character a string starts with, 0
    when it does not start with one. *)
Definition ws_prefix (l : list byte) : nat :=
  match l with
  | ("009" | "010" | "011" | "012" | "013" | " ") :: _ => 1
  | "194" :: ("133" | "160") :: _ => 2
  | "225" :: "154" :: "128" :: _ => 3
  | "226" :: "128" :: b :: _ =>
      if in_range 128 138 b || in_range 168 169 b || in_range 175 175 b then 3 else 0
  | "226" :: "129" :: "159" :: _ => 3
  | "227" :: "128" :: "128" :: _ => 3
  | _ => 0
  end%char.

(** The same for the end of a string, given reversed. *)
Definition ws_suffix_rev (r : list byte) : nat :=
  match r with
  | ("009" | "010" | "011" | "012" | "013" | " ") :: _ => 1
  | ("133" | "160") :: "194" :: _ => 2
  | "128" :: "154" :: "225" :: _ => 3
  | "159" :: "129" :: "226" :: _ => 3
  | "128" :: "128" :: "227" :: _ => 3
  | b :: "128" :: "226" :: _ =>
      if in_range 128 138 b || in_range 168 169 b || in_range 175 175 b then 3 else 0
  | _ => 0
  end%char.

Fixpoint strip_ws (ws : list byte -> nat) (fuel : nat) (l : list byte) : list byte :=
  match fuel with
  | 0 => l
  | S fuel' => match ws l with 0 => l | n => strip_ws ws fuel' (drop n l) end
  end.

Definition trim_bytes (l : list byte) : list byte :=
  let l' := strip_ws ws_prefix (length l) l in
  reverse (strip_ws ws_suffix_rev (length l') (reverse l')).

Definition trim (s : string) : string := of_bytes (trim_bytes (as_bytes s)).

(** ** Numbers *)

Definition digit_val (radix : Z) (b : byte) : option Z :=
  let v := byte_val b in
  let d := if is_ascii_digit b then Some (v - 48)%Z
           else if is_ascii_lowercase b then Some (v - 87)%Z
           else if is_ascii_uppercase b then Some (v - 55)%Z
           else None in
  match d with
  | Some d => if (d <? radix)%Z then Some d else None
  | None => None
  end.

Fixpoint digits_val (radix acc : Z) (l : list byte) : option Z :=
  match l with
  | [] => Some acc
  | b :: l' => match digit_val radix b with
               | Some d => digits_val radix (acc * radix + d) l'
               | None => None
               end
  end.

(** [uN::from_str_radix]: one leading ['+'] is allowed, at least one digit is
    required, and a value above the type's maximum is an error. *)
Definition from_str_radix (radix max : Z) (l : list byte) : option Z :=
  let digits := match l with "+"%char :: l' => l' | _ => l end in
  match digits with
  | [] => None
  | _ => match digits_val radix 0 digits with
         | Some v => if (v <=? max)%Z then Some v else None
         | None => None
         end
  end.

Definition parse_u16 (s : string) : option Z := from_str_radix 10 u16_max (as_bytes s).
Definition parse_u64 (s : string) : option Z := from_str_radix 10 u64_max (as_bytes s).

(** [split(',')] on a [str]. *)
Definition split_char (c : byte) (s : string) : list string :=
  of_bytes <$> split_on (fun b => bool_decide (b = c)) (as_bytes s).

(** ** Lemmas *)

(** ** Lemmas *)

Lemma utf8_chunks_concat l : concat (map fst (utf8_chunks l)) = l.
Proof.
  induction l as [l IH] using list_length_ind.
  destruct l as [|b0 l1]; [done|]. simpl.
  repeat case_match; subst; cbn [map fst concat app]; rewrite ?IH by (simpl; lia); done.
Qed.

Lemma from_utf8_lossy_valid_id l : utf8_valid l = true -> from_utf8_lossy l = of_bytes l.
Proof.
  unfold utf8_valid, from_utf8_lossy. intros Hv. f_equal.
  rewrite <- (utf8_chunks_concat l) at 2.
  induction (utf8_chunks l) as [|[c ok] cs IH]; simpl in *; [done|].
  apply andb_true_iff in Hv as [-> Hv]. by rewrite IH.
Qed.

(** A valid character stays the first one whatever follows it. *)
Definition self_delimiting (c : list byte) : Prop :=
  forall k, utf8_chunks (c ++ k) = (c, true) :: utf8_chunks k.

Lemma replacement_delimiting : self_delimiting replacement.
Proof. intros k. reflexivity. Qed.

Lemma utf8_chunks_delimiting l :
  Forall (fun c => snd c = true -> self_delimiting (fst c)) (utf8_chunks l).
Proof.
  induction l as [l IH] using list_length_ind.
  destruct l as [|b0 l1]; [constructor|]. simpl.
  repeat case_match; repeat (apply List.Forall_nil || apply List.Forall_cons);
    try done; try (apply IH; subst; simpl; lia);
    intros _ k; simpl;
    repeat match goal with H : _ = true |- _ => rewrite H | H : _ = false |- _ => rewrite H end;
    done.
Qed.

(** What [from_utf8_lossy] returns is always valid UTF-8. *)
Lemma from_utf8_lossy_valid l : utf8_valid (as_bytes (from_utf8_lossy l)) = true.
Proof.
  unfold from_utf8_lossy, utf8_valid. rewrite as_of_bytes.
  pose proof (utf8_chunks_delimiting l) as HF.
  induction HF as [|[c ok] cs Hc HF IH]; simpl; [done|].
  destruct ok; unfold chunk_text; simpl.
  - rewrite Hc by done. done.
  - done.
Qed.

(** A printed integer is digits and possibly a minus sign. *)
Lemma pretty_Z_chars (P : byte -> Prop) (z : Z) :
  (forall b, is_ascii_digit b = true -> P b) -> P "-"%char -> Forall P (as_bytes (pretty z)).
Proof.
  intros Hd Hm.
  assert (Hgo : forall n s, Forall P (as_bytes s) -> Forall P (as_bytes (pretty_N_go n s))).
  { intros n. induction (N.lt_wf_0 n) as [n _ IH]; intros s Hs.
    assert (n = 0 \/ 0 < n)%N as [->|Hn] by lia; [by rewrite pretty_N_go_0|].
    rewrite pretty_N_go_step by done. apply IH; [by apply N.div_lt|].
    constructor; [|done]. apply Hd. unfold pretty_N_char. by repeat case_match. }
  assert (HN : forall n : N, Forall P (as_bytes (pretty n))).
  { intros n. unfold pretty, pretty_N. case_decide; [repeat constructor; by apply Hd|].
    apply Hgo. constructor. }
  unfold pretty, pretty_Z. destruct z; [repeat constructor; by apply Hd|apply HN|].
  rewrite as_bytes_app. apply Forall_app; split; [by repeat constructor|apply HN].
Qed.
