(* ===== verification/Paths.v ===== *)
(** * Paths, and the three guards that keep a path inside a directory

    [std::path] on a unix target ([Path::components], [Path::join],
    [Path::parent]), and the daemon's guards built on it:
    [Dispatcher::resolve_path] and [Dispatcher::backup_path]
    (daemon/src/agent/dispatcher.rs) and [is_safe_relative_path]
    (skyperf-core/src/backup.rs). *)

From S2P Require Import Prelude RustStr.
From stdpp Require Import options.

(** ** [std::path] *)

(** [std::path::Component]; the [Prefix] case exists only on Windows. *)
Inductive component :=
| RootDir
| CurDir
| ParentDir
| Normal (name : list byte).

Global Instance component_eq_dec : EqDecision component.
Proof. solve_decision. Defined.

Definition sep : byte := "/"%char.
Definition is_sep (b : byte) : bool := bool_decide (b = sep).
Definition pieces (l : list byte) : list (list byte) := split_on is_sep l.

Definition has_root (l : list byte) : bool :=
  match l with b :: _ => is_sep b | [] => false end.

(** Empty and ["."] pieces are skipped inside a path. *)
Definition parse_piece (p : list byte) : option component :=
  match p with
  | [] => None
  | ["."%char] => None
  | ["."%char; "."%char] => Some ParentDir
  | _ => Some (Normal p)
  end.

(** A leading ["."] is a component of its own. *)
Definition leading (l : list byte) : list component :=
  if has_root l then [RootDir]
  else match pieces l with ["."%char] :: _ => [CurDir] | _ => [] end.

Definition body (l : list byte) : list component := omap parse_piece (pieces l).

(** [Path::components]. *)
Definition components (l : list byte) : list component := leading l ++ body l.

Definition ends_with_sep (l : list byte) : bool :=
  match last l with Some b => is_sep b | None => false end.

(** [Path::join]: an absolute argument replaces the whole path. *)
Definition join (a b : list byte) : list byte :=
  if has_root b then b
  else if bool_decide (a = []) || ends_with_sep a then a ++ b
  else a ++ [sep] ++ b.

Definition trivial_piece (p : list byte) : bool :=
  match parse_piece p with None => true | Some _ => false end.
Definition rstrip (ps : list (list byte)) : list (list byte) :=
  reverse (drop_while trivial_piece (reverse ps)).
Definition join_pieces (ps : list (list byte)) : list byte :=
  match ps with
  | [] => []
  | p :: ps' => foldl (fun acc q => acc ++ [sep] ++ q) p ps'
  end.
Definition init {A} (l : list A) : list A := take (pred (length l)) l.

(** [Path::parent]: without the last component and what then trails. *)
Definition parent (l : list byte) : option (list byte) :=
  match pieces l with
  | [] => None
  | p :: ps =>
      if has_root l then
        match rstrip ps with
        | [] => None
        | qs => Some (sep :: join_pieces (rstrip (init qs)))
        end
      else if bool_decide (p = ["."%char]) then
        match rstrip ps with
        | [] => Some []
        | qs => Some (join_pieces (p :: rstrip (init qs)))
        end
      else
        match rstrip (p :: ps) with
        | [] => None
        | qs => Some (join_pieces (rstrip (init qs)))
        end
  end.

(** ** The guards *)

(** The match arm shared by the guards: [Normal] and [CurDir] pass. *)
Definition plain_component (c : component) : bool :=
  match c with Normal _ | CurDir => true | ParentDir | RootDir => false end.

(** [Dispatcher::resolve_path]. *)
Definition resolve_path (volumes_root server_id rel : string) : result (list byte) :=
  if forallb plain_component (components (as_bytes rel)) then
    Ok (join (join (as_bytes volumes_root) (as_bytes server_id)) (as_bytes rel))
  else Err ("path escapes the server volume: " +:+ rel).

(** [Dispatcher::backups_dir]. *)
Definition backups_dir (backups_root server_id : string) : list byte :=
  join (as_bytes backups_root) (as_bytes server_id).

(** [Dispatcher::backup_path]: exactly one component, and it is [Normal]. *)
Definition backup_path (backups_root server_id name : string) : result (list byte) :=
  match components (as_bytes name) with
  | [Normal _] => Ok (join (backups_dir backups_root server_id) (as_bytes name))
  | _ => Err ("invalid backup name: " +:+ name)
  end.

(** [is_safe_relative_path]. *)
Definition is_safe_relative_path (path : list byte) : bool :=
  negb (bool_decide (path = [])) && forallb plain_component (components path).

(** A path that stays lexically below [root]: its components are those of
    [root] followed by plain names. *)
Definition below (root path : list byte) : Prop :=
  exists names, components path = components root ++ (Normal <$> names).

(** ** Lemmas *)

Lemma pieces_app_sep l k : pieces (l ++ sep :: k) = pieces l ++ pieces k.
Proof. apply split_on_app. by apply bool_decide_eq_true. Qed.

Lemma body_app_sep l k : body (l ++ sep :: k) = body l ++ body k.
Proof. unfold body. by rewrite pieces_app_sep, omap_app. Qed.

Lemma body_trailing_sep l : body (l ++ [sep]) = body l.
Proof. rewrite body_app_sep. by rewrite app_nil_r. Qed.

Lemma leading_app l k :
  l <> [] -> has_root l = false -> leading (l ++ sep :: k) = leading l.
Proof.
  intros Hne Hr. unfold leading. destruct l as [|b l]; [done|].
  change ((b :: l) ++ sep :: k) with (b :: (l ++ sep :: k)) in *.
  simpl has_root in *. rewrite Hr.
  rewrite app_comm_cons, pieces_app_sep.
  destruct (pieces (b :: l)) eqn:E; [by apply split_on_ne in E|done].
Qed.

Lemma has_root_app l k : l <> [] -> has_root (l ++ k) = has_root l.
Proof. by destruct l. Qed.

Lemma components_app_sep l k :
  l <> [] -> components (l ++ sep :: k) = components l ++ body k.
Proof.
  intros Hne. unfold components. rewrite body_app_sep, app_assoc. f_equal. f_equal.
  destruct (has_root l) eqn:Hr; [|by apply leading_app].
  unfold leading. by rewrite has_root_app, Hr.
Qed.

Lemma ends_with_sep_inv l : ends_with_sep l = true -> exists l', l = l' ++ [sep].
Proof.
  unfold ends_with_sep. destruct l as [|b l _] using rev_ind; [done|].
  rewrite last_snoc. unfold is_sep. case_bool_decide; [|done]. subst. eauto.
Qed.

(** [join] with a relative path appends that path's components. *)
Lemma components_join a b :
  a <> [] -> has_root b = false -> components (join a b) = components a ++ body b.
Proof.
  intros Ha Hb. unfold join. rewrite Hb, bool_decide_false by done. simpl.
  destruct (ends_with_sep a) eqn:He; [|by apply components_app_sep].
  apply ends_with_sep_inv in He as [a' ->].
  rewrite <- app_assoc. simpl.
  destruct (decide (a' = [])) as [->|Ha'].
  - simpl. unfold components, leading. simpl has_root.
    change (is_sep sep) with true. cbn iota.
    change (sep :: b) with ([] ++ sep :: b). rewrite body_app_sep. done.
  - rewrite !components_app_sep by done. by rewrite app_nil_r.
Qed.

Lemma join_ne a b : a <> [] -> join a b <> [].
Proof.
  intros Ha. unfold join. destruct (has_root b) eqn:Hb; [by destruct b|].
  destruct a; [done|]. by case_match.
Qed.

Lemma plain_no_root l : forallb plain_component (components l) = true -> has_root l = false.
Proof. unfold components, leading. by destruct (has_root l). Qed.

Lemma body_plain l :
  forallb plain_component (components l) = true ->
  exists names, body l = Normal <$> names.
Proof.
  unfold components. rewrite forallb_app. intros [_ Hb]%andb_true_iff. revert Hb.
  unfold body. induction (pieces l) as [|p ps IH]; [by exists []|]. csimpl.
  destruct (parse_piece p) as [c|] eqn:Hp; simpl; [|done].
  intros [Hc Hb]%andb_true_iff. destruct (IH Hb) as [names Hn]. rewrite Hn.
  destruct c as [| | |n]; try done.
  - exfalso. unfold parse_piece in Hp. by repeat case_match; simplify_eq.
  - by exists (n :: names).
Qed.

Lemma join_below a b :
  a <> [] -> forallb plain_component (components b) = true -> below a (join a b).
Proof.
  intros Ha Hb. destruct (body_plain b Hb) as [names Hn]. exists names.
  by rewrite components_join, Hn by eauto using plain_no_root.
Qed.

Lemma below_trans a b c : below a b -> below b c -> below a c.
Proof.
  intros [n1 H1] [n2 H2]. exists (n1 ++ n2).
  by rewrite H2, H1, fmap_app, <- app_assoc.
Qed.

Lemma as_bytes_ne s : s <> "" -> as_bytes s <> [].
Proof. by destruct s. Qed.

#[export] Hint Resolve join_below join_ne plain_no_root below_trans as_bytes_ne : sky.

(** ** Properties *)

(** A path that [resolve_path] accepts lies lexically below the server's
    volume directory, and below the volumes root as well when the server id is
    a single plain name: no [..] or absolute path gets through. *)
Theorem resolve_path_contained volumes_root server_id rel p :
  volumes_root <> "" ->
  resolve_path volumes_root server_id rel = Ok p ->
  below (join (as_bytes volumes_root) (as_bytes server_id)) p /\
  (forall n, components (as_bytes server_id) = [Normal n] ->
             below (as_bytes volumes_root) p).
Proof.
  intros Hv H. unfold resolve_path in H. case_match eqn:Hr; simplify_eq.
  assert (Hp : below (join (as_bytes volumes_root) (as_bytes server_id))
    (join (join (as_bytes volumes_root) (as_bytes server_id)) (as_bytes rel)))
    by auto with sky.
  split; [done|]. intros n Hn. eapply below_trans; [|done].
  apply join_below; [by auto with sky|by rewrite Hn].
Qed.

Lemma resolve_path_contained_witness :
  resolve_path "/srv/volumes" "b24a" "./world/level.dat"
    = Ok (as_bytes "/srv/volumes/b24a/./world/level.dat") /\
  below (as_bytes "/srv/volumes") (as_bytes "/srv/volumes/b24a/./world/level.dat").
Proof.
  split; [reflexivity|].
  apply (resolve_path_contained "/srv/volumes" "b24a" "./world/level.dat"
           (as_bytes "/srv/volumes/b24a/./world/level.dat")) with (n := as_bytes "b24a");
    [discriminate|reflexivity|reflexivity].
Defined.

(** [resolve_path] refuses a path exactly when one of its components is the
    root or [..]; the verdict depends on the relative path alone. *)
Theorem resolve_path_rejects volumes_root server_id rel :
  (exists msg, resolve_path volumes_root server_id rel = Err msg) <->
  RootDir ∈ components (as_bytes rel) \/ ParentDir ∈ components (as_bytes rel).
Proof.
  unfold resolve_path. split.
  - intros [msg H]. case_match eqn:Hr; simplify_eq.
    apply not_true_iff_false in Hr. rewrite forallb_forall in Hr.
    destruct (decide (RootDir ∈ components (as_bytes rel))); [by left|].
    destruct (decide (ParentDir ∈ components (as_bytes rel))); [by right|].
    destruct Hr. intros c Hc%list_elem_of_In. by destruct c.
  - intros H. destruct (forallb _ _) eqn:Hr; [|eauto].
    rewrite forallb_forall in Hr.
    destruct H as [H|H]; apply list_elem_of_In, Hr in H; done.
Qed.

(** A backup name is accepted only when it is one plain file name, and the
    archive path is then the server's backup directory followed by that name. *)
Theorem backup_path_contained backups_root server_id name p :
  backups_root <> "" ->
  backup_path backups_root server_id name = Ok p ->
  exists n, components (as_bytes name) = [Normal n] /\ (sep ∉ n) /\
    components p = components (backups_dir backups_root server_id) ++ [Normal n].
Proof.
  intros Hb H. unfold backup_path in H. repeat case_match; simplify_eq.
  match goal with E : components _ = [Normal ?n] |- _ => rename E into Hn; exists n end.
  assert (Hplain : forallb plain_component (components (as_bytes name)) = true)
    by by rewrite Hn.
  assert (Hbody : body (as_bytes name) = [Normal name0]).
  { destruct (body_plain _ Hplain) as [ns Hns].
    unfold components in Hn. rewrite Hns in Hn |- *.
    apply app_eq_unit in Hn as [[_ ->]|[Hl _]]; [done|].
    unfold leading in Hl. by repeat case_match. }
  split_and!; [done| |].
  - assert (Normal name0 ∈ body (as_bytes name)) as [q [Hq Hpq]]%list_elem_of_omap
      by (rewrite Hbody; set_solver).
    assert (q = name0) as <- by (unfold parse_piece in Hpq; by repeat case_match; simplify_eq).
    pose proof (split_on_pieces is_sep (as_bytes name)) as HF.
    rewrite Forall_forall in HF. intros Hin.
    apply HF, (Forall_forall _ q) with (x := sep) in Hq; [|done].
    by unfold is_sep in Hq; rewrite bool_decide_true in Hq.
  - rewrite components_join, Hbody; [done|by apply join_ne, as_bytes_ne|by apply plain_no_root].
Qed.

Lemma backup_path_contained_witness :
  backup_path "/srv/backups" "s1" "backup-1700000000.tar.zst"
    = Ok (as_bytes "/srv/backups/s1/backup-1700000000.tar.zst") /\
  exists n, components (as_bytes "backup-1700000000.tar.zst") = [Normal n] /\ (sep ∉ n) /\
    components (as_bytes "/srv/backups/s1/backup-1700000000.tar.zst")
      = components (backups_dir "/srv/backups" "s1") ++ [Normal n].
Proof.
  split; [reflexivity|].
  apply (backup_path_contained "/srv/backups" "s1" "backup-1700000000.tar.zst");
    [discriminate|reflexivity].
Defined.

(** The guard looks at the relative path only. An absolute server id
    replaces the volumes root, so the accepted path does not depend on that
    root at all. *)
Theorem resolve_path_absolute_server_id volumes_root server_id rel :
  has_root (as_bytes server_id) = true ->
  forallb plain_component (components (as_bytes rel)) = true ->
  resolve_path volumes_root server_id rel
    = Ok (join (as_bytes server_id) (as_bytes rel)).
Proof.
  intros Hs Hr. unfold resolve_path. rewrite Hr. unfold join at 2. by rewrite Hs.
Qed.

Lemma resolve_path_absolute_server_id_witness :
  resolve_path "/srv/volumes" "/etc" "passwd" = Ok (as_bytes "/etc/passwd").
Proof.
  exact (resolve_path_absolute_server_id "/srv/volumes" "/etc" "passwd" eq_refl eq_refl).
Defined.
