(* ===== verification/Json.v ===== *)
(** * JSON values and the serde attributes the payload types use

    [serde_json] itself is not part of the repository: turning a JSON tree into
    text and back is the interface [SerdeJson], with the laws the daemon relies
    on. What the payload structs declare through serde attributes (field names,
    [default], [skip_serializing_if], [deserialize_with]) is the mapping between
    Rust values and JSON trees, and is built from the combinators below. *)

From S2P Require Import Prelude RustStr.
From Stdlib Require Import SpecFloat Sorting.Sorted.
From stdpp Require Import options.

(** A JSON text as serde reads it: objects keep the order and the duplicates
    of their members; a number is an integer token that fits [i64] or [u64], or
    any other token, read as a finite binary64. *)
Inductive json :=
| JNull
| JBool (b : bool)
| JInt (z : Z)
| JFloat (f : spec_float)
| JStr (s : string)
| JArr (l : list json)
| JObj (kvs : list (string * json)).

(** ** Decoding *)

Definition dec (A : Type) : Type := json -> option A.

Definition dec_string : dec string := fun j =>
  match j with JStr s => Some s | _ => None end.
Definition dec_bool : dec bool := fun j =>
  match j with JBool b => Some b | _ => None end.
Definition dec_int (lo hi : Z) : dec Z := fun j =>
  match j with
  | JInt z => if (lo <=? z)%Z && (z <=? hi)%Z then Some z else None
  | _ => None
  end.
Definition dec_i64 : dec Z := dec_int i64_min i64_max.
Definition dec_u64 : dec Z := dec_int 0 u64_max.
Definition dec_u16 : dec Z := dec_int 0 u16_max.
Definition dec_vec {A} (d : dec A) : dec (list A) := fun j =>
  match j with JArr l => mapM d l | _ => None end.
Definition dec_option {A} (d : dec A) : dec (option A) := fun j =>
  match j with JNull => Some None | _ => Some <$> d j end.

(** [HashMap<String, V>]: a repeated key keeps its last value. *)
Definition dec_map {A} (d : dec A) : dec (gmap string A) := fun j =>
  match j with
  | JObj kvs =>
      (fun l => list_to_map (reverse l)) <$>
      mapM (fun kv : string * json => pair kv.1 <$> d kv.2) kvs
  | _ => None
  end.

(** A field-less enum: the variant's name, or an object that maps it to null. *)
Definition dec_variant {A} (variant : string -> option A) : dec A := fun j =>
  match j with
  | JStr s => variant s
  | JObj [(s, JNull)] => variant s
  | _ => None
  end.

Definition member (k : string) (kvs : list (string * json)) : option json :=
  snd <$> head (filter (fun kv => kv.1 = k) kvs).

(** The values of a derived struct's fields. An object is read by name: unknown
    members are ignored, a repeated known one is an error. An array is read in
    declaration order and may not be longer than the struct. *)
Definition field_values (names : list string) (j : json) : option (list (option json)) :=
  match j with
  | JObj kvs =>
      if forallb (fun n => length (filter (fun kv => kv.1 = n) kvs) <=? 1) names
      then Some (map (fun n => member n kvs) names) else None
  | JArr l =>
      if length l <=? length names
      then Some (map Some l ++ replicate (length names - length l) None) else None
  | _ => None
  end.

(** A field without attributes, and one with [#[serde(default)]]. *)
Definition required {A} (d : dec A) (v : option json) : option A := v ≫= d.
Definition or_default {A} (a : A) (d : dec A) (v : option json) : option A :=
  match v with None => Some a | Some j => d j end.

(** ** Encoding *)

(** [skip_serializing_if = "Option::is_none"]. *)
Definition skip_none {A} (name : string) (e : A -> json) (o : option A) : list (string * json) :=
  match o with Some a => [(name, e a)] | None => [] end.
Definition enc_vec {A} (e : A -> json) (l : list A) : json := JArr (map e l).
Definition enc_map {A} (e : A -> json) (m : gmap string A) : json :=
  JObj (map (fun kv : string * A => (kv.1, e kv.2)) (map_to_list m)).

(** A non-finite float serialises as null. *)
Definition enc_f64 (f : spec_float) : json :=
  match f with
  | S754_nan | S754_infinity _ => JNull
  | _ => JFloat f
  end.

(** ** [serde_json::Value] *)

(** A [Value] keeps its objects in a [BTreeMap]: the members sorted by key, the
    last of several equal keys kept. *)
Fixpoint insert_member (k : string) (v : json) (kvs : list (string * json)) :
    list (string * json) :=
  match kvs with
  | [] => [(k, v)]
  | kv :: kvs' =>
      match String.compare k kv.1 with
      | Lt => (k, v) :: kv :: kvs'
      | Eq => (k, v) :: kvs'
      | Gt => kv :: insert_member k v kvs'
      end
  end.
Definition btree (kvs : list (string * json)) : list (string * json) :=
  foldl (fun m kv => insert_member kv.1 kv.2 m) [] kvs.

(** [serde_json::to_value] on what a payload serialises to; deserialising a
    [Value] from a text builds the same tree. *)
Fixpoint to_value (j : json) : json :=
  match j with
  | JArr l => JArr (map to_value l)
  | JObj kvs => JObj (btree (map (fun kv : string * json => (kv.1, to_value kv.2)) kvs))
  | _ => j
  end.
Definition dec_value : dec json := fun j => Some (to_value j).

(** ** The text format *)

(** Trees whose text parses back to the same tree: integers that fit [i64] or
    [u64], UTF-8 strings, no floats, and no nesting beyond the parser's limit. *)
Fixpoint json_plain (fuel : nat) (j : json) : bool :=
  match fuel with
  | 0 => false
  | S fuel' =>
      match j with
      | JNull | JBool _ => true
      | JInt z => (i64_min <=? z)%Z && (z <=? u64_max)%Z
      | JFloat _ => false
      | JStr s => utf8_valid (as_bytes s)
      | JArr l => forallb (json_plain fuel') l
      | JObj kvs => forallb (fun kv : string * json =>
                               utf8_valid (as_bytes kv.1) && json_plain fuel' kv.2) kvs
      end
  end.
Definition recursion_limit : nat := 128.

(** [serde_json::to_string]/[to_vec], [from_str]/[from_slice] up to the tree,
    and [RawValue::from_string]. *)
Class SerdeJson := {
  to_text : json -> result string;
  from_text : string -> option json;
  raw_value : string -> result string;
}.

Class SerdeJsonLaws `{SerdeJson} := {
  text_roundtrip j :
    json_plain recursion_limit j = true ->
    exists t, to_text j = Ok t /\ from_text t = Some j;
  raw_value_text j t : to_text j = Ok t -> raw_value t = Ok t;
}.

(** ** Lemmas *)

Lemma mapM_map_dec {A} (e : A -> json) (d : dec A) (l : list A) :
  (forall a, a ∈ l -> d (e a) = Some a) -> mapM d (map e l) = Some l.
Proof.
  intros H. induction l as [|a l IH]; [done|].
  rewrite map_cons. simpl. rewrite H by set_solver. simpl.
  rewrite IH by (intros; apply H; set_solver). done.
Qed.

Lemma dec_vec_enc {A} (e : A -> json) (d : dec A) (l : list A) :
  (forall a, a ∈ l -> d (e a) = Some a) -> dec_vec d (enc_vec e l) = Some l.
Proof. apply mapM_map_dec. Qed.

Lemma dec_map_enc {A} (e : A -> json) (d : dec A) (m : gmap string A) :
  (forall a, d (e a) = Some a) -> dec_map d (enc_map e m) = Some m.
Proof.
  intros H. unfold dec_map, enc_map.
  assert (Hm : mapM (fun kv : string * json => pair kv.1 <$> d kv.2)
    (map (fun kv : string * A => (kv.1, e kv.2)) (map_to_list m)) = Some (map_to_list m)).
  { induction (map_to_list m) as [|[k a] l IH]; [done|].
    rewrite map_cons. simpl. rewrite H. simpl. by rewrite IH. }
  rewrite Hm. simpl. f_equal.
  rewrite (list_to_map_proper _ (map_to_list m)).
  - apply list_to_map_to_list.
  - rewrite reverse_Permutation. apply NoDup_fst_map_to_list.
  - apply reverse_Permutation.
Qed.

Lemma dec_int_range lo hi z : (lo <= z <= hi)%Z -> dec_int lo hi (JInt z) = Some z.
Proof. intros []. simpl. by rewrite !(proj2 (Z.leb_le _ _)). Qed.

Lemma dec_vec_strings l : dec_vec dec_string (enc_vec JStr l) = Some l.
Proof. by apply dec_vec_enc. Qed.
Lemma dec_map_strings m : dec_map dec_string (enc_map JStr m) = Some m.
Proof. by apply dec_map_enc. Qed.

#[export] Hint Rewrite dec_vec_strings dec_map_strings : sky.

(** The members of an object some of which are left out. *)
Definition present (opts : list (string * option json)) : list (string * json) :=
  concat (map (fun ko : string * option json => skip_none ko.1 (fun j => j) ko.2) opts).

Lemma filter_present n (opts : list (string * option json)) :
  (n ∉ map fst opts) -> filter (fun kv : string * json => kv.1 = n) (present opts) = [].
Proof.
  induction opts as [|[k o] opts IH]; intros Hn; [done|].
  rewrite map_cons in Hn. apply not_elem_of_cons in Hn as [Hk Hn].
  change (present ((k, o) :: opts)) with (skip_none k (fun j => j) o ++ present opts).
  rewrite filter_app, IH by done.
  destruct o; cbn [skip_none]; [|done].
  rewrite filter_cons_False; [done|]. cbn in Hk |- *. congruence.
Qed.

Lemma filter_present_in n o (opts : list (string * option json)) :
  NoDup (map fst opts) -> (n, o) ∈ opts ->
  filter (fun kv : string * json => kv.1 = n) (present opts)
    = skip_none n (fun j => j) o.
Proof.
  induction opts as [|[k o'] opts IH]; intros Hnd Hin; [set_solver|].
  rewrite map_cons, NoDup_cons in Hnd. destruct Hnd as [Hk Hnd].
  change (present ((k, o') :: opts)) with (skip_none k (fun j => j) o' ++ present opts).
  rewrite filter_app. apply elem_of_cons in Hin as [[= <- <-]|Hin].
  - rewrite filter_present by done. rewrite app_nil_r.
    destruct o; cbn [skip_none]; [|done]. by rewrite filter_cons_True.
  - rewrite IH by done. destruct o'; cbn [skip_none]; [|done].
    rewrite filter_cons_False; [done|]. cbn. intros Heq. apply Hk. cbn. rewrite Heq.
    change n with (fst (n, o)). by apply list_elem_of_fmap_2.
Qed.

Lemma field_values_present (opts : list (string * option json)) :
  NoDup (map fst opts) ->
  field_values (map fst opts) (JObj (present opts)) = Some (map snd opts).
Proof.
  intros Hnd. simpl.
  assert (Hf : forall n o, (n, o) ∈ opts ->
    filter (fun kv : string * json => kv.1 = n) (present opts)
      = skip_none n (fun j => j) o) by eauto using filter_present_in.
  replace (forallb _ _) with true.
  - f_equal. rewrite map_map. apply map_ext_in. intros [n o] Hin%list_elem_of_In.
    unfold member. simpl. rewrite (Hf n o) by done. by destruct o.
  - symmetry. apply forallb_forall. intros n ([n' o] & <- & Hin)%in_map_iff.
    apply list_elem_of_In in Hin. simpl. rewrite (Hf n' o) by done. by destruct o.
Qed.

(** Adding one member that was missing changes that field's value only. *)
Lemma field_values_cons names n v kvs vs :
  field_values names (JObj kvs) = Some vs -> member n kvs = None ->
  field_values names (JObj ((n, v) :: kvs))
    = Some (map (fun m => if decide (m = n) then Some v else member m kvs) names).
Proof.
  intros H Hn. simpl in *.
  assert (Hno : filter (fun kv : string * json => kv.1 = n) kvs = []).
  { unfold member in Hn. by destruct (filter _ kvs). }
  destruct (forallb _ _) eqn:Hall in H; [|done].
  rewrite forallb_forall in Hall.
  replace (forallb _ _) with true.
  - f_equal. apply map_ext. intros m. unfold member.
    destruct (decide (m = n)) as [->|Hm].
    + by rewrite filter_cons_True.
    + by rewrite filter_cons_False by (simpl; congruence).
  - symmetry. apply forallb_forall. intros m Hm.
    destruct (decide (m = n)) as [->|Hmn].
    + rewrite filter_cons_True by done. by rewrite Hno.
    + rewrite filter_cons_False by (simpl; congruence). by apply Hall.
Qed.

(** ** Values are normal forms *)

(** The induction principle that reaches the members of arrays and objects. *)
Lemma json_ind' (P : json -> Prop)
    (Hnull : P JNull) (Hbool : forall b, P (JBool b)) (Hint : forall z, P (JInt z))
    (Hfloat : forall f, P (JFloat f)) (Hstr : forall s, P (JStr s))
    (Harr : forall l, Forall P l -> P (JArr l))
    (Hobj : forall kvs, Forall (fun kv : string * json => P kv.2) kvs -> P (JObj kvs)) :
  forall j, P j.
Proof.
  fix IH 1. intros [|b|z|f|s|l|kvs];
    [exact Hnull|apply Hbool|apply Hint|apply Hfloat|apply Hstr| |].
  - apply Harr. induction l as [|j l IHl]; constructor; [apply IH|exact IHl].
  - apply Hobj. induction kvs as [|[k v] kvs IHk]; constructor; [apply IH|exact IHk].
Qed.

Definition key_lt (a b : string * json) : Prop := String.compare a.1 b.1 = Lt.

Lemma compare_trans_lt a b c :
  String.compare a b = Lt -> String.compare b c = Lt -> String.compare a c = Lt.
Proof.
  revert b c. induction a as [|x a IH]; intros [|y b] [|z c] Hab Hbc; simpl in *; try done.
  unfold Ascii.compare in *.
  destruct (N.compare_spec (N_of_ascii x) (N_of_ascii y)) as [Hxy|Hxy|Hxy]; try done;
    destruct (N.compare_spec (N_of_ascii y) (N_of_ascii z)) as [Hyz|Hyz|Hyz]; try done;
    destruct (N.compare_spec (N_of_ascii x) (N_of_ascii z)) as [Hxz|Hxz|Hxz];
    try done; try lia; by eapply IH.
Qed.

Lemma insert_member_Forall (P : string * json -> Prop) k v kvs :
  P (k, v) -> Forall P kvs -> Forall P (insert_member k v kvs).
Proof. intros Hk. induction 1; simpl; [by repeat constructor|]. case_match; by repeat constructor. Qed.

Lemma insert_member_sorted k v kvs :
  StronglySorted key_lt kvs -> StronglySorted key_lt (insert_member k v kvs).
Proof.
  intros Hs. induction Hs as [|[k' v'] kvs Hs IH Hall]; simpl.
  { by repeat constructor. }
  destruct (String.compare k k') eqn:E.
  - apply String.compare_eq_iff in E as ->. by constructor.
  - constructor; [by constructor|]. constructor; [done|].
    eapply Forall_impl; [exact Hall|]. intros kv Hkv. by eapply compare_trans_lt.
  - constructor; [done|].
    assert (key_lt (k', v') (k, v)) as Hk.
    { unfold key_lt. cbn. by rewrite String.compare_antisym, E. }
    by apply insert_member_Forall.
Qed.

Lemma btree_sorted kvs : StronglySorted key_lt (btree kvs).
Proof.
  unfold btree. assert (StronglySorted key_lt []) as Hs by constructor.
  revert Hs. generalize (@nil (string * json)). induction kvs as [|kv kvs IH]; intros m Hs; [done|].
  simpl. by apply IH, insert_member_sorted.
Qed.

Lemma insert_member_last k v kvs :
  Forall (fun kv => key_lt kv (k, v)) kvs -> insert_member k v kvs = kvs ++ [(k, v)].
Proof.
  induction 1 as [|kv kvs Hk _ IH]; [done|]. simpl.
  unfold key_lt in Hk. cbn in Hk. rewrite String.compare_antisym, Hk. simpl. by rewrite IH.
Qed.

Lemma btree_of_sorted kvs : StronglySorted key_lt kvs -> btree kvs = kvs.
Proof.
  unfold btree. intros Hs.
  enough (H : forall m, Forall (fun a => Forall (key_lt a) kvs) m ->
    foldl (fun m kv => insert_member kv.1 kv.2 m) m kvs = m ++ kvs) by (by apply H).
  induction Hs as [|[k v] kvs Hs IH Hall]; intros m Hm; [by rewrite app_nil_r|]. simpl.
  rewrite insert_member_last, IH, <- app_assoc; [done| |].
  - rewrite Forall_app. split; [|by repeat constructor].
    eapply Forall_impl; [exact Hm|]. intros a Ha. by inversion Ha.
  - eapply Forall_impl; [exact Hm|]. intros a Ha. by inversion Ha.
Qed.

Lemma btree_Forall (P : string * json -> Prop) kvs : Forall P kvs -> Forall P (btree kvs).
Proof.
  unfold btree. assert (Forall P []) as Hm by constructor. revert Hm.
  generalize (@nil (string * json)).
  intros m Hm Hs. revert m Hm. induction Hs as [|[k v] kvs Hk _ IH]; intros m Hm; [done|]. simpl.
  by apply IH, insert_member_Forall.
Qed.

Lemma map_id_Forall {A} (f : A -> A) l : Forall (fun a => f a = a) l -> map f l = l.
Proof. induction 1; simpl; by f_equal. Qed.

(** A tree that is a [Value] already is not changed by making it one. *)
Lemma to_value_idem j : to_value (to_value j) = to_value j.
Proof.
  induction j as [| | | | |l IH|kvs IH] using json_ind'; try done; simpl; f_equal.
  - induction IH as [|a l Ha _ IHl]; simpl; [done|]. by rewrite Ha, IHl.
  - rewrite map_id_Forall; [apply btree_of_sorted, btree_sorted|].
    apply (btree_Forall (fun kv => (kv.1, to_value kv.2) = kv)).
    induction IH as [|[k v] kvs Hv _ IHl]; simpl; constructor; [|done]. cbn in *. by rewrite Hv.
Qed.
