(* ===== verification/JsonText.v ===== *)
(** * JSON texts

    A printer and a reader of JSON (RFC 8259) over the trees of Json, as
    [serde_json] writes and reads them, with which the witnesses and the
    transcribed tests handle the texts that go over the wire. Numbers with a
    fraction or an exponent are not read. The reader gets back every plain tree
    the printer writes, which is the law assumed of [serde_json]. *)

From S2P Require Import Prelude RustStr Json.
From stdpp Require Import options.

(** ** Characters *)

Definition dquote : byte := "034"%char.
Definition bslash : byte := "092"%char.

Definition hex_digit (n : N) : byte :=
  if (n <? 10)%N then ascii_of_N (48 + n) else ascii_of_N (87 + n).
Definition hex_byte (b : byte) : list byte :=
  [hex_digit (N_of_ascii b / 16); hex_digit (N_of_ascii b mod 16)].

Definition escape_char (b : byte) : list byte :=
  match b with
  | "034"%char => [bslash; dquote]
  | "092"%char => [bslash; bslash]
  | "008"%char => [bslash; "b"%char]
  | "009"%char => [bslash; "t"%char]
  | "010"%char => [bslash; "n"%char]
  | "012"%char => [bslash; "f"%char]
  | "013"%char => [bslash; "r"%char]
  | _ => if (byte_val b <? 32)%Z then [bslash; "u"; "0"; "0"]%char ++ hex_byte b else [b]
  end.

(** What follows a backslash, other than [u]. *)
Definition unescape_char (b : byte) : option byte :=
  match b with
  | "034"%char => Some dquote
  | "092"%char => Some bslash
  | "/"%char => Some "/"%char
  | "b"%char => Some "008"%char
  | "t"%char => Some "009"%char
  | "n"%char => Some "010"%char
  | "f"%char => Some "012"%char
  | "r"%char => Some "013"%char
  | _ => None
  end.

(** A code point as UTF-8. *)
Definition utf8_encode (c : Z) : list byte :=
  let b z := ascii_of_N (Z.to_N z) in
  if (c <? 128)%Z then [b c]
  else if (c <? 2048)%Z then [b (192 + c / 64); b (128 + c mod 64)]%Z
  else if (c <? 65536)%Z then [b (224 + c / 4096); b (128 + c / 64 mod 64); b (128 + c mod 64)]%Z
  else [b (240 + c / 262144); b (128 + c / 4096 mod 64); b (128 + c / 64 mod 64); b (128 + c mod 64)]%Z.

Definition in_span (lo hi c : Z) : bool := (lo <=? c)%Z && (c <=? hi)%Z.

(** The characters of a string up to its closing quote, and what follows it. *)
Fixpoint string_body (l : list byte) : option (list byte * list byte) :=
  match l with
  | [] => None
  | c :: l =>
      if bool_decide (c = dquote) then Some ([], l)
      else if bool_decide (c = bslash) then
        match l with
        | "u"%char :: a :: b :: c :: d :: l =>
            u ← digits_val 16 0 [a; b; c; d];
            if in_span 55296 56319 u then
              match l with
              | "092"%char :: "u"%char :: a :: b :: c :: d :: l =>
                  v ← digits_val 16 0 [a; b; c; d];
                  if in_span 56320 57343 v then
                    '(s, r) ← string_body l;
                    Some (utf8_encode (65536 + (u - 55296) * 1024 + (v - 56320)) ++ s, r)
                  else None
              | _ => None
              end
            else if in_span 56320 57343 u then None
            else '(s, r) ← string_body l; Some (utf8_encode u ++ s, r)
        | e :: l => b ← unescape_char e; '(s, r) ← string_body l; Some (b :: s, r)
        | [] => None
        end
      else if (byte_val c <? 32)%Z then None
      else '(s, r) ← string_body l; Some (c :: s, r)
  end.

Definition print_string (s : string) : list byte :=
  dquote :: concat (map escape_char (as_bytes s)) ++ [dquote].

(** After the opening quote. *)
Definition parse_string (l : list byte) : option (string * list byte) :=
  '(s, r) ← string_body l;
  if utf8_valid s then Some (of_bytes s, r) else None.

(** ** Numbers *)

Definition digit (z : Z) : byte := ascii_of_N (Z.to_N (48 + z)).
Fixpoint print_digits (fuel : nat) (z : Z) : list byte :=
  match fuel with
  | 0 => []
  | S fuel' => if (z <? 10)%Z then [digit z] else print_digits fuel' (z / 10) ++ [digit (z mod 10)]
  end.
(** [u64] has at most twenty digits. *)
Definition print_int (z : Z) : list byte :=
  if (z <? 0)%Z then "-"%char :: print_digits 20 (- z) else print_digits 20 z.

Fixpoint span_digits (l : list byte) : list byte * list byte :=
  match l with
  | c :: l' => if is_ascii_digit c then let '(d, r) := span_digits l' in (c :: d, r) else ([], l)
  | [] => ([], [])
  end.

Definition fraction_follows (l : list byte) : bool :=
  match l with
  | "."%char :: _ | "e"%char :: _ | "E"%char :: _ => true
  | _ => false
  end.

Definition parse_int (l : list byte) : option (Z * list byte) :=
  let '(neg, l) := match l with "-"%char :: l => (true, l) | _ => (false, l) end in
  let '(ds, r) := span_digits l in
  match ds with
  | [] => None
  | _ =>
      v ← digits_val 10 0 ds;
      let z := if neg then (- v)%Z else v in
      if fraction_follows r then None
      else if (i64_min <=? z)%Z && (z <=? u64_max)%Z then Some (z, r) else None
  end.

(** ** Values *)

Fixpoint print_json (j : json) : list byte :=
  match j with
  | JNull => as_bytes "null"
  | JBool true => as_bytes "true"
  | JBool false => as_bytes "false"
  | JInt z => print_int z
  | JFloat _ => as_bytes "null"
  | JStr s => print_string s
  | JArr [] => ["["; "]"]%char
  | JArr l =>
      "["%char :: (fix elems l :=
        match l with
        | [] => []
        | [x] => print_json x ++ ["]"%char]
        | x :: l => print_json x ++ ","%char :: elems l
        end) l
  | JObj [] => ["{"; "}"]%char
  | JObj kvs =>
      "{"%char :: (fix members l :=
        match l with
        | [] => []
        | [(k, v)] => print_string k ++ ":"%char :: print_json v ++ ["}"%char]
        | (k, v) :: l => print_string k ++ ":"%char :: print_json v ++ ","%char :: members l
        end) kvs
  end.

Definition is_ws (b : byte) : bool :=
  match b with " "%char | "009"%char | "010"%char | "013"%char => true | _ => false end.
Fixpoint skip_ws (l : list byte) : list byte :=
  match l with c :: l' => if is_ws c then skip_ws l' else l | [] => [] end.

Fixpoint parse_value (fuel : nat) (l : list byte) : option (json * list byte) :=
  match fuel with
  | 0 => None
  | S fuel =>
      match skip_ws l with
      | "034"%char :: l => '(s, r) ← parse_string l; Some (JStr s, r)
      | "["%char :: l =>
          match skip_ws l with
          | "]"%char :: r => Some (JArr [], r)
          | _ => '(xs, r) ← parse_elems fuel l; Some (JArr xs, r)
          end
      | "{"%char :: l =>
          match skip_ws l with
          | "}"%char :: r => Some (JObj [], r)
          | _ => '(kvs, r) ← parse_members fuel l; Some (JObj kvs, r)
          end
      | "n"%char :: "u"%char :: "l"%char :: "l"%char :: r => Some (JNull, r)
      | "t"%char :: "r"%char :: "u"%char :: "e"%char :: r => Some (JBool true, r)
      | "f"%char :: "a"%char :: "l"%char :: "s"%char :: "e"%char :: r => Some (JBool false, r)
      | l => '(z, r) ← parse_int l; Some (JInt z, r)
      end
  end
with parse_elems (fuel : nat) (l : list byte) : option (list json * list byte) :=
  match fuel with
  | 0 => None
  | S fuel =>
      '(x, r) ← parse_value fuel l;
      match skip_ws r with
      | ","%char :: r => '(xs, r) ← parse_elems fuel r; Some (x :: xs, r)
      | "]"%char :: r => Some ([x], r)
      | _ => None
      end
  end
with parse_members (fuel : nat) (l : list byte) : option (list (string * json) * list byte) :=
  match fuel with
  | 0 => None
  | S fuel =>
      match skip_ws l with
      | "034"%char :: l =>
          '(k, r) ← parse_string l;
          match skip_ws r with
          | ":"%char :: r =>
              '(v, r) ← parse_value fuel r;
              match skip_ws r with
              | ","%char :: r => '(kvs, r) ← parse_members fuel r; Some ((k, v) :: kvs, r)
              | "}"%char :: r => Some ([(k, v)], r)
              | _ => None
              end
          | _ => None
          end
      | _ => None
      end
  end.

(** A whole text; every step of the reader consumes a byte. *)
Definition parse_json (l : list byte) : option json :=
  '(j, r) ← parse_value (S (length l)) l;
  match skip_ws r with [] => Some j | _ => None end.

(** ** What was printed is read back *)

Lemma string_body_escape b l :
  string_body (escape_char b ++ l) = ('(s, r) ← string_body l; Some (b :: s, r)).
Proof. by destruct b as [[] [] [] [] [] [] [] []]. Qed.

Lemma string_body_print s rest :
  string_body (concat (map escape_char s) ++ dquote :: rest) = Some (s, rest).
Proof.
  induction s as [|b s IH]; [done|]. cbn [map concat]. by rewrite <- app_assoc, string_body_escape, IH.
Qed.

Lemma parse_string_print s rest :
  utf8_valid (as_bytes s) = true ->
  parse_string (concat (map escape_char (as_bytes s)) ++ dquote :: rest) = Some (s, rest).
Proof. intros Hs. unfold parse_string. rewrite string_body_print. cbn. by rewrite Hs, of_as_bytes. Qed.

Lemma digit_spec z : (0 <= z < 10)%Z ->
  digit_val 10 (digit z) = Some z /\ is_ascii_digit (digit z) = true.
Proof.
  intros Hz. assert (z = 0 \/ z = 1 \/ z = 2 \/ z = 3 \/ z = 4 \/ z = 5 \/ z = 6 \/ z = 7 \/ z = 8 \/ z = 9)%Z
    as Hc by lia. repeat (destruct Hc as [->|Hc]; [done|]). by subst.
Qed.

Lemma digits_val_app radix acc l k :
  digits_val radix acc (l ++ k) = (a ← digits_val radix acc l; digits_val radix a k).
Proof. revert acc. induction l as [|b l IH]; intros acc; cbn; [done|]. by destruct (digit_val radix b). Qed.

Lemma print_digits_spec fuel z : fuel <> 0 -> (0 <= z < 10 ^ Z.of_nat fuel)%Z ->
  print_digits fuel z <> [] /\ digits_val 10 0 (print_digits fuel z) = Some z /\
  Forall (fun b => is_ascii_digit b = true) (print_digits fuel z).
Proof.
  intros Hf. revert z. induction fuel as [|fuel IH]; [done|]. intros z Hz. cbn [print_digits].
  destruct (Z.ltb_spec z 10) as [Hlt|Hge].
  { destruct (digit_spec z) as [Hv Hd]; [lia|]. cbn [digits_val]. rewrite Hv. split_and!; [done|f_equal; lia|].
    by repeat constructor. }
  rewrite Nat2Z.inj_succ, Z.pow_succ_r in Hz by lia.
  destruct fuel as [|fuel]; [cbn in Hz; lia|].
  destruct (IH ltac:(done) (z / 10)%Z) as (_ & Hq & Hds).
  { pose proof (Z.div_pos z 10). split; [lia|]. apply Z.div_lt_upper_bound; lia. }
  pose proof (Z.mod_pos_bound z 10 ltac:(lia)) as Hm. destruct (digit_spec (z mod 10)) as [Hv Hd]; [lia|].
  split_and!.
  - intros [_ ?]%app_eq_nil. done.
  - rewrite digits_val_app, Hq. cbn [mbind option_bind digits_val]. rewrite Hv. f_equal.
    pose proof (Z.div_mod z 10). lia.
  - apply Forall_app. split; [done|]. by repeat constructor.
Qed.

(** What may follow a number. *)
Definition stops (l : list byte) : bool :=
  match l with [] => true | c :: _ => negb (is_ascii_digit c) && negb (fraction_follows l) end.

Lemma span_digits_app ds rest :
  Forall (fun b => is_ascii_digit b = true) ds -> stops rest = true -> span_digits (ds ++ rest) = (ds, rest).
Proof.
  intros Hd Hr. induction Hd as [|b ds Hb _ IH]; cbn [app span_digits].
  - destruct rest as [|c rest]; [done|]. cbn [stops] in Hr. apply andb_true_iff in Hr as [Hc _].
    cbn [span_digits]. apply negb_true_iff in Hc. by rewrite Hc.
  - by rewrite Hb, IH.
Qed.

Lemma stops_fraction l : stops l = true -> fraction_follows l = false.
Proof. destruct l as [|c l]; [done|]. intros [_ Hf]%andb_true_iff. by apply negb_true_iff. Qed.

(** The first character of a printed number. *)
Definition starts_int (c : byte) : bool := is_ascii_digit c || bool_decide (c = "-"%char).

Lemma print_int_head z : (i64_min <= z <= u64_max)%Z ->
  exists c l, print_int z = c :: l /\ starts_int c = true.
Proof.
  intros Hz. unfold print_int. destruct (Z.ltb_spec z 0); [by eexists _, _|].
  destruct (print_digits_spec 20 z) as (Hne & _ & Hd); [done|split; [lia|]; unfold u64_max in Hz; lia|].
  destruct Hd as [|c ds Hc _]; [done|]. exists c, ds. split; [done|]. unfold starts_int. by rewrite Hc.
Qed.

Lemma parse_int_print z rest :
  (i64_min <= z <= u64_max)%Z -> stops rest = true -> parse_int (print_int z ++ rest) = Some (z, rest).
Proof.
  intros Hz Hr. assert (Hb : (i64_min <=? z)%Z && (z <=? u64_max)%Z = true) by lia.
  unfold print_int. destruct (Z.ltb_spec z 0) as [Hlt|Hge].
  - destruct (print_digits_spec 20 (- z)) as (Hne & Hv & Hd); [done|unfold i64_min in Hz; lia|].
    change (("-"%char :: print_digits 20 (- z)) ++ rest) with ("-"%char :: (print_digits 20 (- z) ++ rest)).
    unfold parse_int. rewrite span_digits_app by done.
    destruct (print_digits 20 (- z)) as [|c ds]; [done|]. rewrite Hv. cbn [mbind option_bind].
    by rewrite stops_fraction, Z.opp_involutive, Hb.
  - destruct (print_digits_spec 20 z) as (Hne & Hv & Hd); [done|unfold u64_max in Hz; lia|].
    unfold parse_int. assert (Hm : forall l, match print_digits 20 z ++ l with
      | "-"%char :: l' => (true, l') | _ => (false, print_digits 20 z ++ l) end = (false, print_digits 20 z ++ l)).
    { intros l. destruct Hd as [|c ds Hc _]; [done|]. by destruct c as [[] [] [] [] [] [] [] []]. }
    rewrite Hm, span_digits_app by done.
    destruct (print_digits 20 z) as [|c ds]; [done|]. rewrite Hv. cbn [mbind option_bind].
    by rewrite stops_fraction, Hb.
Qed.

(** The rest of an array and of an object, closing bracket included. *)
Fixpoint elems_text (l : list json) : list byte :=
  match l with
  | [] => []
  | [x] => print_json x ++ ["]"%char]
  | x :: l => print_json x ++ ","%char :: elems_text l
  end.
Fixpoint members_text (l : list (string * json)) : list byte :=
  match l with
  | [] => []
  | [(k, v)] => print_string k ++ ":"%char :: print_json v ++ ["}"%char]
  | (k, v) :: l => print_string k ++ ":"%char :: print_json v ++ ","%char :: members_text l
  end.

Lemma print_arr x l : print_json (JArr (x :: l)) = "["%char :: elems_text (x :: l).
Proof. reflexivity. Qed.
Lemma print_obj kv l : print_json (JObj (kv :: l)) = "{"%char :: members_text (kv :: l).
Proof. reflexivity. Qed.

Lemma elems_text_cons x y l :
  elems_text (x :: y :: l) = print_json x ++ ","%char :: elems_text (y :: l).
Proof. reflexivity. Qed.
Lemma members_text_cons k v kv l :
  members_text ((k, v) :: kv :: l) = print_string k ++ ":"%char :: print_json v ++ ","%char :: members_text (kv :: l).
Proof. reflexivity. Qed.

(** A printed value starts with neither white space nor a closing bracket. *)
Definition opens (c : byte) : bool :=
  negb (is_ws c) && negb (bool_decide (c = "]"%char)) && negb (bool_decide (c = "}"%char)).

Lemma starts_int_opens c : starts_int c = true -> opens c = true.
Proof. by destruct c as [[] [] [] [] [] [] [] []]. Qed.

Lemma print_json_head fuel j : json_plain fuel j = true ->
  exists c l, print_json j = c :: l /\ opens c = true.
Proof.
  destruct fuel as [|fuel]; [done|].
  destruct j as [|[]|z|f|s|[|x l]|[|kv kvs]]; cbn [json_plain]; intros Hj; try done;
    try (eexists _, _; split; reflexivity).
  destruct (print_int_head z) as (c & l & Hc & Hs); [lia|]. exists c, l. split; [done|].
  by apply starts_int_opens.
Qed.

Lemma not_closed {A} l c t (f : list byte -> A) (x : A) : l = c :: t -> opens c = true ->
  match skip_ws l with "]"%char :: r => f r | _ => x end = x /\
  match skip_ws l with "}"%char :: r => f r | _ => x end = x.
Proof. intros ->. by destruct c as [[] [] [] [] [] [] [] []]. Qed.

Lemma parse_value_int fuel c l : starts_int c = true ->
  parse_value (S fuel) (c :: l) = ('(z, r) ← parse_int (c :: l); Some (JInt z, r)).
Proof. by destruct c as [[] [] [] [] [] [] [] []]. Qed.

(** Reading back one value, with enough fuel. *)
Definition reads (j : json) : Prop :=
  forall fuel n rest, json_plain fuel j = true -> stops rest = true -> length (print_json j) < n ->
    parse_value n (print_json j ++ rest) = Some (j, rest).

Lemma reads_elems l : Forall reads l -> forall fuel n rest,
  l <> [] -> forallb (json_plain fuel) l = true -> length (elems_text l) < n ->
  parse_elems n (elems_text l ++ rest) = Some (l, rest).
Proof.
  intros Hl fuel. induction Hl as [|x l Hx _ IH]; intros n rest Hne Hp Hn; [done|].
  cbn [forallb] in Hp. apply andb_true_iff in Hp as [Hpx Hpl].
  destruct n as [|n]; [lia|]. cbn [parse_elems]. destruct l as [|y l].
  - cbn [elems_text] in Hn |- *. rewrite <- app_assoc, length_app in *. cbn in Hn.
    rewrite (Hx fuel) by (done || lia). done.
  - rewrite elems_text_cons in Hn |- *.
    rewrite <- app_assoc. rewrite length_app in Hn. cbn [length] in Hn.
    rewrite (Hx fuel) by (done || lia). cbn [mbind option_bind app skip_ws is_ws].
    by rewrite IH by (done || lia).
Qed.

Lemma reads_members l : Forall (fun kv : string * json => reads kv.2) l -> forall fuel n rest,
  l <> [] -> forallb (fun kv : string * json => utf8_valid (as_bytes kv.1) && json_plain fuel kv.2) l = true ->
  length (members_text l) < n -> parse_members n (members_text l ++ rest) = Some (l, rest).
Proof.
  intros Hl fuel. induction Hl as [|[k v] l Hv _ IH]; intros n rest Hne Hp Hn; [done|].
  cbn [forallb fst snd] in Hp, Hv. apply andb_true_iff in Hp as [[Hk Hpv]%andb_true_iff Hpl].
  destruct n as [|n]; [lia|]. cbn [parse_members].
  assert (Hm : exists t, members_text ((k, v) :: l) =
    print_string k ++ ":"%char :: print_json v ++ t /\ t <> [] /\ stops (t ++ rest) = true /\
    (length (print_json v ++ t) < n) /\
    match skip_ws (t ++ rest) with
    | ","%char :: r => '(kvs, r) ← parse_members n r; Some ((k, v) :: kvs, r)
    | "}"%char :: r => Some ([(k, v)], r)
    | _ => None
    end = Some ((k, v) :: l, rest)).
  { destruct l as [|kv l].
    - exists ["}"%char]. cbn [members_text] in Hn |- *. rewrite length_app in Hn. cbn [length] in Hn.
      split_and!; try done. lia.
    - exists (","%char :: members_text (kv :: l)). rewrite members_text_cons in Hn |- *.
      rewrite !length_app in *. cbn [length] in *. rewrite length_app in Hn. cbn [length] in Hn.
      split_and!; try done; [lia|].
      cbn [app skip_ws is_ws]. by rewrite IH by (done || lia). }
  destruct Hm as (t & Ht & Hne' & Hst & Hlen & Hrest). rewrite Ht. unfold print_string.
  rewrite <- !app_assoc. cbn [app skip_ws is_ws dquote]. rewrite <- !app_assoc. cbn [app].
  rewrite (parse_string_print k) by done. cbn [mbind option_bind skip_ws is_ws].
  rewrite length_app in Hlen. rewrite (Hv fuel) by (done || lia).
  exact Hrest.
Qed.

Lemma reads_json j : reads j.
Proof.
  induction j as [|b|z|f|s|l IH|kvs IH] using json_ind'; intros [|fuel] n rest Hp Hr Hn; try done;
    cbn [json_plain] in Hp; (destruct n as [|n]; [lia|]).
  - done.
  - by destruct b.
  - destruct (print_int_head z) as (c & l & Hc & Hs); [lia|].
    cbn [print_json]. rewrite Hc. change ((c :: l) ++ rest) with (c :: (l ++ rest)).
    rewrite parse_value_int by done. change (c :: l ++ rest) with ((c :: l) ++ rest).
    rewrite <- Hc, parse_int_print; [done|lia|done].
  - cbn [print_json]. unfold print_string. cbn [app parse_value skip_ws is_ws dquote].
    rewrite <- app_assoc. cbn [app]. by rewrite parse_string_print.
  - destruct l as [|x l]; [done|]. rewrite print_arr in Hn |- *. cbn [length] in Hn.
    cbn [app parse_value skip_ws is_ws].
    assert (Hx : json_plain fuel x = true) by (by apply andb_true_iff in Hp as [? _]).
    destruct (print_json_head fuel x Hx) as (c & t & Hc & Ho).
    assert (Hh : exists t', elems_text (x :: l) ++ rest = c :: t').
    { cbn [elems_text]. rewrite Hc. destruct l; by eexists. }
    destruct Hh as [t' Hh].
    rewrite (proj1 (not_closed _ c t' _ _ Hh Ho)).
    by rewrite (reads_elems (x :: l) IH fuel) by (done || lia).
  - destruct kvs as [|[k v] kvs]; [done|]. rewrite print_obj in Hn |- *. cbn [length] in Hn.
    cbn [app parse_value skip_ws is_ws].
    assert (Hh : exists t', members_text ((k, v) :: kvs) ++ rest = dquote :: t').
    { cbn [members_text]. unfold print_string. destruct kvs; by eexists. }
    destruct Hh as [t' Hh]. assert (Ho : opens dquote = true) by done.
    rewrite (proj2 (not_closed _ dquote t' _ _ Hh Ho)).
    by rewrite (reads_members ((k, v) :: kvs) IH fuel) by (done || lia).
Qed.

(** ** The instance *)

Global Instance text_serde : SerdeJson := {|
  to_text := fun j => Ok (of_bytes (print_json j));
  from_text := fun s => parse_json (as_bytes s);
  raw_value := Ok;
|}.

Global Instance text_serde_laws : SerdeJsonLaws.
Proof.
  split; [|done]. intros j Hj. eexists. split; [reflexivity|]. cbn [from_text text_serde]. unfold parse_json.
  rewrite as_of_bytes. pose proof (reads_json j recursion_limit (S (length (print_json j))) [] Hj eq_refl ltac:(lia)) as Hr.
  rewrite app_nil_r in Hr. by rewrite Hr.
Qed.
