(* ===== verification/Sha256.v ===== *)
(** * SHA-256 and HMAC (FIPS 180-4, RFC 2104)

    The functions behind the [sha2] and [hmac] crates, with which the witnesses
    and the transcribed tests sign and verify; the theorems about the daemon
    are proved against the interface of Crypto. *)

From S2P Require Import Prelude.
From stdpp Require Import options.

Local Open Scope Z_scope.

(** ** 32-bit words *)

Definition w32 (z : Z) : Z := Z.land z 0xffffffff.
Definition rotr (n x : Z) : Z := Z.lor (Z.shiftr x n) (w32 (Z.shiftl x (32 - n))).
Definition not32 (x : Z) : Z := Z.lxor x 0xffffffff.

Definition ch (x y z : Z) : Z := Z.lxor (Z.land x y) (Z.land (not32 x) z).
Definition maj (x y z : Z) : Z := Z.lxor (Z.lxor (Z.land x y) (Z.land x z)) (Z.land y z).
Definition bsig0 (x : Z) : Z := Z.lxor (Z.lxor (rotr 2 x) (rotr 13 x)) (rotr 22 x).
Definition bsig1 (x : Z) : Z := Z.lxor (Z.lxor (rotr 6 x) (rotr 11 x)) (rotr 25 x).
Definition ssig0 (x : Z) : Z := Z.lxor (Z.lxor (rotr 7 x) (rotr 18 x)) (Z.shiftr x 3).
Definition ssig1 (x : Z) : Z := Z.lxor (Z.lxor (rotr 17 x) (rotr 19 x)) (Z.shiftr x 10).

(** The constants are the first 32 bits of the fractional parts of the cube roots
    of the first 64 primes and of the square roots of the first eight. *)
Definition is_prime (n : Z) : bool :=
  forallb (fun k => negb (n mod (2 + Z.of_nat k) =? 0)) (seq 0 (Z.to_nat n - 2)).
Definition primes : list Z := List.filter is_prime (Z.of_nat <$> seq 2 310).

(** The largest number whose cube is at most [z], bit by bit from [2 ^ n] down. *)
Fixpoint cbrt_bits (n : nat) (z root : Z) : Z :=
  let root' := root + 2 ^ Z.of_nat n in
  let next := if root' * root' * root' <=? z then root' else root in
  match n with O => next | S n' => cbrt_bits n' z next end.

Definition K256 : list Z := Eval vm_compute in (fun p => w32 (cbrt_bits 35 (p * 2 ^ 96) 0)) <$> primes.
Definition H256 : list Z := Eval vm_compute in (fun p => w32 (Z.sqrt (p * 2 ^ 64))) <$> take 8 primes.

(** ** Blocks *)

Definition be_bytes (n : nat) (z : Z) : list byte :=
  (fun i => ascii_of_N (Z.to_N (Z.shiftr z (8 * Z.of_nat i) mod 256))) <$> reverse (seq 0 n).
Definition word_of (l : list byte) : Z := foldl (fun acc b => 256 * acc + byte_val b) 0 l.

(** One bit, zeros, and the length in bits, up to a multiple of 64 bytes. *)
Definition pad (msg : list byte) : list byte :=
  let n := Z.of_nat (length msg) in
  msg ++ "128"%char :: replicate (Z.to_nat ((55 - n) mod 64)) "000"%char ++ be_bytes 8 (8 * n).

Fixpoint chunks {A} (fuel n : nat) (l : list A) : list (list A) :=
  match fuel, l with
  | O, _ | _, [] => []
  | S fuel', _ => take n l :: chunks fuel' n (drop n l)
  end.

(** The message schedule, newest word first. *)
Fixpoint schedule (n : nat) (w : list Z) : list Z :=
  match n with
  | O => w
  | S n' =>
      let at_ i := default 0 (w !! i) in
      schedule n' (w32 (ssig1 (at_ 1%nat) + at_ 6%nat + ssig0 (at_ 14%nat) + at_ 15%nat) :: w)
  end.

Definition round (v : list Z) (kw : Z * Z) : list Z :=
  match v with
  | [a; b; c; d; e; f; g; h] =>
      let t1 := h + bsig1 e + ch e f g + kw.1 + kw.2 in
      let t2 := bsig0 a + maj a b c in
      [w32 (t1 + t2); a; b; c; w32 (d + t1); e; f; g]
  | _ => v
  end.

Definition compress (h : list Z) (block : list byte) : list Z :=
  let w := reverse (schedule 48 (reverse (word_of <$> chunks 16 4 block))) in
  zip_with (fun x y => w32 (x + y)) h (foldl round h (zip K256 w)).

Definition sha256_hash (msg : list byte) : list byte :=
  let padded := pad msg in
  concat (be_bytes 4 <$> foldl compress H256 (chunks (length padded) 64 padded)).

(** ** HMAC *)

Definition xor_pad (p : Z) (key : list byte) : list byte :=
  (fun b => ascii_of_N (Z.to_N (Z.lxor p (byte_val b)))) <$>
    key ++ replicate (64 - length key) "000"%char.

Definition hmac_sha256_mac (key msg : list byte) : list byte :=
  let key := if (64 <? length key)%nat then sha256_hash key else key in
  sha256_hash (xor_pad 0x5c key ++ sha256_hash (xor_pad 0x36 key ++ msg)).
