(* ===== verification/Crypto.v ===== *)
(** * The cryptographic crates the protocol calls

    [sha2], [hmac], [hex] and [subtle] are not part of the repository: the
    functions the daemon uses of them are an interface, with their documented
    behaviour as its laws. *)

From S2P Require Import Prelude RustStr.
From stdpp Require Import options.

Class Crypto := {
  sha256 : list byte -> list byte;
  hmac_sha256 : list byte -> list byte -> list byte;
  hex_encode : list byte -> string;
  ct_eq : list byte -> list byte -> bool;
}.

Definition lower_hex (b : byte) : bool := is_ascii_digit b || in_range 97 102 b.

(** Documented behaviour: hex digits are lower case, two per byte; [ct_eq] is
    slice equality. *)
Class CryptoLaws `{Crypto} := {
  hex_encode_digits l : forallb lower_hex (as_bytes (hex_encode l)) = true;
  hex_encode_inj :: Inj (=) (=) hex_encode;
  ct_eq_spec a b : ct_eq a b = true <-> a = b;
}.
