(* ===== verification/Instances.v ===== *)
(** * Concrete instances of the third-party interfaces

    For [Crypto], SHA-256, HMAC and hex as the crates have them, on which the
    transcribed tests run, and a short checksum in their place, on which the
    witnesses are evaluated; for [SerdeJson] there are the texts of JsonText. All
    have the laws the development assumes of the real crates and show that these
    can hold together; no theorem about the daemon depends on them. *)

From S2P Require Import Prelude RustStr Json JsonText Sha256 Crypto.
From stdpp Require Import options.

Definition hex (l : list byte) : string := of_bytes (concat (map hex_byte l)).

Definition crypto_with (hash : list byte -> list byte) (mac : list byte -> list byte -> list byte)
    : Crypto := {|
  sha256 := hash;
  hmac_sha256 := mac;
  hex_encode := hex;
  ct_eq := fun a b => bool_decide (a = b);
|}.
Definition sha2_crypto : Crypto := crypto_with sha256_hash hmac_sha256_mac.

Lemma hex_byte_lower b : forallb lower_hex (hex_byte b) = true.
Proof. by destruct b as [[] [] [] [] [] [] [] []]. Qed.

Definition unhex_byte (h l : byte) : option byte :=
  head (filter (fun b => hex_byte b = [h; l]) (map ascii_of_nat (seq 0 256))).

Lemma unhex_hex b h l : hex_byte b = [h; l] -> unhex_byte h l = Some b.
Proof.
  intros Hb. unfold hex_byte in Hb. simplify_eq.
  by destruct b as [[] [] [] [] [] [] [] []].
Qed.

Lemma hex_byte_inj b c : hex_byte b = hex_byte c -> b = c.
Proof.
  intros Heq. assert (Some b = Some c) as [= ->]; [|done].
  rewrite <- (unhex_hex b _ _ eq_refl). apply unhex_hex. by rewrite <- Heq.
Qed.

Lemma crypto_with_laws hash mac : CryptoLaws (H := crypto_with hash mac).
Proof.
  split.
  - intros l. cbn [hex_encode crypto_with]. unfold hex. rewrite as_of_bytes.
    induction l as [|b l IH]; [done|]. cbn [map concat].
    by rewrite forallb_app, hex_byte_lower.
  - intros l k Heq. cbn [hex_encode crypto_with] in Heq. unfold hex in Heq.
    apply (f_equal as_bytes) in Heq. rewrite !as_of_bytes in Heq. revert k Heq.
    induction l as [|b l IH]; intros [|c k] Heq; try done.
    cbn [map concat] in Heq.
    apply app_inj_1 in Heq as [Hb Heq]; [|done].
    apply hex_byte_inj in Hb as ->. by rewrite (IH k).
  - intros a b. cbn. by rewrite bool_decide_eq_true.
Qed.

(** A checksum for a hash: it has collisions. *)
Definition checksum (l : list byte) : list byte :=
  [ascii_of_N (fold_right (fun b acc => (7 * acc + N_of_ascii b + 1) mod 256)%N 0%N l)].
Global Instance weak_crypto : Crypto := crypto_with checksum (fun key msg => checksum key ++ msg).
Global Instance weak_crypto_laws : CryptoLaws := crypto_with_laws _ _.
Lemma sha2_crypto_laws : CryptoLaws (H := sha2_crypto).
Proof. apply crypto_with_laws. Qed.

(** The published test vectors (FIPS 180-4, RFC 4231). *)
Example sha256_abc :
  hex (sha256_hash (as_bytes "abc")) = "ba7816bf8f01cfea414140de5dae2223b00361a396177a9cb410ff61f20015ad".
Proof. vm_compute. reflexivity. Qed.
Example hmac_rfc4231_2 :
  hex (hmac_sha256_mac (as_bytes "Jefe") (as_bytes "what do ya want for nothing?"))
    = "5bdcc146bf60754e6a042426089575c75a003f089d2739839dec58b964ec3843".
Proof. vm_compute. reflexivity. Qed.
