(* ===== verification/Payloads.v ===== *)
(** * The payload types of the wire protocol (protocol/src/payloads.rs)

    Every struct and enum with its serde mapping to JSON trees. A field is
    named after the source's with a prefix for its struct. *)

From S2P Require Import Prelude RustStr Json.
From Stdlib Require Import SpecFloat.
From stdpp Require Import options.

(** ** Envelope kinds and capabilities *)

Module envelope_type.
Definition HELLO : string := "hello".
Definition HEARTBEAT : string := "heartbeat".
Definition EVENT : string := "event".
Definition ACK : string := "ack".
Definition COMMAND : string := "command".
End envelope_type.

Definition CAP_PULL_IMAGE : string := "pull_image".
Definition CAP_DATABASES : string := "databases".

(** ** Structs *)

Record HelloPayload := {
  hello_node_token : string;
  hello_agent_version : string;
  hello_capabilities : list string;
}.

Record ContainerHeartbeat := {
  hb_server_id : string;
  hb_running : bool;
  hb_cpu_percent : spec_float;
  hb_mem_used_bytes : Z;
  hb_mem_limit_bytes : Z;
  hb_net_rx_bytes : Z;
  hb_net_tx_bytes : Z;
}.

Record HeartbeatPayload := { hb_containers : list ContainerHeartbeat }.

Inductive EventKind := ConsoleLine | StateChanged | BackupDone | BackupFailed.

Record EventPayload := {
  ev_server_id : string;
  ev_kind : EventKind;
  ev_message : string;
}.

Record PortBinding := {
  pb_container_port : string;
  pb_host_port : string;
}.

Record ContainerSpec := {
  spec_name : string;
  spec_image : string;
  spec_cmd : list string;
  spec_env : list string;
  spec_working_dir : string;
  spec_binds : list string;
  spec_port_bindings : list PortBinding;
  spec_memory_bytes : Z;
  spec_nano_cpus : Z;
  spec_labels : gmap string string;
}.

Inductive Action :=
| Create | Start | Stop | Kill | Remove | PullImage | ConsoleInput
| ListFiles | ReadFile | WriteFile | RenameFile | DeleteFile | Mkdir
| Backup | ListBackups | RestoreBackup | DeleteBackup
| CreateDatabase | DeleteDatabase.

Record CommandPayload := {
  cmd_command_id : string;
  cmd_action : Action;
  cmd_server_id : string;
  cmd_container_id : option string;
  cmd_spec : option ContainerSpec;
  cmd_image : option string;
  cmd_input : option string;
  cmd_path : option string;
  cmd_new_path : option string;
  cmd_content_base64 : option string;
  cmd_database_name : option string;
  cmd_database_user : option string;
  cmd_database_password : option string;
}.

Record FileEntry := { fe_name : string; fe_is_dir : bool; fe_size_bytes : Z }.
Record ListFilesResult := { lf_entries : list FileEntry }.
Record ReadFileResult := { rf_content_base64 : string; rf_size_bytes : Z }.
Record BackupResult := { br_filename : string; br_size_bytes : Z }.
Record BackupEntry := { be_filename : string; be_size_bytes : Z; be_created_at : Z }.
Record ListBackupsResult := { lb_backups : list BackupEntry }.
Record CreateDatabaseResult := { cd_host : string; cd_port : Z }.

Record AckPayload := {
  ack_command_id : string;
  ack_ok : bool;
  ack_error : option string;
  ack_result : option json;
}.

Global Instance EventKind_eq_dec : EqDecision EventKind.
Proof. solve_decision. Defined.
Global Instance EventPayload_eq_dec : EqDecision EventPayload.
Proof. solve_decision. Defined.
Global Instance Action_eq_dec : EqDecision Action.
Proof. solve_decision. Defined.
Global Instance PortBinding_eq_dec : EqDecision PortBinding.
Proof. solve_decision. Defined.
Global Instance ContainerSpec_eq_dec : EqDecision ContainerSpec.
Proof. solve_decision. Defined.
Global Instance CommandPayload_eq_dec : EqDecision CommandPayload.
Proof. solve_decision. Defined.

(** [Default]. *)
Definition default_spec : ContainerSpec :=
  {| spec_name := ""; spec_image := ""; spec_cmd := []; spec_env := [];
     spec_working_dir := ""; spec_binds := []; spec_port_bindings := [];
     spec_memory_bytes := 0; spec_nano_cpus := 0; spec_labels := ∅ |}.
Definition default_command : CommandPayload :=
  {| cmd_command_id := ""; cmd_action := Create; cmd_server_id := "";
     cmd_container_id := None; cmd_spec := None; cmd_image := None;
     cmd_input := None; cmd_path := None; cmd_new_path := None;
     cmd_content_base64 := None; cmd_database_name := None;
     cmd_database_user := None; cmd_database_password := None |}.

(** ** Enum names ([rename_all = "snake_case"]) *)

Definition action_name (a : Action) : string :=
  match a with
  | Create => "create" | Start => "start" | Stop => "stop" | Kill => "kill"
  | Remove => "remove" | PullImage => "pull_image"
  | ConsoleInput => "console_input" | ListFiles => "list_files"
  | ReadFile => "read_file" | WriteFile => "write_file"
  | RenameFile => "rename_file" | DeleteFile => "delete_file"
  | Mkdir => "mkdir" | Backup => "backup" | ListBackups => "list_backups"
  | RestoreBackup => "restore_backup" | DeleteBackup => "delete_backup"
  | CreateDatabase => "create_database" | DeleteDatabase => "delete_database"
  end.

Definition all_actions : list Action :=
  [Create; Start; Stop; Kill; Remove; PullImage; ConsoleInput; ListFiles;
   ReadFile; WriteFile; RenameFile; DeleteFile; Mkdir; Backup; ListBackups;
   RestoreBackup; DeleteBackup; CreateDatabase; DeleteDatabase].

Definition action_of_name (s : string) : option Action :=
  head (filter (fun a => action_name a = s) all_actions).

Definition event_kind_name (k : EventKind) : string :=
  match k with
  | ConsoleLine => "console_line" | StateChanged => "state_changed"
  | BackupDone => "backup_done" | BackupFailed => "backup_failed"
  end.

Definition event_kind_of_name (s : string) : option EventKind :=
  head (filter (fun k => event_kind_name k = s)
          [ConsoleLine; StateChanged; BackupDone; BackupFailed]).

(** ** Serialize *)

Definition enc_strings : list string -> json := enc_vec JStr.

Definition enc_hello (h : HelloPayload) : json :=
  JObj [("node_token", JStr (hello_node_token h));
        ("agent_version", JStr (hello_agent_version h));
        ("capabilities", enc_strings (hello_capabilities h))].

Definition enc_container_heartbeat (h : ContainerHeartbeat) : json :=
  JObj [("server_id", JStr (hb_server_id h));
        ("running", JBool (hb_running h));
        ("cpu_percent", enc_f64 (hb_cpu_percent h));
        ("mem_used_bytes", JInt (hb_mem_used_bytes h));
        ("mem_limit_bytes", JInt (hb_mem_limit_bytes h));
        ("net_rx_bytes", JInt (hb_net_rx_bytes h));
        ("net_tx_bytes", JInt (hb_net_tx_bytes h))].

Definition enc_heartbeat (h : HeartbeatPayload) : json :=
  JObj [("containers", enc_vec enc_container_heartbeat (hb_containers h))].

Definition enc_event (e : EventPayload) : json :=
  JObj [("server_id", JStr (ev_server_id e));
        ("kind", JStr (event_kind_name (ev_kind e)));
        ("message", JStr (ev_message e))].

Definition enc_port_binding (p : PortBinding) : json :=
  JObj [("container_port", JStr (pb_container_port p));
        ("host_port", JStr (pb_host_port p))].

Definition enc_spec (s : ContainerSpec) : json :=
  JObj [("name", JStr (spec_name s));
        ("image", JStr (spec_image s));
        ("cmd", enc_strings (spec_cmd s));
        ("env", enc_strings (spec_env s));
        ("working_dir", JStr (spec_working_dir s));
        ("binds", enc_strings (spec_binds s));
        ("port_bindings", enc_vec enc_port_binding (spec_port_bindings s));
        ("memory_bytes", JInt (spec_memory_bytes s));
        ("nano_cpus", JInt (spec_nano_cpus s));
        ("labels", enc_map JStr (spec_labels s))].

Definition enc_command (c : CommandPayload) : json :=
  JObj ([("command_id", JStr (cmd_command_id c));
         ("action", JStr (action_name (cmd_action c)));
         ("server_id", JStr (cmd_server_id c))] ++
        skip_none "container_id" JStr (cmd_container_id c) ++
        skip_none "spec" enc_spec (cmd_spec c) ++
        skip_none "image" JStr (cmd_image c) ++
        skip_none "input" JStr (cmd_input c) ++
        skip_none "path" JStr (cmd_path c) ++
        skip_none "new_path" JStr (cmd_new_path c) ++
        skip_none "content_base64" JStr (cmd_content_base64 c) ++
        skip_none "database_name" JStr (cmd_database_name c) ++
        skip_none "database_user" JStr (cmd_database_user c) ++
        skip_none "database_password" JStr (cmd_database_password c)).

Definition enc_ack (a : AckPayload) : json :=
  JObj ([("command_id", JStr (ack_command_id a)); ("ok", JBool (ack_ok a))] ++
        skip_none "error" JStr (ack_error a) ++
        skip_none "result" (fun j => j) (ack_result a)).

Definition enc_file_entry (e : FileEntry) : json :=
  JObj [("name", JStr (fe_name e)); ("is_dir", JBool (fe_is_dir e));
        ("size_bytes", JInt (fe_size_bytes e))].
Definition enc_list_files (r : ListFilesResult) : json :=
  JObj [("entries", enc_vec enc_file_entry (lf_entries r))].
Definition enc_read_file (r : ReadFileResult) : json :=
  JObj [("content_base64", JStr (rf_content_base64 r));
        ("size_bytes", JInt (rf_size_bytes r))].
Definition enc_backup (r : BackupResult) : json :=
  JObj [("filename", JStr (br_filename r)); ("size_bytes", JInt (br_size_bytes r))].
Definition enc_backup_entry (e : BackupEntry) : json :=
  JObj [("filename", JStr (be_filename e)); ("size_bytes", JInt (be_size_bytes e));
        ("created_at", JInt (be_created_at e))].
Definition enc_list_backups (r : ListBackupsResult) : json :=
  JObj [("backups", enc_vec enc_backup_entry (lb_backups r))].
Definition enc_create_database (r : CreateDatabaseResult) : json :=
  JObj [("host", JStr (cd_host r)); ("port", JInt (cd_port r))].

(** ** Deserialize *)

(** [null_default]: [Option::<T>::deserialize(d)?.unwrap_or_default()]. *)
Definition null_default {A} (def : A) (d : dec A) : dec A := fun j =>
  default def <$> dec_option d j.

Definition dec_action : dec Action := dec_variant action_of_name.
Definition dec_event_kind : dec EventKind := dec_variant event_kind_of_name.

Definition dec_event : dec EventPayload := fun j =>
  match field_values ["server_id"; "kind"; "message"] j with
  | Some [s; k; m] =>
      s ← required dec_string s; k ← required dec_event_kind k;
      m ← required dec_string m;
      Some {| ev_server_id := s; ev_kind := k; ev_message := m |}
  | _ => None
  end.

Definition dec_port_binding : dec PortBinding := fun j =>
  match field_values ["container_port"; "host_port"] j with
  | Some [c; h] =>
      c ← required dec_string c; h ← required dec_string h;
      Some {| pb_container_port := c; pb_host_port := h |}
  | _ => None
  end.

Definition dec_spec : dec ContainerSpec := fun j =>
  match field_values ["name"; "image"; "cmd"; "env"; "working_dir"; "binds";
                      "port_bindings"; "memory_bytes"; "nano_cpus"; "labels"] j with
  | Some [na; im; cm; en; wd; bi; po; me; cp; la] =>
      na ← required dec_string na;
      im ← required dec_string im;
      cm ← or_default [] (null_default [] (dec_vec dec_string)) cm;
      en ← or_default [] (null_default [] (dec_vec dec_string)) en;
      wd ← or_default "" dec_string wd;
      bi ← or_default [] (null_default [] (dec_vec dec_string)) bi;
      po ← or_default [] (null_default [] (dec_vec dec_port_binding)) po;
      me ← or_default 0%Z dec_i64 me;
      cp ← or_default 0%Z dec_i64 cp;
      la ← or_default ∅ (null_default ∅ (dec_map dec_string)) la;
      Some {| spec_name := na; spec_image := im; spec_cmd := cm; spec_env := en;
              spec_working_dir := wd; spec_binds := bi; spec_port_bindings := po;
              spec_memory_bytes := me; spec_nano_cpus := cp; spec_labels := la |}
  | _ => None
  end.

Definition opt_field {A} (d : dec A) : option json -> option (option A) :=
  or_default None (dec_option d).

Definition dec_command : dec CommandPayload := fun j =>
  match field_values ["command_id"; "action"; "server_id"; "container_id"; "spec";
                      "image"; "input"; "path"; "new_path"; "content_base64";
                      "database_name"; "database_user"; "database_password"] j with
  | Some [ci; ac; si; co; sp; im; inp; pa; np; cb; dn; du; dp] =>
      ci ← required dec_string ci;
      ac ← required dec_action ac;
      si ← required dec_string si;
      co ← opt_field dec_string co;
      sp ← opt_field dec_spec sp;
      im ← opt_field dec_string im;
      inp ← opt_field dec_string inp;
      pa ← opt_field dec_string pa;
      np ← opt_field dec_string np;
      cb ← opt_field dec_string cb;
      dn ← opt_field dec_string dn;
      du ← opt_field dec_string du;
      dp ← opt_field dec_string dp;
      Some {| cmd_command_id := ci; cmd_action := ac; cmd_server_id := si;
              cmd_container_id := co; cmd_spec := sp; cmd_image := im;
              cmd_input := inp; cmd_path := pa; cmd_new_path := np;
              cmd_content_base64 := cb; cmd_database_name := dn;
              cmd_database_user := du; cmd_database_password := dp |}
  | _ => None
  end.

(** ** Lemmas *)

Lemma action_of_name_name a : action_of_name (action_name a) = Some a.
Proof. by destruct a. Qed.

Lemma action_name_of_name s a : action_of_name s = Some a -> action_name a = s.
Proof.
  intros H. unfold action_of_name in H.
  assert (a ∈ filter (fun a => action_name a = s) all_actions) as Ha.
  { destruct (filter _ _); simplify_eq/=. set_solver. }
  by apply list_elem_of_filter in Ha as [? _].
Qed.

Lemma dec_action_enc a : dec_action (JStr (action_name a)) = Some a.
Proof. apply action_of_name_name. Qed.

Lemma dec_port_binding_enc p : dec_port_binding (enc_port_binding p) = Some p.
Proof. by destruct p. Qed.

Lemma null_default_enc {A} (def : A) (d : dec A) j a :
  d j = Some a -> j <> JNull -> null_default def d j = Some a.
Proof. intros H Hj. unfold null_default, dec_option. by destruct j; simplify_eq/=; rewrite ?H. Qed.

Lemma dec_spec_enc s :
  in_i64 (spec_memory_bytes s) -> in_i64 (spec_nano_cpus s) ->
  dec_spec (enc_spec s) = Some s.
Proof.
  intros Hm Hc. destruct s as [na im cm en wd bi po me cp la]. cbn in Hm, Hc.
  unfold dec_spec.
  change (enc_spec _) with
    (JObj (present [("name", Some (JStr na)); ("image", Some (JStr im));
       ("cmd", Some (enc_strings cm)); ("env", Some (enc_strings en));
       ("working_dir", Some (JStr wd)); ("binds", Some (enc_strings bi));
       ("port_bindings", Some (enc_vec enc_port_binding po));
       ("memory_bytes", Some (JInt me)); ("nano_cpus", Some (JInt cp));
       ("labels", Some (enc_map JStr la))])).
  match goal with |- context [field_values ?n (JObj (present ?o))] =>
    change n with (map fst o); rewrite field_values_present;
      [|apply (bool_decide_unpack _); vm_compute; done] end.
  cbn [map snd required or_default mbind option_bind dec_string].
  rewrite !(null_default_enc _ _ (enc_strings _) _ (dec_vec_strings _)) by done.
  rewrite (null_default_enc _ _ (enc_vec enc_port_binding po) po);
    [|by apply dec_vec_enc; intros; apply dec_port_binding_enc|done].
  rewrite (null_default_enc _ _ (enc_map JStr la) la (dec_map_strings la)) by done.
  unfold dec_i64. rewrite !dec_int_range by done. done.
Qed.

Lemma opt_field_enc {A} (e : A -> json) (d : dec A) (o : option A) :
  (forall a, o = Some a -> d (e a) = Some a /\ e a <> JNull) ->
  opt_field d (e <$> o) = Some o.
Proof.
  intros H. destruct o as [a|]; [|done]. simpl.
  destruct (H a eq_refl) as [Hd Hn]. unfold opt_field, or_default, dec_option.
  by destruct (e a); simplify_eq/=; rewrite ?Hd.
Qed.

Lemma opt_field_string (o : option string) : opt_field dec_string (JStr <$> o) = Some o.
Proof. by apply opt_field_enc. Qed.

(** The members of [enc_command] as one list of optional members. *)
Definition command_members (c : CommandPayload) : list (string * option json) :=
  [("command_id", Some (JStr (cmd_command_id c)));
   ("action", Some (JStr (action_name (cmd_action c))));
   ("server_id", Some (JStr (cmd_server_id c)));
   ("container_id", JStr <$> cmd_container_id c);
   ("spec", enc_spec <$> cmd_spec c);
   ("image", JStr <$> cmd_image c);
   ("input", JStr <$> cmd_input c);
   ("path", JStr <$> cmd_path c);
   ("new_path", JStr <$> cmd_new_path c);
   ("content_base64", JStr <$> cmd_content_base64 c);
   ("database_name", JStr <$> cmd_database_name c);
   ("database_user", JStr <$> cmd_database_user c);
   ("database_password", JStr <$> cmd_database_password c)].

Lemma skip_none_fmap {A} n (e : A -> json) (o : option A) :
  skip_none n e o = skip_none n (fun j => j) (e <$> o).
Proof. by destruct o. Qed.

Lemma enc_command_members c : enc_command c = JObj (present (command_members c)).
Proof.
  unfold enc_command. do 2 f_equal. rewrite !(skip_none_fmap _ JStr), (skip_none_fmap _ enc_spec).
  unfold present, command_members. cbn [map concat fst snd]. by rewrite app_nil_r.
Qed.

Lemma dec_command_enc c :
  (forall s, cmd_spec c = Some s ->
     in_i64 (spec_memory_bytes s) /\ in_i64 (spec_nano_cpus s)) ->
  dec_command (enc_command c) = Some c.
Proof.
  intros Hs. rewrite enc_command_members. unfold dec_command.
  match goal with |- context [field_values ?n _] =>
    change n with (map fst (command_members c)) end.
  rewrite field_values_present by (apply (bool_decide_unpack _); vm_compute; done).
  unfold command_members. cbn [map snd required mbind option_bind dec_string].
  rewrite dec_action_enc. cbn [option_bind].
  rewrite !opt_field_string. cbn [option_bind].
  rewrite (opt_field_enc enc_spec dec_spec (cmd_spec c)).
  - cbn [option_bind]. by destruct c.
  - intros s Hcs. split; [|done]. apply dec_spec_enc; by apply Hs.
Qed.

(** The fields a panel may send as [null]. *)
Definition nullable : list string := ["cmd"; "env"; "binds"; "port_bindings"; "labels"].

Lemma or_null_default {A} (def : A) (d : dec A) (v : option json) :
  v = None \/ v = Some JNull -> or_default def (null_default def d) v = Some def.
Proof. by intros [-> | ->]. Qed.

(** ** Properties *)

(** In a container spec a collection sent as [null] means the same as one
    that is left out: the decoded spec, or the failure, is the same with the
    null member and without it. *)
Theorem null_collection_is_absent field kvs :
  field ∈ nullable -> member field kvs = None ->
  dec_spec (JObj ((field, JNull) :: kvs)) = dec_spec (JObj kvs).
Proof.
  intros Hf Hm. unfold dec_spec.
  destruct (field_values _ (JObj kvs)) as [vs|] eqn:Hv.
  - rewrite (field_values_cons _ _ _ _ _ Hv Hm).
    assert (Hvs : vs = map (fun n => member n kvs)
      ["name"; "image"; "cmd"; "env"; "working_dir"; "binds";
       "port_bindings"; "memory_bytes"; "nano_cpus"; "labels"])
      by (unfold field_values in Hv; by case_match; simplify_eq).
    subst vs. unfold nullable in Hf. set_unfold in Hf.
    destruct Hf as [-> | [-> | [-> | [-> | [-> | []]]]]]; cbn [map];
      rewrite Hm; repeat first [rewrite decide_True by done | rewrite decide_False by done];
      done.
  - assert (Hn : field_values ["name"; "image"; "cmd"; "env"; "working_dir"; "binds";
      "port_bindings"; "memory_bytes"; "nano_cpus"; "labels"]
      (JObj ((field, JNull) :: kvs)) = None); [|by rewrite Hn].
    unfold field_values in Hv |- *. destruct (forallb _ _) eqn:E in Hv; [done|].
    case_match eqn:E'; [exfalso|done].
    apply not_true_iff_false in E. apply E, forallb_forall. intros n Hn.
    rewrite forallb_forall in E'. specialize (E' n Hn).
    apply Nat.leb_le. apply Nat.leb_le in E'. etrans; [|exact E'].
    destruct (decide (field = n)) as [->|Hne].
    + rewrite filter_cons_True by done. cbn. lia.
    + by rewrite filter_cons_False.
Qed.

Lemma null_collection_is_absent_witness :
  dec_spec (JObj [("cmd", JNull); ("name", JStr "sky-s1"); ("image", JStr "itzg/mc")])
    = Some (Build_ContainerSpec "sky-s1" "itzg/mc" [] [] "" [] [] 0 0 ∅).
Proof.
  rewrite (null_collection_is_absent "cmd" [("name", JStr "sky-s1"); ("image", JStr "itzg/mc")]);
    [reflexivity|by apply (bool_decide_unpack _)|reflexivity].
Defined.
