(* ===== verification/Envelope.v ===== *)
(** * Signed envelopes (protocol/src/sign.rs and protocol/src/envelope.rs)

    The hash, the MAC, the hex encoding and the constant-time comparison are
    the interface [Crypto]; the clock reading and the random bytes are
    arguments. *)

From S2P Require Import Prelude RustStr Json Crypto Instances.
From stdpp Require Import options.
Set Default Proof Using "Type*".

(** ** protocol/src/sign.rs *)

Section sign.
Context `{Crypto}.

Definition canonical_string (kind : string) (timestamp : Z) (nonce : string)
    (payload_bytes : list byte) : string :=
  let payload_hash := hex_encode (sha256 payload_bytes) in
  kind +:+ "." +:+ pretty timestamp +:+ "." +:+ nonce +:+ "." +:+ payload_hash.

Definition sign (secret : list byte) (kind : string) (timestamp : Z) (nonce : string)
    (payload_bytes : list byte) : string :=
  let canonical := canonical_string kind timestamp nonce payload_bytes in
  hex_encode (hmac_sha256 secret (as_bytes canonical)).

Definition verify_sig (secret : list byte) (kind : string) (timestamp : Z) (nonce : string)
    (payload_bytes : list byte) (sig_hex : string) : bool :=
  let expected := sign secret kind timestamp nonce payload_bytes in
  ct_eq (as_bytes expected) (as_bytes sig_hex).
End sign.

(** ** protocol/src/envelope.rs *)

(** [payload] is the raw JSON text. *)
Record Envelope := {
  env_kind : string;
  env_timestamp : Z;
  env_nonce : string;
  env_payload : string;
  env_sig : string;
}.

Global Instance Envelope_eq_dec : EqDecision Envelope.
Proof. solve_decision. Defined.

Definition MAX_CLOCK_SKEW_SECS : Z := 30.

(** [now_unix]: the wall clock, in nanoseconds since the epoch, as whole seconds;
    [None] is the panic of a clock before it. *)
Definition now_unix (clock : Z) : option Z :=
  if (clock <? 0)%Z then None else Some (wrap_i64 (wrap_u64 (clock / 10 ^ 9))).

Section envelope.
Context `{Crypto} `{SerdeJson}.

(** 16 random bytes, hex-encoded. *)
Definition random_nonce (rand : list byte) : string := hex_encode rand.

(** [Envelope::signed]: [payload] is the tree of the value to serialise, [now]
    the clock and [rand] the random bytes read during the call. *)
Definition signed (secret : list byte) (kind : string) (payload : json)
    (now : Z) (rand : list byte) : result Envelope :=
  payload_bytes ← to_text payload;
  let timestamp := now in
  let nonce := random_nonce rand in
  let sig := sign secret kind timestamp nonce (as_bytes payload_bytes) in
  raw ← raw_value payload_bytes;
  Ok {| env_kind := kind; env_timestamp := timestamp; env_nonce := nonce;
        env_payload := raw; env_sig := sig |}.

(** [timestamp_is_fresh]: the subtraction and [abs] are [i64] operations;
    [None] is their overflow panic. *)
Definition timestamp_is_fresh (p : profile) (now : Z) (e : Envelope) : option bool :=
  d ← arith_i64 p (now - env_timestamp e);
  a ← arith_i64 p (Z.abs d);
  Some (bool_decide (a <= MAX_CLOCK_SKEW_SECS)%Z).

Definition verify (p : profile) (now : Z) (secret : list byte) (e : Envelope) : option bool :=
  fresh ← timestamp_is_fresh p now e;
  if negb fresh then Some false
  else Some (verify_sig secret (env_kind e) (env_timestamp e) (env_nonce e)
               (as_bytes (env_payload e)) (env_sig e)).

Definition decode_payload {A} (d : dec A) (e : Envelope) : option A :=
  from_text (env_payload e) ≫= d.
End envelope.

(** ** Lemmas *)

Definition dot : byte := "."%char.
Definition is_dot (b : byte) : bool := bool_decide (b = dot).
Definition no_dot (l : list byte) : Prop := Forall (fun b => is_dot b = false) l.

Global Instance no_dot_dec l : Decision (no_dot l).
Proof. unfold no_dot. apply _. Defined.

Lemma no_dot_digits (z : Z) : no_dot (as_bytes (pretty z)).
Proof.
  apply pretty_Z_chars; [|done]. intros b Hb. apply bool_decide_eq_false. by intros ->.
Qed.

Lemma lower_hex_no_dot l : forallb lower_hex l = true -> no_dot l.
Proof.
  induction l as [|b l IH]; [constructor|]. cbn [forallb].
  intros [Hb Hl]%andb_true_iff. constructor; [|by apply IH].
  unfold is_dot. case_bool_decide; [|done]. by subst.
Qed.

Definition dot_split (l : list byte) : list (list byte) := split_on is_dot l.

Lemma dot_split_app l k : dot_split (l ++ as_bytes "." ++ k) = dot_split l ++ dot_split k.
Proof. by apply split_on_app. Qed.

Lemma dot_split_no_dot l : no_dot l -> dot_split l = [l].
Proof. apply split_on_none. Qed.

Lemma dot_split_length l : 1 <= length (dot_split l).
Proof. destruct (dot_split l) eqn:E; [by apply split_on_ne in E|simpl; lia]. Qed.

Lemma dot_split_one l k : dot_split l = [k] -> l = k.
Proof.
  revert k. induction l as [|b l IH]; cbn; intros k Hk; [by simplify_eq|].
  destruct (is_dot b).
  - simplify_eq. by destruct (split_on_ne is_dot l).
  - destruct (split_on is_dot l) as [|q qs] eqn:E; [by apply split_on_ne in E|].
    simplify_eq. by rewrite (IH q).
Qed.

Section canonical.
Context `{CryptoLaws}.

Lemma dot_split_canonical kind ts nonce pl :
  dot_split (as_bytes (canonical_string kind ts nonce pl))
  = dot_split (as_bytes kind) ++ [as_bytes (pretty ts)] ++ dot_split (as_bytes nonce)
    ++ [as_bytes (hex_encode (sha256 pl))].
Proof.
  unfold canonical_string. rewrite !as_bytes_app, !dot_split_app.
  rewrite (dot_split_no_dot _ (no_dot_digits ts)).
  rewrite (dot_split_no_dot (as_bytes (hex_encode _))); [done|].
  apply lower_hex_no_dot, hex_encode_digits.
Qed.

(** When the first message has no dot in its kind and nonce, the four parts of
    its canonical string can be read back, whoever wrote the second message. *)
Lemma canonical_string_inj k1 t1 n1 p1 k2 t2 n2 p2 :
  no_dot (as_bytes k1) -> no_dot (as_bytes n1) ->
  canonical_string k1 t1 n1 p1 = canonical_string k2 t2 n2 p2 ->
  k1 = k2 /\ t1 = t2 /\ n1 = n2 /\ sha256 p1 = sha256 p2.
Proof.
  intros Hk Hn Heq. apply (f_equal (fun s => dot_split (as_bytes s))) in Heq.
  rewrite !dot_split_canonical in Heq.
  rewrite (dot_split_no_dot _ Hk), (dot_split_no_dot _ Hn) in Heq.
  pose proof (dot_split_length (as_bytes k2)) as L1.
  pose proof (dot_split_length (as_bytes n2)) as L2.
  assert (length (dot_split (as_bytes k2)) = 1 /\ length (dot_split (as_bytes n2)) = 1)
    as [E1 E2].
  { apply (f_equal length) in Heq. rewrite !length_app in Heq. simpl in Heq. lia. }
  destruct (dot_split (as_bytes k2)) as [|q1 [|]] eqn:D1; try done.
  destruct (dot_split (as_bytes n2)) as [|q2 [|]] eqn:D2; try done.
  apply dot_split_one in D1 as <-. apply dot_split_one in D2 as <-.
  by simplify_eq/=.
Qed.

Lemma verify_sig_spec secret k t n pl sig :
  verify_sig secret k t n pl sig = true <-> sig = sign secret k t n pl.
Proof.
  unfold verify_sig. rewrite ct_eq_spec. split; [|by intros ->].
  intros Heq%(inj as_bytes). done.
Qed.
End canonical.

Lemma timestamp_is_fresh_exact p now e :
  in_i64 (now - env_timestamp e) -> (now - env_timestamp e)%Z <> i64_min ->
  timestamp_is_fresh p now e
    = Some (bool_decide (Z.abs (now - env_timestamp e) <= MAX_CLOCK_SKEW_SECS)%Z).
Proof.
  intros Hin Hne. unfold timestamp_is_fresh.
  rewrite arith_i64_id by done. simpl. rewrite arith_i64_id; [done|].
  unfold in_i64, i64_min, i64_max in *. lia.
Qed.

(** Without overflow checks the subtraction and [abs] wrap; the one difference
    whose [abs] stays negative is [i64::MIN]. *)
Lemma timestamp_is_fresh_wrapping now e :
  (0 <= now < 2 ^ 62)%Z -> in_i64 (env_timestamp e) ->
  timestamp_is_fresh Wrapping now e
    = Some (bool_decide (Z.abs (now - env_timestamp e) <= MAX_CLOCK_SKEW_SECS
                         \/ env_timestamp e = now - 2 ^ 63)%Z).
Proof.
  intros Hnow Hts. unfold timestamp_is_fresh, arith_i64, in_i64 in *.
  unfold wrap_i64, MAX_CLOCK_SKEW_SECS, i64_min, i64_max in *.
  set (d := (now - env_timestamp e)%Z).
  assert (Hd : (- 2 ^ 63 < d < 2 ^ 63 + 2 ^ 62)%Z) by lia.
  destruct (decide (d <= 2 ^ 63 - 1)%Z) as [Hsmall|Hbig].
  - rewrite bool_decide_true by lia. simpl. rewrite bool_decide_true by lia. simpl.
    f_equal. apply bool_decide_ext. lia.
  - rewrite bool_decide_false by lia. simpl.
    assert (Hw : ((d + 2 ^ 63) mod 2 ^ 64 = d - 2 ^ 63)%Z).
    { replace (d + 2 ^ 63)%Z with (d - 2 ^ 63 + 1 * 2 ^ 64)%Z by lia.
      rewrite Z.mod_add by lia. apply Z.mod_small. lia. }
    rewrite Hw. destruct (decide (d = 2 ^ 63)%Z) as [E|E].
    + rewrite E. transitivity (Some true); [vm_compute; reflexivity|].
      f_equal. symmetry. apply bool_decide_true. lia.
    + rewrite bool_decide_true by lia. simpl. f_equal. apply bool_decide_ext. lia.
Qed.

Lemma signed_inv `{CryptoLaws} `{SerdeJsonLaws} secret kind payload now rand e :
  signed secret kind payload now rand = Ok e ->
  to_text payload = Ok (env_payload e) /\ env_kind e = kind /\ env_timestamp e = now /\
  env_nonce e = random_nonce rand /\
  verify_sig secret kind now (env_nonce e) (as_bytes (env_payload e)) (env_sig e) = true.
Proof.
  unfold signed. destruct (to_text payload) as [text|] eqn:Ht; [|done]. cbn [mbind result_bind].
  rewrite (raw_value_text payload text) by done. intros [= <-]. cbn. split_and!; try done.
  by apply verify_sig_spec.
Qed.

Lemma verify_exact `{Crypto} p now secret e :
  (Z.abs (now - env_timestamp e) <= MAX_CLOCK_SKEW_SECS)%Z ->
  verify p now secret e
    = Some (verify_sig secret (env_kind e) (env_timestamp e) (env_nonce e)
              (as_bytes (env_payload e)) (env_sig e)).
Proof.
  intros Hskew. unfold verify. rewrite timestamp_is_fresh_exact.
  - by rewrite bool_decide_true.
  - unfold in_i64, i64_min, i64_max, MAX_CLOCK_SKEW_SECS in *. lia.
  - unfold i64_min, MAX_CLOCK_SKEW_SECS in *. lia.
Qed.

Lemma now_unix_range clock now :
  (clock < 2 ^ 62 * 10 ^ 9)%Z -> now_unix clock = Some now ->
  now = (clock / 10 ^ 9)%Z /\ (0 <= now < 2 ^ 62)%Z.
Proof.
  intros Hc. unfold now_unix. destruct (Z.ltb_spec clock 0) as [|H0]; [done|]. intros [= <-].
  assert (Hs : (0 <= clock / 10 ^ 9 < 2 ^ 62)%Z).
  { split; [apply Z.div_pos; lia|apply Z.div_lt_upper_bound; lia]. }
  rewrite wrap_u64_id by (unfold in_u64, u64_max; lia).
  unfold wrap_i64. rewrite Z.mod_small by lia. lia.
Qed.

Lemma checked_freshness `{Crypto} now secret e :
  (0 <= now < 2 ^ 62)%Z -> in_i64 (env_timestamp e) ->
  (verify Checked now secret e = None <-> (env_timestamp e < now - i64_max)%Z) /\
  (forall b, timestamp_is_fresh Checked now e = Some b ->
     b = bool_decide (Z.abs (now - env_timestamp e) <= MAX_CLOCK_SKEW_SECS)%Z).
Proof.
  intros Hnow Hts. unfold verify.
  destruct (decide (env_timestamp e < now - i64_max)%Z) as [Hlow|Hok].
  - assert (timestamp_is_fresh Checked now e = None) as ->; [|split; done].
    unfold timestamp_is_fresh, arith_i64. rewrite bool_decide_false; [done|].
    unfold i64_max in *. lia.
  - rewrite timestamp_is_fresh_exact by (unfold in_i64, i64_min, i64_max in *; lia).
    split; [|by intros b [= <-]]. split; [|done]. cbn. by case_bool_decide.
Qed.

(** ** Properties *)

(** What the daemon signs verifies. Whenever the payload serialises,
    [Envelope::signed] returns an envelope that carries exactly the serialised
    text, and [verify] with the same secret accepts it at every clock reading
    within thirty seconds of the signing time, in either build profile. *)
Theorem signed_verifies `{CryptoLaws} `{SerdeJsonLaws} p secret kind payload text now now' rand :
  to_text payload = Ok text ->
  (Z.abs (now' - now) <= MAX_CLOCK_SKEW_SECS)%Z ->
  exists e, signed secret kind payload now rand = Ok e /\
    env_kind e = kind /\ env_payload e = text /\ env_timestamp e = now /\
    verify p now' secret e = Some true.
Proof.
  intros Ht Hskew. destruct (signed secret kind payload now rand) as [e|] eqn:Hs.
  2: { unfold signed in Hs. rewrite Ht in Hs. cbn [mbind result_bind] in Hs.
       by rewrite (raw_value_text payload text) in Hs. }
  apply signed_inv in Hs as (Ht' & <- & <- & _ & Hv). exists e.
  split_and!; try done; [congruence|]. by rewrite verify_exact, Hv.
Qed.

Lemma signed_verifies_witness :
  exists e, signed (as_bytes "secret") "event" JNull 1700000000 (as_bytes "0123456789abcdef") = Ok e /\
    env_kind e = "event" /\ env_payload e = "null" /\
    env_timestamp e = 1700000000%Z /\
    verify Wrapping 1700000030 (as_bytes "secret") e = Some true.
Proof.
  apply (signed_verifies Wrapping (as_bytes "secret") "event" JNull _ 1700000000 1700000030);
    [reflexivity|vm_compute; discriminate].
Defined.

(** C3: a signature pins down one message. If a signature made for a message
    whose kind and nonce have no dot (all the daemon and panel send) also
    verifies for another kind, timestamp, nonce or payload, however chosen, then
    the two payloads collide under SHA-256 or the two canonical strings collide
    under HMAC-SHA256: moving bytes between the fields never helps. *)
Theorem forgery_is_collision `{CryptoLaws} secret k1 t1 n1 p1 k2 t2 n2 p2 :
  no_dot (as_bytes k1) -> no_dot (as_bytes n1) ->
  verify_sig secret k2 t2 n2 p2 (sign secret k1 t1 n1 p1) = true ->
  (k1 = k2 /\ t1 = t2 /\ n1 = n2 /\ p1 = p2) \/
  (p1 <> p2 /\ sha256 p1 = sha256 p2) \/
  (canonical_string k1 t1 n1 p1 <> canonical_string k2 t2 n2 p2 /\
   hmac_sha256 secret (as_bytes (canonical_string k1 t1 n1 p1))
     = hmac_sha256 secret (as_bytes (canonical_string k2 t2 n2 p2))).
Proof.
  intros Hk Hn Hv%verify_sig_spec. unfold sign in Hv. apply (inj hex_encode) in Hv.
  destruct (decide (canonical_string k1 t1 n1 p1 = canonical_string k2 t2 n2 p2))
    as [E|E]; [|by eauto].
  apply canonical_string_inj in E as (-> & -> & -> & Hp); [|done..].
  destruct (decide (p1 = p2)) as [->|Hne]; [by left|]. by right; left.
Qed.

(** A weak hash does collide on these two payloads. *)
Lemma forgery_is_collision_witness :
  let p1 := as_bytes "a" in
  let p2 := ["Z"%char; "000"%char] in
  let _ : Crypto := weak_crypto in
  verify_sig (as_bytes "k") "command" 5 "ab" p2 (sign (as_bytes "k") "command" 5 "ab" p1) = true /\
  p1 <> p2 /\ sha256 p1 = sha256 p2.
Proof.
  intros p1 p2 C. split; [vm_compute; reflexivity|].
  destruct (@forgery_is_collision weak_crypto (crypto_with_laws _ _) (as_bytes "k") "command" 5 "ab" p1 "command" 5 "ab" p2)
    as [(_ & _ & _ & E)|[E|[E _]]];
    [apply (bool_decide_unpack _); vm_compute; exact I
    |apply (bool_decide_unpack _); vm_compute; exact I
    |vm_compute; reflexivity|discriminate E|exact E|by destruct E].
Defined.

(** C34: the freshness test, with the clock and the [i64] arithmetic written out,
    for every clock reading of the next [2^62] seconds. A clock before 1970
    panics. Otherwise, without overflow checks (release builds) a timestamp
    passes exactly when it is within thirty seconds of now, or is [now - 2^63],
    where the difference wraps to [i64::MIN] whose [abs] stays negative. With
    overflow checks (debug builds) a timestamp more than [i64::MAX] seconds
    before now panics the verifier, before the signature is looked at, and
    otherwise the thirty seconds are enforced exactly. *)
Theorem freshness_spec `{Crypto} p clock secret e :
  (clock < 2 ^ 62 * 10 ^ 9)%Z -> in_i64 (env_timestamp e) ->
  match now_unix clock with
  | None => (clock < 0)%Z
  | Some now =>
      now = (clock / 10 ^ 9)%Z /\
      let close := (Z.abs (now - env_timestamp e) <= MAX_CLOCK_SKEW_SECS)%Z in
      match p with
      | Wrapping =>
          timestamp_is_fresh p now e
            = Some (bool_decide (close \/ env_timestamp e = now - 2 ^ 63)%Z)
      | Checked =>
          (verify p now secret e = None <-> (env_timestamp e < now - i64_max)%Z) /\
          (forall b, timestamp_is_fresh p now e = Some b -> b = bool_decide close)
      end
  end.
Proof.
  intros Hclock Hts. destruct (now_unix clock) as [now|] eqn:Hn.
  2: { unfold now_unix in Hn. destruct (Z.ltb_spec clock 0); done. }
  apply now_unix_range in Hn as [Hn Hnow]; [|done]. split; [exact Hn|]. cbv zeta.
  destruct p; [by apply checked_freshness|by rewrite timestamp_is_fresh_wrapping].
Qed.

Lemma freshness_spec_witness :
  timestamp_is_fresh Wrapping 1700000000
    (Build_Envelope "command" (1700000000 - 2 ^ 63) "ab" "{}" "") = Some true.
Proof.
  pose proof (freshness_spec Wrapping (1700000000 * 10 ^ 9) []
    (Build_Envelope "command" (1700000000 - 2 ^ 63) "ab" "{}" "")) as H.
  assert (Hn : now_unix (1700000000 * 10 ^ 9) = Some 1700000000%Z) by (vm_compute; reflexivity).
  rewrite Hn in H. destruct H as [_ H]; [lia|unfold in_i64, i64_min, i64_max; cbn; lia|].
  cbv zeta in H. rewrite H. reflexivity.
Defined.
