(* ===== verification/NonceCache.v ===== *)
(** * The replay cache (daemon/src/agent/nonce_cache.rs)

    [Instant] is a number of nanoseconds on the monotonic clock. The
    implementation keeps one timestamp per nonce and sweeps expired entries;
    the specification remembers every accepted use. *)

From S2P Require Import Prelude.
From stdpp Require Import options.

Record NonceCache := {
  seen : gmap string Z;
  ttl : Z;
}.

Definition new (ttl : Z) : NonceCache := {| seen := ∅; ttl := ttl |}.

(** [Instant::duration_since] saturates at zero. *)
Definition duration_since (now earlier : Z) : Z := Z.max 0 (now - earlier).

Definition young (now ttl : Z) (kv : string * Z) : Prop := (duration_since now kv.2 < ttl)%Z.

Global Instance young_dec now ttl kv : Decision (young now ttl kv).
Proof. unfold young. apply _. Defined.

Definition check_and_record (c : NonceCache) (now : Z) (nonce : string) : NonceCache * bool :=
  let swept := filter (young now (ttl c)) (seen c) in
  match swept !! nonce with
  | Some _ => ({| seen := swept; ttl := ttl c |}, false)
  | None => ({| seen := <[nonce := now]> swept; ttl := ttl c |}, true)
  end.

(** A run of calls, each with the clock it reads. *)
Fixpoint run_cache (c : NonceCache) (calls : list (Z * string)) : NonceCache * list bool :=
  match calls with
  | [] => (c, [])
  | (now, nonce) :: calls' =>
      let '(c', b) := check_and_record c now nonce in
      let '(c'', bs) := run_cache c' calls' in
      (c'', b :: bs)
  end.

(** ** Specification: a nonce is accepted unless it was accepted within [ttl] *)

Definition spec_accepts (ttl : Z) (hist : list (Z * string)) (now : Z) (nonce : string) : bool :=
  forallb (fun tn : Z * string => negb (bool_decide (tn.2 = nonce)) || (ttl <=? now - tn.1)%Z) hist.

Definition spec_step (ttl : Z) (hist : list (Z * string)) (now : Z) (nonce : string)
    : list (Z * string) * bool :=
  if spec_accepts ttl hist now nonce then ((now, nonce) :: hist, true) else (hist, false).

Fixpoint run_spec (ttl : Z) (hist calls : list (Z * string)) : list bool :=
  match calls with
  | [] => []
  | (now, nonce) :: calls' =>
      let '(hist', b) := spec_step ttl hist now nonce in
      b :: run_spec ttl hist' calls'
  end.

(** The monotonic clock never goes back. *)
Fixpoint monotone_from (t : Z) (calls : list (Z * string)) : Prop :=
  match calls with
  | [] => True
  | (now, _) :: calls' => (t <= now)%Z /\ monotone_from now calls'
  end.

(** ** The simulation *)

(** Every cached entry is an accepted use, and every accepted use that is still
    within [ttl] is cached. *)
Record tracks (last : Z) (hist : list (Z * string)) (c : NonceCache) : Prop := {
  tracks_sound n t : seen c !! n = Some t -> (t, n) ∈ hist;
  tracks_past n t : (t, n) ∈ hist -> (t <= last)%Z;
  tracks_complete n t : (t, n) ∈ hist -> (last - t < ttl c)%Z -> seen c !! n = Some t;
}.

Lemma tracks_new last ttl : tracks last [] (new ttl).
Proof. split; cbn; set_solver. Qed.

Lemma spec_accepts_spec ttl hist now n :
  spec_accepts ttl hist now n = true <->
  forall t, (t, n) ∈ hist -> (ttl <= now - t)%Z.
Proof.
  unfold spec_accepts. rewrite forallb_forall. split.
  - intros H t Hin%list_elem_of_In%H. cbn in Hin.
    rewrite bool_decide_true in Hin by done. by apply Z.leb_le in Hin.
  - intros H [t m] Hin%list_elem_of_In. cbn. case_bool_decide as E; [|done].
    subst. cbn. by apply Z.leb_le, H.
Qed.

(** The sweep keeps exactly what the specification still refuses. *)
Lemma swept_lookup last hist c now n :
  tracks last hist c -> (last <= now)%Z ->
  filter (young now (ttl c)) (seen c) !! n = None <->
  spec_accepts (ttl c) hist now n = true.
Proof.
  intros HR Hle. rewrite spec_accepts_spec, map_lookup_filter_None. split.
  - intros Hno t Hin. destruct (decide (ttl c <= now - t)%Z) as [|Hlt]; [done|].
    assert (Hs : seen c !! n = Some t) by (eapply tracks_complete; eauto; lia).
    destruct Hno as [Hno|Hno]; [congruence|].
    destruct (Hno t Hs). unfold young, duration_since. cbn.
    pose proof (tracks_past _ _ _ HR n t Hin). lia.
  - intros Hacc. destruct (seen c !! n) as [t|] eqn:Hs; [|by left]. right.
    intros t' [= <-]. unfold young, duration_since. cbn.
    pose proof (Hacc t (tracks_sound _ _ _ HR n t Hs)). lia.
Qed.

Lemma tracks_step last hist c now n :
  tracks last hist c -> (last <= now)%Z ->
  let '(c', b) := check_and_record c now n in
  let '(hist', b') := spec_step (ttl c) hist now n in
  b = b' /\ tracks now hist' c' /\ ttl c' = ttl c.
Proof.
  intros HR Hle. unfold check_and_record, spec_step.
  pose proof (swept_lookup last hist c now n HR Hle) as Hs.
  assert (Hkeep : forall m t, (t, m) ∈ hist -> (now - t < ttl c)%Z ->
    filter (young now (ttl c)) (seen c) !! m = Some t).
  { intros m t Hin Hlt. apply map_lookup_filter_Some. split.
    - eapply tracks_complete; eauto. lia.
    - unfold young, duration_since. cbn. pose proof (tracks_past _ _ _ HR m t Hin). lia. }
  assert (Hpast : forall m t, (t, m) ∈ hist -> (t <= now)%Z).
  { intros m t Hin. pose proof (tracks_past _ _ _ HR m t Hin). lia. }
  destruct (filter _ _ !! n) as [t0|] eqn:Hn.
  - destruct (spec_accepts _ _ _ _) eqn:Ha; [naive_solver|]. split_and!; [done| |done].
    split; cbn; eauto. intros m t [Hm _]%map_lookup_filter_Some.
    eapply tracks_sound; eauto.
  - rewrite (proj1 Hs eq_refl). split_and!; [done| |done]. split; cbn.
    + intros m t. rewrite lookup_insert. case_decide as E.
      * intros [= <-]. subst. set_solver.
      * intros [Hm _]%map_lookup_filter_Some. apply elem_of_cons. right.
        eapply tracks_sound; eauto.
    + intros m t [[= -> ->]|Hin]%elem_of_cons; [lia|eauto].
    + intros m t [[= -> ->]|Hin]%elem_of_cons Hlt; [by rewrite lookup_insert_eq|].
      destruct (decide (n = m)) as [->|Hne]; [|rewrite lookup_insert_ne by done; eauto].
      exfalso. pose proof (proj1 (spec_accepts_spec _ _ _ _) (proj1 Hs eq_refl) t Hin). lia.
Qed.

Lemma run_cache_spec last hist c calls :
  tracks last hist c -> monotone_from last calls ->
  (run_cache c calls).2 = run_spec (ttl c) hist calls.
Proof.
  revert last hist c. induction calls as [|[now n] calls IH]; intros last hist c HR Hm; [done|].
  destruct Hm as [Hle Hm]. simpl. pose proof (tracks_step last hist c now n HR Hle) as Hstep.
  destruct (check_and_record c now n) as [c' b], (spec_step _ _ _ _) as [hist' b'].
  destruct Hstep as (<- & HR' & Httl). specialize (IH now hist' c' HR' Hm).
  destruct (run_cache c' calls) as [c'' bs]. cbn in *. by rewrite <- Httl, IH.
Qed.

(** ** Properties *)

(** C5: over every run of calls on a clock that does not go back, the cache
    answers as the specification that remembers all accepted uses: a nonce is
    accepted exactly when it was not accepted within the last [ttl]. Sweeping
    entries never re-admits a replay and never refuses a fresh nonce. *)
Theorem nonce_cache_refines ttl start calls :
  monotone_from start calls ->
  (run_cache (new ttl) calls).2 = run_spec ttl [] calls.
Proof. apply (run_cache_spec start [] (new ttl)), tracks_new. Qed.

Lemma nonce_cache_refines_witness :
  (run_cache (new 30) [(0%Z, "abc"); (10%Z, "abc"); (29%Z, "b"); (30%Z, "abc")]).2
    = [true; false; true; true].
Proof.
  rewrite (nonce_cache_refines 30 0 [(0%Z, "abc"); (10%Z, "abc"); (29%Z, "b"); (30%Z, "abc")]);
    [vm_compute; reflexivity|cbn; lia].
Defined.

(** The cache holds only uses younger than [ttl]: after every call each
    entry was recorded less than [ttl] before the call's clock reading, so the
    map's size is bounded by the number of nonces accepted in that window. *)
Theorem nonce_cache_swept c now nonce n t :
  (0 < ttl c)%Z ->
  seen (check_and_record c now nonce).1 !! n = Some t ->
  (now - t < ttl c)%Z.
Proof.
  intros Ht. unfold check_and_record.
  assert (Hf : filter (young now (ttl c)) (seen c) !! n = Some t -> (now - t < ttl c)%Z).
  { intros [_ Hy]%map_lookup_filter_Some. unfold young, duration_since in Hy. cbn in Hy. lia. }
  destruct (filter _ _ !! nonce); cbn; [done|].
  rewrite lookup_insert. case_decide; [|done]. intros [= <-]. lia.
Qed.

Lemma nonce_cache_swept_witness :
  (40 - 40 < 30)%Z /\
  seen (check_and_record {| seen := {["old" := 5%Z]}; ttl := 30 |} 40 "abc").1 !! "old" = None.
Proof.
  split; [|vm_compute; reflexivity].
  apply (nonce_cache_swept {| seen := {["old" := 5%Z]}; ttl := 30 |} 40 "abc" "abc" 40);
    [reflexivity|vm_compute; reflexivity].
Defined.
