(* ===== verification/Config.v ===== *)
(** * Configuration (daemon/src/config.rs)

    The process environment is a function from variable names to values;
    [None] stands for both errors of [std::env::var], an unset variable and one
    that is not Unicode. Durations are whole seconds. *)

From S2P Require Import Prelude RustStr.
From stdpp Require Import options.

Inductive FirewallMode := Off | Auto | Sudo.

Global Instance FirewallMode_eq_dec : EqDecision FirewallMode.
Proof. solve_decision. Defined.

Definition from_env_str (s : string) : FirewallMode :=
  let v := to_ascii_lowercase (trim s) in
  if bool_decide (v ∈ ["off"; "disabled"; "false"; "0"; "none"]) then Off
  else if bool_decide (v = "sudo") then Sudo
  else Auto.

Record DatabaseConfig := {
  admin_host : string;
  admin_port : Z;
  admin_user : string;
  admin_password : string;
  db_public_host : string;
  db_public_port : Z;
}.

Record Config := {
  panel_ws_url : string;
  node_token : string;
  docker_socket : string;
  heartbeat_interval : Z;
  volumes_root : string;
  backups_root : string;
  container_dns : list string;
  manage_firewall : FirewallMode;
  database : option DatabaseConfig;
}.

Section env.
Variable var : string -> option string.

Definition env_or (key fallback : string) : string := default fallback (var key).

(** [std::env::var(key).unwrap_or_default()] *)
Definition var_or_default (key : string) : string := default "" (var key).

Definition env_list (key fallback : string) : list string :=
  filter (fun s => s <> "") (trim <$> split_char ","%char (env_or key fallback)).

Definition env_duration_secs (key : string) (fallback : Z) : Z :=
  default fallback (var key ≫= parse_u64).

Definition env_u16 (key : string) (fallback : Z) : Z :=
  default fallback (var key ≫= parse_u16).

(** [DatabaseConfig::from_env] *)
Definition database_from_env : option DatabaseConfig :=
  let admin_user := var_or_default "SKY_DB_ADMIN_USER" in
  if is_empty admin_user then None else
  let admin_host := env_or "SKY_DB_ADMIN_HOST" "127.0.0.1" in
  let public_host :=
    let h := var_or_default "SKY_DB_PUBLIC_HOST" in
    if is_empty h then admin_host else h in
  let admin_port := env_u16 "SKY_DB_ADMIN_PORT" 3306 in
  Some {| admin_host := admin_host;
          admin_port := admin_port;
          admin_user := admin_user;
          admin_password := var_or_default "SKY_DB_ADMIN_PASSWORD";
          db_public_host := public_host;
          db_public_port := env_u16 "SKY_DB_PUBLIC_PORT" admin_port |}.

(** [Config::from_env] *)
Definition from_env : Config :=
  {| panel_ws_url := env_or "SKY_PANEL_WS_URL" "ws://127.0.0.1:8080/agent/ws";
     node_token := var_or_default "SKY_NODE_TOKEN";
     docker_socket := env_or "SKY_DOCKER_SOCKET" "/var/run/docker.sock";
     heartbeat_interval := env_duration_secs "SKY_HEARTBEAT_INTERVAL" 5;
     volumes_root := env_or "SKY_VOLUMES_ROOT" "/srv/sky-panel/volumes";
     backups_root := env_or "SKY_BACKUPS_ROOT" "/srv/sky-panel/backups";
     container_dns := env_list "SKY_CONTAINER_DNS" "1.1.1.1,8.8.8.8";
     manage_firewall := from_env_str (env_or "SKY_MANAGE_FIREWALL" "auto");
     database := database_from_env |}.

(** ** Lemmas *)

Lemma from_str_radix_range radix max l v :
  (0 <= radix)%Z -> from_str_radix radix max l = Some v -> (0 <= v <= max)%Z.
Proof.
  intros Hr. unfold from_str_radix.
  assert (Hd : forall ds acc w, (0 <= acc)%Z -> digits_val radix acc ds = Some w -> (0 <= w)%Z).
  { induction ds as [|b ds IH]; cbn; intros acc w Ha Hw; simplify_eq; [done|].
    destruct (digit_val radix b) as [d|] eqn:Eb; [|done].
    apply (IH _ _) in Hw; [done|].
    assert (0 <= d)%Z; [|nia].
    unfold digit_val in Eb. pose proof (byte_val_range b).
    unfold is_ascii_digit, is_ascii_lowercase, is_ascii_uppercase, in_range in Eb.
    repeat (case_match; simplify_eq); lia. }
  assert (Hc : forall ds, match digits_val radix 0 ds with
                          | Some w => if (w <=? max)%Z then Some w else None
                          | None => None
                          end = Some v -> (0 <= v <= max)%Z).
  { intros ds. destruct (digits_val radix 0 ds) as [w|] eqn:Hw; [|done].
    destruct (Z.leb_spec w max); intros; simplify_eq. split; [|done].
    eapply Hd; [|done]. lia. }
  assert (Hn : forall ds, match ds with [] => None | _ => match digits_val radix 0 ds with
                          | Some w => if (w <=? max)%Z then Some w else None
                          | None => None
                          end end = Some v -> (0 <= v <= max)%Z).
  { intros [|b ds]; [done|apply Hc]. }
  apply Hn.
Qed.

Lemma parse_u16_range s v : parse_u16 s = Some v -> (0 <= v <= u16_max)%Z.
Proof. by apply from_str_radix_range. Qed.
Lemma parse_u64_range s v : parse_u64 s = Some v -> (0 <= v <= u64_max)%Z.
Proof. by apply from_str_radix_range. Qed.

Lemma env_u16_range key d : (0 <= d <= u16_max)%Z -> (0 <= env_u16 key d <= u16_max)%Z.
Proof.
  intros Hd. unfold env_u16. destruct (var key) as [s|]; cbn; [|done].
  destruct (parse_u16 s) eqn:E; cbn; [by eapply parse_u16_range|done].
Qed.

(** ** Properties *)

(** Database provisioning is configured exactly when the admin user is set
    and not empty; then the ports are valid [u16]s, the public address falls
    back to the admin one, and a malformed or out-of-range port counts as
    unset. *)
Theorem database_configured :
  match database (from_env) with
  | None => default "" (var "SKY_DB_ADMIN_USER") = ""
  | Some d =>
      var "SKY_DB_ADMIN_USER" = Some (admin_user d) /\ admin_user d <> "" /\
      (0 <= admin_port d <= u16_max)%Z /\ (0 <= db_public_port d <= u16_max)%Z /\
      (default "" (var "SKY_DB_PUBLIC_HOST") = "" -> db_public_host d = admin_host d) /\
      (var "SKY_DB_PUBLIC_PORT" ≫= parse_u16 = None -> db_public_port d = admin_port d) /\
      (var "SKY_DB_ADMIN_PORT" ≫= parse_u16 = None -> admin_port d = 3306%Z)
  end.
Proof.
  cbn [database from_env]. unfold database_from_env, var_or_default.
  destruct (var "SKY_DB_ADMIN_USER") as [u|] eqn:Hu; [|done]. cbn [default].
  destruct u as [|c u]; [done|]. cbn [is_empty].
  assert (Hp : (0 <= env_u16 "SKY_DB_ADMIN_PORT" 3306 <= u16_max)%Z) by (by apply env_u16_range).
  simpl. split; [done|]. split; [done|]. split; [done|].
  split; [by apply env_u16_range|]. unfold env_u16.
  split_and!; by intros ->.
Qed.
End env.
