(* ===== verification/Firewall.v ===== *)
(** * Host firewall automation (daemon/src/runtime/firewall.rs)

    The processes that run and the log lines that are written are recorded;
    which files exist and how a process ends are the environment's choice. *)

From S2P Require Import Prelude RustStr Payloads Config.
From stdpp Require Import options.

(** [ports_from_bindings]: the loop over the bindings, [out] its accumulator. *)
Definition push_port (out : list Z) (b : PortBinding) : list Z :=
  match parse_u16 (pb_host_port b) with
  | Some p => if (p =? 0)%Z || bool_decide (p ∈ out) then out else out ++ [p]
  | None => out
  end.
Definition ports_from_bindings (bindings : list PortBinding) : list Z :=
  foldl push_port [] bindings.

Definition UFW_PATHS : list string := ["/usr/sbin/ufw"; "/sbin/ufw"; "/usr/bin/ufw"; "/bin/ufw"].

Inductive log_line :=
| Info_opened (port : Z)
| Debug_failed (ports : list Z) (detail : string)
| Warn_failed (ports : list Z) (detail : string).

(** The process-wide [WARNED] flag, what was spawned and logged, and how long was
    waited for processes, in milliseconds. *)
Record FwState := {
  warned : bool;
  spawned : list (string * list string);
  fw_log : list log_line;
  waited : Z;
}.

Definition log_fw (l : log_line) (s : FwState) : FwState :=
  {| warned := warned s; spawned := spawned s; fw_log := fw_log s ++ [l]; waited := waited s |}.

Definition warn_once (ports : list Z) (detail : string) (s : FwState) : FwState :=
  {| warned := true;
     spawned := spawned s;
     fw_log := fw_log s ++ [if warned s then Debug_failed ports detail
                            else Warn_failed ports detail];
     waited := waited s |}.

Definition UFW_TIMEOUT : Z := 8000.

(** How [Command::output] ends: the exit code ([None]: killed by a signal), or
    the error of starting the process; and after how many milliseconds. [None]
    is a process that does not end. *)
Abbreviation ending := (option (Z * (option Z + string))).

(** [ExitStatus::success]. *)
Definition success (code : option Z) : bool := bool_decide (code = Some 0%Z).

Section open.
(** [Path::exists], and how a process ends, which may depend on what ran
    before. *)
Variable exists_path : string -> bool.
Variable run_command : list (string * list string) -> string -> list string -> ending.
Variable target_is_linux : bool.

Definition ufw_bin : option string := head (filter (fun p => exists_path p = true) UFW_PATHS).

Definition ufw_command (mode : FirewallMode) (bin : string) (port : Z) : string * list string :=
  match mode with
  | Sudo => ("sudo", ["-n"; bin; "allow"; pretty port])
  | _ => (bin, ["allow"; pretty port])
  end.

(** [run]: [tokio::time::timeout] around the process; the time that passed, and
    the outcome. *)
Definition run (cmd : string) (args : list string) (s : FwState) : FwState * (bool + string) :=
  let history := spawned s ++ [(cmd, args)] in
  let '(elapsed, r) :=
    match run_command history cmd args with
    | Some (t, o) =>
        if (t <=? UFW_TIMEOUT)%Z
        then (Z.max 0 t, match o with inl code => inl (success code) | inr e => inr e end)
        else (UFW_TIMEOUT, inr "timed out")
    | None => (UFW_TIMEOUT, inr "timed out")
    end in
  ({| warned := warned s; spawned := history; fw_log := fw_log s; waited := waited s + elapsed |}, r).

Definition open_port (mode : FirewallMode) (bin : string) (s : FwState) (port : Z) : FwState :=
  let c := ufw_command mode bin port in
  let '(s, r) := run c.1 c.2 s in
  match r with
  | inl true => log_fw (Info_opened port) s
  | inl false => warn_once [port] "ufw returned a non-zero status" s
  | inr e => warn_once [port] e s
  end.

Definition open_ports (mode : FirewallMode) (ports : list Z) (s : FwState) : FwState :=
  if bool_decide (mode = Off) || bool_decide (ports = []) then s
  else if negb target_is_linux then s
  else match ufw_bin with
       | None => warn_once ports "ufw is not installed" s
       | Some bin => foldl (open_port mode bin) s ports
       end.

(** ** Lemmas *)

Definition is_warning (l : log_line) : bool :=
  match l with Warn_failed _ _ => true | _ => false end.
Definition warnings (s : FwState) : nat := length (List.filter is_warning (fw_log s)).

(** At most one warning once the flag went up, none before. *)
Definition warned_once (s : FwState) : Prop := warnings s = if warned s then 1 else 0.

Lemma warn_once_inv ports detail s : warned_once s -> warned_once (warn_once ports detail s).
Proof.
  unfold warned_once, warnings, warn_once. cbn.
  rewrite List.filter_app, length_app. intros ->. by destruct (warned s).
Qed.

Lemma run_spec cmd args s :
  let s' := (run cmd args s).1 in
  warned s' = warned s /\ fw_log s' = fw_log s /\ spawned s' = spawned s ++ [(cmd, args)] /\
  (waited s <= waited s' <= waited s + UFW_TIMEOUT)%Z.
Proof.
  unfold run, UFW_TIMEOUT. destruct (run_command _ cmd args) as [[t o]|]; cbn;
    [destruct (Z.leb_spec t 8000); cbn|]; split_and!; try done; lia.
Qed.

Lemma open_port_spec mode bin s port :
  let s' := open_port mode bin s port in
  (warned_once s -> warned_once s') /\
  spawned s' = spawned s ++ [ufw_command mode bin port] /\
  (waited s <= waited s' <= waited s + UFW_TIMEOUT)%Z.
Proof.
  unfold open_port. destruct (run_spec (ufw_command mode bin port).1 (ufw_command mode bin port).2 s)
    as (Hw & Hl & Hs & Ht).
  destruct (run _ _ s) as [s1 r]. cbn in Hw, Hl, Hs, Ht. rewrite <- surjective_pairing in Hs.
  assert (Hone : warned_once s -> warned_once s1) by (unfold warned_once, warnings; by rewrite Hw, Hl).
  split; [intros H%Hone|by destruct r as [[]|]].
  destruct r as [[]|]; [|by apply warn_once_inv..].
  unfold warned_once, warnings in *. cbn. rewrite List.filter_app, length_app. cbn. lia.
Qed.

Lemma open_all mode bin ports s :
  let s' := foldl (open_port mode bin) s ports in
  spawned s' = spawned s ++ (ufw_command mode bin <$> ports) /\
  (warned_once s -> warned_once s') /\
  (waited s <= waited s' <= waited s + UFW_TIMEOUT * Z.of_nat (length ports))%Z.
Proof.
  revert s. induction ports as [|p ports IH]; intros s; cbn [foldl].
  { cbn. rewrite app_nil_r. split_and!; [done|done|lia|lia]. }
  destruct (IH (open_port mode bin s p)) as (Hs & Hw & Ht).
  destruct (open_port_spec mode bin s p) as (Hw1 & Hs1 & Ht1). split_and!.
  - by rewrite Hs, Hs1, fmap_cons, <- app_assoc.
  - auto.
  - lia.
  - cbn [length]. unfold UFW_TIMEOUT in *. lia.
Qed.

(** ** Properties *)

(** C38: [open_ports] runs exactly one command per port, in order, and none when
    the firewall is off or ufw is missing. The program is an installed ufw or
    sudo, and a port reaches it as one decimal argument. The warning is
    written at most once for the whole process, and however the programs
    behave, one that never ends included, a container's creation waits at most
    eight seconds per port. *)
Theorem open_ports_spec mode ports s :
  warned_once s ->
  let s' := open_ports mode ports s in
  warned_once s' /\
  (waited s' <= waited s + UFW_TIMEOUT * Z.of_nat (length ports))%Z /\
  (forall bin, ufw_bin = Some bin -> bin ∈ UFW_PATHS /\ exists_path bin = true) /\
  spawned s' = spawned s ++
    match mode, target_is_linux, ufw_bin with
    | Off, _, _ | _, false, _ | _, _, None => []
    | Sudo, true, Some bin => (fun p => ("sudo", ["-n"; bin; "allow"; pretty p])) <$> ports
    | Auto, true, Some bin => (fun p => (bin, ["allow"; pretty p])) <$> ports
    end.
Proof.
  intros Hs. cbv zeta. split_and!.
  - unfold open_ports. case_match; [done|]. case_match; [done|].
    case_match; [by apply open_all|by apply warn_once_inv].
  - unfold open_ports. assert (0 <= UFW_TIMEOUT * Z.of_nat (length ports))%Z by (unfold UFW_TIMEOUT; lia).
    case_match; [lia|]. case_match; [lia|]. case_match; [|cbn; lia].
    match goal with |- context [foldl (open_port ?m ?b) s ports] =>
      destruct (open_all m b ports s) as (_ & _ & Ht) end. cbn in Ht. lia.
  - intros bin Hb. unfold ufw_bin in Hb. destruct (filter _ UFW_PATHS) as [|p l] eqn:E; [done|].
    cbn in Hb. simplify_eq. assert (Hin : bin ∈ bin :: l) by left.
    rewrite <- E in Hin. apply list_elem_of_filter in Hin. naive_solver.
  - unfold open_ports. destruct ports as [|p ports].
    { rewrite orb_true_r. by destruct mode, target_is_linux, ufw_bin; rewrite ?app_nil_r. }
    rewrite (bool_decide_false (p :: ports = [])), orb_false_r by done.
    destruct (bool_decide_reflect (mode = Off)) as [->|Hm]; [by rewrite app_nil_r|].
    destruct target_is_linux; cbn [negb]; [|by destruct mode; rewrite app_nil_r].
    destruct ufw_bin as [bin|]; [|by destruct mode; rewrite app_nil_r].
    rewrite (proj1 (open_all mode bin (p :: ports) s)). by destruct mode.
Qed.
End open.

(** A sudo that never ends. *)
Lemma open_ports_spec_witness :
  let s := open_ports (fun p => bool_decide (p = "/sbin/ufw")) (fun _ _ _ => None) true
             Sudo [25565%Z] {| warned := false; spawned := []; fw_log := []; waited := 0 |} in
  spawned s = [("sudo", ["-n"; "/sbin/ufw"; "allow"; "25565"])] /\ (waited s <= 8000)%Z.
Proof.
  assert (H0 : warned_once {| warned := false; spawned := []; fw_log := []; waited := 0 |})
    by reflexivity.
  destruct (open_ports_spec (fun p => bool_decide (p = "/sbin/ufw")) (fun _ _ _ => None) true
    Sudo [25565%Z] {| warned := false; spawned := []; fw_log := []; waited := 0 |} H0)
    as (_ & Ht & _ & H).
  split; [|exact Ht]. rewrite H. vm_compute. reflexivity.
Defined.

Lemma push_port_inv out b :
  NoDup out -> Forall (fun p => 1 <= p <= u16_max)%Z out ->
  NoDup (push_port out b) /\ Forall (fun p => 1 <= p <= u16_max)%Z (push_port out b).
Proof.
  intros Hn Hf. unfold push_port. destruct (parse_u16 _) as [p|] eqn:Ep; [|done].
  destruct (Z.eqb_spec p 0); [done|]. cbn [orb]. case_bool_decide; [done|].
  apply parse_u16_range in Ep. split.
  - apply NoDup_app. split_and!; [done|set_solver|apply NoDup_singleton].
  - rewrite Forall_app, Forall_singleton. split; [done|lia].
Qed.

Lemma ports_from_elem bs out p :
  p ∈ foldl push_port out bs <->
  p ∈ out \/ exists b, b ∈ bs /\ parse_u16 (pb_host_port b) = Some p /\ p <> 0%Z.
Proof.
  revert out. induction bs as [|b bs IH]; intros out; cbn [foldl]; [set_solver|].
  rewrite IH. unfold push_port. destruct (parse_u16 (pb_host_port b)) as [q|] eqn:Eq.
  - destruct (Z.eqb_spec q 0) as [->|Hq]; cbn [orb].
    + set_solver.
    + case_bool_decide; set_solver.
  - set_solver.
Qed.

(** [ports_from_bindings] lists each usable host port of the bindings
    exactly once, and nothing else: ports that parse as a non-zero [u16]. *)
Theorem ports_from_bindings_spec bindings :
  NoDup (ports_from_bindings bindings) /\
  forall p, p ∈ ports_from_bindings bindings <->
    (1 <= p <= u16_max)%Z /\
    exists b, b ∈ bindings /\ parse_u16 (pb_host_port b) = Some p.
Proof.
  unfold ports_from_bindings.
  assert (H : forall bs out, NoDup out -> Forall (fun p => 1 <= p <= u16_max)%Z out ->
    NoDup (foldl push_port out bs) /\ Forall (fun p => 1 <= p <= u16_max)%Z (foldl push_port out bs)).
  { induction bs as [|b bs IH]; intros out Hn Hf; [done|]. cbn [foldl].
    apply IH; by apply push_port_inv. }
  destruct (H bindings [] (NoDup_nil_2) (Forall_nil_2 _)) as [Hn Hf]. split; [done|].
  intros p. rewrite Forall_forall in Hf. split.
  - intros Hp. split; [by apply Hf|]. apply ports_from_elem in Hp as [Hp|Hp]; set_solver.
  - intros [Hr (b & Hb & Hp)]. apply ports_from_elem. right. exists b. split_and!; try done. lia.
Qed.
