(* ===== verification/Demux.v ===== *)
(** * Console output: frames and lines (daemon/src/runtime/demux.rs, and
    [pump_output] of daemon/src/runtime/docker.rs)

    The attached stream is a sequence of frames, an eight-byte header and a
    payload; the payloads of stdout and stderr form one text that is cut into
    lines. Reads return arbitrary pieces of the stream. *)

From S2P Require Import Prelude RustStr.
From stdpp Require Import options.

(** ** Frame headers *)

Definition STREAM_STDOUT : byte := "001"%char.
Definition STREAM_STDERR : byte := "002"%char.

Record FrameHeader := {
  stream_type : byte;
  size : Z;
}.

Definition u32_from_be_bytes (b0 b1 b2 b3 : byte) : Z :=
  (((byte_val b0 * 256 + byte_val b1) * 256 + byte_val b2) * 256 + byte_val b3)%Z.

Definition parse_frame_header (buf : list byte) : option FrameHeader :=
  match buf with
  | b0 :: _ :: _ :: _ :: b4 :: b5 :: b6 :: b7 :: _ =>
      Some {| stream_type := b0; size := u32_from_be_bytes b4 b5 b6 b7 |}
  | _ => None
  end.

(** ** [LineSplitter] *)

Definition LF : byte := "010"%char.
Definition CR : byte := "013"%char.
Definition is_lf (b : byte) : bool := bool_decide (b = LF).

Record LineSplitter := { ls_buf : list byte }.

Definition splitter_new : LineSplitter := {| ls_buf := [] |}.

(** [if line.last() == Some(&b'\r') { line.pop(); }] *)
Definition strip_cr (line : list byte) : list byte :=
  match last line with
  | Some b => if bool_decide (b = CR) then take (pred (length line)) line else line
  | None => line
  end.

(** The [while let Some(pos)] loop of [feed]. *)
Fixpoint drain_lines (fuel : nat) (buf : list byte) : list byte * list string :=
  match fuel with
  | 0 => (buf, [])
  | S fuel' =>
      match position is_lf buf with
      | None => (buf, [])
      | Some pos =>
          let line := strip_cr (take pos buf) in
          let '(rest, lines) := drain_lines fuel' (drop (S pos) buf) in
          (rest, from_utf8_lossy line :: lines)
      end
  end.

(** Each round removes at least one byte, so the buffer's length bounds them. *)
Definition feed (s : LineSplitter) (data : list byte) : LineSplitter * list string :=
  let buf := ls_buf s ++ data in
  let '(rest, lines) := drain_lines (S (length buf)) buf in
  ({| ls_buf := rest |}, lines).

(** ** [pump_output] *)

(** [tx]: the lines sent so far, and how many more the receiver takes before it
    is dropped ([None]: it stays). *)
Record Sender := { sent : list string; quota : option nat }.

Definition send (tx : Sender) (line : string) : Sender * bool :=
  match quota tx with
  | Some 0 => (tx, false)
  | Some (S n) => ({| sent := sent tx ++ [line]; quota := Some n |}, true)
  | None => ({| sent := sent tx ++ [line]; quota := None |}, true)
  end.

(** [for line in lines { if tx.send(line).is_err() { return; } }] *)
Fixpoint send_lines (tx : Sender) (lines : list string) : Sender * bool :=
  match lines with
  | [] => (tx, true)
  | line :: lines' =>
      let '(tx', ok) := send tx line in
      if ok then send_lines tx' lines' else (tx', false)
  end.

(** The variables of [pump_output]; [running] is false once it has returned. *)
Record Pump := {
  p_buf : list byte;
  p_splitter : LineSplitter;
  p_tx : Sender;
  running : bool;
}.

(** The inner [while let Some(header)] loop. *)
Fixpoint drain_frames (fuel : nat) (s : Pump) : Pump :=
  match fuel with
  | 0 => s
  | S fuel' =>
      match parse_frame_header (p_buf s) with
      | None => s
      | Some header =>
          if (Z.of_nat (length (p_buf s)) <? 8 + size header)%Z then s else
          let n := Z.to_nat (size header) in
          let payload := take n (drop 8 (p_buf s)) in
          let buf := drop (8 + n) (p_buf s) in
          if bool_decide (stream_type header = STREAM_STDOUT)
             || bool_decide (stream_type header = STREAM_STDERR)
          then
            let '(sp, lines) := feed (p_splitter s) payload in
            let '(tx, ok) := send_lines (p_tx s) lines in
            let s' := {| p_buf := buf; p_splitter := sp; p_tx := tx; running := ok |} in
            if ok then drain_frames fuel' s' else s'
          else
            drain_frames fuel' {| p_buf := buf; p_splitter := p_splitter s;
                                  p_tx := p_tx s; running := running s |}
      end
  end.

(** The outer loop; a read yields bytes, or [None] for an error. An empty read
    is the end of the stream. With no reads left the task waits for the next. *)
Fixpoint pump_loop (s : Pump) (reads : list (option (list byte))) : Pump :=
  let s := drain_frames (S (length (p_buf s))) s in
  if negb (running s) then s else
  match reads with
  | [] => s
  | None :: _ | Some [] :: _ =>
      {| p_buf := p_buf s; p_splitter := p_splitter s; p_tx := p_tx s; running := false |}
  | Some chunk :: reads' =>
      pump_loop {| p_buf := p_buf s ++ chunk; p_splitter := p_splitter s;
                   p_tx := p_tx s; running := true |} reads'
  end.

Definition pump_output (buf : list byte) (reads : list (option (list byte)))
    (quota : option nat) : Pump :=
  pump_loop {| p_buf := buf; p_splitter := splitter_new;
               p_tx := {| sent := []; quota := quota |}; running := true |} reads.

(** ** Specification *)

(** The lines of a text: what precedes each line feed, and what follows the
    last one. *)
Definition text_lines (text : list byte) : list string :=
  map (fun l => from_utf8_lossy (strip_cr l))
    (take (pred (length (split_on is_lf text))) (split_on is_lf text)).
Definition text_rest (text : list byte) : list byte :=
  default [] (last (split_on is_lf text)).

(** The stream a list of frames stands for, in Docker's wire format. *)
Definition u32_to_be_bytes (z : Z) : list byte :=
  map (fun n => ascii_of_N (Z.to_N n))
    [(z / 2 ^ 24) mod 256; (z / 2 ^ 16) mod 256; (z / 2 ^ 8) mod 256; z mod 256]%Z.
Definition frame (f : byte * list byte) : list byte :=
  [f.1; "000"; "000"; "000"]%char ++ u32_to_be_bytes (Z.of_nat (length f.2)) ++ f.2.
Definition frame_ok (f : byte * list byte) : Prop := (Z.of_nat (length f.2) < 2 ^ 32)%Z.

Definition console_text (frames : list (byte * list byte)) : list byte :=
  concat (map snd (filter (fun f => f.1 = STREAM_STDOUT \/ f.1 = STREAM_STDERR) frames)).

(** ** Lemmas: lines *)

Lemma text_none l :
  Forall (fun b => is_lf b = false) l -> text_lines l = [] /\ text_rest l = l.
Proof. intros H. unfold text_lines, text_rest. by rewrite (split_on_none _ _ H). Qed.

Lemma text_cons l k :
  Forall (fun b => is_lf b = false) l ->
  text_lines (l ++ LF :: k) = from_utf8_lossy (strip_cr l) :: text_lines k /\
  text_rest (l ++ LF :: k) = text_rest k.
Proof.
  intros H. unfold text_lines, text_rest.
  rewrite split_on_app, (split_on_none _ _ H) by done.
  destruct (split_on is_lf k) eqn:E; [by apply split_on_ne in E|done].
Qed.

(** Cut a text at its first line feed. *)
Lemma text_cases l :
  Forall (fun b => is_lf b = false) l \/
  exists pos, position is_lf l = Some pos /\ pos < length l /\
    Forall (fun b => is_lf b = false) (take pos l) /\
    l = take pos l ++ LF :: drop (S pos) l.
Proof.
  destruct (position is_lf l) as [pos|] eqn:Hp; [right|left; by apply position_None].
  apply position_Some in Hp as (x & Hl & Hx & Hf & Hlt).
  exists pos. unfold is_lf in Hx. apply bool_decide_eq_true in Hx as ->. done.
Qed.

Lemma text_app a b :
  text_lines (a ++ b) = text_lines a ++ text_lines (text_rest a ++ b) /\
  text_rest (a ++ b) = text_rest (text_rest a ++ b).
Proof.
  induction a as [a IH] using list_length_ind.
  destruct (text_cases a) as [Hn|(pos & _ & Hlt & Hf & Ha)].
  { destruct (text_none a Hn) as [-> ->]. done. }
  set (l := take pos a) in *. set (k := drop (S pos) a) in *.
  assert (Hk : length k < length a) by (unfold k; rewrite length_drop; lia).
  rewrite Ha, <- app_assoc. cbn [app].
  destruct (text_cons l (k ++ b) Hf) as [-> ->], (text_cons l k Hf) as [-> ->].
  destruct (IH k Hk) as [-> ->]. done.
Qed.

Lemma drain_lines_spec fuel buf :
  length buf < fuel -> drain_lines fuel buf = (text_rest buf, text_lines buf).
Proof.
  revert buf. induction fuel as [|fuel IH]; intros buf Hlen; [lia|]. cbn [drain_lines].
  destruct (text_cases buf) as [Hn|(pos & Hp & Hlt & Hf & Hb)].
  { rewrite (proj2 (position_None _ _) Hn). by destruct (text_none buf Hn) as [-> ->]. }
  rewrite Hp, IH by (rewrite length_drop; lia).
  destruct (text_cons _ (drop (S pos) buf) Hf) as [Hl Hr]. rewrite <- Hb in Hl, Hr.
  by rewrite Hl, Hr.
Qed.

Lemma feed_spec s data :
  feed s data = ({| ls_buf := text_rest (ls_buf s ++ data) |}, text_lines (ls_buf s ++ data)).
Proof. unfold feed. rewrite drain_lines_spec by lia. done. Qed.

Lemma send_lines_open tx lines :
  quota tx = None ->
  send_lines tx lines = ({| sent := sent tx ++ lines; quota := None |}, true).
Proof.
  revert tx. induction lines as [|line lines IH]; intros tx Hq; simpl.
  { destruct tx. cbn in *. by rewrite Hq, app_nil_r. }
  unfold send. rewrite Hq. rewrite IH by done. simpl. by rewrite <- app_assoc.
Qed.

(** ** Lemmas: frames *)

Lemma byte_val_of_N n : (0 <= n < 256)%Z -> byte_val (ascii_of_N (Z.to_N n)) = n.
Proof. intros H. unfold byte_val. rewrite N_ascii_embedding by lia. lia. Qed.

Lemma u32_be_roundtrip z b0 b1 b2 b3 :
  (0 <= z < 2 ^ 32)%Z -> u32_to_be_bytes z = [b0; b1; b2; b3] ->
  u32_from_be_bytes b0 b1 b2 b3 = z.
Proof.
  intros Hz [= <- <- <- <-]. unfold u32_from_be_bytes.
  rewrite !byte_val_of_N by (apply Z.mod_pos_bound; lia).
  change (2 ^ 24)%Z with 16777216%Z. change (2 ^ 16)%Z with 65536%Z.
  change (2 ^ 8)%Z with 256%Z. change (2 ^ 32)%Z with 4294967296%Z in Hz.
  Z.to_euclidean_division_equations. lia.
Qed.

Lemma length_frame f : length (frame f) = 8 + length f.2.
Proof. done. Qed.

Lemma parse_frame_app f rest l k :
  frame_ok f -> frame f ++ rest = l ++ k -> 8 <= length l ->
  parse_frame_header l = Some {| stream_type := f.1; size := Z.of_nat (length f.2) |}.
Proof.
  intros Hok Heq Hlen. unfold frame in Heq.
  destruct (u32_to_be_bytes (Z.of_nat (length f.2))) as [|b0 [|b1 [|b2 [|b3 []]]]] eqn:Hb;
    try done.
  destruct l as [|a0 [|a1 [|a2 [|a3 [|a4 [|a5 [|a6 [|a7 l]]]]]]]]; try (simpl in Hlen; lia).
  simplify_eq/=. do 2 f_equal. apply u32_be_roundtrip in Hb; [done|].
  unfold frame_ok in Hok. lia.
Qed.

Lemma console_text_app fa fb : console_text (fa ++ fb) = console_text fa ++ console_text fb.
Proof. unfold console_text. by rewrite filter_app, map_app, concat_app. Qed.

Lemma console_text_cons f fs :
  console_text (f :: fs)
  = (if decide (f.1 = STREAM_STDOUT \/ f.1 = STREAM_STDERR) then f.2 else [])
    ++ console_text fs.
Proof.
  unfold console_text. destruct (decide _).
  - by rewrite filter_cons_True.
  - by rewrite filter_cons_False.
Qed.

(** The pump has turned the text [t] into lines and is still running. *)
Record pumped (t : list byte) (s : Pump) : Prop := {
  pumped_rest : ls_buf (p_splitter s) = text_rest t;
  pumped_sent : sent (p_tx s) = text_lines t;
  pumped_quota : quota (p_tx s) = None;
  pumped_running : running s = true;
}.

Lemma pumped_feed t s payload buf :
  pumped t s ->
  let '(sp, lines) := feed (p_splitter s) payload in
  let '(tx, ok) := send_lines (p_tx s) lines in
  ok = true /\
  pumped (t ++ payload) {| p_buf := buf; p_splitter := sp; p_tx := tx; running := ok |}.
Proof.
  intros [Hr Hs Hq Hrun]. rewrite feed_spec, Hr, send_lines_open by done. split; [done|].
  destruct (text_app t payload) as [Hl Hrest].
  split; cbn; [done| |done|done]. by rewrite Hs, Hl.
Qed.

(** With less than one whole frame buffered the loop stops. *)
Lemma drain_frames_short fuel s k f rest :
  frame_ok f -> p_buf s ++ k = frame f ++ rest -> length (p_buf s) < 8 + length f.2 ->
  drain_frames fuel s = s.
Proof.
  intros Hok Heq Hshort. destruct fuel as [|fuel]; [done|]. cbn [drain_frames].
  destruct (decide (length (p_buf s) < 8)) as [H8|H8].
  - destruct (p_buf s) as [|? [|? [|? [|? [|? [|? [|? [|??]]]]]]]]; try done.
    cbn in H8. lia.
  - rewrite (parse_frame_app f rest _ k) by (done || lia).
    cbn [size]. by rewrite (proj2 (Z.ltb_lt _ _)) by lia.
Qed.

(** A whole frame at the front of the buffer can be split off. *)
Lemma frame_front buf k f rest :
  buf ++ k = frame f ++ rest -> 8 + length f.2 <= length buf ->
  exists b, buf = frame f ++ b /\ b ++ k = rest.
Proof.
  intros Heq Hlen. exists (drop (length (frame f)) buf). rewrite length_frame.
  assert (Ht : take (8 + length f.2) buf = frame f).
  { apply (f_equal (take (8 + length f.2))) in Heq.
    rewrite take_app_le, (take_app_length' (frame f)) in Heq
      by (rewrite ?length_frame; lia). done. }
  split; [by rewrite <- Ht, take_drop|].
  apply (f_equal (drop (8 + length f.2))) in Heq.
  rewrite drop_app_le, (drop_app_length' (frame f)) in Heq
    by (rewrite ?length_frame; lia). done.
Qed.

(** One round of the loop on a whole frame. *)
Lemma drain_frames_one fuel s t f b :
  frame_ok f -> p_buf s = frame f ++ b -> pumped t s ->
  exists s', drain_frames (S fuel) s = drain_frames fuel s' /\ p_buf s' = b /\
    pumped (t ++ console_text [f]) s'.
Proof.
  intros Hok Hb Hp. cbn [drain_frames].
  rewrite (parse_frame_app f b _ [])
    by (rewrite ?Hb, ?app_nil_r, ?length_app, ?length_frame; done || lia).
  cbn [size stream_type].
  rewrite (proj2 (Z.ltb_ge _ _)), Nat2Z.id by (rewrite Hb, length_app, length_frame; lia).
  assert (drop (8 + length f.2) (p_buf s) = b) as ->.
  { rewrite Hb. by apply (drop_app_length' (frame f)). }
  assert (take (length f.2) (drop 8 (p_buf s)) = f.2) as ->.
  { rewrite Hb. unfold frame. rewrite <- !app_assoc. cbn [app]. simpl drop.
    by apply take_app_length'. }
  rewrite console_text_cons. change (console_text []) with (@nil byte). rewrite app_nil_r.
  destruct (decide (f.1 = STREAM_STDOUT \/ f.1 = STREAM_STDERR)) as [Hst|Hst].
  - rewrite (proj2 (orb_true_iff _ _)) by by rewrite !bool_decide_eq_true.
    pose proof (pumped_feed t s f.2 b Hp) as Hf.
    destruct (feed _ _) as [sp lines], (send_lines _ _) as [tx ok]. destruct Hf as [-> Hf].
    by eexists.
  - rewrite !bool_decide_false by tauto. cbn [orb].
    eexists. split; [reflexivity|]. rewrite app_nil_r. by destruct Hp.
Qed.

Lemma drain_frames_spec fuel s t k fs :
  length (p_buf s) < fuel -> pumped t s -> Forall frame_ok fs ->
  p_buf s ++ k = concat (map frame fs) ->
  exists fa fb, fs = fa ++ fb /\
    p_buf (drain_frames fuel s) ++ k = concat (map frame fb) /\
    pumped (t ++ console_text fa) (drain_frames fuel s) /\ (k = [] -> fb = []).
Proof.
  revert s t fs. induction fuel as [|fuel IH]; intros s t fs Hlen Hp Hok Heq; [lia|].
  assert (Hnil : pumped (t ++ console_text []) s).
  { change (console_text []) with (@nil byte). by rewrite app_nil_r. }
  destruct fs as [|f fs]; cbn [map concat] in Heq.
  { pose proof Heq as [Hb ->]%app_nil. exists [], []. cbn [drain_frames].
    rewrite Hb. cbn [parse_frame_header]. by rewrite Hb. }
  inv Hok.
  destruct (decide (length (p_buf s) < 8 + length f.2)) as [Hshort|Hlong].
  { rewrite (drain_frames_short _ s k f (concat (map frame fs))) by done.
    exists [], (f :: fs). split_and!; try done. intros ->.
    rewrite app_nil_r in Heq. apply (f_equal length) in Heq.
    rewrite length_app, length_frame in Heq. lia. }
  destruct (frame_front _ _ _ _ Heq) as (b & Hb & Hrest); [lia|].
  destruct (drain_frames_one fuel s t f b) as (s' & -> & Hs' & Hp'); [done..|].
  destruct (IH s' (t ++ console_text [f]) fs) as (fa & fb & -> & ? & Hp'' & ?); try done.
  { rewrite Hs'. rewrite Hb, length_app, length_frame in Hlen. lia. }
  { by rewrite Hs'. }
  exists (f :: fa), fb. split_and!; try done.
  change (f :: fa) with ([f] ++ fa). by rewrite console_text_app, app_assoc.
Qed.

Lemma pump_loop_spec s t reads fs :
  pumped t s -> Forall frame_ok fs -> Forall (fun r => r <> []) reads ->
  p_buf s ++ concat reads = concat (map frame fs) ->
  pumped (t ++ console_text fs) (pump_loop s (map Some reads)) /\
  p_buf (pump_loop s (map Some reads)) = [].
Proof.
  revert s t fs. induction reads as [|r reads IH]; intros s t fs Hp Hok Hne Heq.
  - destruct (drain_frames_spec (S (length (p_buf s))) s t [] fs)
      as (fa & fb & -> & Hb & Hp' & Hfb); [lia|done..|].
    rewrite Hfb in * by done. cbn [map pump_loop].
    rewrite (pumped_running _ _ Hp'). cbn [negb]. rewrite !app_nil_r in *. done.
  - inv Hne. cbn [concat] in Heq.
    destruct (drain_frames_spec (S (length (p_buf s))) s t (r ++ concat reads) fs)
      as (fa & fb & -> & Hb & Hp' & _); [lia|done..|].
    apply Forall_app in Hok as [_ Hok]. rewrite app_assoc in Hb.
    cbn [map pump_loop]. rewrite (pumped_running _ _ Hp'). cbn [negb].
    destruct r as [|b r]; [done|].
    rewrite console_text_app, app_assoc. apply (IH _ _ fb); try done. by destruct Hp'.
Qed.

(** Feeding a list of pieces one after the other. *)
Fixpoint feed_all (s : LineSplitter) (chunks : list (list byte)) : LineSplitter * list string :=
  match chunks with
  | [] => (s, [])
  | c :: chunks' =>
      let '(s', lines) := feed s c in
      let '(s'', lines') := feed_all s' chunks' in
      (s'', lines ++ lines')
  end.

Lemma feed_all_spec s chunks :
  text_lines (ls_buf s) = [] -> text_rest (ls_buf s) = ls_buf s ->
  feed_all s chunks = ({| ls_buf := text_rest (ls_buf s ++ concat chunks) |},
                       text_lines (ls_buf s ++ concat chunks)).
Proof.
  revert s. induction chunks as [|c chunks IH]; intros s Hl Hr; cbn [feed_all concat].
  { rewrite app_nil_r, Hl, Hr. by destruct s. }
  rewrite feed_spec. rewrite app_assoc.
  destruct (text_app (ls_buf s ++ c) (concat chunks)) as [-> ->].
  destruct (text_app (ls_buf s ++ c) []) as [Hl' Hr'].
  rewrite app_nil_r in Hl', Hr'. rewrite app_nil_r in Hr'.
  rewrite app_nil_r in Hl'. rewrite <- (app_nil_r (text_lines (ls_buf s ++ c))) in Hl' at 1.
  apply app_inv_head in Hl'.
  rewrite IH by done. done.
Qed.

Lemma pump_output_spec frames leftover reads :
  Forall frame_ok frames -> Forall (fun r => r <> []) reads ->
  leftover ++ concat reads = concat (map frame frames) ->
  let s := pump_output leftover (map Some reads) None in
  sent (p_tx s) = text_lines (console_text frames) /\
  ls_buf (p_splitter s) = text_rest (console_text frames) /\
  p_buf s = [] /\ running s = true.
Proof.
  intros Hok Hne Heq s.
  destruct (pump_loop_spec {| p_buf := leftover; p_splitter := splitter_new;
    p_tx := {| sent := []; quota := None |}; running := true |} [] reads frames)
    as [[Hr Hs _ Hrun] Hb]; try done.
Qed.

(** ** Properties *)

(** The lines a [LineSplitter] reports do not depend on how the bytes
    arrive: whatever the pieces, they are the text's lines, each without its
    line feed and one trailing carriage return, in order and exactly once, and
    the unterminated tail stays buffered. *)
Theorem line_splitter_chunking chunks :
  feed_all splitter_new chunks
    = ({| ls_buf := text_rest (concat chunks) |}, text_lines (concat chunks)).
Proof. by apply (feed_all_spec splitter_new). Qed.

(** C25: [pump_output] decodes the attached stream. For every sequence of frames
    and every way its bytes are split between the leftover of the attach
    response and the following reads, the lines sent are exactly the lines of
    the stdout and stderr payloads taken together; frames of other streams are
    skipped, nothing stays in the frame buffer, and the task waits for more. *)
Theorem pump_output_decodes frames leftover reads :
  Forall frame_ok frames -> Forall (fun r => r <> []) reads ->
  leftover ++ concat reads = concat (map frame frames) ->
  let s := pump_output leftover (map Some reads) None in
  sent (p_tx s) = text_lines (console_text frames) /\
  ls_buf (p_splitter s) = text_rest (console_text frames) /\
  p_buf s = [] /\ running s = true.
Proof.
  apply pump_output_spec.
Qed.

Lemma pump_output_decodes_witness :
  let out := frame (STREAM_STDOUT, as_bytes "hel") ++
             frame ("000"%char, as_bytes "stdin") ++
             frame (STREAM_STDERR, as_bytes "lo" ++ [CR; LF] ++ as_bytes "rest") in
  let s := pump_output (take 3 out) [Some (take 20 (drop 3 out)); Some (drop 23 out)] None in
  sent (p_tx s) = ["hello"] /\ ls_buf (p_splitter s) = as_bytes "rest" /\ running s = true.
Proof.
  intros out s.
  destruct (pump_output_decodes
    [(STREAM_STDOUT, as_bytes "hel"); ("000"%char, as_bytes "stdin");
     (STREAM_STDERR, as_bytes "lo" ++ [CR; LF] ++ as_bytes "rest")]
    (take 3 out) [take 20 (drop 3 out); drop 23 out]) as (Hs & Hl & _ & Hr);
    [repeat (apply List.Forall_cons; [reflexivity|]); apply List.Forall_nil
    |repeat (apply List.Forall_cons; [discriminate|]); apply List.Forall_nil
    |vm_compute; reflexivity|].
  split_and!; [exact Hs|exact Hl|exact Hr].
Defined.
