(* ===== verification/Http.v ===== *)
(** * The Docker client's text handling (daemon/src/runtime/docker.rs)

    HTTP responses and chunked bodies, image references, query encoding, and
    the recognition of the daemon's own containers. The header parser is the
    crate [httparse], an interface here. *)

From S2P Require Import Prelude RustStr Json.
From stdpp Require Import options.

(** ** HTTP responses *)

(** [httparse::Response::parse] with 32 header slots. *)
Inductive parse_status :=
| Complete (header_len : nat) (code : option Z) (headers : list (string * list byte))
| Partial
| ParseError (msg : string).

Class HttpParse := http_parse : list byte -> parse_status.

Definition CRLF : list byte := ["013"%char; "010"%char].

Definition usize_max : Z := u64_max.

(** The chunk-size line: extensions after [;] cut off, UTF-8, trimmed, hex. *)
Definition size_field (line : list byte) : list byte :=
  match split_on (fun b => bool_decide (b = ";"%char)) line with
  | p :: _ => p
  | [] => line
  end.

Definition parse_size (line : list byte) : result Z :=
  let field := size_field line in
  if negb (utf8_valid field) then Err "chunked body: chunk size not UTF-8" else
  ok_or "chunked body: invalid chunk size" (from_str_radix 16 usize_max (trim_bytes field)).

(** [dechunk]'s loop; [None] when the fuel runs out. *)
Fixpoint dechunk_loop (fuel : nat) (data out : list byte) : option (result (list byte)) :=
  match fuel with
  | 0 => None
  | S fuel' =>
      match find_sub CRLF data with
      | None => Some (Err "chunked body: missing chunk-size line")
      | Some nl =>
          match parse_size (take nl data) with
          | Err e => Some (Err e)
          | Ok size =>
              let data := drop (nl + 2) data in
              if (size =? 0)%Z then Some (Ok out) else
              if (Z.of_nat (length data) <? size)%Z
              then Some (Err "chunked body: truncated chunk") else
              let n := Z.to_nat size in
              let out := out ++ take n data in
              let data := drop n data in
              let data := if bool_decide (take 2 data = CRLF) then drop 2 data else data in
              dechunk_loop fuel' data out
          end
      end
  end.

(** Every round consumes the size line's CRLF at least. *)
Definition dechunk (data : list byte) : result (list byte) :=
  default (Err "") (dechunk_loop (S (length data)) data []).

Definition is_chunked (headers : list (string * list byte)) : bool :=
  existsb (fun h : string * list byte =>
    eq_ignore_ascii_case h.1 "transfer-encoding"
    && contains (to_ascii_lowercase (from_utf8_lossy h.2)) "chunked") headers.

Definition parse_response `{HttpParse} (buf : list byte) : result (Z * list byte) :=
  match http_parse buf with
  | ParseError _ => Err "parse docker api response"
  | Partial => Err "docker api response headers incomplete"
  | Complete header_len code headers =>
      code ← ok_or "docker api response missing status code" code;
      let body := drop header_len buf in
      body ← (if is_chunked headers then dechunk body else Ok body);
      Ok (code, body)
  end.

Definition find_double_crlf (buf : list byte) : option nat := find_sub (CRLF ++ CRLF) buf.

(** ** Error bodies *)

(** An [Option] field without [#[serde(default)]]: may be left out of an object
    but not of an array. *)
Definition plain_option {A} (j : json) (d : dec A) (v : option json) : option (option A) :=
  match v with
  | Some w => dec_option d w
  | None => match j with JArr _ => None | _ => Some None end
  end.

Definition dec_err_body : dec string := fun j =>
  match field_values ["message"] j with
  | Some [v] => required dec_string v
  | _ => None
  end.

Definition extract_docker_error `{SerdeJson} (body : list byte) : string :=
  match from_text (of_bytes body) ≫= dec_err_body with
  | Some msg => if is_empty msg then from_utf8_lossy body else msg
  | None => from_utf8_lossy body
  end.

(** [ErrDetail] and [Line]. *)
Definition dec_err_detail : dec (option string) := fun j =>
  match field_values ["message"] j with
  | Some [v] => plain_option j dec_string v
  | _ => None
  end.
Definition dec_pull_line : dec (option string * option (option string)) := fun j =>
  match field_values ["error"; "errorDetail"] j with
  | Some [e; d] =>
      e ← plain_option j dec_string e;
      d ← plain_option j dec_err_detail d;
      Some (e, d)
  | _ => None
  end.

(** What one progress line reports: its [error], else its [errorDetail]. *)
Definition line_error `{SerdeJson} (line : list byte) : option string :=
  if forallb is_ascii_whitespace line then None else
  match from_text (of_bytes line) ≫= dec_pull_line with
  | None => None
  | Some (e, d) =>
      match e with
      | Some e => if is_empty e
                  then msg ← mjoin d; if is_empty msg then None else Some msg
                  else Some e
      | None => msg ← mjoin d; if is_empty msg then None else Some msg
      end
  end.

Fixpoint first_some {A B} (f : A -> option B) (l : list A) : option B :=
  match l with
  | [] => None
  | x :: l' => match f x with Some b => Some b | None => first_some f l' end
  end.

Definition extract_pull_error `{SerdeJson} (body : list byte) : option string :=
  first_some line_error (split_on (fun b => bool_decide (b = "010"%char)) body).

(** ** Image references and queries *)

Definition rposition {A} (p : A -> bool) (l : list A) : option nat :=
  (fun i => length l - S i) <$> position p (reverse l).

Definition is_byte (c b : byte) : bool := bool_decide (b = c).

Definition split_image_ref (image : list byte) : list byte * list byte :=
  let seg_start := match rposition (is_byte "/") image with Some i => i + 1 | None => 0 end in
  let segment := drop seg_start image in
  if existsb (is_byte "@") segment then (image, [])
  else match rposition (is_byte ":") segment with
       | Some rel =>
           let colon := seg_start + rel in
           let tag := drop (colon + 1) image in
           if bool_decide (tag = []) then (image, as_bytes "latest")
           else (take colon image, tag)
       | None => (image, as_bytes "latest")
       end.

Definition query_safe (b : byte) : bool :=
  is_ascii_lowercase b || is_ascii_uppercase b || is_ascii_digit b
  || existsb (is_byte b) (as_bytes "-_.~/:").

Definition upper_hex_digit (n : N) : byte :=
  if (n <? 10)%N then ascii_of_N (48 + n) else ascii_of_N (55 + n).

(** [format!("%{b:02X}")] *)
Definition percent (b : byte) : list byte :=
  ["%"%char; upper_hex_digit (N_of_ascii b / 16); upper_hex_digit (N_of_ascii b mod 16)].

Definition encode_query (s : list byte) : list byte :=
  concat (map (fun b => if query_safe b then [b] else percent b) s).

(** ** Our containers *)

Definition looks_like_server_id (s : list byte) : bool :=
  if negb (length s =? 36) then false
  else forallb (fun ib : nat * byte =>
         match ib.1 with
         | 8 | 13 | 18 | 23 => is_byte "-" ib.2
         | _ => is_ascii_hexdigit ib.2
         end) (zip (seq 0 (length s)) s).

Definition strip_prefix (w l : list byte) : option (list byte) :=
  if bool_decide (w `prefix_of` l) then Some (drop (length w) l) else None.

(** One name: ["/sky-<uuid>"], the leading slashes optional. *)
Definition id_of_name (n : string) : option string :=
  s ← strip_prefix (as_bytes "sky-") (drop_while (is_byte "/") (as_bytes n));
  if looks_like_server_id s then Some (of_bytes s) else None.

Definition server_id_label : string := "sky-panel.server_id".

Definition server_id_from (names : list string) (labels : gmap string string) : option string :=
  match labels !! server_id_label with
  | Some v => if is_empty v then first_some id_of_name names else Some v
  | None => first_some id_of_name names
  end.

(** ** Reference definitions *)

(** A chunked body and its payload: size lines without carriage returns, data,
    and after the zero-size chunk any trailer. The CRLF after the data may be
    missing, as the decoder allows, when what follows does not start with one. *)
Inductive chunk_stream : list byte -> list byte -> Prop :=
| chunk_last line trailer :
    "013"%char ∉ line -> parse_size line = Ok 0%Z ->
    chunk_stream (line ++ CRLF ++ trailer) []
| chunk_more line data rest payload :
    "013"%char ∉ line -> parse_size line = Ok (Z.of_nat (length data)) -> data <> [] ->
    chunk_stream rest payload ->
    chunk_stream (line ++ CRLF ++ data ++ CRLF ++ rest) (data ++ payload).

Fixpoint percent_decode (l : list byte) : list byte :=
  match l with
  | [] => []
  | b :: l1 =>
      if is_byte "%" b then
        match l1 with
        | h :: k :: l3 =>
            match digit_val 16 h, digit_val 16 k with
            | Some x, Some y => ascii_of_N (Z.to_N (16 * x + y)) :: percent_decode l3
            | _, _ => b :: percent_decode l1
            end
        | _ => b :: percent_decode l1
        end
      else b :: percent_decode l1
  end.

(** ** Lemmas *)

Lemma find_crlf_app line k :
  "013"%char ∉ line -> find_sub CRLF (line ++ CRLF ++ k) = Some (length line).
Proof.
  intros Hn. apply find_sub_app. intros j Hj Hp. apply Hn.
  rewrite drop_app_le in Hp by lia.
  destruct (drop j line) as [|b l] eqn:Hd; [apply (f_equal length) in Hd;
    rewrite length_drop in Hd; simpl in Hd; lia|].
  destruct Hp as [x Hx]. simplify_eq/=.
  rewrite <- (take_drop j line), Hd. set_solver.
Qed.

Lemma dechunk_loop_fuel fuel data out :
  length data < fuel -> exists r, dechunk_loop fuel data out = Some r.
Proof.
  revert data out. induction fuel as [|fuel IH]; intros data out Hlen; [lia|].
  cbn [dechunk_loop]. destruct (find_sub CRLF data) as [nl|] eqn:Hnl; [|by eauto].
  destruct (parse_size _); [|by eauto].
  apply find_sub_Some in Hnl as [Hd _].
  assert (nl + 2 <= length data).
  { apply (f_equal length) in Hd. rewrite !length_app, length_drop, length_take in Hd.
    simpl in Hd. lia. }
  repeat case_match; eauto; apply IH; rewrite ?length_drop; lia.
Qed.

Lemma dechunk_loop_stream fuel w payload out :
  chunk_stream w payload -> length w < fuel ->
  dechunk_loop fuel w out = Some (Ok (out ++ payload)).
Proof.
  intros Hs. revert fuel out.
  induction Hs as [line trailer Hcr Hz|line data rest payload Hcr Hsz Hne _ IH];
    intros [|fuel] out Hf; try lia; cbn [dechunk_loop];
    rewrite find_crlf_app, take_app_length by done.
  - rewrite Hz. cbn. by rewrite app_nil_r.
  - rewrite Hsz.
    assert (Hd : drop (length line + 2) (line ++ CRLF ++ data ++ CRLF ++ rest)
                 = data ++ CRLF ++ rest).
    { rewrite app_assoc. apply drop_app_length'. by rewrite length_app. }
    rewrite Hd. destruct (Z.eqb_spec (Z.of_nat (length data)) 0) as [E|_].
    { destruct data; [done|]. cbn in E. lia. }
    rewrite (proj2 (Z.ltb_ge _ _)), Nat2Z.id by (rewrite length_app; lia).
    rewrite take_app_length, drop_app_length. cbn [app CRLF]. cbn [take].
    rewrite bool_decide_true by done. cbn [drop]. rewrite drop_0, IH.
    + by rewrite <- app_assoc.
    + rewrite !length_app in Hf. simpl in Hf. lia.
Qed.

Lemma percent_decode_percent b l : percent_decode (percent b ++ l) = b :: percent_decode l.
Proof. by destruct b as [[] [] [] [] [] [] [] []]. Qed.

Lemma percent_decode_safe b l :
  query_safe b = true -> percent_decode (b :: l) = b :: percent_decode l.
Proof.
  intros Hb. cbn [percent_decode]. unfold is_byte. case_bool_decide; [|done].
  subst. by vm_compute in Hb.
Qed.

Lemma percent_chars b : forallb (fun c => query_safe c || is_byte "%" c) (percent b) = true.
Proof. by destruct b as [[] [] [] [] [] [] [] []]. Qed.

Lemma rposition_Some {A} (p : A -> bool) l i :
  rposition p l = Some i ->
  exists x, l = take i l ++ x :: drop (S i) l /\ p x = true /\
            Forall (fun y => p y = false) (drop (S i) l) /\ i < length l.
Proof.
  unfold rposition. destruct (position p (reverse l)) as [j|] eqn:Hj; intros [= <-].
  apply position_Some in Hj as (x & Hl & Hx & Hf & Hlt). rewrite length_reverse in Hlt.
  exists x. set (i := length l - S j).
  assert (Hrev : l = reverse (drop (S j) (reverse l)) ++ x :: reverse (take j (reverse l))).
  { rewrite <- (reverse_involutive l) at 1. rewrite Hl at 1.
    rewrite reverse_app, reverse_cons, <- app_assoc. done. }
  assert (Hlen : length (reverse (drop (S j) (reverse l))) = i).
  { rewrite length_reverse, length_drop, length_reverse. done. }
  assert (Ht : take i l = reverse (drop (S j) (reverse l))).
  { rewrite Hrev at 1. by apply take_app_length'. }
  assert (Hd : drop (S i) l = reverse (take j (reverse l))).
  { rewrite Hrev at 1. rewrite (cons_middle x), app_assoc.
    apply drop_app_length'. rewrite length_app, Hlen. simpl. lia. }
  rewrite Ht, Hd. split_and!; [done|done| |unfold i; lia].
  by rewrite Forall_reverse.
Qed.

Lemma rposition_None {A} (p : A -> bool) l :
  rposition p l = None -> Forall (fun y => p y = false) l.
Proof.
  unfold rposition. destruct (position p (reverse l)) eqn:Hp; [done|]. intros _.
  rewrite <- (reverse_involutive l), Forall_reverse. by apply position_None.
Qed.

Lemma first_some_Some {A B} (f : A -> option B) l b :
  first_some f l = Some b -> exists x, x ∈ l /\ f x = Some b.
Proof.
  induction l as [|x l IH]; cbn; [done|].
  destruct (f x) as [b'|] eqn:Hx.
  - intros [= ->]. exists x. split; [set_solver|done].
  - intros (y & ? & ?)%IH. exists y. split; [set_solver|done].
Qed.

(** The last path segment of a reference: what follows its last slash. *)
Definition last_segment (image : list byte) : list byte :=
  match rposition (is_byte "/") image with Some i => drop (i + 1) image | None => image end.

Lemma last_segment_no_slash image : "/"%char ∉ last_segment image.
Proof.
  assert (HF : forall l, Forall (fun y => is_byte "/" y = false) l -> "/"%char ∉ l).
  { intros l Hl Hin. rewrite Forall_forall in Hl. apply Hl in Hin.
    by unfold is_byte in Hin; rewrite bool_decide_true in Hin. }
  unfold last_segment. destruct (rposition _ image) as [i|] eqn:Hi.
  - apply rposition_Some in Hi as (_ & _ & _ & Hf & _). rewrite Nat.add_1_r. by apply HF.
  - by apply HF, rposition_None.
Qed.

(** The shape 8-4-4-4-12, all hex digits. *)
Definition uuid_shape (s : list byte) : Prop :=
  exists g1 g2 g3 g4 g5,
    s = g1 ++ as_bytes "-" ++ g2 ++ as_bytes "-" ++ g3 ++ as_bytes "-" ++ g4 ++ as_bytes "-" ++ g5 /\
    length g1 = 8 /\ length g2 = 4 /\ length g3 = 4 /\ length g4 = 4 /\ length g5 = 12 /\
    forallb is_ascii_hexdigit (g1 ++ g2 ++ g3 ++ g4 ++ g5) = true.

(** A list of 36 bytes, element by element. *)
Ltac explode s :=
  do 36 (destruct s as [|? s]; [discriminate|]); destruct s; [|discriminate].

(** Exactly the UUID shape, in hex digits of either case. *)
Lemma looks_like_server_id_spec s : looks_like_server_id s = true <-> uuid_shape s.
Proof.
  split.
  - unfold looks_like_server_id. destruct (Nat.eqb_spec (length s) 36) as [E|]; [|done].
    cbn [negb]. intros H.
    exists (take 8 s), (take 4 (drop 9 s)), (take 4 (drop 14 s)), (take 4 (drop 19 s)), (drop 24 s).
    explode s. cbn in H |- *. unfold is_byte in H.
    repeat (apply andb_true_iff in H as [? H]).
    repeat match goal with E : bool_decide _ = true |- _ => apply bool_decide_eq_true in E; subst end.
    split_and!; try done.
    repeat match goal with E : is_ascii_hexdigit _ = true |- _ => rewrite E; clear E end. done.
  - intros (g1 & g2 & g3 & g4 & g5 & -> & L1 & L2 & L3 & L4 & L5 & H).
    do 8 (destruct g1 as [|? g1]; [discriminate|]); destruct g1; [|discriminate].
    do 4 (destruct g2 as [|? g2]; [discriminate|]); destruct g2; [|discriminate].
    do 4 (destruct g3 as [|? g3]; [discriminate|]); destruct g3; [|discriminate].
    do 4 (destruct g4 as [|? g4]; [discriminate|]); destruct g4; [|discriminate].
    do 12 (destruct g5 as [|? g5]; [discriminate|]); destruct g5; [|discriminate].
    cbn in H |- *. repeat (apply andb_true_iff in H as [? H]).
    repeat match goal with E : is_ascii_hexdigit _ = true |- _ => rewrite E; clear E end. done.
Qed.

(** ** Properties *)

(** [dechunk] terminates on every input: each round consumes a size line,
    so the loop ends within the number of bytes received, with a payload or an
    error. *)
Theorem dechunk_terminates data :
  exists r, dechunk_loop (S (length data)) data [] = Some r /\ dechunk data = r.
Proof.
  destruct (dechunk_loop_fuel (S (length data)) data []) as [r Hr]; [lia|].
  exists r. unfold dechunk. by rewrite Hr.
Qed.



(** [encode_query] loses nothing and emits no byte with a meaning in a
    query string: percent-decoding gives the input back, and the output holds
    only letters, digits, [-_.~/:] and the escapes' percent signs. *)
Theorem encode_query_roundtrip s :
  percent_decode (encode_query s) = s /\
  forallb (fun c => query_safe c || is_byte "%" c) (encode_query s) = true.
Proof.
  unfold encode_query. induction s as [|b s [IHd IHs]]; [done|]. cbn [map concat].
  destruct (query_safe b) eqn:Hb.
  - cbn [app]. rewrite percent_decode_safe, IHd by done. cbn [forallb]. by rewrite Hb.
  - by rewrite percent_decode_percent, IHd, forallb_app, percent_chars.
Qed.

(** An image reference splits at the last colon of its last path segment
    and nowhere else: either the reference is name, colon and a non-empty tag
    without slash or colon, or no tag is there and [latest] is used, or the
    last segment carries a digest and there is no tag. *)
Theorem split_image_ref_spec image name tag :
  split_image_ref image = (name, tag) ->
  (image = name ++ as_bytes ":" ++ tag /\ tag <> [] /\ ("/"%char ∉ tag) /\ (":"%char ∉ tag) /\
   "@"%char ∉ last_segment image) \/
  (name = image /\ tag = as_bytes "latest" /\ ("@"%char ∉ last_segment image) /\
   ((":"%char ∉ last_segment image) \/ exists n, image = n ++ as_bytes ":")) \/
  (name = image /\ tag = [] /\ "@"%char ∈ last_segment image).
Proof.
  unfold split_image_ref.
  set (start := match rposition (is_byte "/") image with Some i => i + 1 | None => 0 end).
  assert (Hseg : drop start image = last_segment image).
  { unfold start, last_segment. by destruct (rposition _ image). }
  rewrite Hseg. destruct (existsb (is_byte "@") (last_segment image)) eqn:Hat.
  { intros [= <- <-]. right; right. split_and!; try done.
    apply existsb_exists in Hat as (x & Hx & Hb). unfold is_byte in Hb.
    apply bool_decide_eq_true in Hb as ->. by apply list_elem_of_In. }
  assert (Hno : "@"%char ∉ last_segment image).
  { intros Hin. apply not_true_iff_false in Hat. apply Hat, existsb_exists.
    exists "@"%char. by rewrite <- list_elem_of_In. }
  destruct (rposition (is_byte ":") (last_segment image)) as [rel|] eqn:Hr; intros H.
  - apply rposition_Some in Hr as (x & Hs & Hx & Hf & Hlt).
    unfold is_byte in Hx. apply bool_decide_eq_true in Hx as ->.
    assert (Htag : drop (start + rel + 1) image = drop (S rel) (last_segment image)).
    { rewrite <- Hseg, drop_drop. f_equal. lia. }
    assert (Himg : image = take (start + rel) image ++ as_bytes ":" ++ drop (start + rel + 1) image).
    { rewrite <- (take_drop (start + rel) image) at 1. f_equal.
      rewrite <- drop_drop, Hseg, Htag. rewrite Hs at 1.
      rewrite drop_app_length'; [done|]. rewrite length_take. lia. }
    case_bool_decide as Ht; simplify_eq.
    + right; left. split_and!; try done. right. eexists. rewrite Ht, app_nil_r in Himg. done.
    + left. split_and!; try done.
      * rewrite Htag. intros Hin. apply (last_segment_no_slash image).
        rewrite Hs. set_solver.
      * rewrite Htag. intros Hin. rewrite Forall_forall in Hf. apply Hf in Hin.
        by unfold is_byte in Hin; rewrite bool_decide_true in Hin.
  - simplify_eq. right; left. split_and!; try done. left.
    intros Hin. apply rposition_None in Hr. rewrite Forall_forall in Hr. apply Hr in Hin.
    by unfold is_byte in Hin; rewrite bool_decide_true in Hin.
Qed.

Lemma split_image_ref_spec_witness :
  split_image_ref (as_bytes "reg:5000/img:v2") = (as_bytes "reg:5000/img", as_bytes "v2") /\
  "@"%char ∉ last_segment (as_bytes "reg:5000/img:v2").
Proof.
  split; [vm_compute; reflexivity|].
  destruct (split_image_ref_spec (as_bytes "reg:5000/img:v2") (as_bytes "reg:5000/img") (as_bytes "v2"))
    as [(_ & _ & _ & _ & H)|[(_ & _ & H & _)|(_ & H & _)]];
    [vm_compute; reflexivity|exact H|exact H|discriminate H].
Defined.

(** The daemon claims a container only by its own marks: the returned id is
    the non-empty server-id label, or, without one, the UUID of one of the
    container's names of the form [/sky-<uuid>]. *)
Theorem server_id_from_sound names labels sid :
  server_id_from names labels = Some sid ->
  (labels !! server_id_label = Some sid /\ sid <> "") \/
  (default "" (labels !! server_id_label) = "" /\
   exists n slashes, n ∈ names /\ uuid_shape (as_bytes sid) /\
     Forall (fun b => b = "/"%char) slashes /\
     as_bytes n = slashes ++ as_bytes "sky-" ++ as_bytes sid).
Proof.
  assert (Hname : first_some id_of_name names = Some sid ->
    exists n slashes, n ∈ names /\ uuid_shape (as_bytes sid) /\
      Forall (fun b => b = "/"%char) slashes /\
      as_bytes n = slashes ++ as_bytes "sky-" ++ as_bytes sid).
  { intros (n & Hn & Hid)%first_some_Some. exists n.
    assert (Hdw : forall l, exists sl, l = sl ++ drop_while (is_byte "/") l /\
      Forall (fun b => b = "/"%char) sl).
    { induction l as [|b l (sl & Hl & Hs)]; [by exists []|]. cbn. unfold is_byte at 1.
      case_bool_decide; [|by exists []]. exists (b :: sl). cbn. rewrite <- Hl. auto. }
    destruct (Hdw (as_bytes n)) as (sl & Hl & Hs). exists sl.
    unfold id_of_name, strip_prefix in Hid. case_bool_decide as Hp; [|done].
    cbn [mbind option_bind] in Hid. destruct (looks_like_server_id _) eqn:Hu; [|done].
    simplify_eq. rewrite as_of_bytes. split_and!; [done| |done|].
    - by apply looks_like_server_id_spec.
    - rewrite Hl at 1. f_equal. destruct Hp as [k Hk]. rewrite Hk.
      by rewrite drop_app_length. }
  unfold server_id_from. destruct (labels !! server_id_label) as [v|] eqn:Hv.
  - destruct v as [|c v]; cbn [is_empty]; [intros; right; by auto|].
    intros [= <-]. by left.
  - intros H. right. by auto.
Qed.

Lemma server_id_from_sound_witness :
  server_id_from ["/x"; "/sky-b24aa5c8-a1ab-4a42-9edd-956dd23d017f"] ∅
    = Some "b24aa5c8-a1ab-4a42-9edd-956dd23d017f" /\
  uuid_shape (as_bytes "b24aa5c8-a1ab-4a42-9edd-956dd23d017f").
Proof.
  split; [vm_compute; reflexivity|].
  destruct (server_id_from_sound ["/x"; "/sky-b24aa5c8-a1ab-4a42-9edd-956dd23d017f"] ∅
    "b24aa5c8-a1ab-4a42-9edd-956dd23d017f") as [[H _]|(_ & n & sl & _ & H & _)];
    [vm_compute; reflexivity|discriminate H|exact H].
Defined.
