(* ===== verification/Float64.v ===== *)
(** * Bounds on binary64 operations

    The executable specification of IEEE 754 in the standard library says what
    an operation returns, digit by digit. This file bounds the results: an
    operation on numbers of bounded magnitude is neither infinite nor NaN, and
    keeps its sign. The magnitude of [m * 2^e] is the number of binary digits
    of [m] plus [e]. *)

From S2P Require Import Prelude.
From Stdlib Require Import SpecFloat.
From stdpp Require Import options.
Local Open Scope Z_scope.

Abbreviation f64 := spec_float.
Definition prec : Z := 53.
Definition emax : Z := 1024.

(** [x as f64] for an integer, and the operators. *)
Definition f64_of_Z (z : Z) : f64 := binary_normalize prec emax z 0 false.
Definition f64_sub : f64 -> f64 -> f64 := SFsub prec emax.
Definition f64_mul : f64 -> f64 -> f64 := SFmul prec emax.
Definition f64_div : f64 -> f64 -> f64 := SFdiv prec emax.
Definition f64_zero : f64 := S754_zero false.

(** ** Digits *)

Lemma digits2_log2 p : Zpos (digits2_pos p) = Z.log2 (Zpos p) + 1.
Proof.
  induction p as [p IH|p IH|]; [| |done]; cbn [digits2_pos]; rewrite Pos2Z.inj_succ, IH.
  - rewrite (Pos2Z.inj_xI p), Z.log2_succ_double by lia. lia.
  - rewrite (Pos2Z.inj_xO p), Z.log2_double by lia. lia.
Qed.

Lemma digits_upper m : 0 <= m -> m < 2 ^ Zdigits2 m.
Proof.
  intros Hm. destruct m as [|p|p]; [done| |lia]. cbn [Zdigits2]. rewrite digits2_log2.
  pose proof (Z.log2_spec (Zpos p) ltac:(lia)) as [_ Hu]. by rewrite <- Z.add_1_r in Hu.
Qed.

Lemma digits_le m k : 0 <= m -> 0 <= k -> m < 2 ^ k -> Zdigits2 m <= k.
Proof.
  intros Hm Hk Hlt. destruct m as [|p|p]; [done| |lia]. cbn [Zdigits2]. rewrite digits2_log2.
  assert (Z.log2 (Zpos p) < k); [|lia]. apply Z.log2_lt_pow2; lia.
Qed.

Lemma digits_nonneg m : 0 <= Zdigits2 m.
Proof. destruct m; cbn; lia. Qed.

(** ** Rounding *)

Lemma shr_1_m mrs : 0 <= shr_m mrs -> shr_m (shr_1 mrs) = shr_m mrs / 2.
Proof.
  destruct mrs as [[|[p|p|]|p] r s]; cbn; intros; try done; try lia.
  - rewrite (Pos2Z.inj_xI p). Z.to_euclidean_division_equations. lia.
  - rewrite (Pos2Z.inj_xO p). Z.to_euclidean_division_equations. lia.
Qed.

Lemma shr_iter n mrs :
  0 <= shr_m mrs -> shr_m (iter_pos shr_1 n mrs) = shr_m mrs / 2 ^ Zpos n.
Proof.
  revert mrs. induction n as [n IH|n IH|]; intros mrs Hm; cbn [iter_pos].
  - assert (H1 : 0 <= shr_m (shr_1 mrs)) by (rewrite shr_1_m by done; apply Z.div_pos; lia).
    assert (H2 : 0 <= shr_m (iter_pos shr_1 n (shr_1 mrs)))
      by (rewrite IH by done; apply Z.div_pos; lia).
    rewrite IH, IH, shr_1_m by done.
    rewrite !Z.div_div by lia. f_equal. rewrite (Pos2Z.inj_xI n).
    replace (2 * Zpos n + 1) with (1 + Zpos n + Zpos n) by lia. rewrite !Z.pow_add_r by lia. lia.
  - assert (H2 : 0 <= shr_m (iter_pos shr_1 n mrs))
      by (rewrite IH by done; apply Z.div_pos; lia).
    rewrite IH, IH by done. rewrite Z.div_div by lia. f_equal. rewrite (Pos2Z.inj_xO n).
    replace (2 * Zpos n) with (Zpos n + Zpos n) by lia. by rewrite Z.pow_add_r by lia.
  - by rewrite shr_1_m.
Qed.

(** Away from the subnormals a shift cuts the mantissa to 53 digits. *)
Lemma shr_fexp_spec m e l :
  0 <= m -> -1000 <= e ->
  let n := Z.max 0 (Zdigits2 m - 53) in
  exists mrs, shr_fexp prec emax m e l = (mrs, e + n) /\ shr_m mrs = m / 2 ^ n.
Proof.
  intros Hm He n. unfold shr_fexp, fexp, emin, prec, emax.
  assert (Hr : forall l, shr_m (shr_record_of_loc m l) = m) by (by intros [|[]]).
  pose proof (digits_nonneg m) as Hd.
  replace (Z.max (Zdigits2 m + e - 53) (3 - 1024 - 53) - e)
    with (Z.max (Zdigits2 m - 53) (-1074 - e)) by lia.
  unfold shr. destruct (Z.max (Zdigits2 m - 53) (-1074 - e)) as [|p|p] eqn:Hn.
  - exists (shr_record_of_loc m l). assert (n = 0) as -> by lia.
    rewrite Z.add_0_r, Hr, Z.div_1_r. done.
  - exists (iter_pos shr_1 p (shr_record_of_loc m l)). assert (n = Zpos p) as -> by lia.
    rewrite shr_iter by (rewrite Hr; lia). by rewrite Hr.
  - exists (shr_record_of_loc m l). assert (n = 0) as -> by lia.
    rewrite Z.add_0_r, Hr, Z.div_1_r. done.
Qed.

Lemma round_range m l : m <= round_nearest_even m l <= m + 1.
Proof. destruct l as [|[]]; cbn; try lia. destruct (Z.even m); lia. Qed.

(** Numbers of sign [s], magnitude at most [B] and exponent at least [lo]. *)
Definition within (s : bool) (B lo : Z) (x : f64) : Prop :=
  match x with
  | S754_zero s' => s' = s
  | S754_finite s' m e => s' = s /\ Zdigits2 (Zpos m) + e <= B /\ lo <= e
  | _ => False
  end.

Lemma round_aux_bounded s mx ex lx B :
  0 <= mx -> -1000 <= ex -> ex <= B -> Zdigits2 mx + ex <= B -> B <= 900 ->
  within s (B + 1) ex (binary_round_aux prec emax s mx ex lx).
Proof.
  intros Hm He HeB Hd HB. unfold binary_round_aux.
  destruct (shr_fexp_spec mx ex lx Hm He) as (mrs & -> & Hmrs).
  set (n := Z.max 0 (Zdigits2 mx - 53)) in *. set (m1 := round_nearest_even _ _).
  pose proof (digits_nonneg mx) as Hd0.
  pose proof (round_range (shr_m mrs) (loc_of_shr_record mrs)) as Hr. fold m1 in Hr.
  assert (Hq : 0 <= mx / 2 ^ n) by (apply Z.div_pos; lia).
  (* the cut mantissa has at most the digits that were left *)
  assert (Hcut : mx / 2 ^ n < 2 ^ (Zdigits2 mx - n)).
  { apply Z.div_lt_upper_bound; [lia|]. rewrite <- Z.pow_add_r by lia.
    replace (n + (Zdigits2 mx - n)) with (Zdigits2 mx) by lia. by apply digits_upper. }
  assert (Hm1 : Zdigits2 m1 <= Zdigits2 mx - n + 1).
  { apply digits_le; [lia|lia|]. rewrite Z.pow_add_r by lia. lia. }
  destruct (shr_fexp_spec m1 (ex + n) loc_Exact ltac:(lia) ltac:(lia)) as (mrs2 & -> & Hmrs2).
  set (n2 := Z.max 0 (Zdigits2 m1 - 53)) in *.
  assert (Hn2 : n2 <= 1) by lia.
  rewrite Hmrs2. destruct (m1 / 2 ^ n2) as [|p|p] eqn:Hp.
  - done.
  - rewrite (proj2 (Z.leb_le _ _)) by (unfold prec, emax; lia). cbn [within].
    split; [done|]. split; [|lia].
    assert (Zdigits2 (Zpos p) <= Zdigits2 m1 - n2); [|lia].
    rewrite <- Hp. pose proof (digits_nonneg m1). apply digits_le; [rewrite Hp; lia|lia|].
    apply Z.div_lt_upper_bound; [lia|]. rewrite <- Z.pow_add_r by lia.
    replace (n2 + (Zdigits2 m1 - n2)) with (Zdigits2 m1) by lia. apply digits_upper. lia.
  - pose proof (Z.div_pos m1 (2 ^ n2)). lia.
Qed.

Lemma digits_lower m : 0 < m -> 2 ^ (Zdigits2 m - 1) <= m.
Proof.
  intros Hm. destruct m as [|p|p]; [lia| |lia]. cbn [Zdigits2]. rewrite digits2_log2.
  replace (Z.log2 (Zpos p) + 1 - 1) with (Z.log2 (Zpos p)) by lia.
  by apply Z.log2_spec.
Qed.

Lemma cut_pos m n : 0 < m -> 0 <= n <= Zdigits2 m - 1 -> 0 < m / 2 ^ n.
Proof.
  intros Hm Hn. apply Z.lt_le_trans with 1; [lia|]. apply Z.div_le_lower_bound; [lia|].
  pose proof (digits_lower m Hm). pose proof (Z.pow_le_mono_r 2 n (Zdigits2 m - 1)). lia.
Qed.

Lemma digits_pos m : 0 < m -> 1 <= Zdigits2 m.
Proof. destruct m; cbn; lia. Qed.

(** A positive mantissa does not round to zero. *)
Lemma round_aux_nonzero s s' mx ex lx :
  0 < mx -> -1000 <= ex -> binary_round_aux prec emax s mx ex lx <> S754_zero s'.
Proof.
  intros Hm He. unfold binary_round_aux. pose proof (digits_pos mx Hm).
  destruct (shr_fexp_spec mx ex lx ltac:(lia) He) as (mrs & -> & Hmrs).
  set (n := Z.max 0 (Zdigits2 mx - 53)) in *. set (m1 := round_nearest_even _ _).
  pose proof (cut_pos mx n Hm ltac:(lia)) as Hc.
  pose proof (round_range (shr_m mrs) (loc_of_shr_record mrs)) as Hr. fold m1 in Hr.
  assert (Hm1 : 0 < m1) by lia. pose proof (digits_pos m1 Hm1).
  destruct (shr_fexp_spec m1 (ex + n) loc_Exact ltac:(lia) ltac:(lia)) as (mrs2 & -> & Hmrs2).
  pose proof (cut_pos m1 (Z.max 0 (Zdigits2 m1 - 53)) Hm1 ltac:(lia)) as Hc2.
  rewrite Hmrs2. destruct (m1 / _) as [|p|p]; [lia| |done]. by case_match.
Qed.

Lemma iter_xO m p : Zpos (Pos.iter xO m p) = Zpos m * 2 ^ Zpos p.
Proof.
  induction p as [|p IH] using Pos.peano_ind; [cbn; lia|].
  rewrite Pos.iter_succ, Pos2Z.inj_xO, IH, Pos2Z.inj_succ, Z.pow_succ_r by lia. lia.
Qed.

Lemma digits_shift m k : 0 < m -> 0 <= k -> Zdigits2 (m * 2 ^ k) <= Zdigits2 m + k.
Proof.
  intros Hm Hk. pose proof (digits_nonneg m). apply digits_le; [nia|lia|].
  rewrite Z.pow_add_r by lia. pose proof (digits_upper m ltac:(lia)).
  pose proof (Z.pow_pos_nonneg 2 k ltac:(lia) Hk). nia.
Qed.

(** Aligning to a lower exponent keeps value and magnitude. *)
Lemma shl_align_spec m e e' :
  Zpos (fst (shl_align m e e')) = Zpos m * 2 ^ Z.max 0 (e - e') /\
  snd (shl_align m e e') = Z.min e e'.
Proof.
  unfold shl_align. destruct (e' - e) as [|p|p] eqn:Hp; cbn [fst snd].
  - replace (Z.max 0 (e - e')) with 0 by lia. split; [lia|lia].
  - replace (Z.max 0 (e - e')) with 0 by lia. split; [lia|lia].
  - rewrite iter_xO. replace (Z.max 0 (e - e')) with (Zpos p) by lia. split; [done|lia].
Qed.

Lemma binary_round_spec s m e B :
  -900 <= e -> Zdigits2 (Zpos m) + e <= B -> B <= 900 ->
  within s (B + 1) (e - 52) (binary_round prec emax s m e) /\
  forall s', binary_round prec emax s m e <> S754_zero s'.
Proof.
  intros He Hd HB. unfold binary_round.
  pose proof (digits_pos (Zpos m) ltac:(lia)) as Hp. cbn [Zdigits2] in Hd, Hp.
  set (e' := fexp prec emax (Zpos (digits2_pos m) + e)).
  assert (He' : e - 52 <= e') by (unfold e', fexp, prec, emax, emin; lia).
  destruct (shl_align_spec m e e') as [Hm Hz].
  destruct (shl_align m e e') as [mz ez]. cbn [fst snd] in Hm, Hz. subst ez.
  pose proof (digits_shift (Zpos m) (Z.max 0 (e - e')) ltac:(lia) ltac:(lia)) as Hs.
  rewrite <- Hm in Hs. cbn [Zdigits2] in Hs. split.
  - pose proof (round_aux_bounded s (Zpos mz) (Z.min e e') loc_Exact B) as Hr.
    cbn [Zdigits2] in Hr. specialize (Hr ltac:(lia) ltac:(lia) ltac:(lia) ltac:(lia) HB).
    destruct (binary_round_aux _ _ _ _ _ _); cbn in *; try done.
    destruct Hr as (? & ? & ?). split_and!; [done|done|lia].
  - intros s'. apply round_aux_nonzero; lia.
Qed.

(** A number that is zero or of magnitude at most [B], of either sign; a zero is
    the positive one. *)
Definition fin (B lo : Z) (x : f64) : Prop :=
  match x with
  | S754_zero s => s = false
  | S754_finite _ m e => Zdigits2 (Zpos m) + e <= B /\ lo <= e
  | _ => False
  end.

Lemma normalize_fin z e B :
  -900 <= e -> Zdigits2 z + e <= B -> B <= 900 ->
  fin (B + 1) (e - 52) (binary_normalize prec emax z e false).
Proof.
  intros He Hd HB. destruct z as [|p|p]; [done|..]; cbn [binary_normalize].
  - destruct (binary_round_spec false p e B He Hd HB) as [Hb _].
    destruct (binary_round _ _ _ _ _); cbn in *; naive_solver.
  - destruct (binary_round_spec true p e B He Hd HB) as [Hb Hn].
    destruct (binary_round _ _ _ _ _); cbn in *; naive_solver.
Qed.

Lemma of_Z_bounded z : 0 <= z <= u64_max -> within false 65 (-52) (f64_of_Z z).
Proof.
  intros Hz. unfold f64_of_Z. destruct z as [|p|p]; [done| |lia]. cbn [binary_normalize].
  apply (binary_round_spec false p 0 64); [lia| |lia].
  rewrite Z.add_0_r. apply digits_le; [lia|lia|]. unfold u64_max in Hz. lia.
Qed.

Lemma of_Z_positive z :
  0 < z <= u64_max -> exists m e, f64_of_Z z = S754_finite false m e.
Proof.
  intros Hz. pose proof (of_Z_bounded z ltac:(lia)) as Hb. unfold f64_of_Z in *.
  destruct z as [|p|p]; [lia| |lia]. cbn [binary_normalize] in *.
  assert (Hd : Zdigits2 (Zpos p) <= 64)
    by (apply digits_le; [lia|lia|]; unfold u64_max in Hz; lia).
  destruct (binary_round_spec false p 0 64 ltac:(lia) ltac:(lia) ltac:(lia)) as [_ Hn].
  destruct (binary_round _ _ _ _ _) as [s| | |s m e]; cbn in Hb; try done.
  - by destruct (Hn s).
  - destruct Hb as [-> _]. eauto.
Qed.

Lemma sub_fin B lo x y :
  within false B lo x -> within false B lo y -> -900 <= lo <= 0 -> 0 <= B <= 800 ->
  fin (B + 1) (lo - 52) (f64_sub x y).
Proof.
  intros Hx Hy Hlo HB. unfold f64_sub.
  destruct x as [sx| | |sx mx ex], y as [sy| | |sy my ey]; cbn in Hx, Hy; try done.
  - subst. done.
  - cbn. lia.
  - cbn. lia.
  - destruct Hx as (-> & Hx & Hlx), Hy as (-> & Hy & Hly). cbn [SFsub cond_Zopp].
    set (ez := Z.min ex ey).
    destruct (shl_align_spec mx ex ez) as [Hmx _], (shl_align_spec my ey ez) as [Hmy _].
    rewrite Hmx, Hmy. replace (Z.max 0 (ex - ez)) with (ex - ez) by lia.
    replace (Z.max 0 (ey - ez)) with (ey - ez) by lia.
    assert (Hbound : forall m e, Zpos (digits2_pos m) + e <= B -> ez <= e ->
      0 < Zpos m * 2 ^ (e - ez) < 2 ^ (B - ez)).
    { intros m e Hm He. pose proof (digits_upper (Zpos m) ltac:(lia)) as Hu.
      pose proof (Z.pow_pos_nonneg 2 (e - ez) ltac:(lia) ltac:(lia)). split; [nia|].
      apply Z.lt_le_trans with (2 ^ Zdigits2 (Zpos m) * 2 ^ (e - ez)); [nia|].
      rewrite <- Z.pow_add_r by (cbn; lia). apply Z.pow_le_mono_r; cbn; lia. }
    pose proof (Hbound mx ex Hx ltac:(lia)). pose proof (Hbound my ey Hy ltac:(lia)).
    set (X := Zpos mx * 2 ^ (ex - ez)) in *. set (Y := Zpos my * 2 ^ (ey - ez)) in *.
    pose proof (digits_pos (Zpos mx) ltac:(lia)). cbn in H1.
    assert (Hd : Zdigits2 (X - Y) <= B - ez).
    { destruct (X - Y) as [|p|p] eqn:E; [cbn; lia|apply digits_le; lia|].
      change (Zdigits2 (Zneg p)) with (Zdigits2 (Zpos p)). apply digits_le; lia. }
    pose proof (normalize_fin (X - Y) ez B ltac:(lia) ltac:(lia) ltac:(lia)) as Hf.
    destruct (binary_normalize _ _ _ _ _); cbn in *; try done. lia.
Qed.

Lemma div_bounded B lo x y :
  within false B lo x -> within false B lo y -> (forall s, y <> S754_zero s) ->
  -300 <= lo <= 0 -> 0 <= B <= 300 ->
  within false (B - lo + 1) (lo - B - 53) (f64_div x y).
Proof.
  intros Hx Hy Hny Hlo HB. unfold f64_div.
  destruct x as [sx| | |sx mx ex], y as [sy| | |sy my ey]; cbn in Hx, Hy; try done;
    try (by destruct (Hny sy)).
  - subst. by destruct Hy as [-> _].
  - destruct Hx as (-> & Hx & Hlx), Hy as (-> & Hy & Hly).
    pose proof (digits_pos (Zpos mx) ltac:(lia)) as Hdx.
    pose proof (digits_pos (Zpos my) ltac:(lia)) as Hdy.
    cbn [SFdiv]. unfold SFdiv_core_binary. cbn [Zdigits2] in *.
    set (e' := Z.min _ (ex - ey)).
    assert (He' : lo - B - 53 <= e' <= ex - ey) by (unfold e', fexp, prec, emax, emin; lia).
    set (s := ex - ey - e'). set (m' := match s with Zpos _ => _ | _ => _ end).
    assert (Hm' : m' = Zpos mx * 2 ^ s).
    { unfold m'. assert (0 <= s) by lia. destruct s as [|p|p]; [lia| |lia].
      by rewrite Z.shiftl_mul_pow2 by lia. }
    pose proof (Z.div_eucl_eq m' (Zpos my) ltac:(lia)) as Hq.
    pose proof (Z.mod_pos_bound m' (Zpos my) ltac:(lia)) as Hr. unfold Z.modulo in Hr.
    destruct (Z.div_eucl m' (Zpos my)) as [q r]. cbn [xorb].
    pose proof (Z.pow_pos_nonneg 2 s ltac:(lia) ltac:(lia)).
    assert (Hq0 : 0 <= q <= m') by nia.
    assert (Hdq : Zdigits2 q <= Zpos (digits2_pos mx) + s).
    { pose proof (digits_upper (Zpos mx) ltac:(lia)) as Hu. cbn [Zdigits2] in Hu.
      apply digits_le; [lia|lia|]. rewrite Z.pow_add_r by lia. nia. }
    pose proof (round_aux_bounded false q e' (new_location (Zpos my) r) (B - lo)
      ltac:(lia) ltac:(lia) ltac:(lia) ltac:(lia) ltac:(lia)) as Hb.
    destruct (binary_round_aux _ _ _ _ _ _); cbn in *; try done. naive_solver lia.
Qed.

Lemma mul_bounded B1 lo1 B2 lo2 x y :
  within false B1 lo1 x -> within false B2 lo2 y ->
  -400 <= lo1 <= 0 -> -400 <= lo2 <= 0 -> 0 <= B1 <= 400 -> 0 <= B2 <= 400 ->
  within false (B1 + B2 + 1) (lo1 + lo2) (f64_mul x y).
Proof.
  intros Hx Hy Hl1 Hl2 HB1 HB2. unfold f64_mul.
  destruct x as [sx| | |sx mx ex], y as [sy| | |sy my ey]; cbn in Hx, Hy; try done.
  - by subst.
  - subst. by destruct Hy as [-> _].
  - subst. by destruct Hx as [-> _].
  - destruct Hx as (-> & Hx & Hlx), Hy as (-> & Hy & Hly). cbn [SFmul xorb].
    pose proof (digits_pos (Zpos mx) ltac:(lia)) as Hdx.
    pose proof (digits_pos (Zpos my) ltac:(lia)) as Hdy. cbn [Zdigits2] in Hdx, Hdy.
    assert (Hd : Zdigits2 (Zpos (mx * my)) <= Zpos (digits2_pos mx) + Zpos (digits2_pos my)).
    { pose proof (digits_upper (Zpos mx) ltac:(lia)). pose proof (digits_upper (Zpos my) ltac:(lia)).
      apply digits_le; [lia|lia|]. cbn [Zdigits2] in *. rewrite Z.pow_add_r by lia. nia. }
    pose proof (round_aux_bounded false (Zpos (mx * my)) (ex + ey) loc_Exact (B1 + B2)
      ltac:(lia) ltac:(lia) ltac:(lia) ltac:(lia) ltac:(lia)) as Hb.
    destruct (binary_round_aux _ _ _ _ _ _); cbn in *; try done.
    destruct Hb as (? & ? & ?). split_and!; [done|lia|lia].
Qed.
