(* ===== verification/Wire.v ===== *)
(** * Every payload type across the wire (protocol/src/payloads.rs)

    [Payloads] has the structs, their [Serialize] side and the decoders the
    daemon runs. Here are the other derived [Deserialize] implementations, the
    ones the panel's side of the protocol uses, and the interface [Wire] that
    every payload type implements: what it serialises to, how it is read back,
    and which values the Rust type has. *)

From S2P Require Import Prelude RustStr Json Payloads Float64.
From Stdlib Require Import SpecFloat.
From stdpp Require Import options.

(** ** Deserialize *)

(** [f64]: an integer token is converted. *)
Definition dec_f64 : dec f64 := fun j =>
  match j with
  | JInt z => if (i64_min <=? z)%Z && (z <=? u64_max)%Z then Some (f64_of_Z z) else None
  | JFloat (S754_nan | S754_infinity _) => None
  | JFloat f => Some f
  | _ => None
  end.

Definition dec_hello : dec HelloPayload := fun j =>
  match field_values ["node_token"; "agent_version"; "capabilities"] j with
  | Some [t; v; c] =>
      t ← required dec_string t; v ← required dec_string v;
      c ← or_default [] (dec_vec dec_string) c;
      Some {| hello_node_token := t; hello_agent_version := v; hello_capabilities := c |}
  | _ => None
  end.

Definition dec_container_heartbeat : dec ContainerHeartbeat := fun j =>
  match field_values ["server_id"; "running"; "cpu_percent"; "mem_used_bytes";
                      "mem_limit_bytes"; "net_rx_bytes"; "net_tx_bytes"] j with
  | Some [si; ru; cp; mu; ml; rx; tx] =>
      si ← required dec_string si; ru ← required dec_bool ru; cp ← required dec_f64 cp;
      mu ← required dec_u64 mu; ml ← required dec_u64 ml;
      rx ← required dec_u64 rx; tx ← required dec_u64 tx;
      Some {| hb_server_id := si; hb_running := ru; hb_cpu_percent := cp;
              hb_mem_used_bytes := mu; hb_mem_limit_bytes := ml;
              hb_net_rx_bytes := rx; hb_net_tx_bytes := tx |}
  | _ => None
  end.

Definition dec_heartbeat : dec HeartbeatPayload := fun j =>
  match field_values ["containers"] j with
  | Some [c] =>
      c ← or_default [] (dec_vec dec_container_heartbeat) c; Some {| hb_containers := c |}
  | _ => None
  end.

Definition dec_ack : dec AckPayload := fun j =>
  match field_values ["command_id"; "ok"; "error"; "result"] j with
  | Some [c; o; e; r] =>
      c ← required dec_string c; o ← required dec_bool o;
      e ← opt_field dec_string e; r ← opt_field dec_value r;
      Some {| ack_command_id := c; ack_ok := o; ack_error := e; ack_result := r |}
  | _ => None
  end.

Definition dec_file_entry : dec FileEntry := fun j =>
  match field_values ["name"; "is_dir"; "size_bytes"] j with
  | Some [n; d; s] =>
      n ← required dec_string n; d ← required dec_bool d; s ← required dec_u64 s;
      Some {| fe_name := n; fe_is_dir := d; fe_size_bytes := s |}
  | _ => None
  end.

Definition dec_list_files : dec ListFilesResult := fun j =>
  match field_values ["entries"] j with
  | Some [e] => e ← required (dec_vec dec_file_entry) e; Some {| lf_entries := e |}
  | _ => None
  end.

Definition dec_read_file : dec ReadFileResult := fun j =>
  match field_values ["content_base64"; "size_bytes"] j with
  | Some [c; s] =>
      c ← required dec_string c; s ← required dec_u64 s;
      Some {| rf_content_base64 := c; rf_size_bytes := s |}
  | _ => None
  end.

Definition dec_backup : dec BackupResult := fun j =>
  match field_values ["filename"; "size_bytes"] j with
  | Some [f; s] =>
      f ← required dec_string f; s ← required dec_u64 s;
      Some {| br_filename := f; br_size_bytes := s |}
  | _ => None
  end.

Definition dec_backup_entry : dec BackupEntry := fun j =>
  match field_values ["filename"; "size_bytes"; "created_at"] j with
  | Some [f; s; c] =>
      f ← required dec_string f; s ← required dec_u64 s; c ← required dec_u64 c;
      Some {| be_filename := f; be_size_bytes := s; be_created_at := c |}
  | _ => None
  end.

Definition dec_list_backups : dec ListBackupsResult := fun j =>
  match field_values ["backups"] j with
  | Some [b] => b ← required (dec_vec dec_backup_entry) b; Some {| lb_backups := b |}
  | _ => None
  end.

Definition dec_create_database : dec CreateDatabaseResult := fun j =>
  match field_values ["host"; "port"] j with
  | Some [h; p] =>
      h ← required dec_string h; p ← required dec_u16 p;
      Some {| cd_host := h; cd_port := p |}
  | _ => None
  end.

(** ** The values of the Rust types *)

Definition in_u16 (z : Z) : Prop := (0 <= z <= u16_max)%Z.
Definition finite_f64 (f : f64) : Prop := enc_f64 f = JFloat f.

Definition container_heartbeat_ok (h : ContainerHeartbeat) : Prop :=
  finite_f64 (hb_cpu_percent h) /\
  in_u64 (hb_mem_used_bytes h) /\ in_u64 (hb_mem_limit_bytes h) /\
  in_u64 (hb_net_rx_bytes h) /\ in_u64 (hb_net_tx_bytes h).
Definition spec_ok (s : ContainerSpec) : Prop :=
  in_i64 (spec_memory_bytes s) /\ in_i64 (spec_nano_cpus s).
Definition command_ok (c : CommandPayload) : Prop :=
  forall s, cmd_spec c = Some s -> spec_ok s.

(** A result is a [Value]; [Some(Value::Null)] would read back as [None]. *)
Definition ack_value (a : AckPayload) : Prop :=
  forall r, ack_result a = Some r -> to_value r = r /\ r <> JNull.

(** ** What a payload type promises *)

(** [rust_value] are the values the Rust type has: integers of their width,
    floats the format can carry. *)
Class Wire (A : Type) := {
  to_json : A -> json;
  of_json : dec A;
  rust_value : A -> Prop;
}.

(** Reading back what was written gives the value that was written; whatever
    JSON tree is read, the result is a value of the type; and a payload is an
    object, never [null]. *)
Class WireLaws (A : Type) `{Wire A} : Prop := {
  wire_roundtrip (a : A) : rust_value a -> of_json (to_json a) = Some a;
  wire_typed j (a : A) : of_json j = Some a -> rust_value a;
  wire_object (a : A) : exists kvs, to_json a = JObj kvs;
}.

(** A result type also survives [serde_json::to_value]. *)
Class WireResult (A : Type) `{WireLaws A} : Prop :=
  wire_value (a : A) : rust_value a -> of_json (to_value (to_json a)) = Some a.

Global Instance wire_hello : Wire HelloPayload :=
  {| to_json := enc_hello; of_json := dec_hello; rust_value _ := True |}.
Global Instance wire_container_heartbeat : Wire ContainerHeartbeat :=
  {| to_json := enc_container_heartbeat; of_json := dec_container_heartbeat;
     rust_value := container_heartbeat_ok |}.
Global Instance wire_heartbeat : Wire HeartbeatPayload :=
  {| to_json := enc_heartbeat; of_json := dec_heartbeat;
     rust_value h := Forall container_heartbeat_ok (hb_containers h) |}.
Global Instance wire_event : Wire EventPayload :=
  {| to_json := enc_event; of_json := dec_event; rust_value _ := True |}.
Global Instance wire_port_binding : Wire PortBinding :=
  {| to_json := enc_port_binding; of_json := dec_port_binding; rust_value _ := True |}.
Global Instance wire_spec : Wire ContainerSpec :=
  {| to_json := enc_spec; of_json := dec_spec; rust_value := spec_ok |}.
Global Instance wire_command : Wire CommandPayload :=
  {| to_json := enc_command; of_json := dec_command; rust_value := command_ok |}.
Global Instance wire_ack : Wire AckPayload :=
  {| to_json := enc_ack; of_json := dec_ack; rust_value := ack_value |}.
Global Instance wire_file_entry : Wire FileEntry :=
  {| to_json := enc_file_entry; of_json := dec_file_entry;
     rust_value e := in_u64 (fe_size_bytes e) |}.
Global Instance wire_list_files : Wire ListFilesResult :=
  {| to_json := enc_list_files; of_json := dec_list_files;
     rust_value r := Forall rust_value (lf_entries r) |}.
Global Instance wire_read_file : Wire ReadFileResult :=
  {| to_json := enc_read_file; of_json := dec_read_file;
     rust_value r := in_u64 (rf_size_bytes r) |}.
Global Instance wire_backup : Wire BackupResult :=
  {| to_json := enc_backup; of_json := dec_backup; rust_value r := in_u64 (br_size_bytes r) |}.
Global Instance wire_backup_entry : Wire BackupEntry :=
  {| to_json := enc_backup_entry; of_json := dec_backup_entry;
     rust_value e := in_u64 (be_size_bytes e) /\ in_u64 (be_created_at e) |}.
Global Instance wire_list_backups : Wire ListBackupsResult :=
  {| to_json := enc_list_backups; of_json := dec_list_backups;
     rust_value r := Forall rust_value (lb_backups r) |}.
Global Instance wire_create_database : Wire CreateDatabaseResult :=
  {| to_json := enc_create_database; of_json := dec_create_database;
     rust_value r := in_u16 (cd_port r) |}.

(** ** Lemmas *)

Lemma dec_int_typed lo hi j z : dec_int lo hi j = Some z -> (lo <= z <= hi)%Z.
Proof. destruct j; simpl; [done..| |done|done|done|done]. case_match eqn:E; [|done]. intros [= <-]. lia. Qed.

Lemma dec_u64_typed j z : dec_u64 j = Some z -> in_u64 z.
Proof. apply dec_int_typed. Qed.
Lemma dec_i64_typed j z : dec_i64 j = Some z -> in_i64 z.
Proof. apply dec_int_typed. Qed.
Lemma dec_u16_typed j z : dec_u16 j = Some z -> in_u16 z.
Proof. apply dec_int_typed. Qed.

Lemma of_Z_finite z : (i64_min <= z <= u64_max)%Z -> finite_f64 (f64_of_Z z).
Proof.
  intros Hz. unfold finite_f64, f64_of_Z.
  assert (Hd : (Zdigits2 z + 0 <= 64)%Z).
  { rewrite Z.add_0_r. destruct z as [|p|p]; [done|..];
      [|change (Zdigits2 (Zneg p)) with (Zdigits2 (Zpos p))];
      apply digits_le; unfold i64_min, u64_max in Hz; lia. }
  pose proof (normalize_fin z 0 64 ltac:(lia) Hd ltac:(lia)) as Hf.
  by destruct (binary_normalize _ _ _ _ _).
Qed.

Lemma dec_f64_typed j f : dec_f64 j = Some f -> finite_f64 f.
Proof.
  unfold dec_f64. intros H. repeat case_match; simplify_eq; try done.
  apply of_Z_finite. lia.
Qed.

Lemma dec_vec_typed {A} (P : A -> Prop) (d : dec A) j l :
  (forall j a, d j = Some a -> P a) -> dec_vec d j = Some l -> Forall P l.
Proof.
  intros Hd. destruct j as [| | | | |js|]; try done. simpl. intros Hl%mapM_Some.
  induction Hl; constructor; eauto.
Qed.

Lemma dec_map_typed {A} (P : A -> Prop) (d : dec A) j m :
  (forall j a, d j = Some a -> P a) -> dec_map d j = Some m -> map_Forall (fun _ a => P a) m.
Proof.
  intros Hd. destruct j as [| | | | | |kvs]; try done. simpl.
  destruct (mapM _ kvs) as [l|] eqn:Hl; [|done]. intros [= <-]. apply mapM_Some in Hl.
  assert (Forall (fun kv : string * A => P kv.2) l) as Hall.
  { induction Hl as [|[k v] kv kvs l Hkv _ IH]; constructor; [|done].
    simpl in Hkv. destruct (d v) eqn:Hv; simplify_eq/=. eauto. }
  intros k a Hk%elem_of_list_to_map_2. rewrite elem_of_reverse in Hk.
  rewrite Forall_forall in Hall. exact (Hall _ Hk).
Qed.

(** Inverts a decoder that succeeded down to its fields. *)
Ltac inv_dec :=
  repeat match goal with
    | H : match field_values ?n ?j with _ => _ end = Some _ |- _ =>
        destruct (field_values n j) as [?vs|]; [|discriminate H]
    | H : match ?l with [] => _ | _ => _ end = Some _ |- _ =>
        destruct l; try discriminate H
    end; simplify_option_eq.

(** A field that is required, or has a default. *)
Lemma required_Some {A} (d : dec A) v a : required d v = Some a -> exists j, d j = Some a.
Proof. destruct v; [eauto|done]. Qed.
Lemma or_default_Some {A} (def : A) (d : dec A) v a :
  or_default def d v = Some a -> a = def \/ exists j, d j = Some a.
Proof. destruct v; [eauto|]. intros [= <-]. by left. Qed.
Lemma dec_f64_enc f : finite_f64 f -> dec_f64 (enc_f64 f) = Some f.
Proof. by destruct f. Qed.
Lemma dec_u64_enc z : in_u64 z -> dec_u64 (JInt z) = Some z.
Proof. apply dec_int_range. Qed.
Lemma dec_u16_enc z : in_u16 z -> dec_u16 (JInt z) = Some z.
Proof. apply dec_int_range. Qed.

Lemma dec_vec_Forall {A} (P : A -> Prop) (e : A -> json) (d : dec A) (l : list A) :
  (forall a, P a -> d (e a) = Some a) -> Forall P l -> dec_vec d (enc_vec e l) = Some l.
Proof. intros Hd Hl. apply dec_vec_enc. rewrite Forall_forall in Hl. auto. Qed.

#[export] Hint Rewrite dec_vec_strings : wire.
#[export] Hint Rewrite @dec_f64_enc @dec_u64_enc @dec_u16_enc using done : wire.

(** An object that has exactly the fields of the struct. *)
Lemma field_values_all (kvs : list (string * json)) :
  NoDup (map fst kvs) ->
  field_values (map fst kvs) (JObj kvs) = Some (map (fun kv => Some kv.2) kvs).
Proof.
  intros Hnd.
  assert (Hp : kvs = present (map (fun kv => (kv.1, Some kv.2)) kvs)).
  { clear. induction kvs as [|[k v] kvs IH]; [done|]. unfold present in *. simpl. by rewrite <- IH. }
  pose proof (field_values_present (map (fun kv => (kv.1, Some kv.2)) kvs)) as H.
  rewrite <- Hp, !map_map in H. by apply H.
Qed.

(** Reads a struct's own object back, field by field. *)
Ltac read_back :=
  match goal with |- context [field_values ?n (JObj ?kvs)] =>
    change n with (map fst kvs); rewrite (field_values_all kvs);
      [|apply (bool_decide_unpack _); vm_compute; done] end;
  cbn [map fst snd required or_default mbind option_bind dec_string dec_bool];
  autorewrite with wire; cbn [option_bind mbind].

(** What a decoder that succeeded found in its fields. *)
Ltac fields :=
  inv_dec;
  repeat match goal with
    | H : required _ _ = Some _ |- _ => apply required_Some in H as [? H]
    | H : or_default _ _ _ = Some _ |- _ => apply or_default_Some in H as [->|[? H]]
    | H : dec_u64 _ = Some _ |- _ => apply dec_u64_typed in H
    | H : dec_i64 _ = Some _ |- _ => apply dec_i64_typed in H
    | H : dec_u16 _ = Some _ |- _ => apply dec_u16_typed in H
    | H : dec_f64 _ = Some _ |- _ => apply dec_f64_typed in H
    end.
Ltac typed :=
  fields; unfold container_heartbeat_ok, spec_ok in *; cbn;
  split_and?; try done; unfold in_i64, i64_min, i64_max; lia.

(** Vectors of payloads. *)
Lemma wire_vec {A} `{WireLaws A} (l : list A) :
  Forall rust_value l -> dec_vec of_json (enc_vec to_json l) = Some l.
Proof. apply dec_vec_Forall, wire_roundtrip. Qed.

Lemma wire_vec_typed {A} `{WireLaws A} j (l : list A) :
  dec_vec of_json j = Some l -> Forall rust_value l.
Proof. apply dec_vec_typed, wire_typed. Qed.

(** ** The laws, type by type *)

Global Instance wire_hello_laws : WireLaws HelloPayload.
Proof.
  split; [|done|by eexists]. intros h _. cbn. unfold dec_hello, enc_hello, enc_strings.
  read_back. by destruct h.
Qed.

Global Instance wire_container_heartbeat_laws : WireLaws ContainerHeartbeat.
Proof.
  split; [| |by eexists].
  - intros h (Hf & H1 & H2 & H3 & H4). cbn.
    unfold dec_container_heartbeat, enc_container_heartbeat. read_back. by destruct h.
  - intros j h. cbn. unfold dec_container_heartbeat. intros Hd. typed.
Qed.

Global Instance wire_heartbeat_laws : WireLaws HeartbeatPayload.
Proof.
  split; [| |by eexists].
  - intros h Hh. cbn. unfold dec_heartbeat, enc_heartbeat. read_back.
    pose proof (wire_vec (hb_containers h) Hh) as Hv.
    cbn [of_json to_json wire_container_heartbeat] in Hv. rewrite Hv. by destruct h.
  - intros j h. cbn. unfold dec_heartbeat. intros Hd. inv_dec.
    match goal with H : or_default _ _ _ = _ |- _ =>
      apply or_default_Some in H as [->|[? H]]; [constructor|]; exact (wire_vec_typed _ _ H) end.
Qed.

Global Instance wire_event_laws : WireLaws EventPayload.
Proof.
  split; [|done|by eexists]. intros e _. cbn. unfold dec_event, enc_event. read_back.
  by destruct e as [? [] ?].
Qed.

Global Instance wire_port_binding_laws : WireLaws PortBinding.
Proof. split; [|done|by eexists]. intros p _. apply dec_port_binding_enc. Qed.

Global Instance wire_spec_laws : WireLaws ContainerSpec.
Proof.
  split; [| |by eexists].
  - intros s [Hm Hc]. by apply dec_spec_enc.
  - intros j s. cbn. unfold dec_spec. intros Hd. typed.
Qed.

Lemma opt_field_Some {A} (d : dec A) v a : opt_field d v = Some (Some a) -> exists j, d j = Some a.
Proof.
  unfold opt_field. intros [?|[j Hj]]%or_default_Some; [done|]. unfold dec_option in Hj.
  destruct j; simplify_option_eq; eauto.
Qed.

Global Instance wire_command_laws : WireLaws CommandPayload.
Proof.
  split; [| |by eexists].
  - intros c Hc. by apply dec_command_enc.
  - intros j c. cbn. unfold dec_command. intros Hd. inv_dec. intros s Hs. simpl in Hs. subst.
    match goal with H : opt_field dec_spec _ = Some (Some s) |- _ =>
      apply opt_field_Some in H as [? H]; exact (wire_typed _ _ H) end.
Qed.

Lemma enc_ack_members a :
  enc_ack a = JObj (present [("command_id", Some (JStr (ack_command_id a)));
    ("ok", Some (JBool (ack_ok a))); ("error", JStr <$> ack_error a); ("result", ack_result a)]).
Proof.
  unfold enc_ack. do 2 f_equal. rewrite !(skip_none_fmap _ JStr).
  unfold present. cbn [map concat fst snd]. by rewrite app_nil_r.
Qed.

Global Instance wire_ack_laws : WireLaws AckPayload.
Proof.
  split; [| |by eexists].
  - intros a Ha. cbn. rewrite enc_ack_members. unfold dec_ack.
    match goal with |- context [field_values ?n (JObj (present ?o))] =>
      change n with (map fst o); rewrite field_values_present;
        [|apply (bool_decide_unpack _); vm_compute; done] end.
    cbn [map snd required mbind option_bind dec_string dec_bool].
    rewrite opt_field_string. cbn [option_bind].
    assert (Hr : opt_field dec_value (ack_result a) = Some (ack_result a)); [|rewrite Hr; by destruct a].
    pose proof (opt_field_enc (fun j => j) dec_value (ack_result a)) as H. rewrite option_fmap_id in H.
    apply H. intros r Hr. destruct (Ha r Hr) as [Hv Hn]. unfold dec_value. by rewrite Hv.
  - intros j a. cbn. unfold dec_ack. intros Hd. inv_dec. intros r Hr. simpl in Hr. subst.
    match goal with H : opt_field dec_value _ = Some (Some r) |- _ =>
      unfold opt_field in H; apply or_default_Some in H as [?|[j' H]]; [done|];
      unfold dec_option, dec_value in H; destruct j'; simplify_option_eq end;
      (split; [done || apply (to_value_idem (JArr _)) || apply (to_value_idem (JObj _))|done]).
Qed.

Global Instance wire_file_entry_laws : WireLaws FileEntry.
Proof.
  split; [| |by eexists].
  - intros e He. cbn in *. unfold dec_file_entry, enc_file_entry. read_back. by destruct e.
  - intros j e. cbn. unfold dec_file_entry. intros Hd. typed.
Qed.

Global Instance wire_list_files_laws : WireLaws ListFilesResult.
Proof.
  split; [| |by eexists].
  - intros r Hr. cbn in *. unfold dec_list_files, enc_list_files. read_back.
    pose proof (wire_vec (lf_entries r) Hr) as Hv.
    cbn [of_json to_json wire_file_entry] in Hv. rewrite Hv. by destruct r.
  - intros j r. cbn. unfold dec_list_files. intros Hd. inv_dec.
    match goal with H : required _ _ = _ |- _ => apply required_Some in H as [? H];
      exact (wire_vec_typed _ _ H) end.
Qed.

Global Instance wire_read_file_laws : WireLaws ReadFileResult.
Proof.
  split; [| |by eexists].
  - intros r Hr. cbn in *. unfold dec_read_file, enc_read_file. read_back. by destruct r.
  - intros j r. cbn. unfold dec_read_file. intros Hd. typed.
Qed.

Global Instance wire_backup_laws : WireLaws BackupResult.
Proof.
  split; [| |by eexists].
  - intros r Hr. cbn in *. unfold dec_backup, enc_backup. read_back. by destruct r.
  - intros j r. cbn. unfold dec_backup. intros Hd. typed.
Qed.

Global Instance wire_backup_entry_laws : WireLaws BackupEntry.
Proof.
  split; [| |by eexists].
  - intros e [Hs Hc]. cbn in *. unfold dec_backup_entry, enc_backup_entry. read_back. by destruct e.
  - intros j e. cbn. unfold dec_backup_entry. intros Hd. typed.
Qed.

Global Instance wire_list_backups_laws : WireLaws ListBackupsResult.
Proof.
  split; [| |by eexists].
  - intros r Hr. cbn in *. unfold dec_list_backups, enc_list_backups. read_back.
    pose proof (wire_vec (lb_backups r) Hr) as Hv.
    cbn [of_json to_json wire_backup_entry] in Hv. rewrite Hv. by destruct r.
  - intros j r. cbn. unfold dec_list_backups. intros Hd. inv_dec.
    match goal with H : required _ _ = _ |- _ => apply required_Some in H as [? H];
      exact (wire_vec_typed _ _ H) end.
Qed.

Global Instance wire_create_database_laws : WireLaws CreateDatabaseResult.
Proof.
  split; [| |by eexists].
  - intros r Hr. cbn in *. unfold dec_create_database, enc_create_database. read_back. by destruct r.
  - intros j r. cbn. unfold dec_create_database. intros Hd. typed.
Qed.

Lemma dec_ack_enc a : ack_value a -> dec_ack (enc_ack a) = Some a.
Proof. exact (wire_roundtrip a). Qed.
Lemma dec_heartbeat_enc h :
  Forall container_heartbeat_ok (hb_containers h) -> dec_heartbeat (enc_heartbeat h) = Some h.
Proof. exact (wire_roundtrip h). Qed.

(** ** The results of commands *)

Lemma to_value_vec {A} (e : A -> json) (l : list A) :
  to_value (enc_vec e l) = enc_vec (fun a => to_value (e a)) l.
Proof. unfold enc_vec. cbn. by rewrite map_map. Qed.

Lemma wire_value_vec {A} `{WireResult A} (l : list A) :
  Forall rust_value l -> dec_vec of_json (to_value (enc_vec to_json l)) = Some l.
Proof. rewrite to_value_vec. apply dec_vec_Forall, wire_value. Qed.

Global Instance wire_file_entry_result : WireResult FileEntry.
Proof.
  intros e He. cbn in He. change (dec_file_entry (JObj [("is_dir", JBool (fe_is_dir e));
    ("name", JStr (fe_name e)); ("size_bytes", JInt (fe_size_bytes e))]) = Some e).
  unfold dec_file_entry.
  match goal with |- context [field_values ?n ?j] => assert (Hf : field_values n j = Some
    [Some (JStr (fe_name e)); Some (JBool (fe_is_dir e)); Some (JInt (fe_size_bytes e))])
    by (vm_compute; reflexivity); rewrite Hf end.
  cbn [required mbind option_bind dec_string dec_bool]. rewrite dec_u64_enc by done. by destruct e.
Qed.

Global Instance wire_backup_entry_result : WireResult BackupEntry.
Proof.
  intros e [Hs Hc]. change (dec_backup_entry (JObj [("created_at", JInt (be_created_at e));
    ("filename", JStr (be_filename e)); ("size_bytes", JInt (be_size_bytes e))]) = Some e).
  unfold dec_backup_entry.
  match goal with |- context [field_values ?n ?j] => assert (Hf : field_values n j = Some
    [Some (JStr (be_filename e)); Some (JInt (be_size_bytes e)); Some (JInt (be_created_at e))])
    by (vm_compute; reflexivity); rewrite Hf end.
  cbn [required mbind option_bind dec_string]. rewrite !dec_u64_enc by done. by destruct e.
Qed.

Global Instance wire_list_files_result : WireResult ListFilesResult.
Proof.
  intros r Hr. change (dec_list_files (JObj [("entries",
    to_value (enc_vec to_json (lf_entries r)))]) = Some r).
  pose proof (wire_value_vec (lf_entries r) Hr) as Hv.
  unfold dec_list_files. read_back. cbn [of_json wire_file_entry] in Hv. rewrite Hv. by destruct r.
Qed.

Global Instance wire_list_backups_result : WireResult ListBackupsResult.
Proof.
  intros r Hr. change (dec_list_backups (JObj [("backups",
    to_value (enc_vec to_json (lb_backups r)))]) = Some r).
  pose proof (wire_value_vec (lb_backups r) Hr) as Hv.
  unfold dec_list_backups. read_back. cbn [of_json wire_backup_entry] in Hv. rewrite Hv. by destruct r.
Qed.

Global Instance wire_read_file_result : WireResult ReadFileResult.
Proof. intros r Hr. exact (wire_roundtrip r Hr). Qed.
Global Instance wire_backup_result : WireResult BackupResult.
Proof. intros r Hr. exact (wire_roundtrip r Hr). Qed.
Global Instance wire_create_database_result : WireResult CreateDatabaseResult.
Proof. intros r Hr. exact (wire_roundtrip r Hr). Qed.

(** A result that was made a [Value] is one an acknowledgement can carry. *)
Lemma result_value {A} `{WireResult A} (r : A) :
  to_value (to_value (to_json r)) = to_value (to_json r) /\ to_value (to_json r) <> JNull.
Proof. split; [apply to_value_idem|]. by destruct (wire_object r) as [kvs ->]. Qed.

(** ** Properties *)

(** C15: the wire types are closed under the wire. For each payload type of the
    protocol: a value of the Rust type is read back as itself; whatever JSON
    tree is decoded, the result is a value of the type (every integer in the
    range of its width, every float finite); and no payload serialises to
    [null]. The five result types are also read back from the [Value] an
    acknowledgement carries, whose objects are sorted. *)
Theorem payloads_lawful :
  (WireLaws HelloPayload /\ WireLaws HeartbeatPayload /\ WireLaws EventPayload /\
   WireLaws CommandPayload /\ WireLaws ContainerSpec /\ WireLaws PortBinding /\
   WireLaws ContainerHeartbeat /\ WireLaws AckPayload /\ WireLaws FileEntry /\
   WireLaws BackupEntry) /\
  (WireResult ListFilesResult /\ WireResult ReadFileResult /\ WireResult BackupResult /\
   WireResult ListBackupsResult /\ WireResult CreateDatabaseResult).
Proof. split_and!; apply _. Qed.
