(* ===== verification/Stats.v ===== *)
(** * Container statistics (daemon/src/runtime/stats.rs)

    [f64] is IEEE 754 binary64, computed with the standard library's executable
    specification of floats (round to nearest, ties to even; see Float64). *)

From S2P Require Import Prelude RustStr Json Float64 Wire.
From Stdlib Require Import SpecFloat.
From stdpp Require Import options.

(** ** The Engine API payload *)

Record CpuUsage := { total_usage : Z }.
Record CpuStats := { cpu_usage : CpuUsage; system_cpu_usage : Z; online_cpus : Z }.
Record MemoryDetailStats := { mem_cache : Z }.
Record MemoryStats := { mem_usage : Z; mem_limit : Z; mem_stats : MemoryDetailStats }.
Record NetworkStats := { rx_bytes : Z; tx_bytes : Z }.
Record DockerStatsResponse := {
  cpu_stats : CpuStats;
  precpu_stats : CpuStats;
  memory_stats : MemoryStats;
  networks : gmap string NetworkStats;
}.

(** runtime/mod.rs *)
Record Stats := {
  st_cpu_percent : f64;
  st_mem_used_bytes : Z;
  st_mem_limit_bytes : Z;
  st_net_rx_bytes : Z;
  st_net_tx_bytes : Z;
}.

(** Every field has [#[serde(default)]]. *)
Definition default_cpu_usage : CpuUsage := {| total_usage := 0 |}.
Definition default_cpu_stats : CpuStats :=
  {| cpu_usage := default_cpu_usage; system_cpu_usage := 0; online_cpus := 0 |}.
Definition default_memory_stats : MemoryStats :=
  {| mem_usage := 0; mem_limit := 0; mem_stats := {| mem_cache := 0 |} |}.

Definition dec_cpu_usage : dec CpuUsage := fun j =>
  match field_values ["total_usage"] j with
  | Some [t] => t ← or_default 0%Z dec_u64 t; Some {| total_usage := t |}
  | _ => None
  end.
Definition dec_cpu_stats : dec CpuStats := fun j =>
  match field_values ["cpu_usage"; "system_cpu_usage"; "online_cpus"] j with
  | Some [u; s; o] =>
      u ← or_default default_cpu_usage dec_cpu_usage u;
      s ← or_default 0%Z dec_u64 s;
      o ← or_default 0%Z dec_u64 o;
      Some {| cpu_usage := u; system_cpu_usage := s; online_cpus := o |}
  | _ => None
  end.
Definition dec_memory_detail : dec MemoryDetailStats := fun j =>
  match field_values ["cache"] j with
  | Some [c] => c ← or_default 0%Z dec_u64 c; Some {| mem_cache := c |}
  | _ => None
  end.
Definition dec_memory_stats : dec MemoryStats := fun j =>
  match field_values ["usage"; "limit"; "stats"] j with
  | Some [u; l; s] =>
      u ← or_default 0%Z dec_u64 u;
      l ← or_default 0%Z dec_u64 l;
      s ← or_default {| mem_cache := 0 |} dec_memory_detail s;
      Some {| mem_usage := u; mem_limit := l; mem_stats := s |}
  | _ => None
  end.
Definition dec_network_stats : dec NetworkStats := fun j =>
  match field_values ["rx_bytes"; "tx_bytes"] j with
  | Some [r; t] =>
      r ← or_default 0%Z dec_u64 r; t ← or_default 0%Z dec_u64 t;
      Some {| rx_bytes := r; tx_bytes := t |}
  | _ => None
  end.
Definition dec_docker_stats : dec DockerStatsResponse := fun j =>
  match field_values ["cpu_stats"; "precpu_stats"; "memory_stats"; "networks"] j with
  | Some [c; p; m; n] =>
      c ← or_default default_cpu_stats dec_cpu_stats c;
      p ← or_default default_cpu_stats dec_cpu_stats p;
      m ← or_default default_memory_stats dec_memory_stats m;
      n ← or_default ∅ (dec_map dec_network_stats) n;
      Some {| cpu_stats := c; precpu_stats := p; memory_stats := m; networks := n |}
  | _ => None
  end.

(** ** [cpu_percent] and [parse_docker_stats] *)

Definition cpu_percent (cur prev : CpuStats) : f64 :=
  let cpu_delta := f64_sub (f64_of_Z (total_usage (cpu_usage cur)))
                           (f64_of_Z (total_usage (cpu_usage prev))) in
  let system_delta := f64_sub (f64_of_Z (system_cpu_usage cur))
                              (f64_of_Z (system_cpu_usage prev)) in
  if SFleb system_delta f64_zero || SFltb cpu_delta f64_zero then f64_zero
  else
    let online := if (online_cpus cur =? 0)%Z then f64_of_Z 1 else f64_of_Z (online_cpus cur) in
    f64_mul (f64_mul (f64_div cpu_delta system_delta) online) (f64_of_Z 100).

(** [for net in networks.values() { rx += ...; tx += ... }]; [None] is the
    overflow panic of a checked build. *)
Definition add_network (p : profile) (acc : option (Z * Z)) (net : NetworkStats) : option (Z * Z) :=
  '(rx, tx) ← acc;
  rx ← arith_u64 p (rx + rx_bytes net);
  tx ← arith_u64 p (tx + tx_bytes net);
  Some (rx, tx).

Definition u64_saturating_sub (a b : Z) : Z := Z.max 0 (a - b).

Definition parse_docker_stats (p : profile) (raw : DockerStatsResponse) : option Stats :=
  '(rx, tx) ← foldl (add_network p) (Some (0, 0)%Z) (map_to_list (networks raw)).*2;
  Some {| st_cpu_percent := cpu_percent (cpu_stats raw) (precpu_stats raw);
          st_mem_used_bytes := u64_saturating_sub (mem_usage (memory_stats raw))
                                 (mem_cache (mem_stats (memory_stats raw)));
          st_mem_limit_bytes := mem_limit (memory_stats raw);
          st_net_rx_bytes := rx;
          st_net_tx_bytes := tx |}.

(** ** Lemmas *)

Definition sum_by (f : NetworkStats -> Z) (l : list NetworkStats) : Z :=
  fold_right Z.add 0%Z (map f l).

Definition net_ok (n : NetworkStats) : Prop :=
  (0 <= rx_bytes n <= u64_max)%Z /\ (0 <= tx_bytes n <= u64_max)%Z.

Lemma sum_by_nonneg f l : Forall (fun n => 0 <= f n)%Z l -> (0 <= sum_by f l)%Z.
Proof. unfold sum_by. induction 1; cbn; lia. Qed.

Lemma sum_by_app f l k : sum_by f (l ++ k) = (sum_by f l + sum_by f k)%Z.
Proof. unfold sum_by. induction l as [|n l IH]; cbn; lia. Qed.

Lemma arith_u64_wrapping z : arith_u64 Wrapping z = Some (wrap_u64 z).
Proof. unfold arith_u64. case_bool_decide; [|done]. by rewrite wrap_u64_id. Qed.

Lemma add_networks_wrapping l :
  foldl (add_network Wrapping) (Some (0, 0)%Z) l
    = Some (wrap_u64 (sum_by rx_bytes l), wrap_u64 (sum_by tx_bytes l)).
Proof.
  induction l as [|n l IH] using rev_ind; [done|].
  rewrite foldl_app, !sum_by_app, IH. cbn [foldl add_network mbind option_bind].
  rewrite !arith_u64_wrapping. cbn [mbind option_bind].
  unfold sum_by, wrap_u64. cbn. by rewrite !Zplus_mod_idemp_l, !Z.add_0_r.
Qed.

Lemma add_networks_checked l :
  Forall net_ok l ->
  foldl (add_network Checked) (Some (0, 0)%Z) l
    = if bool_decide (sum_by rx_bytes l <= u64_max /\ sum_by tx_bytes l <= u64_max)%Z
      then Some (sum_by rx_bytes l, sum_by tx_bytes l) else None.
Proof.
  induction l as [|n l IH] using rev_ind; intros Hl; [done|].
  apply Forall_app in Hl as [Hl [Hrx Htx]%Forall_singleton].
  assert (Hr : (0 <= sum_by rx_bytes l)%Z)
    by (apply sum_by_nonneg; eapply Forall_impl; [exact Hl|]; intros x Hx; apply Hx).
  assert (Ht : (0 <= sum_by tx_bytes l)%Z)
    by (apply sum_by_nonneg; eapply Forall_impl; [exact Hl|]; intros x Hx; apply Hx).
  rewrite foldl_app, !sum_by_app, IH by done.
  assert (Hone : forall f, sum_by f [n] = f n) by (intros f; unfold sum_by; cbn; lia).
  rewrite !Hone. cbn [foldl]. unfold add_network, arith_u64.
  destruct (bool_decide_reflect (sum_by rx_bytes l <= u64_max /\ sum_by tx_bytes l <= u64_max)%Z);
    cbn [mbind option_bind].
  - destruct (bool_decide_reflect (0 <= sum_by rx_bytes l + rx_bytes n <= u64_max)%Z);
      cbn [mbind option_bind]; [|by rewrite bool_decide_false by lia].
    destruct (bool_decide_reflect (0 <= sum_by tx_bytes l + tx_bytes n <= u64_max)%Z);
      cbn [mbind option_bind]; [|by rewrite bool_decide_false by lia].
    by rewrite bool_decide_true by lia.
  - by rewrite bool_decide_false by lia.
Qed.

Lemma networks_ok_perm raw :
  map_Forall (fun _ n => net_ok n) (networks raw) ->
  Forall net_ok (map_to_list (networks raw)).*2.
Proof.
  intros Hm. apply Forall_forall. intros n ([k n'] & -> & Hin)%list_elem_of_fmap.
  apply elem_of_map_to_list in Hin. by apply (Hm k).
Qed.

(** A [CpuStats] as it is decoded: every field a [u64]. *)
Definition cpu_ok (c : CpuStats) : Prop :=
  (0 <= total_usage (cpu_usage c) <= u64_max)%Z /\
  (0 <= system_cpu_usage c <= u64_max)%Z /\ (0 <= online_cpus c <= u64_max)%Z.

Definition nonneg_finite (x : f64) : bool :=
  match x with S754_zero false | S754_finite false _ _ => true | _ => false end.

(** ** Properties *)

(** The reported CPU percentage is always a finite, non-negative number, for
    all counters the Engine can report: no NaN, no infinity and no negative
    value, also when counters went backwards or the CPU count is missing. *)
Theorem cpu_percent_finite cur prev :
  cpu_ok cur -> cpu_ok prev -> nonneg_finite (cpu_percent cur prev) = true.
Proof.
  intros (Hc1 & Hc2 & Hc3) (Hp1 & Hp2 & _). unfold cpu_percent.
  assert (Hcd : fin 66 (-104) (f64_sub (f64_of_Z (total_usage (cpu_usage cur)))
                                 (f64_of_Z (total_usage (cpu_usage prev)))))
    by (apply (sub_fin 65 (-52)); try apply of_Z_bounded; lia).
  assert (Hsd : fin 66 (-104) (f64_sub (f64_of_Z (system_cpu_usage cur))
                                 (f64_of_Z (system_cpu_usage prev))))
    by (apply (sub_fin 65 (-52)); try apply of_Z_bounded; lia).
  set (cd := f64_sub (f64_of_Z (total_usage _)) _) in *.
  set (sd := f64_sub (f64_of_Z (system_cpu_usage _)) _) in *.
  clearbody cd sd. destruct (SFleb sd f64_zero) eqn:Hs; [done|]. destruct (SFltb cd f64_zero) eqn:Hc; [done|].
  cbn [orb].
  assert (Hcb : within false 66 (-104) cd).
  { destruct cd as [s| | |s m e]; [exact Hcd|destruct Hcd|destruct Hcd|].
    destruct s; [discriminate Hc|]. split; [done|exact Hcd]. }
  assert (Hsb : within false 66 (-104) sd /\ forall s, sd <> S754_zero s).
  { destruct sd as [s| | |s m e]; [discriminate Hs|destruct Hsd|destruct Hsd|].
    destruct s; [discriminate Hs|].
    split; [|done]. split; [done|exact Hsd]. }
  set (online := if (online_cpus cur =? 0)%Z then f64_of_Z 1 else f64_of_Z (online_cpus cur)).
  assert (Ho : within false 65 (-52) online)
    by (unfold online; case_match; apply of_Z_bounded; unfold u64_max in *; lia).
  pose proof (div_bounded 66 (-104) cd sd Hcb (proj1 Hsb) (proj2 Hsb) ltac:(lia) ltac:(lia)) as Hd.
  cbn [Z.sub Z.add Z.opp Z.pos_sub] in Hd.
  pose proof (mul_bounded _ _ 65 (-52) _ online Hd Ho ltac:(lia) ltac:(lia) ltac:(lia) ltac:(lia)) as Hm.
  pose proof (mul_bounded _ _ 65 (-52) _ (f64_of_Z 100) Hm
    (of_Z_bounded 100 ltac:(unfold u64_max; lia)) ltac:(lia) ltac:(lia) ltac:(lia) ltac:(lia)) as Hr.
  destruct (f64_mul _ (f64_of_Z 100)) as [s| | |s m e]; cbn in Hr; try done.
  - by subst.
  - by destruct Hr as [-> _].
Qed.

Lemma cpu_percent_finite_witness :
  nonneg_finite (cpu_percent
    {| cpu_usage := {| total_usage := 200 |}; system_cpu_usage := 2000; online_cpus := 2 |}
    {| cpu_usage := {| total_usage := 100 |}; system_cpu_usage := 1000; online_cpus := 2 |}) = true.
Proof.
  apply (cpu_percent_finite
    {| cpu_usage := {| total_usage := 200 |}; system_cpu_usage := 2000; online_cpus := 2 |}
    {| cpu_usage := {| total_usage := 100 |}; system_cpu_usage := 1000; online_cpus := 2 |});
    unfold cpu_ok, u64_max; cbn; lia.
Defined.

(** The byte counts of a stats report. Memory in use is the usage less the
    page cache, never below zero; the network counters are the totals over all
    interfaces when these fit a [u64], and otherwise wrap in a release build
    and panic in a checked one. *)
Theorem parse_docker_stats_bytes p raw :
  map_Forall (fun _ n => net_ok n) (networks raw) ->
  let nets := (map_to_list (networks raw)).*2 in
  let rx := sum_by rx_bytes nets in
  let tx := sum_by tx_bytes nets in
  match parse_docker_stats p raw with
  | Some st =>
      st_mem_used_bytes st = Z.max 0 (mem_usage (memory_stats raw)
                                      - mem_cache (mem_stats (memory_stats raw))) /\
      st_mem_limit_bytes st = mem_limit (memory_stats raw) /\
      st_net_rx_bytes st = wrap_u64 rx /\ st_net_tx_bytes st = wrap_u64 tx /\
      (p = Checked -> rx <= u64_max /\ tx <= u64_max)%Z /\
      ((rx <= u64_max)%Z -> st_net_rx_bytes st = rx) /\
      ((tx <= u64_max)%Z -> st_net_tx_bytes st = tx)
  | None => p = Checked /\ ~ (rx <= u64_max /\ tx <= u64_max)%Z
  end.
Proof.
  intros Hn%networks_ok_perm nets rx tx.
  assert (Hrx : (0 <= rx)%Z)
    by (apply sum_by_nonneg; eapply Forall_impl; [exact Hn|]; intros x Hx; apply Hx).
  assert (Htx : (0 <= tx)%Z)
    by (apply sum_by_nonneg; eapply Forall_impl; [exact Hn|]; intros x Hx; apply Hx).
  unfold parse_docker_stats. destruct p.
  - rewrite add_networks_checked by done. fold nets rx tx.
    case_bool_decide as Hfit; cbn; [|done].
    rewrite !wrap_u64_id by (unfold in_u64; lia). done.
  - rewrite add_networks_wrapping. fold nets rx tx. cbn. split_and!; try done.
    + intros. by rewrite wrap_u64_id by (unfold in_u64; lia).
    + intros. by rewrite wrap_u64_id by (unfold in_u64; lia).
Qed.

Definition sample_stats : DockerStatsResponse :=
  {| cpu_stats := default_cpu_stats; precpu_stats := default_cpu_stats;
     memory_stats := {| mem_usage := 100; mem_limit := 512; mem_stats := {| mem_cache := 30 |} |};
     networks := {[ "eth0" := {| rx_bytes := 7; tx_bytes := 8 |};
                    "eth1" := {| rx_bytes := 1; tx_bytes := 2 |} ]} |}.

Lemma parse_docker_stats_bytes_witness :
  exists st, parse_docker_stats Checked sample_stats = Some st /\
    st_mem_used_bytes st = 70%Z /\ st_net_rx_bytes st = 8%Z.
Proof.
  assert (Hok : map_Forall (fun _ n => net_ok n) (networks sample_stats)).
  { apply map_Forall_insert_2; [unfold net_ok, u64_max; cbn; lia|].
    apply map_Forall_insert_2; [unfold net_ok, u64_max; cbn; lia|apply map_Forall_empty]. }
  pose proof (parse_docker_stats_bytes Checked sample_stats Hok) as H.
  destruct (parse_docker_stats Checked sample_stats) as [st|] eqn:E;
    [|vm_compute in E; discriminate].
  exists st. split; [reflexivity|]. destruct H as (Hm & _ & Hr & _).
  split; [exact Hm|]. rewrite Hr. vm_compute. reflexivity.
Defined.

(** ** What a report is made of *)

(** The values of the Rust type. *)
Definition stats_ok (st : Stats) : Prop :=
  finite_f64 (st_cpu_percent st) /\ in_u64 (st_mem_used_bytes st) /\
  in_u64 (st_mem_limit_bytes st) /\ in_u64 (st_net_rx_bytes st) /\ in_u64 (st_net_tx_bytes st).

Ltac unfold_stats := unfold cpu_ok, net_ok, in_u64, u64_max in *; cbn.

Lemma dec_cpu_usage_typed j u : dec_cpu_usage j = Some u -> in_u64 (total_usage u).
Proof. unfold dec_cpu_usage. intros H. fields; unfold_stats; lia. Qed.

Lemma dec_cpu_stats_typed j c : dec_cpu_stats j = Some c -> cpu_ok c.
Proof.
  unfold dec_cpu_stats. intros H. fields;
    repeat match goal with H : dec_cpu_usage _ = Some _ |- _ => apply dec_cpu_usage_typed in H end;
    unfold_stats; lia.
Qed.

Lemma dec_memory_detail_typed j m : dec_memory_detail j = Some m -> in_u64 (mem_cache m).
Proof. unfold dec_memory_detail. intros H. fields; unfold_stats; lia. Qed.

Lemma dec_memory_stats_typed j m :
  dec_memory_stats j = Some m -> in_u64 (mem_usage m) /\ in_u64 (mem_limit m) /\ in_u64 (mem_cache (mem_stats m)).
Proof.
  unfold dec_memory_stats. intros H. fields;
    repeat match goal with H : dec_memory_detail _ = Some _ |- _ => apply dec_memory_detail_typed in H end;
    unfold_stats; lia.
Qed.

Lemma dec_network_stats_typed j n : dec_network_stats j = Some n -> net_ok n.
Proof. unfold dec_network_stats. intros H. fields; unfold_stats; lia. Qed.

Lemma dec_docker_stats_typed j raw :
  dec_docker_stats j = Some raw ->
  cpu_ok (cpu_stats raw) /\ cpu_ok (precpu_stats raw) /\
  (in_u64 (mem_usage (memory_stats raw)) /\ in_u64 (mem_limit (memory_stats raw)) /\
   in_u64 (mem_cache (mem_stats (memory_stats raw)))) /\
  map_Forall (fun _ n => net_ok n) (networks raw).
Proof.
  unfold dec_docker_stats. intros H.
  assert (Hc : cpu_ok default_cpu_stats) by (unfold_stats; lia).
  fields; cbn;
    repeat match goal with
      | H : dec_cpu_stats _ = Some _ |- _ => apply dec_cpu_stats_typed in H
      | H : dec_memory_stats _ = Some _ |- _ => apply dec_memory_stats_typed in H
      | H : dec_map _ _ = Some _ |- _ => apply (dec_map_typed _ _ _ _ dec_network_stats_typed) in H
      end;
    (split_and!; try done; try apply map_Forall_empty; unfold in_u64, u64_max in *; cbn; lia).
Qed.

(** What the release build makes of an Engine report is a value of its type,
    whatever the Engine sent. *)
Lemma parse_docker_stats_typed j raw st :
  dec_docker_stats j = Some raw -> parse_docker_stats Wrapping raw = Some st -> stats_ok st.
Proof.
  intros (Hc & Hp & (Hu & Hl & Hca) & Hn)%dec_docker_stats_typed Hst.
  unfold parse_docker_stats in Hst. rewrite add_networks_wrapping in Hst. simplify_eq/=.
  pose proof (cpu_percent_finite _ _ Hc Hp) as Hf. split_and!; cbn.
  - unfold finite_f64. by destruct (cpu_percent _ _).
  - unfold u64_saturating_sub, in_u64 in *. lia.
  - done.
  - apply wrap_u64_range.
  - apply wrap_u64_range.
Qed.
