(* ===== verification/Runtime.v ===== *)
(** * The container runtime interface (daemon/src/runtime/mod.rs)

    [ContainerRuntime] is the trait the dispatcher is written against;
    [RuntimeLaws] is what its users rely on. The two boxed halves of a
    [Console] are handles into the runtime's state. *)

From S2P Require Import Prelude Trace Payloads Stats.
From stdpp Require Import options.

Record ContainerState := { cs_running : bool }.
Record ManagedContainer := { mc_server_id : string; mc_container_id : string }.

Global Instance ManagedContainer_eq_dec : EqDecision ManagedContainer.
Proof. solve_decision. Defined.

(** [stdin] and [output]: the write half and the receiver. *)
Record Console := { con_stdin : nat; con_output : nat }.

(** [UnboundedReceiver::recv]: a line, the end of the stream, or not ready. *)
Inductive received := Line (l : string) | Closed | Pending.

Class ContainerRuntime (S : Type) := {
  rt_pull : string -> M S unit;
  rt_create : ContainerSpec -> M S string;
  rt_list_managed : M S (list ManagedContainer);
  rt_start : string -> M S unit;
  rt_stop : string -> Z -> M S unit;
  rt_kill : string -> M S unit;
  rt_remove : string -> M S unit;
  rt_inspect : string -> M S ContainerState;
  rt_stats : string -> M S Stats;
  rt_attach : string -> M S Console;
  (** [write_all] on a console's stdin and [recv] on its output *)
  console_write : nat -> list byte -> M S unit;
  console_recv : nat -> S -> S * received;
}.

(** What the rest of the daemon may assume of a runtime: there is a set of
    containers, each running or not; the operations act on the one they name,
    fail on one that does not exist, and reading changes nothing. *)
Class RuntimeLaws {S} (R : ContainerRuntime S) := {
  containers_of : S -> gmap string bool;
  law_create spec s s' id :
    rt_create spec s = (s', Ok id) ->
    containers_of s' = <[id := false]> (containers_of s);
  law_start id s s' :
    rt_start id s = (s', Ok tt) ->
    is_Some (containers_of s !! id) /\ containers_of s' = <[id := true]> (containers_of s);
  law_stop id t s s' :
    rt_stop id t s = (s', Ok tt) ->
    is_Some (containers_of s !! id) /\ containers_of s' = <[id := false]> (containers_of s);
  law_kill id s s' :
    rt_kill id s = (s', Ok tt) ->
    is_Some (containers_of s !! id) /\ containers_of s' = <[id := false]> (containers_of s);
  law_remove id s s' :
    rt_remove id s = (s', Ok tt) ->
    is_Some (containers_of s !! id) /\ containers_of s' = delete id (containers_of s);
  law_inspect id s s' st :
    rt_inspect id s = (s', Ok st) -> containers_of s !! id = Some (cs_running st);
  law_inspect_total id s :
    is_Some (containers_of s !! id) -> exists s' st, rt_inspect id s = (s', Ok st);
  law_inspect_frame id s : containers_of (rt_inspect id s).1 = containers_of s;
  law_stats_frame id s : containers_of (rt_stats id s).1 = containers_of s;
  law_attach_frame id s : containers_of (rt_attach id s).1 = containers_of s;
  law_write_frame h bs s : containers_of (console_write h bs s).1 = containers_of s;
}.

(** The statistics of a container are values of their type. *)
Class RuntimeTypes {S} (R : ContainerRuntime S) : Prop :=
  law_stats_typed id : returns stats_ok (rt_stats id).
