(* ===== verification/FakeRuntime.v ===== *)
(** * The in-memory runtime (daemon/src/runtime/fake.rs)

    A container's recording buffer is an [Arc] shared between the container and
    every console attached to it, and an attach's channel is shared between the
    container's sender and the console's receiver: both live in stores and are
    named by handles. A channel is open while a container still holds its
    sender. *)

From S2P Require Import Prelude Trace RustStr Payloads Wire Stats Runtime.
From Stdlib Require Import SpecFloat.
From stdpp Require Import options.
Set Default Proof Using "Type*".

Record FakeContainer := {
  fc_running : bool;
  fc_labels : gmap string string;
  fc_console_writes : nat;
  fc_output_tx : option nat;
}.

Record FakeState := {
  containers : gmap string FakeContainer;
  buffers : gmap nat (list string);
  channels : gmap nat (list string);
  fresh : nat;
}.

Module Fake.

Definition new : FakeState :=
  {| containers := ∅; buffers := ∅; channels := ∅; fresh := 0 |}.

Definition set_containers (f : gmap string FakeContainer -> gmap string FakeContainer)
    (s : FakeState) : FakeState :=
  {| containers := f (containers s); buffers := buffers s; channels := channels s;
     fresh := fresh s |}.

Definition not_found (id : string) : string :=
  "fake runtime: container " +:+ id +:+ " not found".

(** [get_mut(id).ok_or_else(...)?] followed by an update of the container. *)
Definition with_container (id : string) (f : FakeContainer -> FakeContainer) : M FakeState unit :=
  c ← gets (fun s => containers s !! id);
  match c with
  | None => lift (Err (not_found id))
  | Some c => modify (set_containers (<[id := f c]>))
  end.

Definition get_container (id : string) : M FakeState FakeContainer :=
  c ← gets (fun s => containers s !! id); lift (ok_or (not_found id) c).

Definition set_running (r : bool) (c : FakeContainer) : FakeContainer :=
  {| fc_running := r; fc_labels := fc_labels c; fc_console_writes := fc_console_writes c;
     fc_output_tx := fc_output_tx c |}.

Definition pull (image : string) : M FakeState unit := mret tt.

Section uuid.
(** [Uuid::new_v4]: the ids handed out, by how many were before. *)
Variable uuid : nat -> string.

Definition create (spec : ContainerSpec) : M FakeState string := fun s =>
  let id := uuid (fresh s) in
  let c := {| fc_running := false; fc_labels := spec_labels spec;
              fc_console_writes := fresh s; fc_output_tx := None |} in
  ({| containers := <[id := c]> (containers s);
      buffers := <[fresh s := []]> (buffers s);
      channels := channels s;
      fresh := S (fresh s) |}, Ok id).
End uuid.

Definition server_id_label : string := "sky-panel.server_id".

Definition list_managed : M FakeState (list ManagedContainer) :=
  gets (fun s => omap (fun ic : string * FakeContainer =>
    (fun sid => {| mc_server_id := sid; mc_container_id := ic.1 |})
      <$> fc_labels ic.2 !! server_id_label) (map_to_list (containers s))).

Definition start (id : string) : M FakeState unit := with_container id (set_running true).
Definition stop (id : string) (timeout : Z) : M FakeState unit :=
  with_container id (set_running false).
Definition kill (id : string) : M FakeState unit := stop id 0.

Definition remove (id : string) : M FakeState unit :=
  _ ← get_container id; modify (set_containers (delete id)).

Definition inspect (id : string) : M FakeState ContainerState :=
  c ← get_container id; mret {| cs_running := fc_running c |}.

(** 12.5 percent, and fixed byte counts. *)
Definition stats (id : string) : M FakeState Stats :=
  _ ← get_container id;
  mret {| st_cpu_percent := S754_finite false 7036874417766400 (-49);
          st_mem_used_bytes := 128 * 1024 * 1024;
          st_mem_limit_bytes := 512 * 1024 * 1024;
          st_net_rx_bytes := 1024;
          st_net_tx_bytes := 2048 |}.

(** A new channel whose sender replaces the container's; the console shares the
    container's recording buffer. *)
Definition attach (id : string) : M FakeState Console := fun s =>
  match containers s !! id with
  | None => (s, Err (not_found id))
  | Some c =>
      let ch := fresh s in
      let c' := {| fc_running := fc_running c; fc_labels := fc_labels c;
                   fc_console_writes := fc_console_writes c; fc_output_tx := Some ch |} in
      ({| containers := <[id := c']> (containers s);
          buffers := buffers s;
          channels := <[ch := []]> (channels s);
          fresh := S ch |},
       Ok {| con_stdin := fc_console_writes c; con_output := ch |})
  end.

(** [RecordingWriter::poll_write] records the bytes as one lossily decoded
    entry; [write_all] calls it once, and not at all for no bytes. *)
Definition poll_write (writes : nat) (buf : list byte) (s : FakeState) : FakeState :=
  {| containers := containers s;
     buffers := alter (fun w => w ++ [from_utf8_lossy buf]) writes (buffers s);
     channels := channels s; fresh := fresh s |}.
Definition write_all (writes : nat) (buf : list byte) : M FakeState unit :=
  if bool_decide (buf = []) then mret tt else modify (poll_write writes buf).

Definition sender_alive (ch : nat) (s : FakeState) : bool :=
  existsb (fun ic : string * FakeContainer => bool_decide (fc_output_tx ic.2 = Some ch))
    (map_to_list (containers s)).

Definition recv (ch : nat) (s : FakeState) : FakeState * received :=
  match channels s !! ch with
  | Some (l :: ls) =>
      ({| containers := containers s; buffers := buffers s;
          channels := <[ch := ls]> (channels s); fresh := fresh s |}, Line l)
  | _ => (s, if sender_alive ch s then Pending else Closed)
  end.

(** The test helpers. *)
Definition console_writes (id : string) (s : FakeState) : list string :=
  match containers s !! id with
  | Some c => default [] (buffers s !! fc_console_writes c)
  | None => []
  end.

Definition emit_output (id line : string) (s : FakeState) : FakeState :=
  match containers s !! id ≫= fc_output_tx with
  | Some ch => {| containers := containers s; buffers := buffers s;
                  channels := alter (fun q => q ++ [line]) ch (channels s); fresh := fresh s |}
  | None => s
  end.

End Fake.

Definition fake_runtime (uuid : nat -> string) : ContainerRuntime FakeState := {|
  rt_pull := Fake.pull;
  rt_create := Fake.create uuid;
  rt_list_managed := Fake.list_managed;
  rt_start := Fake.start;
  rt_stop := Fake.stop;
  rt_kill := Fake.kill;
  rt_remove := Fake.remove;
  rt_inspect := Fake.inspect;
  rt_stats := Fake.stats;
  rt_attach := Fake.attach;
  console_write := Fake.write_all;
  console_recv := Fake.recv;
|}.

(** ** The laws *)

Lemma fake_types uuid : RuntimeTypes (fake_runtime uuid).
Proof.
  intros id s st. cbn. unfold Fake.stats, Fake.get_container. run.
  destruct (containers s !! id); cbn; [|done]. intros [= <-].
  unfold stats_ok, finite_f64, in_u64, u64_max. cbn. split; [done|]. lia.
Qed.

Definition running_of (s : FakeState) : gmap string bool := fc_running <$> containers s.

Lemma with_container_spec id f s s' :
  Fake.with_container id f s = (s', Ok tt) ->
  exists c, containers s !! id = Some c /\ s' = Fake.set_containers (<[id := f c]>) s.
Proof.
  unfold Fake.with_container. run. destruct (containers s !! id); naive_solver.
Qed.

Lemma set_running_law id b s s' :
  Fake.with_container id (Fake.set_running b) s = (s', Ok tt) ->
  is_Some (running_of s !! id) /\ running_of s' = <[id := b]> (running_of s).
Proof.
  intros (c & Hc & ->)%with_container_spec. unfold running_of. cbn.
  rewrite lookup_fmap, Hc, fmap_insert. done.
Qed.

Global Instance fake_laws uuid : RuntimeLaws (fake_runtime uuid).
Proof.
  refine {| containers_of := running_of |}; cbn [fake_runtime rt_create rt_start rt_stop rt_kill
    rt_remove rt_inspect rt_stats rt_attach console_write].
  - intros spec s s' id [= <- <-]. unfold running_of. cbn. by rewrite fmap_insert.
  - intros id s s'. apply set_running_law.
  - intros id t s s'. apply set_running_law.
  - intros id s s'. apply set_running_law.
  - intros id s s'. unfold Fake.remove, Fake.get_container. run.
    destruct (containers s !! id) eqn:Hc; [|done]. intros [= <-].
    unfold running_of. cbn. rewrite lookup_fmap, Hc, fmap_delete. done.
  - intros id s s' st. unfold Fake.inspect, Fake.get_container. run. unfold running_of.
    rewrite lookup_fmap. destruct (containers s !! id); naive_solver.
  - intros id s [b Hb]. unfold Fake.inspect, Fake.get_container. run. unfold running_of in Hb.
    rewrite lookup_fmap in Hb. destruct (containers s !! id); naive_solver.
  - intros id s. unfold Fake.inspect, Fake.get_container. run. by repeat case_match; simplify_eq.
  - intros id s. unfold Fake.stats, Fake.get_container. run. by repeat case_match; simplify_eq.
  - intros id s. unfold Fake.attach. destruct (containers s !! id) as [c|] eqn:Hc; [|done].
    unfold running_of. cbn. rewrite fmap_insert. cbn. apply insert_id.
    by rewrite lookup_fmap, Hc.
  - intros h bs s. unfold Fake.write_all. by case_bool_decide.
Defined.

(** ** Shared buffers *)

(** Every container's recording buffer is allocated, below the next handle,
    and shared with no other container. *)
Record fake_ok (s : FakeState) : Prop := {
  ok_buffer id c : containers s !! id = Some c ->
    fc_console_writes c < fresh s /\ is_Some (buffers s !! fc_console_writes c);
  ok_distinct id1 id2 c1 c2 :
    containers s !! id1 = Some c1 -> containers s !! id2 = Some c2 -> id1 <> id2 ->
    fc_console_writes c1 <> fc_console_writes c2;
}.

Lemma fake_ok_new : fake_ok Fake.new.
Proof. by split. Qed.

Lemma fake_ok_update s id c c' n :
  containers s !! id = Some c -> fc_console_writes c' = fc_console_writes c -> fresh s <= n ->
  fake_ok s -> forall chs,
  fake_ok {| containers := <[id := c']> (containers s); buffers := buffers s;
             channels := chs; fresh := n |}.
Proof.
  intros Hc Hw Hn [Hb Hd] chs.
  assert (Hold : forall i d, <[id := c']> (containers s) !! i = Some d ->
    exists d0, containers s !! i = Some d0 /\ fc_console_writes d = fc_console_writes d0).
  { intros i d. rewrite lookup_insert_Some. naive_solver. }
  split; cbn.
  - intros i d (d0 & Hi & ->)%Hold. apply Hb in Hi as [? ?]. split; [lia|done].
  - intros i1 i2 d1 d2 (e1 & H1 & ->)%Hold (e2 & H2 & ->)%Hold. by apply Hd.
Qed.

Lemma fake_ok_subset s cs n chs :
  cs ⊆ containers s -> fresh s <= n -> fake_ok s ->
  fake_ok {| containers := cs; buffers := buffers s; channels := chs; fresh := n |}.
Proof.
  intros Hs Hn [Hb Hd]. split; cbn.
  - intros i d Hi. destruct (Hb i d) as [? ?]; [by eapply lookup_weaken|]. split; [lia|done].
  - intros i1 i2 d1 d2 H1 H2. apply (Hd i1 i2); by eapply lookup_weaken.
Qed.

Lemma fake_ok_create uuid spec s : fake_ok s -> fake_ok (Fake.create uuid spec s).1.
Proof.
  intros [Hb Hd]. split; cbn.
  - intros i d. rewrite lookup_insert_Some. intros [[<- <-]|[_ Hi]]; cbn.
    + rewrite lookup_insert_eq. split; [lia|done].
    + apply Hb in Hi as [? ?]. split; [lia|]. by rewrite lookup_insert_ne by lia.
  - intros i1 i2 d1 d2. rewrite !lookup_insert_Some.
    intros [[<- <-]|[? H1]] [[<- <-]|[? H2]] Hne; cbn; try done.
    + apply Hb in H2 as [? _]. lia.
    + apply Hb in H1 as [? _]. lia.
    + by apply (Hd i1 i2).
Qed.

Lemma fake_ok_with_container id f s :
  (forall c, fc_console_writes (f c) = fc_console_writes c) ->
  fake_ok s -> fake_ok (Fake.with_container id f s).1.
Proof.
  intros Hf Hs. unfold Fake.with_container. run. destruct (containers s !! id) as [c|] eqn:Hc; [|done].
  by eapply fake_ok_update.
Qed.

Lemma fake_ok_attach id s : fake_ok s -> fake_ok (Fake.attach id s).1.
Proof.
  intros Hs. unfold Fake.attach. destruct (containers s !! id) as [c|] eqn:Hc; [|done].
  eapply fake_ok_update; eauto.
Qed.

Lemma fake_ok_remove id s : fake_ok s -> fake_ok (Fake.remove id s).1.
Proof.
  intros Hs. unfold Fake.remove, Fake.get_container. run.
  destruct (containers s !! id); cbn; [|done].
  apply fake_ok_subset; [apply delete_subseteq|done|done].
Qed.

Lemma fake_ok_write h bs s : fake_ok s -> fake_ok (Fake.write_all h bs s).1.
Proof.
  intros [Hb Hd]. unfold Fake.write_all. case_bool_decide; cbn; [done|]. split; cbn; [|done].
  intros i c Hi. apply Hb in Hi as [? ?]. split; [done|]. by rewrite lookup_alter_is_Some.
Qed.

(** A sequence of runtime calls and test-helper calls. *)
Inductive fake_call :=
| CCreate (spec : ContainerSpec) | CStart (id : string) | CStop (id : string) | CKill (id : string)
| CRemove (id : string) | CAttach (id : string) | CWrite (h : nat) (bs : list byte)
| CRecv (ch : nat) | CEmit (id line : string).

Definition fake_step (uuid : nat -> string) (s : FakeState) (c : fake_call) : FakeState :=
  match c with
  | CCreate spec => (Fake.create uuid spec s).1
  | CStart id => (Fake.start id s).1
  | CStop id => (Fake.stop id 0 s).1
  | CKill id => (Fake.kill id s).1
  | CRemove id => (Fake.remove id s).1
  | CAttach id => (Fake.attach id s).1
  | CWrite h bs => (Fake.write_all h bs s).1
  | CRecv ch => (Fake.recv ch s).1
  | CEmit id line => Fake.emit_output id line s
  end.

Lemma fake_ok_step uuid s c : fake_ok s -> fake_ok (fake_step uuid s c).
Proof.
  intros Hs. destruct c; cbn; try by apply fake_ok_with_container.
  - by apply fake_ok_create.
  - by apply fake_ok_remove.
  - by apply fake_ok_attach.
  - by apply fake_ok_write.
  - unfold Fake.recv. repeat case_match; cbn; try done; by destruct Hs.
  - unfold Fake.emit_output. case_match; [|done]. by destruct Hs.
Qed.

Lemma fake_ok_reachable uuid calls : fake_ok (foldl (fake_step uuid) Fake.new calls).
Proof.
  cut (forall s, fake_ok s -> fake_ok (foldl (fake_step uuid) s calls)).
  { intros H. apply H, fake_ok_new. }
  induction calls as [|c calls IH]; intros s Hs; [done|]. cbn [foldl].
  by apply IH, fake_ok_step.
Qed.

(** After any sequence of calls, what is written to a console attached to a
    container is recorded for that container, as one entry, and for no other
    container. *)
Theorem fake_console_isolated uuid calls id c s s' bs :
  s = foldl (fake_step uuid) Fake.new calls ->
  bs <> [] ->
  Fake.attach id s = (s', Ok c) ->
  let s'' := (Fake.write_all (con_stdin c) bs s').1 in
  Fake.console_writes id s'' = Fake.console_writes id s ++ [from_utf8_lossy bs] /\
  forall other, other <> id -> Fake.console_writes other s'' = Fake.console_writes other s.
Proof.
  intros Hr Hne Ha. pose proof (fake_ok_reachable uuid calls) as [Hb Hd]. rewrite <- Hr in *.
  unfold Fake.attach in Ha. destruct (containers s !! id) as [d|] eqn:Hc; [|done]. simplify_eq/=.
  destruct (Hb _ _ Hc) as [_ [w Hw]].
  unfold Fake.write_all. rewrite bool_decide_false by done. unfold Fake.console_writes. cbn.
  split.
  - rewrite lookup_insert_eq, Hc. cbn. by rewrite lookup_alter_eq, Hw.
  - intros other Ho. rewrite lookup_insert_ne by done.
    destruct (containers _ !! other) as [e|] eqn:He; [|done].
    rewrite lookup_alter_ne; [done|]. by eapply Hd.
Qed.

Definition sample_uuid (n : nat) : string := "c" +:+ pretty n.

Lemma fake_console_isolated_witness :
  let s := foldl (fake_step sample_uuid) Fake.new [CCreate default_spec; CCreate default_spec] in
  exists c s', Fake.attach "c0" s = (s', Ok c) /\
  Fake.console_writes "c0" (Fake.write_all (con_stdin c) (as_bytes "say hi") s').1 = ["say hi"].
Proof.
  eexists _, _. split; [vm_compute; reflexivity|].
  refine (eq_trans (proj1 (fake_console_isolated sample_uuid [CCreate default_spec; CCreate default_spec]
    "c0" _ _ _ (as_bytes "say hi") eq_refl _ _)) _).
  - discriminate.
  - vm_compute. reflexivity.
  - vm_compute. reflexivity.
Defined.
