(* ===== verification/Docker.v ===== *)
(** * The Docker runtime (daemon/src/runtime/docker.rs)

    The Engine behind the unix socket is an interface; every request the
    runtime makes is recorded with the answer it got, so that what a routine
    asks of the Engine can be stated. Statistics are computed as in a release
    build. *)

From S2P Require Import Prelude Trace RustStr Json Instances Payloads Config Firewall Demux Http.
From S2P Require Import Stats Runtime.
From stdpp Require Import options.
Set Default Proof Using "Type*".

(** ** The environment *)

(** [tokio::net::UnixStream]. [uds_reads] is what the successive [read] calls on
    a connection return, up to its end; a list that stops counts as the end of
    the stream. *)
Class Engine (E : Type) := {
  uds_connect : string -> M E nat;
  uds_write_all : nat -> list byte -> M E unit;
  uds_read_to_end : nat -> M E (list byte);
  uds_reads : nat -> M E (list (result (list byte)));
}.

(** What the firewall code asks of the host. *)
Class Host := {
  host_exists : string -> bool;
  host_run : list (string * list string) -> string -> list string -> Firewall.ending;
  host_is_linux : bool;
}.

(** ** State *)

Record DockerRuntime := {
  socket_path : string;
  dns : list string;
  firewall_mode : FirewallMode;
}.

(** One request: method, path, and the status and body or the error it ended
    with. *)
Record Call := { c_method : string; c_path : string; c_result : result (Z * list byte) }.

Record DState (E : Type) := {
  engine : E;
  firewall : FwState;
  (** the lines still queued in each attached console's channel *)
  outputs : gmap nat (list string);
  calls : list Call;
}.
Arguments engine {E} _.
Arguments firewall {E} _.
Arguments outputs {E} _.
Arguments calls {E} _.

Definition API_VERSION : string := "v1.43".
Definition nl : string := of_bytes CRLF.

(** ** The create request *)

Record PortBindingEntry := { host_port : string }.
Record HostConfig := {
  hc_binds : list string;
  hc_port_bindings : gmap string (list PortBindingEntry);
  hc_memory : Z;
  hc_nano_cpus : Z;
  hc_cap_drop : list string;
  hc_security_opt : list string;
  hc_dns : list string;
}.
Record CreateContainerRequest := {
  cr_image : string;
  cr_cmd : list string;
  cr_env : list string;
  cr_working_dir : string;
  cr_labels : gmap string string;
  cr_tty : bool;
  cr_open_stdin : bool;
  cr_host_config : HostConfig;
}.

(** [entry(container_port).or_default().push(...)] *)
Definition push_binding (m : gmap string (list PortBindingEntry)) (pb : PortBinding)
    : gmap string (list PortBindingEntry) :=
  <[pb_container_port pb :=
      default [] (m !! pb_container_port pb) ++ [{| host_port := pb_host_port pb |}]]> m.

Definition to_create_request (spec : ContainerSpec) (dns : list string) : CreateContainerRequest :=
  {| cr_image := spec_image spec;
     cr_cmd := spec_cmd spec;
     cr_env := spec_env spec;
     cr_working_dir := spec_working_dir spec;
     cr_labels := spec_labels spec;
     cr_tty := false;
     cr_open_stdin := true;
     cr_host_config :=
       {| hc_binds := spec_binds spec;
          hc_port_bindings := foldl push_binding ∅ (spec_port_bindings spec);
          hc_memory := spec_memory_bytes spec;
          hc_nano_cpus := spec_nano_cpus spec;
          hc_cap_drop := [];
          hc_security_opt := ["no-new-privileges"];
          hc_dns := dns |} |}.

(** [skip_serializing_if = "...::is_empty"] *)
Definition skip_if (empty : bool) (name : string) (j : json) : list (string * json) :=
  if empty then [] else [(name, j)].
Definition enc_host_port (e : PortBindingEntry) : json := JObj [("HostPort", JStr (host_port e))].
Definition enc_host_config (h : HostConfig) : json :=
  JObj (skip_if (bool_decide (hc_binds h = [])) "Binds" (enc_strings (hc_binds h)) ++
        skip_if (bool_decide (hc_port_bindings h = ∅)) "PortBindings"
          (enc_map (enc_vec enc_host_port) (hc_port_bindings h)) ++
        [("Memory", JInt (hc_memory h)); ("NanoCpus", JInt (hc_nano_cpus h))] ++
        skip_if (bool_decide (hc_cap_drop h = [])) "CapDrop" (enc_strings (hc_cap_drop h)) ++
        [("SecurityOpt", enc_strings (hc_security_opt h))] ++
        skip_if (bool_decide (hc_dns h = [])) "Dns" (enc_strings (hc_dns h))).
Definition enc_create_request (r : CreateContainerRequest) : json :=
  JObj ([("Image", JStr (cr_image r))] ++
        skip_if (bool_decide (cr_cmd r = [])) "Cmd" (enc_strings (cr_cmd r)) ++
        skip_if (bool_decide (cr_env r = [])) "Env" (enc_strings (cr_env r)) ++
        skip_if (is_empty (cr_working_dir r)) "WorkingDir" (JStr (cr_working_dir r)) ++
        skip_if (bool_decide (cr_labels r = ∅)) "Labels" (enc_map JStr (cr_labels r)) ++
        [("Tty", JBool (cr_tty r)); ("OpenStdin", JBool (cr_open_stdin r));
         ("HostConfig", enc_host_config (cr_host_config r))]).

(** ** Response bodies *)

Definition dec_create_response : dec string := fun j =>
  match field_values ["Id"] j with Some [v] => required dec_string v | _ => None end.

Definition dec_inspect_state : dec bool := fun j =>
  match field_values ["Running"] j with Some [v] => required dec_bool v | _ => None end.
Definition dec_inspect_response : dec bool := fun j =>
  match field_values ["State"] j with Some [v] => required dec_inspect_state v | _ => None end.

Definition dec_binding : dec string := fun j =>
  match field_values ["HostPort"] j with Some [v] => or_default "" dec_string v | _ => None end.
Definition dec_inspect_host_config : dec (gmap string (option (list string))) := fun j =>
  match field_values ["PortBindings"] j with
  | Some [v] => or_default ∅ (dec_map (dec_option (dec_vec dec_binding))) v
  | _ => None
  end.
Definition dec_inspect_ports : dec (gmap string (option (list string))) := fun j =>
  match field_values ["HostConfig"] j with
  | Some [v] => or_default ∅ dec_inspect_host_config v
  | _ => None
  end.

(** The containers of a listing, as [free_conflicting_ports] reads them. *)
Record Item := {
  it_id : string;
  it_names : list string;
  it_labels : gmap string string;
  it_state : string;
  it_ports : list (option Z);
}.
Definition dec_port : dec (option Z) := fun j =>
  match field_values ["PublicPort"] j with Some [v] => plain_option j dec_u16 v | _ => None end.
Definition dec_item : dec Item := fun j =>
  match field_values ["Id"; "Names"; "Labels"; "State"; "Ports"] j with
  | Some [i; n; l; s; p] =>
      i ← required dec_string i;
      n ← or_default [] (dec_vec dec_string) n;
      l ← or_default ∅ (dec_map dec_string) l;
      s ← or_default "" dec_string s;
      p ← or_default [] (dec_vec dec_port) p;
      Some {| it_id := i; it_names := n; it_labels := l; it_state := s; it_ports := p |}
  | _ => None
  end.

(** [ListItem] of [list_managed]. *)
Record ListItem := { li_id : string; li_names : list string; li_labels : gmap string string }.
Definition dec_list_item : dec ListItem := fun j =>
  match field_values ["Id"; "Names"; "Labels"] j with
  | Some [i; n; l] =>
      i ← required dec_string i;
      n ← or_default [] (dec_vec dec_string) n;
      l ← or_default ∅ (dec_map dec_string) l;
      Some {| li_id := i; li_names := n; li_labels := l |}
  | _ => None
  end.

Section docker.
Context {E : Type} `{Engine E} `{Host} `{HttpParse} `{SerdeJson}.
Variable rt : DockerRuntime.
Abbreviation D := (DState E).

(** [serde_json::from_slice(&body).context(msg)] *)
Definition from_slice {A} (msg : string) (d : dec A) (body : list byte) : result A :=
  ok_or msg (from_text (of_bytes body) ≫= d).

Definition on_engine {A} (m : M E A) : M D A := fun s =>
  let '(e, r) := m (engine s) in
  ({| engine := e; firewall := firewall s; outputs := outputs s; calls := calls s |}, r).

Definition log_call (c : Call) (s : D) : D :=
  {| engine := engine s; firewall := firewall s; outputs := outputs s; calls := calls s ++ [c] |}.

(** ** Requests *)

Definition connect : M D nat :=
  mcontext ("connect to docker socket " +:+ socket_path rt) (on_engine (uds_connect (socket_path rt))).

Definition request_head (method path : string) (body : option (list byte)) : string :=
  method +:+ " /" +:+ API_VERSION +:+ path +:+ " HTTP/1.1" +:+ nl +:+
  "Host: docker" +:+ nl +:+ "Connection: close" +:+ nl +:+
  match body with
  | Some b => "Content-Type: application/json" +:+ nl +:+
              "Content-Length: " +:+ pretty (length b) +:+ nl
  | None => ""
  end +:+ nl.

Definition send_request (method path : string) (body : option (list byte)) : M D (Z * list byte) :=
  conn ← connect;
  _ ← on_engine (uds_write_all conn (as_bytes (request_head method path body)));
  _ ← match body with Some b => on_engine (uds_write_all conn b) | None => mret tt end;
  buf ← on_engine (uds_read_to_end conn);
  lift (parse_response buf).

(** The request, and its entry in the record. *)
Definition request (method path : string) (body : option (list byte)) : M D (Z * list byte) := fun s =>
  let '(s', r) := send_request method path body s in
  (log_call {| c_method := method; c_path := path; c_result := r |} s', r).

Definition unexpected (method path : string) (status : Z) (body : list byte) : string :=
  "docker api " +:+ method +:+ " " +:+ path +:+ ": unexpected status " +:+ pretty status +:+ ": "
  +:+ extract_docker_error body.

Definition expect (method path : string) (body : option (list byte)) (ok : list Z) : M D (list byte) :=
  '(status, body_bytes) ← request method path body;
  if bool_decide (status ∈ ok) then mret body_bytes
  else lift (Err (unexpected method path status body_bytes)).

Definition pull_path (image : string) : string :=
  let '(name, tag) := split_image_ref (as_bytes image) in
  "/images/create?fromImage=" +:+ of_bytes (encode_query name) +:+
  (if bool_decide (tag = []) then "" else "&tag=" +:+ of_bytes (encode_query tag)).

Definition pull_image (image : string) : M D unit :=
  '(status, body) ← request "POST" (pull_path image) None;
  if negb (status =? 200)%Z then
    lift (Err ("pull image " +:+ image +:+ ": unexpected status " +:+ pretty status +:+ ": "
               +:+ extract_docker_error body))
  else match extract_pull_error body with
       | Some msg => lift (Err ("pull image " +:+ image +:+ ": " +:+ msg))
       | None => mret tt
       end.

Definition remove_path (name : string) : string := "/containers/" +:+ name +:+ "?force=true".

Definition remove_by_name (name : string) : M D unit :=
  _ ← expect "DELETE" (remove_path name) None [204%Z; 404%Z]; mret tt.

(** The loop of [create_container]; [None] when the fuel runs out. *)
Fixpoint create_loop (fuel : nat) (path : string) (body : list byte) (image name : string)
    (pulled cleared : bool) : M D (option (list byte)) :=
  match fuel with
  | 0 => mret None
  | S fuel' =>
      '(status, resp) ← request "POST" path (Some body);
      if (status =? 201)%Z then mret (Some resp)
      else if (status =? 404)%Z && negb pulled then
        _ ← pull_image image;
        create_loop fuel' path body image name true cleared
      else if (status =? 409)%Z && (negb cleared && negb (is_empty name)) then
        _ ← remove_by_name name;
        create_loop fuel' path body image name pulled true
      else lift (Err (unexpected "POST" path status resp))
  end.

(** Two recoveries at most, so three rounds. *)
Definition create_container (path : string) (body : list byte) (image name : string) : M D (list byte) :=
  r ← create_loop 3 path body image name false false; lift (ok_or "" r).

Definition image_present (image : string) : M D bool :=
  r ← mtry (request "GET" ("/images/" +:+ of_bytes (encode_query (as_bytes image)) +:+ "/json") None);
  mret match r with Ok (status, _) => (status =? 200)%Z | Err _ => false end.

Definition inspect_path (id : string) : string := "/containers/" +:+ id +:+ "/json".

(** The ports that parse, over all bindings of all container ports. *)
Definition host_ports_of (bindings : gmap string (option (list string))) : list Z :=
  omap parse_u16 (concat (omap snd (map_to_list bindings))).

Definition container_host_ports (id : string) : M D (list Z) :=
  body ← expect "GET" (inspect_path id) None [200%Z];
  bindings ← lift (from_slice "decode inspect ports" dec_inspect_ports body);
  mret (host_ports_of bindings).

Definition list_path : string := "/containers/json?all=true".

(** Whether the loop of [free_conflicting_ports] removes the container. *)
Definition removable (target : string) (wanted : list Z) (target_sid : option string) (it : Item) : bool :=
  if bool_decide (it_id it = target) then false else
  let conflicts := existsb (fun p => match p with
                                     | Some pp => bool_decide (pp ∈ wanted)
                                     | None => false
                                     end) (it_ports it) in
  if negb conflicts then false else
  match server_id_from (it_names it) (it_labels it) with
  | None => false
  | Some sid =>
      let same_server := bool_decide (target_sid = Some sid) in
      let running := eq_ignore_ascii_case (it_state it) "running" in
      same_server || negb running
  end.

Fixpoint free_loop (target : string) (wanted : list Z) (target_sid : option string)
    (items : list Item) : M D unit :=
  match items with
  | [] => mret tt
  | it :: items' =>
      _ ← (if removable target wanted target_sid it
           then _ ← mtry (remove_by_name (it_id it)); mret tt else mret tt);
      free_loop target wanted target_sid items'
  end.

Definition target_server (target : string) (items : list Item) : option string :=
  it ← head (filter (fun it => it_id it = target) items);
  server_id_from (it_names it) (it_labels it).

Definition free_conflicting_ports (target : string) : M D unit :=
  wanted ← mtry (container_host_ports target);
  match wanted with
  | Ok (p :: ps) =>
      body ← mtry (expect "GET" list_path None [200%Z]);
      match body with
      | Err _ => mret tt
      | Ok body =>
          match from_text (of_bytes body) ≫= dec_vec dec_item with
          | None => mret tt
          | Some items => free_loop target (p :: ps) (target_server target items) items
          end
      end
  | _ => mret tt
  end.

(** ** The [ContainerRuntime] operations *)

Definition pull (image : string) : M D unit :=
  present ← image_present image;
  if (present : bool) then mret tt else pull_image image.

Definition create_path (spec : ContainerSpec) : string :=
  "/containers/create" +:+
  (if is_empty (spec_name spec) then "" else "?name=" +:+ spec_name spec).

Definition run_firewall (ports : list Z) (s : D) : D :=
  {| engine := engine s;
     firewall := open_ports host_exists host_run host_is_linux (firewall_mode rt) ports (firewall s);
     outputs := outputs s; calls := calls s |}.

Definition create (spec : ContainerSpec) : M D string :=
  body_bytes ← lift (to_text (enc_create_request (to_create_request spec (dns rt))));
  body ← create_container (create_path spec) (as_bytes body_bytes) (spec_image spec) (spec_name spec);
  id ← lift (from_slice "decode create response" dec_create_response body);
  _ ← modify (run_firewall (ports_from_bindings (spec_port_bindings spec)));
  mret id.

(** The closure of [list_managed]: the label first, then the name. *)
Definition managed_of (it : ListItem) : option ManagedContainer :=
  let from_label := v ← li_labels it !! server_id_label;
                    if is_empty v then None else Some v in
  let from_name := first_some id_of_name (li_names it) in
  (fun server_id => {| mc_server_id := server_id; mc_container_id := li_id it |})
    <$> match from_label with Some v => Some v | None => from_name end.

Definition list_managed : M D (list ManagedContainer) :=
  body ← expect "GET" list_path None [200%Z];
  items ← lift (from_slice "decode container list" (dec_vec dec_list_item) body);
  mret (omap managed_of items).

Definition start_path (id : string) : string := "/containers/" +:+ id +:+ "/start".

Definition start (id : string) : M D unit :=
  '(status, body) ← request "POST" (start_path id) None;
  if (status =? 204)%Z || (status =? 304)%Z then mret tt else
  let err := extract_docker_error body in
  if (status =? 500)%Z
     && (contains err "port is already allocated" || contains err "address already in use")
  then
    _ ← free_conflicting_ports id;
    _ ← expect "POST" (start_path id) None [204%Z; 304%Z];
    mret tt
  else lift (Err ("docker api POST " +:+ start_path id +:+ ": unexpected status "
                  +:+ pretty status +:+ ": " +:+ err)).

Definition stop (id : string) (timeout : Z) : M D unit :=
  _ ← expect "POST" ("/containers/" +:+ id +:+ "/stop?t=" +:+ pretty timeout) None [204%Z; 304%Z];
  mret tt.
Definition kill (id : string) : M D unit :=
  _ ← expect "POST" ("/containers/" +:+ id +:+ "/kill") None [204%Z]; mret tt.
Definition remove (id : string) : M D unit :=
  _ ← expect "DELETE" (remove_path id) None [204%Z]; mret tt.

Definition inspect (id : string) : M D ContainerState :=
  body ← expect "GET" (inspect_path id) None [200%Z];
  running ← lift (from_slice "decode inspect response" dec_inspect_response body);
  mret {| cs_running := running |}.

Definition stats (id : string) : M D Stats :=
  body ← expect "GET" ("/containers/" +:+ id +:+ "/stats?stream=false") None [200%Z];
  raw ← lift (from_slice "decode stats response" dec_docker_stats body);
  lift (ok_or "" (parse_docker_stats Wrapping raw)).

(** ** Attaching *)

Definition attach_head (id : string) : string :=
  "POST /" +:+ API_VERSION +:+ "/containers/" +:+ id +:+
  "/attach?stream=1&stdin=1&stdout=1&stderr=1 HTTP/1.1" +:+ nl +:+ "Host: docker" +:+ nl +:+
  "Connection: Upgrade" +:+ nl +:+ "Upgrade: tcp" +:+ nl +:+ nl.

(** The read loop: the buffer, the header length, and the reads still to come. *)
Fixpoint read_headers (buf : list byte) (reads : list (result (list byte)))
    : result (list byte * nat * list (result (list byte))) :=
  match reads with
  | [] | Ok [] :: _ => Err "attach: connection closed before response headers completed"
  | Err e :: _ => Err e
  | Ok chunk :: reads' =>
      let buf := buf ++ chunk in
      match find_double_crlf buf with
      | Some pos => Ok (buf, pos + 4, reads')
      | None => read_headers buf reads'
      end
  end.

(** [pump_output] runs as a task of its own; the channel gets what it sends. *)
Definition attach (id : string) : M D Console :=
  conn ← connect;
  _ ← on_engine (uds_write_all conn (as_bytes (attach_head id)));
  reads ← on_engine (uds_reads conn);
  '(buf, header_len, rest) ← lift (read_headers [] reads);
  '(status, _) ← lift (parse_response (take header_len buf));
  if negb (status =? 101)%Z then
    lift (Err ("attach: unexpected status " +:+ pretty status +:+ ": "
               +:+ extract_docker_error (drop header_len buf)))
  else
    let p := pump_output (drop header_len buf) (result_ok <$> rest) None in
    _ ← modify (fun s : D => {| engine := engine s; firewall := firewall s;
                                outputs := <[conn := sent (p_tx p)]> (outputs s);
                                calls := calls s |});
    mret {| con_stdin := conn; con_output := conn |}.

Definition write_all (conn : nat) (bs : list byte) : M D unit := on_engine (uds_write_all conn bs).
Definition recv (conn : nat) (s : D) : D * received :=
  match outputs s !! conn with
  | Some (l :: ls) =>
      ({| engine := engine s; firewall := firewall s; outputs := <[conn := ls]> (outputs s);
          calls := calls s |}, Line l)
  | _ => (s, Closed)
  end.

#[global] Instance docker_runtime : ContainerRuntime D := {|
  rt_pull := pull;
  rt_create := create;
  rt_list_managed := list_managed;
  rt_start := start;
  rt_stop := stop;
  rt_kill := kill;
  rt_remove := remove;
  rt_inspect := inspect;
  rt_stats := stats;
  rt_attach := attach;
  console_write := write_all;
  console_recv := recv;
|}.

#[global] Instance docker_types : RuntimeTypes docker_runtime.
Proof.
  intros id. cbn. unfold stats. apply returns_bind. intros body s st. unfold from_slice. run.
  destruct (from_text (of_bytes body)) as [j|]; cbn; [|done].
  destruct (dec_docker_stats j) as [raw|] eqn:Hraw; cbn; [|done].
  destruct (parse_docker_stats Wrapping raw) as [st'|] eqn:Hst; cbn; [|done].
  intros [= <-]. by eapply parse_docker_stats_typed.
Qed.

(** ** The requests a routine makes *)

Abbreviation issues := (Trace.issues (calls (E:=E))).

Definition call (method path : string) (r : result (Z * list byte)) : Call :=
  {| c_method := method; c_path := path; c_result := r |}.

Lemma on_engine_calls {A} (m : M E A) s : calls (on_engine m s).1 = calls s.
Proof. unfold on_engine. by destruct (m (engine s)). Qed.

Lemma issues_engine {A} (m : M E A) : issues (on_engine m) (fun cs _ => cs = []).
Proof. intros s. exists []. by rewrite on_engine_calls, app_nil_r. Qed.

Lemma issues_connect : issues connect (fun cs _ => cs = []).
Proof.
  intros s. exists []. unfold connect, mcontext.
  pose proof (on_engine_calls (uds_connect (socket_path rt)) s) as Hc.
  destruct (on_engine _ s) as [s1 r]. cbn in *. by rewrite Hc, app_nil_r.
Qed.

Lemma issues_request method path body :
  issues (request method path body) (fun cs r => cs = [call method path r]).
Proof.
  intros s. exists [call method path (request method path body s).2].
  assert (Hs : issues (send_request method path body) (fun cs _ => cs = [])).
  { unfold send_request. apply silent_bind; [apply issues_connect|]. intros conn.
    apply silent_bind; [apply issues_engine|]. intros _.
    apply silent_bind; [destruct body; [apply issues_engine|apply silent_lift]|]. intros _.
    apply silent_bind; [apply issues_engine|]. intros buf. apply silent_lift. }
  unfold request. destruct (Hs s) as (cs & Hc & ->).
  destruct (send_request method path body s) as [s' r]. cbn in *.
  by rewrite Hc, app_nil_r.
Qed.

Lemma issues_expect method path body ok :
  issues (expect method path body ok) (fun cs r =>
    exists x, cs = [call method path x] /\
      match r with
      | Ok b => exists st, x = Ok (st, b) /\ st ∈ ok
      | Err _ => forall st b, x = Ok (st, b) -> st ∉ ok
      end).
Proof.
  unfold expect. eapply issues_mono.
  { apply (issues_bind _ _ _ (fun sb cs r => cs = [] /\
      r = if bool_decide (sb.1 ∈ ok) then Ok sb.2 else Err (unexpected method path sb.1 sb.2))
      (issues_request _ _ _)).
    intros [status b]. cbn. case_bool_decide; [apply issues_ret|apply issues_lift]. }
  cbn. intros cs r (cs1 & [[status b]|e] & -> & Hr).
  - destruct Hr as (cs2 & -> & -> & ->). rewrite app_nil_r. eexists. split; [done|].
    case_bool_decide; naive_solver.
  - destruct Hr as [-> ->]. eexists. split; [done|]. naive_solver.
Qed.

Lemma issues_pull_image image :
  issues (pull_image image) (fun cs r =>
    exists x, cs = [call "POST" (pull_path image) x] /\ (r = Ok tt -> exists b, x = Ok (200%Z, b))).
Proof.
  unfold pull_image. eapply issues_mono.
  { apply (issues_bind _ _ _ (fun sb cs r => cs = [] /\ (r = Ok tt -> sb.1 = 200%Z))
      (issues_request _ _ _)).
    intros [status b]. cbn. destruct (Z.eqb_spec status 200); cbn.
    - destruct (extract_pull_error b); (eapply issues_mono; [apply issues_lift|]); naive_solver.
    - eapply issues_mono; [apply issues_lift|]. naive_solver. }
  cbn. intros cs r (cs1 & [[status b]|e] & -> & Hr).
  - destruct Hr as (cs2 & -> & -> & Hr). rewrite app_nil_r. eexists. split; [done|].
    intros ->. rewrite <- Hr by done. eauto.
  - destruct Hr as [-> ->]. eexists. split; [done|]. naive_solver.
Qed.

Lemma issues_remove name :
  issues (remove_by_name name) (fun cs r =>
    exists x, cs = [call "DELETE" (remove_path name) x] /\
      (r = Ok tt -> exists st b, x = Ok (st, b) /\ st ∈ [204; 404]%Z)).
Proof.
  unfold remove_by_name. eapply issues_mono.
  { eapply issues_bind; [apply issues_expect|]. intros ?. apply issues_ret. }
  cbn. intros cs r (cs1 & [b|e] & (x & -> & Hx) & Hr).
  - destruct Hr as (cs2 & -> & -> & ->). rewrite app_nil_r. eexists. split; [done|]. naive_solver.
  - destruct Hr as [-> ->]. eexists. split; [done|]. naive_solver.
Qed.

(** ** Retries of [create_container] *)

(** A recovery that worked: the image pulled after a 404, or the leftover
    container removed after a 409. *)
Inductive recovery := Pulled (missing ready : list byte) | Cleared (taken : list byte) (st : Z) (gone : list byte).
Definition is_pull (r : recovery) : bool := match r with Pulled _ _ => true | _ => false end.

Definition recovery_calls (path image name : string) (r : recovery) : list Call :=
  match r with
  | Pulled b1 b2 =>
      [call "POST" path (Ok (404%Z, b1)); call "POST" (pull_path image) (Ok (200%Z, b2))]
  | Cleared b1 st b2 =>
      [call "POST" path (Ok (409%Z, b1)); call "DELETE" (remove_path name) (Ok (st, b2))]
  end.
Definition recovery_ok (name : string) (r : recovery) : Prop :=
  match r with
  | Pulled _ _ => True
  | Cleared _ st _ => st ∈ [204; 404]%Z /\ name <> ""
  end.

(** How the last round ends: created, or a failure that is not recovered, a
    recovery tried for the first time included. *)
Definition create_end (path image name : string) (pulled cleared : bool)
    (tail : list Call) (r : result (list byte)) : Prop :=
  match r with
  | Ok resp => tail = [call "POST" path (Ok (201%Z, resp))]
  | Err _ =>
      (exists x, tail = [call "POST" path x] /\ forall b, x <> Ok (201%Z, b)) \/
      (exists b x, tail = [call "POST" path (Ok (404%Z, b)); call "POST" (pull_path image) x] /\
                   pulled = false) \/
      (exists b x, tail = [call "POST" path (Ok (409%Z, b)); call "DELETE" (remove_path name) x] /\
                   name <> "" /\ cleared = false)
  end.

Definition create_trace (path image name : string) (pulled cleared : bool)
    (cs : list Call) (r : result (list byte)) : Prop :=
  exists recs tail,
    cs = concat (recovery_calls path image name <$> recs) ++ tail /\
    NoDup (is_pull <$> recs) /\ Forall (recovery_ok name) recs /\
    (pulled = true -> true ∉ is_pull <$> recs) /\ (cleared = true -> false ∉ is_pull <$> recs) /\
    create_end path image name (pulled || existsb is_pull recs)
      (cleared || existsb (negb ∘ is_pull) recs) tail r.

Lemma create_trace_end path image name pulled cleared tail r :
  create_end path image name pulled cleared tail r ->
  create_trace path image name pulled cleared tail r.
Proof.
  intros He. exists [], tail. cbn. rewrite !orb_false_r. split_and!; try done.
  - constructor.
  - set_solver.
  - set_solver.
Qed.

Lemma create_trace_cons path image name pulled cleared rec cs r :
  recovery_ok name rec ->
  (if is_pull rec then pulled = false else cleared = false) ->
  create_trace path image name (pulled || is_pull rec) (cleared || negb (is_pull rec)) cs r ->
  create_trace path image name pulled cleared (recovery_calls path image name rec ++ cs) r.
Proof.
  intros Hok Hfirst (recs & tail & -> & Hn & Hf & Hp & Hc & He).
  exists (rec :: recs), tail. rewrite fmap_cons. cbn [concat]. rewrite app_assoc. split_and!; try done.
  - rewrite fmap_cons. constructor; [|done]. destruct (is_pull rec).
    + apply Hp, orb_true_r.
    + apply Hc, orb_true_r.
  - by constructor.
  - intros ->. rewrite fmap_cons, not_elem_of_cons. split; [|by apply Hp].
    by destruct (is_pull rec).
  - intros ->. rewrite fmap_cons, not_elem_of_cons. split; [|by apply Hc].
    by destruct (is_pull rec).
  - cbn. by rewrite !orb_assoc.
Qed.

Lemma create_trace_length path image name cs r :
  create_trace path image name false false cs r -> 1 <= length cs <= 5.
Proof.
  intros (recs & tail & -> & Hn & _ & _ & _ & He). rewrite length_app.
  assert (Hr : length (concat (recovery_calls path image name <$> recs)) = 2 * length recs).
  { clear. induction recs as [|[] recs IH]; cbn in *; lia. }
  rewrite Hr. clear Hr.
  assert (Ht : 1 <= length tail <= 2 /\ (2 <= length recs -> length tail = 1)).
  { destruct r as [resp|e]; cbn in He; [subst; cbn; lia|].
    destruct He as [(x & -> & _)|[(b & x & -> & Hp)|(b & x & -> & _ & Hp)]]; cbn;
      [lia|..]; (split; [lia|]); intros Hl; exfalso; cbn in Hp;
      (destruct recs as [|r1 [|r2 recs]]; cbn in Hl; [lia|lia|]); rewrite !fmap_cons in Hn;
      apply NoDup_cons in Hn as [Hn _]; apply not_elem_of_cons in Hn as [Hn _];
      destruct r1, r2; naive_solver. }
  assert (Hl : length recs <= 2).
  { destruct recs as [|r1 [|r2 [|r3 recs]]]; cbn; [lia..|]. exfalso.
    rewrite !fmap_cons in Hn. apply NoDup_cons in Hn as [Hn1 Hn].
    apply NoDup_cons in Hn as [Hn2 _].
    apply not_elem_of_cons in Hn1 as [H12 [H13 _]%not_elem_of_cons].
    apply not_elem_of_cons in Hn2 as [H23 _].
    destruct r1, r2, r3; naive_solver. }
  lia.
Qed.

(** The rounds that can still be needed. *)
Definition rounds (pulled cleared : bool) : nat :=
  1 + (if pulled then 0 else 1) + (if cleared then 0 else 1).

Lemma create_loop_trace fuel path body image name pulled cleared :
  rounds pulled cleared <= fuel ->
  issues (create_loop fuel path body image name pulled cleared) (fun cs r =>
    exists r', r = Some <$> r' /\ create_trace path image name pulled cleared cs r').
Proof.
  revert pulled cleared. induction fuel as [|fuel IH]; intros pulled cleared Hf;
    [unfold rounds in Hf; lia|].
  set (Q := fun cs r => exists r', r = Some <$> r' /\ create_trace path image name pulled cleared cs r').
  cbn [create_loop]. eapply issues_mono.
  { apply (issues_bind _ _ _ (fun sb cs r => Q (call "POST" path (Ok sb) :: cs) r)
      (issues_request _ _ _)).
    intros [status resp]. destruct (Z.eqb_spec status 201) as [->|H201].
    { eapply issues_mono; [apply issues_ret|]. intros cs r [-> ->].
      exists (Ok resp). split; [done|]. by apply create_trace_end. }
    destruct (Z.eqb_spec status 404) as [->|_]; [destruct pulled|]; cbn [andb negb].
    - eapply issues_mono; [apply issues_lift|]. intros cs r [-> ->].
      eexists (Err _). split; [done|]. apply create_trace_end. left. naive_solver.
    - eapply issues_mono.
      { eapply issues_bind; [apply issues_pull_image|]. intros ?.
        apply IH. unfold rounds in *. lia. }
      intros cs r (cs1 & [[]|e] & (x & -> & Hx) & Hr).
      + destruct Hx as [b ->]; [done|]. destruct Hr as (cs2 & -> & r' & -> & Ht).
        exists r'. split; [done|]. apply (create_trace_cons _ _ _ _ _ (Pulled resp b)); [done|done|].
        cbn [is_pull negb]. by rewrite orb_false_r.
      + destruct Hr as [-> ->]. exists (Err e). split; [done|]. apply create_trace_end.
        right; left. eauto.
    - destruct (Z.eqb_spec status 409) as [->|_]; [destruct cleared, (is_empty name) eqn:Hn|];
        cbn [andb negb]; try (eapply issues_mono; [apply issues_lift|]; intros cs r [-> ->];
        eexists (Err _); split; [done|]; apply create_trace_end; left; naive_solver).
      assert (name <> "") by (by destruct name).
      eapply issues_mono.
      { eapply issues_bind; [apply issues_remove|]. intros ?.
        apply IH. unfold rounds in *. lia. }
      intros cs r (cs1 & [[]|e] & (x & -> & Hx) & Hr).
      + destruct Hx as (st & b & -> & Hst); [done|]. destruct Hr as (cs2 & -> & r' & -> & Ht).
        exists r'. split; [done|].
        apply (create_trace_cons _ _ _ _ _ (Cleared resp st b)); [done|done|].
        cbn [is_pull negb]. by rewrite !orb_false_r.
      + destruct Hr as [-> ->]. exists (Err e). split; [done|]. apply create_trace_end.
        right; right. eauto. }
  intros cs r (cs1 & [[status resp]|e] & -> & Hr).
  - destruct Hr as (cs2 & -> & Hr). done.
  - destruct Hr as [-> ->]. exists (Err e). split; [done|]. apply create_trace_end.
    left. eexists. split; [done|]. done.
Qed.

Lemma issues_create_container path body image name :
  issues (create_container path body image name) (create_trace path image name false false).
Proof.
  unfold create_container. eapply issues_mono.
  { eapply issues_bind; [by apply create_loop_trace|]. intros r. apply issues_lift. }
  intros cs r (cs1 & r1 & (r' & -> & Ht) & Hr). destruct r' as [resp|e]; cbn in Hr.
  - destruct Hr as (cs2 & -> & -> & ->). by rewrite app_nil_r.
  - destruct Hr as [-> ->]. done.
Qed.

(** ** Properties *)

(** C7: [create_container] always ends, after at most five requests. It recovers
    from a missing image at most once, by pulling it after a 404, and from a
    taken name at most once, by removing the leftover after a 409 and only when
    a name was asked for; it succeeds only on a 201 and otherwise reports the
    failure. *)
Theorem create_container_recovers path body image name s :
  let '(s', r) := create_container path body image name s in
  exists recs tail,
    calls s' = calls s ++ concat (recovery_calls path image name <$> recs) ++ tail /\
    NoDup (is_pull <$> recs) /\ Forall (recovery_ok name) recs /\
    create_end path image name (existsb is_pull recs) (existsb (negb ∘ is_pull) recs) tail r /\
    1 <= length (concat (recovery_calls path image name <$> recs) ++ tail) <= 5.
Proof.
  destruct (issues_create_container path body image name s) as (cs & Hc & Ht).
  destruct (create_container path body image name s) as [s' r]. cbn in Hc, Ht.
  pose proof (create_trace_length _ _ _ _ _ Ht) as Hl.
  destruct Ht as (recs & tail & -> & Hn & Hf & _ & _ & He). exists recs, tail. done.
Qed.

(** ** Freeing ports *)

Lemma filter_sublist {A} (p : A -> bool) (l : list A) : List.filter p l `sublist_of` l.
Proof.
  induction l as [|a l IH]; cbn [List.filter]; [constructor|].
  destruct (p a); [by apply sublist_skip|by apply sublist_cons].
Qed.

Definition delete_call (it : Item) (x : result (Z * list byte)) : Call :=
  call "DELETE" (remove_path (it_id it)) x.

Lemma issues_free_loop target wanted sid items :
  issues (free_loop target wanted sid items) (fun cs r =>
    r = Ok tt /\
    exists xs, length xs = length (List.filter (removable target wanted sid) items) /\
      cs = zip_with delete_call (List.filter (removable target wanted sid) items) xs).
Proof.
  induction items as [|it items IH]; cbn [free_loop].
  { eapply issues_mono; [apply issues_ret|]. intros cs r [-> ->]. split; [done|]. by exists []. }
  cbn [List.filter]. destruct (removable target wanted sid it).
  - eapply issues_mono.
    { eapply issues_bind.
      { eapply issues_bind; [apply issues_try, issues_remove|]. intros ?. apply issues_ret. }
      intros ?. apply IH. }
    intros cs r (cs1 & r1 & (cs2 & r2 & (r3 & (x & -> & _) & ->) & cs3 & -> & -> & ->) & Hr).
    destruct Hr as (cs4 & -> & -> & xs & Hl & ->). split; [done|].
    exists (x :: xs). cbn. auto.
  - eapply issues_mono.
    { eapply issues_bind; [apply issues_ret|]. intros ?. apply IH. }
    intros cs r (cs1 & r1 & [-> ->] & cs2 & -> & Hr). done.
Qed.

Lemma removable_spec target wanted sid it :
  removable target wanted sid it = true <->
  it_id it <> target /\ (exists p, p ∈ wanted /\ Some p ∈ it_ports it) /\
  exists own, server_id_from (it_names it) (it_labels it) = Some own /\
    (sid = Some own \/ eq_ignore_ascii_case (it_state it) "running" = false).
Proof.
  unfold removable. set (test := fun p : option Z => match p with Some pp => _ | None => _ end).
  assert (Hc : existsb test (it_ports it) = true <-> exists p, p ∈ wanted /\ Some p ∈ it_ports it).
  { rewrite existsb_exists. setoid_rewrite <- list_elem_of_In. split.
    - intros ([p|] & Hp & Ht); cbn in Ht; [|done]. apply bool_decide_eq_true in Ht. eauto.
    - intros (p & Hw & Hp). exists (Some p). split; [done|]. cbn. by apply bool_decide_eq_true. }
  case_bool_decide as Hid; [naive_solver|].
  destruct (existsb test (it_ports it)); cbn [negb]; [|naive_solver].
  destruct (server_id_from _ _) as [own|]; [|naive_solver].
  rewrite orb_true_iff, bool_decide_eq_true, negb_true_iff. naive_solver.
Qed.

Lemma issues_decode {A B} (m : M D (list byte)) (msg : string) (d : dec A) (f : A -> B) Q :
  issues m Q ->
  issues (body ← m; a ← lift (from_slice msg d body); mret (f a)) (fun cs r =>
    exists r1, Q cs r1 /\
      match r with
      | Ok b => exists body a, r1 = Ok body /\ from_text (of_bytes body) ≫= d = Some a /\ b = f a
      | Err _ => True
      end).
Proof.
  intros Hm. eapply issues_mono.
  { eapply issues_bind; [apply Hm|]. intros body.
    eapply issues_bind; [apply issues_lift|]. intros ?. apply issues_ret. }
  intros cs r (cs1 & r1 & Hq & Hr). exists r1. destruct r1 as [body|e]; [|naive_solver].
  destruct Hr as (cs2 & -> & cs3 & r3 & [-> ->] & Hr). unfold from_slice, ok_or in Hr.
  destruct (from_text (of_bytes body) ≫= d) as [a|] eqn:Hd.
  - destruct Hr as (cs4 & -> & -> & ->). rewrite !app_nil_r. split; [done|]. eauto.
  - destruct Hr as [-> ->]. by rewrite app_nil_r.
Qed.

Lemma issues_free target :
  issues (free_conflicting_ports target) (fun cs r =>
    r = Ok tt /\
    ((exists x, cs = [call "GET" (inspect_path target) x]) \/
     (exists x y, cs = [call "GET" (inspect_path target) x; call "GET" list_path y]) \/
     exists b1 b2 bindings items xs,
       let victims := List.filter (removable target (host_ports_of bindings)
                                     (target_server target items)) items in
       cs = [call "GET" (inspect_path target) (Ok (200%Z, b1));
             call "GET" list_path (Ok (200%Z, b2))] ++ zip_with delete_call victims xs /\
       length xs = length victims /\
       from_text (of_bytes b1) ≫= dec_inspect_ports = Some bindings /\
       from_text (of_bytes b2) ≫= dec_vec dec_item = Some items)).
Proof.
  set (Q := fun cs r => _). unfold free_conflicting_ports.
  assert (Hget : forall x cs r, cs = [call "GET" (inspect_path target) x] -> r = Ok tt -> Q cs r).
  { intros x cs r -> ->. split; [done|]. eauto. }
  assert (H200 : forall (x : result (Z * list byte)) b,
    (exists st, x = Ok (st, b) /\ st ∈ [200%Z]) -> x = Ok (200%Z, b)).
  { intros x b (st & -> & ->%list_elem_of_singleton). done. }
  eapply issues_mono.
  { eapply (issues_bind _ _ _ (fun w cs r =>
      forall x, match w with
                | Ok ps => exists body bs, x = Ok (200%Z, body) /\
                    from_text (of_bytes body) ≫= dec_inspect_ports = Some bs /\ ps = host_ports_of bs
                | Err _ => True end ->
      Q (call "GET" (inspect_path target) x :: cs) r)).
    { apply issues_try, issues_decode, issues_expect. }
    intros [[|p ps]|e]; [eapply issues_mono; [apply issues_ret|]; naive_solver| |
      eapply issues_mono; [apply issues_ret|]; naive_solver].
    eapply issues_mono.
    { eapply (issues_bind _ _ _ (fun lb cs r =>
        forall y, match lb with Ok b => y = Ok (200%Z, b) | Err _ => True end ->
        forall x, (exists body bs, x = Ok (200%Z, body) /\
          from_text (of_bytes body) ≫= dec_inspect_ports = Some bs /\ p :: ps = host_ports_of bs) ->
        Q (call "GET" (inspect_path target) x :: call "GET" list_path y :: cs) r)).
      { apply issues_try, issues_expect. }
      intros [lb|e]; [|eapply issues_mono; [apply issues_ret|]; intros cs r [-> ->] y _ x _;
        split; [done|]; right; left; eauto].
      destruct (from_text (of_bytes lb) ≫= dec_vec dec_item) as [items|] eqn:Hi;
        [|eapply issues_mono; [apply issues_ret|]; intros cs r [-> ->] y _ x _;
          split; [done|]; right; left; eauto].
      eapply issues_mono; [apply issues_free_loop|].
      intros cs r (-> & xs & Hl & ->) y -> x (body & bs & -> & Hb & Hw). split; [done|].
      right; right. exists body, lb, bs, items, xs. rewrite <- Hw. done. }
    intros cs r (cs1 & r1 & (r2 & (y & -> & Hy) & ->) & cs2 & -> & Hr) x Hx.
    apply Hr; [|done]. destruct r2; [by apply H200|done]. }
  intros cs r (cs1 & r1 & (w & (r2 & (x & -> & Hx) & Hw) & ->) & cs2 & -> & Hr).
  apply Hr. destruct w as [ps|]; [|done]. destruct Hw as (body & bs & -> & Hd & ->).
  exists body, bs. split; [by apply H200|done].
Qed.


(** ** Starting *)

Lemma remove_path_inj a b : remove_path a = remove_path b -> a = b.
Proof.
  unfold remove_path. intros Heq. apply (f_equal as_bytes) in Heq.
  rewrite !as_bytes_app in Heq. by simplify_list_eq.
Qed.

Lemma issues_expect_unit method path ok :
  issues (_ ← expect method path None ok; mret tt) (fun cs r =>
    exists x, cs = [call method path x] /\
      (r = Ok tt <-> exists st b, x = Ok (st, b) /\ st ∈ ok)).
Proof.
  eapply issues_mono.
  { eapply issues_bind; [apply issues_expect|]. intros ?. apply issues_ret. }
  intros cs r (cs1 & [b|e] & (x & -> & Hx) & Hr).
  - destruct Hr as (cs2 & -> & -> & ->). rewrite app_nil_r. eexists. split; [done|]. naive_solver.
  - destruct Hr as [-> ->]. eexists. split; [done|]. naive_solver.
Qed.

Definition port_conflict (err : string) : bool :=
  contains err "port is already allocated" || contains err "address already in use".

Lemma issues_start id :
  issues (start id) (fun cs r =>
    exists x, (r = Ok tt <-> exists st b, x = Ok (st, b) /\ st ∈ [204; 304]%Z) /\
      (cs = [call "POST" (start_path id) x] \/
       exists b mid, cs = call "POST" (start_path id) (Ok (500%Z, b)) :: mid ++
                            [call "POST" (start_path id) x] /\
         port_conflict (extract_docker_error b) = true /\
         Forall (fun c => c_method c = "GET" \/
                          c_method c = "DELETE" /\ c_path c <> remove_path id) mid)).
Proof.
  set (Q := fun cs r => _). unfold start. eapply issues_mono.
  { apply (issues_bind _ _ _ (fun sb cs r => Q (call "POST" (start_path id) (Ok sb) :: cs) r)
      (issues_request _ _ _)).
    intros [status b]. destruct (_ || _) eqn:Hok.
    { eapply issues_mono; [apply issues_ret|]. intros cs r [-> ->].
      exists (Ok (status, b)). split; [|by left]. split; [|done]. intros _. exists status, b.
      split; [done|]. apply orb_true_iff in Hok as [->%Z.eqb_eq| ->%Z.eqb_eq]; set_solver. }
    assert (Hno : status ∉ [204; 304]%Z).
    { apply orb_false_iff in Hok as [?%Z.eqb_neq ?%Z.eqb_neq]. set_solver. }
    destruct (_ && _) eqn:Hc.
    - apply andb_true_iff in Hc as [->%Z.eqb_eq Hc]. eapply issues_mono.
      { eapply issues_bind; [apply issues_free|]. intros ?. apply issues_expect_unit. }
      intros cs r (cs1 & r1 & [-> Hf] & cs2 & -> & x & -> & Hr).
      exists x. split; [done|]. right. exists b, cs1. split_and!; [done|done|].
      destruct Hf as [(y & ->)|[(y & z & ->)|(b1 & b2 & bs & items & xs & -> & _)]];
        repeat (constructor; [by left|]); [constructor|constructor|].
      apply Forall_forall. intros c (it & y & -> & Hin & _)%elem_of_zip_with. right.
      split; [done|]. cbn. intros Heq%remove_path_inj.
      rewrite list_elem_of_In, filter_In, removable_spec in Hin. naive_solver.
    - eapply issues_mono; [apply issues_lift|]. intros cs r [-> ->].
      exists (Ok (status, b)). split; [|by left]. split; [done|]. naive_solver. }
  intros cs r (cs1 & [[status b]|e] & -> & Hr).
  - destruct Hr as (cs2 & -> & Hr). done.
  - destruct Hr as [-> ->]. exists (Err e). split; [|by left]. naive_solver.
Qed.

(** [start] succeeds exactly when its last start request is answered 204 or
    304. It asks at most twice, the second time only after a 500 that names a
    port conflict, and in between never deletes the container it starts. *)
Theorem start_retries_once id s :
  let '(s', r) := start id s in
  exists cs x, calls s' = calls s ++ cs /\
    (r = Ok tt <-> exists st b, x = Ok (st, b) /\ st ∈ [204; 304]%Z) /\
    (cs = [call "POST" (start_path id) x] \/
     exists b mid, cs = call "POST" (start_path id) (Ok (500%Z, b)) :: mid ++
                          [call "POST" (start_path id) x] /\
       port_conflict (extract_docker_error b) = true /\
       Forall (fun c => c_method c = "GET" \/
                        c_method c = "DELETE" /\ c_path c <> remove_path id) mid).
Proof.
  destruct (issues_start id s) as (cs & Hc & x & Hq).
  destruct (start id s) as [s' r]. exists cs, x. done.
Qed.

(** ** Listing *)

Lemma managed_of_spec it :
  managed_of it = (fun sid => {| mc_server_id := sid; mc_container_id := li_id it |})
                    <$> server_id_from (li_names it) (li_labels it).
Proof.
  unfold managed_of, server_id_from. destruct (li_labels it !! server_id_label) as [v|]; [|done].
  cbn. by destruct (is_empty v).
Qed.

(** [list_managed] returns, in the Engine's order, exactly the containers
    [server_id_from] recognises, each with that server id: the inline rule of
    the listing and the one that guards deletions are the same. *)
Theorem list_managed_spec s s' l :
  list_managed s = (s', Ok l) ->
  exists body items,
    calls s' = calls s ++ [call "GET" list_path (Ok (200%Z, body))] /\
    from_text (of_bytes body) ≫= dec_vec dec_list_item = Some items /\
    l = omap (fun it => (fun sid => {| mc_server_id := sid; mc_container_id := li_id it |})
                          <$> server_id_from (li_names it) (li_labels it)) items.
Proof.
  intros Hl. destruct (issues_decode _ "decode container list" (dec_vec dec_list_item)
    (omap managed_of) _ (issues_expect "GET" list_path None [200%Z]) s) as (cs & Hc & r1 & Hx & Hr).
  unfold list_managed in Hl. rewrite Hl in Hc, Hr. cbn in Hc, Hr.
  destruct Hr as (body & items & -> & Hd & ->).
  destruct Hx as (x & -> & st & -> & ->%list_elem_of_singleton).
  exists body, items. split_and!; [done|done|].
  clear. induction items as [|it items IH]; [done|]. cbn [omap list_omap].
  rewrite managed_of_spec. by rewrite IH.
Qed.

(** ** Attaching *)

(** However the response arrives, the loop stops with the head in the buffer
    and nothing lost. *)
Lemma read_headers_spec head tail reads buf :
  find_double_crlf head = Some (length head - 4) ->
  find_double_crlf buf = None ->
  Forall (fun r => r <> []) reads ->
  buf ++ concat reads = head ++ tail ->
  exists rest extra,
    read_headers buf (Ok <$> reads) = Ok (head ++ extra, length head, Ok <$> rest) /\
    extra ++ concat rest = tail /\ Forall (fun r => r <> []) rest.
Proof.
  intros Hh. revert buf. pose proof (find_sub_bound _ _ _ Hh) as Hb. cbn in Hb.
  induction reads as [|c reads IH]; intros buf Hn Hne Heq.
  - cbn in Heq. rewrite app_nil_r in Heq. subst buf.
    unfold find_double_crlf in *. by rewrite (find_sub_app_l _ _ _ _ Hh) in Hn.
  - apply Forall_cons in Hne as [Hc Hne]. rewrite fmap_cons. cbn [read_headers].
    destruct c as [|b c]; [done|]. set (buf' := buf ++ b :: c) in *.
    cbn [concat] in Heq. rewrite app_assoc in Heq. fold buf' in Heq.
    destruct (find_double_crlf buf') as [pos|] eqn:Hp; [|by apply IH].
    unfold find_double_crlf in *. pose proof (find_sub_bound _ _ _ Hp) as Hb'. cbn in Hb'.
    apply (find_sub_app_l _ _ (concat reads)) in Hp. rewrite Heq in Hp.
    rewrite (find_sub_app_l _ _ _ _ Hh) in Hp. simplify_eq.
    assert (Hlen : length head <= length buf') by lia.
    assert (Hpre : buf' = head ++ drop (length head) buf').
    { rewrite <- (take_drop (length head) buf') at 1. f_equal.
      rewrite <- (take_app_le buf' (concat reads)) by done. by rewrite Heq, take_app_length. }
    exists reads, (drop (length head) buf'). rewrite <- Hpre. split_and!; [| |done].
    + do 2 f_equal. f_equal. lia.
    + rewrite Hpre, <- app_assoc in Heq. by apply app_inv_head in Heq.
Qed.

(** A console attached to a stream of frames yields exactly the lines of
    its stdout and stderr text, however the Engine's answer and the frames are
    cut into reads; any other answer than 101 is an error and opens no
    console. *)
Theorem attach_console id s conn e1 e2 e3 head reads frames status body :
  uds_connect (socket_path rt) (engine s) = (e1, Ok conn) ->
  uds_write_all conn (as_bytes (attach_head id)) e1 = (e2, Ok tt) ->
  uds_reads conn e2 = (e3, Ok (Ok <$> reads)) ->
  Forall (fun r => r <> []) reads -> Forall frame_ok frames ->
  concat reads = head ++ concat (map frame frames) ->
  find_double_crlf head = Some (length head - 4) ->
  parse_response head = Ok (status, body) ->
  let '(s', r) := attach id s in
  if (status =? 101)%Z
  then r = Ok {| con_stdin := conn; con_output := conn |} /\
       outputs s' = <[conn := text_lines (console_text frames)]> (outputs s)
  else outputs s' = outputs s /\ exists msg, r = Err msg.
Proof.
  intros Hcn Hw Hrd Hne Hok Hbytes Hh Hp.
  destruct (read_headers_spec head (concat (map frame frames)) reads []) as (rest & extra & Hr & Hx & Hn);
    try done.
  unfold attach, connect, on_engine. run. rewrite Hcn. cbn. rewrite Hw. cbn. rewrite Hrd. cbn.
  rewrite Hr. cbn. rewrite take_app_length, Hp. cbn.
  destruct (Z.eqb_spec status 101); cbn; [|eauto]. split; [done|]. f_equal.
  rewrite drop_app_length.
  destruct (pump_output_spec frames extra rest Hok Hn Hx) as (Hs & _).
  rewrite <- Hs. by rewrite <- list_fmap_compose.
Qed.
End docker.

(** The create request publishes exactly the spec's ports: under each
    container port are the host ports bound to it, in the spec's order, and no
    other container port appears. The container keeps its stdin open, is no
    tty, drops no capability and may gain no privileges. *)
Theorem to_create_request_spec spec dns k :
  let r := to_create_request spec dns in
  default [] (hc_port_bindings (cr_host_config r) !! k)
    = (fun pb => {| host_port := pb_host_port pb |})
        <$> filter (fun pb => pb_container_port pb = k) (spec_port_bindings spec) /\
  (is_Some (hc_port_bindings (cr_host_config r) !! k) <->
     k ∈ pb_container_port <$> spec_port_bindings spec) /\
  cr_tty r = false /\ cr_open_stdin r = true /\
  hc_cap_drop (cr_host_config r) = [] /\
  hc_security_opt (cr_host_config r) = ["no-new-privileges"].
Proof.
  cbn. assert (Hf : forall pbs m,
    default [] (foldl push_binding m pbs !! k) = default [] (m !! k) ++
      ((fun pb => {| host_port := pb_host_port pb |})
         <$> filter (fun pb => pb_container_port pb = k) pbs) /\
    (is_Some (foldl push_binding m pbs !! k) <-> is_Some (m !! k) \/ k ∈ pb_container_port <$> pbs)).
  { induction pbs as [|pb pbs IH]; intros m; cbn [foldl].
    { rewrite app_nil_r. split; [done|]. rewrite list_elem_of_fmap. set_solver. }
    destruct (IH (push_binding m pb)) as [Hd Hs]. rewrite Hd, Hs, fmap_cons, elem_of_cons.
    unfold push_binding. destruct (decide (pb_container_port pb = k)) as [<-|Hne].
    - rewrite lookup_insert_eq, filter_cons_True by done. simpl.
      rewrite <- app_assoc. split; [done|]. naive_solver.
    - rewrite lookup_insert_ne, filter_cons_False by done. naive_solver. }
  destruct (Hf (spec_port_bindings spec) ∅) as [Hd Hs].
  split_and!; try done. rewrite Hs, lookup_empty. split; [|by right].
  intros [[? ?]|?]; done.
Qed.

(** ** A small Engine *)

(** It answers each connection with the next canned text. *)
Module Canned.
Definition state : Type := list (list byte).

Global Instance engine : Engine state := {|
  uds_connect := fun _ => mret 0;
  uds_write_all := fun _ _ => mret tt;
  uds_read_to_end := fun _ s => match s with r :: s' => (s', Ok r) | [] => ([], Ok []) end;
  uds_reads := fun _ s => match s with
                          | r :: s' => (s', Ok [Ok (take 5 r); Ok (drop 5 r)])
                          | [] => ([], Ok [])
                          end;
|}.
Global Instance host : Host :=
  {| host_exists := fun _ => false; host_run := fun _ _ _ => Some (20%Z, inl (Some 0%Z)); host_is_linux := true |}.

(** The status is read from its fixed place in the status line; a header is the
    name up to a colon, and the value after the space. *)
Definition header_of (line : list byte) : option (string * list byte) :=
  (fun i => (of_bytes (take i line), drop (i + 2) line)) <$> position (is_byte ":") line.
Global Instance http : HttpParse := fun buf =>
  match find_double_crlf buf with
  | Some pos =>
      Complete (pos + 4) (digits_val 10 0 (take 3 (drop 9 buf)))
        (omap header_of (strip_cr <$> split_on is_lf (take pos buf)))
  | None => Partial
  end.

Definition response (status : string) (body : list byte) : list byte :=
  as_bytes ("HTTP/1.1 " +:+ status +:+ " X" +:+ nl +:+ nl) ++ body.
Definition initial (answers : list (list byte)) : DState state :=
  {| Docker.engine := answers;
     firewall := {| warned := false; spawned := []; fw_log := []; waited := 0 |};
     outputs := ∅; calls := [] |}.
Definition runtime : DockerRuntime :=
  {| socket_path := "/var/run/docker.sock"; dns := []; firewall_mode := Off |}.
End Canned.

Definition sample_listing : json :=
  JArr [JObj [("Id", JStr "c1"); ("Names", JArr [JStr "/sky-panel"])];
        JObj [("Id", JStr "c2"); ("Labels", JObj [("sky-panel.server_id", JStr "s2")])]].

Lemma list_managed_spec_witness :
  exists s' body items,
    list_managed Canned.runtime (Canned.initial
      [Canned.response "200" (as_bytes (default "" (result_ok (to_text sample_listing))))])
      = (s', Ok [{| mc_server_id := "s2"; mc_container_id := "c2" |}]) /\
    calls s' = [call "GET" list_path (Ok (200%Z, body))] /\
    from_text (of_bytes body) ≫= dec_vec dec_list_item = Some items.
Proof.
  set (s0 := Canned.initial _).
  assert (E : list_managed Canned.runtime s0
    = ((list_managed Canned.runtime s0).1, Ok [{| mc_server_id := "s2"; mc_container_id := "c2" |}]))
    by (vm_compute; reflexivity).
  destruct (list_managed_spec _ _ _ _ E) as (body & items & Hc & Hi & _).
  exists (list_managed Canned.runtime s0).1, body, items.
  split; [exact E|]. split; [exact Hc|exact Hi].
Defined.

Definition sample_frames : list (byte * list byte) :=
  [(STREAM_STDOUT, as_bytes "he"); (STREAM_STDERR, as_bytes "llo" ++ [LF] ++ as_bytes "tail")].

Lemma attach_console_witness :
  let answer := Canned.response "101" (concat (map frame sample_frames)) in
  let '(s', r) := attach Canned.runtime "c1" (Canned.initial [answer]) in
  r = Ok {| con_stdin := 0; con_output := 0 |} /\ outputs s' = <[0 := ["hello"]]> ∅.
Proof.
  intros answer.
  unshelve epose proof (attach_console Canned.runtime "c1" (Canned.initial [answer]) 0 [answer]
    [answer] [] (Canned.response "101" []) [take 5 answer; drop 5 answer] sample_frames 101 []
    _ _ _ _ _ _ _ _) as Ha;
    [reflexivity|reflexivity|reflexivity
    |repeat (apply List.Forall_cons; [discriminate|]); apply List.Forall_nil
    |repeat (apply List.Forall_cons; [vm_compute; reflexivity|]); apply List.Forall_nil
    |vm_compute; reflexivity|vm_compute; reflexivity|vm_compute; reflexivity|].
  destruct (attach Canned.runtime "c1" (Canned.initial [answer])) as [s' r].
  destruct Ha as [Hr Ho]. split; [exact Hr|]. rewrite Ho.
  replace (text_lines (console_text sample_frames)) with ["hello"] by (vm_compute; reflexivity).
  reflexivity.
Defined.
