(* ===== verification/Db.v ===== *)
(** * Database provisioning (daemon/src/db.rs)

    The MariaDB server and the connection pool ([mysql_async]) are an
    interface; the statements sent are recorded in order, with whether each
    succeeded. *)

From S2P Require Import Prelude RustStr Config.
From stdpp Require Import options.
Set Default Proof Using "Type*".

(** ** Names and literals *)

Definition ident_byte (b : byte) : bool := is_ascii_alphanumeric b || bool_decide (b = "_"%char).

Definition validate_ident (s : string) (max : nat) : result unit :=
  if is_empty s || (max <? String.length s) then
    Err ("identifier length must be 1..=" +:+ pretty max)
  else if negb (forallb ident_byte (as_bytes s)) then
    Err "identifier may only contain [A-Za-z0-9_]"
  else Ok tt.

Definition backslash : byte := "092"%char.
Definition quote : byte := "039"%char.

(** [str::replace] of one character. *)
Definition replace_byte (c : byte) (by_ : list byte) (l : list byte) : list byte :=
  concat (map (fun b => if bool_decide (b = c) then by_ else [b]) l).

Definition escape_sql_string (s : string) : string :=
  of_bytes (replace_byte quote [backslash; quote]
              (replace_byte backslash [backslash; backslash] (as_bytes s))).

(** ** The server *)

Class MariaDb (Q : Type) := {
  get_conn : M Q unit;
  run_query : string -> M Q unit;
}.

Record DbAdmin := { public_host : string; public_port : Z }.

Record SqlState (Q : Type) := {
  server : Q;
  queries : list (string * bool);
}.
Arguments server {Q} _.
Arguments queries {Q} _.

(** [DbAdmin::new]: the pool is lazy, so nothing is dialled yet. *)
Definition db_new (cfg : DatabaseConfig) : DbAdmin :=
  {| public_host := db_public_host cfg; public_port := db_public_port cfg |}.

Section db.
Context {Q : Type} `{MariaDb Q}.
Abbreviation St := (SqlState Q).

Definition conn : M St unit := fun s =>
  let '(q, r) := get_conn (server s) in ({| server := q; queries := queries s |}, r).

Definition query_drop (sql : string) : M St unit := fun s =>
  let '(q, r) := run_query sql (server s) in
  ({| server := q; queries := queries s ++ [(sql, is_ok r)] |}, r).

Definition sql_create_db (name : string) : string :=
  "CREATE DATABASE IF NOT EXISTS `" +:+ name +:+ "`".
Definition sql_create_user (user pass : string) : string :=
  "CREATE USER IF NOT EXISTS '" +:+ user +:+ "'@'%' IDENTIFIED BY '" +:+ pass +:+ "'".
Definition sql_grant (name user : string) : string :=
  "GRANT ALL PRIVILEGES ON `" +:+ name +:+ "`.* TO '" +:+ user +:+ "'@'%'".
Definition sql_drop_db (name : string) : string := "DROP DATABASE IF EXISTS `" +:+ name +:+ "`".
Definition sql_drop_user (user : string) : string := "DROP USER IF EXISTS '" +:+ user +:+ "'@'%'".
Definition sql_flush : string := "FLUSH PRIVILEGES".

(** The [rest] block: user and grant. *)
Definition create_rest (name user pass : string) : M St unit :=
  _ ← mcontext "create user" (query_drop (sql_create_user user pass));
  mcontext "grant privileges" (query_drop (sql_grant name user)).

Definition create_database (name user password : string) : M St unit :=
  _ ← lift (context "invalid database name" (validate_ident name 64));
  _ ← lift (context "invalid database user" (validate_ident user 32));
  let pass := escape_sql_string password in
  _ ← mcontext "connect to MariaDB" conn;
  _ ← mcontext "create database" (query_drop (sql_create_db name));
  rest ← mtry (create_rest name user pass);
  match rest with
  | Err e =>
      _ ← mtry (query_drop (sql_drop_db name));
      _ ← mtry (query_drop (sql_drop_user user));
      lift (Err e)
  | Ok _ =>
      _ ← mtry (query_drop sql_flush);
      mret tt
  end.

Definition delete_database (name user : string) : M St unit :=
  _ ← lift (context "invalid database name" (validate_ident name 64));
  _ ← lift (context "invalid database user" (validate_ident user 32));
  _ ← mcontext "connect to MariaDB" conn;
  _ ← mcontext "drop database" (query_drop (sql_drop_db name));
  _ ← mtry (query_drop (sql_drop_user user));
  _ ← mtry (query_drop sql_flush);
  mret tt.
End db.

(** ** What MariaDB does with the texts *)

(** The documented reading of a quoted string, from after its opening quote to
    after its closing one (backslash escapes on, the default SQL mode): the
    value and the rest of the statement. *)
Class SqlLexer := lex_string : list byte -> option (list byte * list byte).
Class SqlLexerLaws `{SqlLexer} := {
  lex_end : lex_string [quote] = Some ([], []);
  lex_end_before c l : c <> quote -> lex_string (quote :: c :: l) = Some ([], c :: l);
  lex_backslash l : lex_string (backslash :: backslash :: l)
                      = '(v, r) ← lex_string l; Some (backslash :: v, r);
  lex_quote l : lex_string (backslash :: quote :: l) = '(v, r) ← lex_string l; Some (quote :: v, r);
  lex_plain b l : b <> backslash -> b <> quote ->
                  lex_string (b :: l) = '(v, r) ← lex_string l; Some (b :: v, r);
}.

Definition escape_byte (b : byte) : list byte :=
  if bool_decide (b = backslash) then [backslash; backslash]
  else if bool_decide (b = quote) then [backslash; quote]
  else [b].

(** The two replacements never interfere. *)
Lemma escape_bytes s : as_bytes (escape_sql_string s) = concat (map escape_byte (as_bytes s)).
Proof.
  unfold escape_sql_string. rewrite as_of_bytes.
  unfold replace_byte. induction (as_bytes s) as [|b l IH]; [done|].
  cbn [map concat]. rewrite map_app, concat_app, IH. f_equal.
  unfold escape_byte. case_bool_decide as Hb; subst; [done|].
  cbn. case_bool_decide; by rewrite app_nil_r.
Qed.

Lemma validate_ident_ok s max :
  validate_ident s max = Ok tt <->
  1 <= String.length s <= max /\ Forall (fun b => ident_byte b = true) (as_bytes s).
Proof.
  unfold validate_ident.
  destruct (is_empty s) eqn:He; cbn [orb].
  { destruct s; [|done]. split; [done|]. cbn. lia. }
  assert (1 <= String.length s) by (destruct s; [done|cbn; lia]).
  destruct (Nat.ltb_spec max (String.length s)); [split; [done|lia]|].
  destruct (forallb ident_byte (as_bytes s)) eqn:Hf; cbn [negb].
  - split; [|done]. intros _. split; [lia|]. apply Forall_forall.
    intros b Hb. rewrite forallb_forall in Hf. apply Hf. by apply list_elem_of_In.
  - split; [done|]. intros [_ HF]. apply not_true_iff_false in Hf. destruct Hf.
    apply forallb_forall. intros b Hb%list_elem_of_In. rewrite Forall_forall in HF. auto.
Qed.

Lemma ident_byte_plain b : ident_byte b = true -> b <> backslash /\ b <> quote /\ b <> "`"%char.
Proof. intros Hb. split_and!; intros ->; by vm_compute in Hb. Qed.

Section lexing.
Context `{SqlLexerLaws}.

Lemma lex_escaped l rest :
  lex_string (quote :: rest) = Some ([], rest) ->
  lex_string (concat (map escape_byte l) ++ quote :: rest) = Some (l, rest).
Proof.
  intros He. induction l as [|b l IH]; [done|]. cbn [map concat].
  unfold escape_byte at 1. case_bool_decide as Hb; [|case_bool_decide as Hq]; subst; cbn [app].
  - rewrite lex_backslash, IH. done.
  - rewrite lex_quote, IH. done.
  - rewrite lex_plain, IH by done. done.
Qed.

Lemma escape_ident l : Forall (fun b => ident_byte b = true) l -> concat (map escape_byte l) = l.
Proof.
  induction 1 as [|b l Hb _ IH]; [done|]. cbn [map concat]. rewrite IH.
  apply ident_byte_plain in Hb as (? & ? & ?). unfold escape_byte.
  by rewrite !bool_decide_false by done.
Qed.

(** C27: no password and no accepted name can break out of the statement that
    creates a user: the server reads back as the user's literal exactly the
    user name, and as the password's literal exactly the password, which ends
    where the statement ends. *)
Theorem create_user_no_injection user password :
  validate_ident user 32 = Ok tt ->
  exists after_user before_pass,
    as_bytes (sql_create_user user (escape_sql_string password))
      = as_bytes "CREATE USER IF NOT EXISTS '" ++ as_bytes user ++ quote :: after_user /\
    lex_string (as_bytes user ++ quote :: after_user) = Some (as_bytes user, after_user) /\
    after_user = before_pass ++ quote :: as_bytes (escape_sql_string password) ++ [quote] /\
    before_pass = as_bytes "@'%' IDENTIFIED BY " /\
    lex_string (as_bytes (escape_sql_string password) ++ [quote]) = Some (as_bytes password, []).
Proof.
  intros [_ Hu]%validate_ident_ok.
  eexists _, _. split; [|split; [|split; [reflexivity|split; [reflexivity|]]]].
  - unfold sql_create_user. rewrite !as_bytes_app. reflexivity.
  - rewrite <- (escape_ident (as_bytes user)) at 1 by done. apply lex_escaped.
    by apply lex_end_before.
  - rewrite escape_bytes. apply lex_escaped, lex_end.
Qed.
End lexing.

(** An accepted identifier cannot leave its backquotes: the statements that
    interpolate a database name contain no backquote but the two around it. *)
Theorem ident_keeps_backquotes name max :
  validate_ident name max = Ok tt ->
  let bq := fun b => bool_decide (b = "`"%char) in
  (length (List.filter bq (as_bytes (sql_create_db name))) = 2 /\
   length (List.filter bq (as_bytes (sql_drop_db name))) = 2 /\
   forall user, validate_ident user max = Ok tt ->
     length (List.filter bq (as_bytes (sql_grant name user))) = 2) /\
  name <> "" /\ String.length name <= max.
Proof.
  intros [[? ?] Hn]%validate_ident_ok bq.
  assert (Hno : forall l, Forall (fun b => ident_byte b = true) l -> List.filter bq l = []).
  { induction 1 as [|b l Hb _ IH]; [done|]. cbn. apply ident_byte_plain in Hb as (_ & _ & Hb).
    unfold bq at 1. by rewrite bool_decide_false. }
  split; [split_and!|].
  - unfold sql_create_db. rewrite !as_bytes_app, !List.filter_app, (Hno (as_bytes name)) by done. done.
  - unfold sql_drop_db. rewrite !as_bytes_app, !List.filter_app, (Hno (as_bytes name)) by done. done.
  - intros user [_ Hu]%validate_ident_ok.
    unfold sql_grant. rewrite !as_bytes_app, !List.filter_app,
      (Hno (as_bytes name)), (Hno (as_bytes user)) by done. done.
  - split; [|done]. intros ->. cbn in *. lia.
Qed.

(** ** Statements and outcomes *)

Section trace.
Context {Q : Type} `{MariaDb Q}.

(** [create_database] sends nothing for a rejected name or user. Otherwise it
    creates the database, the user and the grant, and succeeds exactly when all
    three do; when the user or the grant fails it drops the database and the
    user and reports the step that failed, whatever the two drops do. *)
Theorem create_database_trace name user password (s : SqlState Q) :
  let '(s', r) := create_database name user password s in
  let pass := escape_sql_string password in
  exists sent, queries s' = queries s ++ sent /\
  match validate_ident name 64, validate_ident user 32 with
  | Err _, _ => sent = [] /\ r = Err "invalid database name"
  | Ok _, Err _ => sent = [] /\ r = Err "invalid database user"
  | Ok _, Ok _ =>
      (sent = [] /\ r = Err "connect to MariaDB") \/
      (sent = [(sql_create_db name, false)] /\ r = Err "create database") \/
      (exists a b, sent = [(sql_create_db name, true); (sql_create_user user pass, false);
                           (sql_drop_db name, a); (sql_drop_user user, b)] /\
                   r = Err "create user") \/
      (exists a b, sent = [(sql_create_db name, true); (sql_create_user user pass, true);
                           (sql_grant name user, false);
                           (sql_drop_db name, a); (sql_drop_user user, b)] /\
                   r = Err "grant privileges") \/
      (exists a, sent = [(sql_create_db name, true); (sql_create_user user pass, true);
                         (sql_grant name user, true); (sql_flush, a)] /\ r = Ok tt)
  end.
Proof.
  unfold create_database, create_rest, conn, query_drop. run.
  destruct (validate_ident name 64) as [[]|]; [|exists []; by rewrite app_nil_r].
  destruct (validate_ident user 32) as [[]|]; [|exists []; by rewrite app_nil_r].
  destruct (get_conn (server s)) as [q0 [[]|]]; cbn; [|exists []; rewrite app_nil_r; naive_solver].
  destruct (run_query (sql_create_db name) q0) as [q1 [[]|]]; cbn; [|eexists; naive_solver].
  destruct (run_query (sql_create_user _ _) q1) as [q2 [[]|]]; cbn.
  - destruct (run_query (sql_grant name user) q2) as [q3 [[]|]]; cbn.
    + destruct (run_query sql_flush q3) as [q4 r4]. cbn. rewrite <- !app_assoc. cbn.
      eexists. split; [done|]. naive_solver.
    + destruct (run_query (sql_drop_db name) q3) as [q4 r4]. cbn.
      destruct (run_query (sql_drop_user user) q4) as [q5 r5]. cbn. rewrite <- !app_assoc. cbn.
      eexists. split; [done|]. right; right; right; left. eauto.
  - destruct (run_query (sql_drop_db name) q2) as [q4 r4]. cbn.
    destruct (run_query (sql_drop_user user) q4) as [q5 r5]. cbn. rewrite <- !app_assoc. cbn.
    eexists. split; [done|]. right; right; left. eauto.
Qed.
End trace.

(** The documented effect of the statements on the set of databases; one that
    fails changes nothing. *)
Class MariaDbLaws {Q} (DB : MariaDb Q) := {
  databases : Q -> gset string;
  law_conn q : databases (get_conn q).1 = databases q;
  law_create_db name q : is_ok (validate_ident name 64) = true ->
    databases (run_query (sql_create_db name) q).1
      = if is_ok (run_query (sql_create_db name) q).2 then {[name]} ∪ databases q else databases q;
  law_drop_db name q : is_ok (validate_ident name 64) = true ->
    databases (run_query (sql_drop_db name) q).1
      = if is_ok (run_query (sql_drop_db name) q).2 then databases q ∖ {[name]} else databases q;
  law_create_user user pass q : databases (run_query (sql_create_user user pass) q).1 = databases q;
  law_grant name user q : databases (run_query (sql_grant name user) q).1 = databases q;
  law_drop_user user q : databases (run_query (sql_drop_user user) q).1 = databases q;
  law_flush q : databases (run_query sql_flush q).1 = databases q;
}.

Section effect.
Context {Q : Type} {DB : MariaDb Q} {L : MariaDbLaws DB}.


(** [delete_database] removes the named database when it succeeds, changes
    nothing when it fails, and never touches another; dropping the user is best
    effort. *)
Theorem delete_database_effect name user (s : SqlState Q) :
  let '(s', r) := delete_database name user s in
  databases (server s') = match r with
                          | Ok _ => databases (server s) ∖ {[name]}
                          | Err _ => databases (server s)
                          end /\
  (r = Ok tt -> (sql_drop_db name, true) ∈ queries s') .
Proof.
  unfold delete_database, conn, query_drop. run.
  destruct (validate_ident name 64) as [[]|] eqn:Hn; [|naive_solver].
  destruct (validate_ident user 32) as [[]|]; [|naive_solver].
  assert (Hv : is_ok (validate_ident name 64) = true) by (by rewrite Hn).
  pose proof (law_conn (server s)) as Hc. destruct (get_conn (server s)) as [q0 [[]|]]; cbn in *;
    [|rewrite Hc; naive_solver]. rewrite <- Hc. clear Hc.
  pose proof (law_drop_db name q0 Hv) as H1.
  destruct (run_query (sql_drop_db name) q0) as [q1 [[]|]]; cbn in *; [|rewrite H1; naive_solver].
  pose proof (law_drop_user user q1) as H2.
  destruct (run_query (sql_drop_user user) q1) as [q2 r2]. cbn in *.
  pose proof (law_flush q2) as H3. destruct (run_query sql_flush q2) as [q3 r3]. cbn in *.
  rewrite H3, H2, H1. split; [done|]. set_solver.
Qed.
End effect.

(** ** A small server *)

(** A set of databases, and whether [CREATE USER] fails. It reads the texts of
    the statements that name a database. *)
Module ToyDb.
Definition state : Type := gset string * bool.

Fixpoint after (w l : list byte) : option (list byte) :=
  match w, l with
  | [], _ => Some l
  | c :: w', b :: l' => if Ascii.eqb c b then after w' l' else None
  | _, [] => None
  end.
Definition named (w : string) (sql : string) : option string :=
  (fun l => of_bytes (take (pred (length l)) l)) <$> after (as_bytes w) (as_bytes sql).

Definition query (sql : string) : M state unit := fun q =>
  match named "CREATE DATABASE IF NOT EXISTS `" sql with
  | Some name => (({[name]} ∪ q.1, q.2), Ok tt)
  | None =>
      match named "DROP DATABASE IF EXISTS `" sql with
      | Some name => ((q.1 ∖ {[name]}, q.2), Ok tt)
      | None => (q, if q.2 && bool_decide (is_Some (named "CREATE USER" sql))
                    then Err "denied" else Ok tt)
      end
  end.

Global Instance mariadb : MariaDb state := {| get_conn := mret tt; run_query := query |}.

Lemma named_app w name : named w (w +:+ name +:+ "`") = Some name.
Proof.
  unfold named. rewrite !as_bytes_app.
  assert (Ha : forall a l, after a (a ++ l) = Some l).
  { induction a as [|c a IH]; intros l; cbn; [done|]. by rewrite Ascii.eqb_refl. }
  rewrite Ha. cbn. f_equal. rewrite length_app, Nat.add_1_r. cbn.
  by rewrite take_app_length, of_as_bytes.
Qed.

Global Instance laws : MariaDbLaws mariadb.
Proof.
  refine {| databases := (fst : state -> gset string) |}; cbn [get_conn run_query mariadb]; intros;
    unfold query.
  - done.
  - unfold sql_create_db. by rewrite named_app.
  - assert (Hn : named "CREATE DATABASE IF NOT EXISTS `" (sql_drop_db name) = None) by reflexivity.
    rewrite Hn. unfold sql_drop_db. by rewrite named_app.
  - done.
  - done.
  - done.
  - done.
Defined.

(** The literal reader of the default SQL mode. *)
Fixpoint lex (l : list byte) : option (list byte * list byte) :=
  match l with
  | [] => None
  | b :: l1 =>
      if bool_decide (b = backslash) then
        match l1 with
        | [] => None
        | c :: l2 => '(v, r) ← lex l2; Some (c :: v, r)
        end
      else if bool_decide (b = quote) then
        match l1 with
        | c :: l2 =>
            if bool_decide (c = quote) then '(v, r) ← lex l2; Some (quote :: v, r)
            else Some ([], l1)
        | [] => Some ([], [])
        end
      else '(v, r) ← lex l1; Some (b :: v, r)
  end.
Global Instance lexer : SqlLexer := lex.
Global Instance lexer_laws : SqlLexerLaws.
Proof.
  split; unfold lex_string, lexer; try done.
  - intros c l Hc. cbn. by rewrite (bool_decide_false (c = quote)).
  - intros b l Hb Hq. cbn. by rewrite (bool_decide_false (b = backslash)), (bool_decide_false (b = quote)).
Qed.
End ToyDb.

Definition toy_db (dbs : gset string) (broken : bool) : SqlState ToyDb.state :=
  {| server := (dbs, broken); queries := [] |}.

Lemma create_user_no_injection_witness :
  let pw := String quote "; DROP DATABASE x" in
  lex_string (as_bytes (escape_sql_string pw) ++ [quote]) = Some (as_bytes pw, []).
Proof.
  intros pw. destruct (create_user_no_injection "u_1" pw) as (? & ? & _ & _ & _ & _ & H);
    [vm_compute; reflexivity|exact H].
Defined.

Lemma ident_keeps_backquotes_witness :
  validate_ident "s_ab12_mydb" 64 = Ok tt /\
  length (List.filter (fun b => bool_decide (b = "`"%char)) (as_bytes (sql_drop_db "s_ab12_mydb"))) = 2.
Proof.
  split; [vm_compute; reflexivity|].
  destruct (ident_keeps_backquotes "s_ab12_mydb" 64) as [(_ & H & _) _]; [vm_compute; reflexivity|].
  exact H.
Defined.


Lemma delete_database_effect_witness :
  let '(s', r) := delete_database "db" "u" (toy_db {["db"; "other"]} false) in
  r = Ok tt /\ databases (server s') = {["db"; "other"]} ∖ {["db"]}.
Proof.
  pose proof (delete_database_effect "db" "u" (toy_db {["db"; "other"]} false)) as H.
  destruct (delete_database "db" "u" (toy_db {["db"; "other"]} false)) as [s' r] eqn:E.
  destruct H as [H _]. assert (Hr : r = Ok tt) by (vm_compute in E; congruence).
  rewrite Hr in H |- *. split; [reflexivity|exact H].
Defined.
