(* ===== verification/Tail.v ===== *)
(** * Log tailing (skyperf-core/src/tail.rs)

    [BufRead::read_line] reads up to and including a line feed and fails on
    bytes that are not UTF-8. A reader is the bytes it yields and the error, if
    any, that follows them. *)

From S2P Require Import Prelude RustStr Demux.
From stdpp Require Import options.

Record Reader := { r_data : list byte; r_error : option string }.

Definition invalid_utf8 : string := "stream did not contain valid UTF-8".

Definition check_utf8 (line : list byte) : result (list byte) :=
  if utf8_valid line then Ok line else Err invalid_utf8.

(** The line read, empty at the end, and the reader after it. *)
Definition read_line (r : Reader) : result (list byte * Reader) :=
  match position is_lf (r_data r) with
  | Some pos =>
      line ← check_utf8 (take (S pos) (r_data r));
      Ok (line, {| r_data := drop (S pos) (r_data r); r_error := r_error r |})
  | None =>
      match r_error r with
      | Some e => Err e
      | None => line ← check_utf8 (r_data r); Ok (line, {| r_data := []; r_error := None |})
      end
  end.

Definition ends_with (c : byte) (l : list byte) : bool := bool_decide (last l = Some c).
Definition pop {A} (l : list A) : list A := take (pred (length l)) l.

Definition strip_newline (line : list byte) : list byte :=
  if ends_with LF line then
    let line := pop line in
    if ends_with CR line then pop line else line
  else line.

(** ** [last_n_lines] *)

Definition DEFAULT_TAIL_LINES : nat := 200.

(** The bounded window: at most [n] lines. *)
Definition push_window (n : nat) (window : list string) (line : string) : list string :=
  let window := if length window =? n then drop 1 window else window in
  if 0 <? n then window ++ [line] else window.

(** The loop; [None] when the fuel runs out. *)
Fixpoint tail_loop (fuel : nat) (r : Reader) (n : nat) (window : list string)
    : option (result (list string)) :=
  match fuel with
  | 0 => None
  | S fuel' =>
      match read_line r with
      | Err e => Some (Err e)
      | Ok ([], _) => Some (Ok window)
      | Ok (line, r') => tail_loop fuel' r' n (push_window n window (of_bytes (strip_newline line)))
      end
  end.

(** Every round but the last consumes a byte. *)
Definition last_n_lines (r : Reader) (n : nat) : result (list string) :=
  default (Err "") (tail_loop (S (length (r_data r))) r n []).

Definition read_last_lines (file : result Reader) : result (list string) :=
  r ← file; last_n_lines r DEFAULT_TAIL_LINES.

(** ** [follow] *)

(** What one round of the loop observes: the stop flag, the length of the file
    ([None] when it is gone), and the file when opened and read. *)
Record Poll := { stop : bool; len : option Z; file : result Reader }.

(** The inner loop from [pos]: the lines reported, the new position, and the
    error that ends it, if any. *)
Fixpoint read_new (fuel : nat) (pos : Z) (r : Reader) : list string * Z * option string :=
  match fuel with
  | 0 => ([], pos, None)
  | S fuel' =>
      match read_line r with
      | Err e => ([], pos, Some e)
      | Ok (buf, r') =>
          if bool_decide (buf = []) then ([], pos, None)
          else if negb (ends_with LF buf) then ([], pos, None)
          else
            let '(lines, pos', err) := read_new fuel' (pos + Z.of_nat (length buf)) r' in
            (of_bytes (strip_newline buf) :: lines, pos', err)
      end
  end.

(** [file.seek(SeekFrom::Start(pos))] *)
Definition seek (pos : Z) (r : Reader) : Reader :=
  {| r_data := drop (Z.to_nat pos) (r_data r); r_error := r_error r |}.

(** The outer loop: the lines reported, and how it ended; [inl pos] means it is
    still polling. *)
Fixpoint follow_loop (pos : Z) (polls : list Poll) : list string * (Z + result unit) :=
  match polls with
  | [] => ([], inl pos)
  | p :: polls' =>
      if stop p then ([], inr (Ok tt)) else
      match len p with
      | None => ([], inr (Ok tt))
      | Some len =>
          let pos := if (len <? pos)%Z then 0%Z else pos in
          if (len =? pos)%Z then follow_loop pos polls' else
          match file p with
          | Err e => ([], inr (Err e))
          | Ok r =>
              let r := seek pos r in
              match read_new (S (length (r_data r))) pos r with
              | (lines, _, Some e) => (lines, inr (Err e))
              | (lines, pos, None) =>
                  let '(lines', res) := follow_loop pos polls' in (lines ++ lines', res)
              end
          end
      end
  end.

Definition follow (initial_len : result Z) (polls : list Poll) : list string * (Z + result unit) :=
  match initial_len with
  | Err e => ([], inr (Err e))
  | Ok pos => follow_loop pos polls
  end.

(** ** Specification *)

(** The complete lines of a text, without their ends, and what follows the last
    line feed. *)
Definition complete_lines (text : list byte) : list string :=
  map (fun l => of_bytes (strip_cr l)) (pop (split_on is_lf text)).
Definition unfinished (text : list byte) : list byte := default [] (last (split_on is_lf text)).
(** The bytes of the complete lines, line feeds included. *)
Definition completed (text : list byte) : list byte :=
  concat (map (fun l => l ++ [LF]) (pop (split_on is_lf text))).

(** All lines: an unterminated last one counts. *)
Definition lines_of (text : list byte) : list string :=
  complete_lines text ++ (if bool_decide (unfinished text = []) then [] else [of_bytes (unfinished text)]).

(** ** Lemmas *)

(** The first chunk of a text, and that it is the first of [utf8_chunks]. *)
Definition utf8_head (l : list byte) : list byte * bool :=
  match l with
  | [] => ([], true)
  | b0 :: l1 =>
      if in_range 0 127 b0 then ([b0], true)
      else if in_range 194 223 b0 then
        match l1 with
        | b1 :: _ => if utf8_cont b1 then ([b0; b1], true) else ([b0], false)
        | [] => ([b0], false)
        end
      else if in_range 224 239 b0 then
        match l1 with
        | [] => ([b0], false)
        | b1 :: l2 =>
            if negb (utf8_second b0 b1) then ([b0], false) else
            match l2 with
            | b2 :: _ => if utf8_cont b2 then ([b0; b1; b2], true) else ([b0; b1], false)
            | [] => ([b0; b1], false)
            end
        end
      else if in_range 240 244 b0 then
        match l1 with
        | [] => ([b0], false)
        | b1 :: l2 =>
            if negb (utf8_second b0 b1) then ([b0], false) else
            match l2 with
            | [] => ([b0; b1], false)
            | b2 :: l3 =>
                if negb (utf8_cont b2) then ([b0; b1], false) else
                match l3 with
                | b3 :: _ => if utf8_cont b3 then ([b0; b1; b2; b3], true)
                             else ([b0; b1; b2], false)
                | [] => ([b0; b1; b2], false)
                end
            end
        end
      else ([b0], false)
  end.

Lemma utf8_chunks_head l :
  l <> [] -> utf8_chunks l = utf8_head l :: utf8_chunks (drop (length (utf8_head l).1) l).
Proof.
  intros Hl. destruct l as [|b0 l1]; [done|]. cbn [utf8_chunks utf8_head].
  repeat case_match; reflexivity.
Qed.

Lemma utf8_second_lf b : utf8_second b LF = false.
Proof. unfold utf8_second. repeat case_match; reflexivity. Qed.

Lemma utf8_head_lf a b :
  a <> [] ->
  utf8_head (a ++ LF :: b) = utf8_head a /\ 1 <= length (utf8_head a).1 <= length a.
Proof.
  intros Ha. pose proof utf8_second_lf as Hs. assert (utf8_cont LF = false) as Hc by reflexivity.
  destruct a as [|b0 [|b1 [|b2 [|b3 a]]]]; [done|..]; cbn [app utf8_head]; rewrite ?Hs, ?Hc;
    repeat case_match; cbn [fst length]; (split; [done|lia]).
Qed.

Lemma utf8_chunks_lf a b :
  utf8_chunks (a ++ LF :: b) = utf8_chunks a ++ ([LF], true) :: utf8_chunks b.
Proof.
  induction a as [a IH] using list_length_ind.
  destruct (decide (a = [])) as [->|Ha]; [done|].
  destruct (utf8_head_lf a b Ha) as [Hh Hl].
  rewrite (utf8_chunks_head (a ++ LF :: b)) by (by destruct a).
  rewrite (utf8_chunks_head a) by done. rewrite Hh, drop_app_le by lia.
  rewrite IH by (rewrite length_drop; lia). done.
Qed.

Lemma utf8_valid_lf a b : utf8_valid (a ++ LF :: b) = utf8_valid a && utf8_valid b.
Proof. unfold utf8_valid. rewrite utf8_chunks_lf, forallb_app. done. Qed.

Lemma lines_none l :
  Forall (fun b => is_lf b = false) l ->
  complete_lines l = [] /\ unfinished l = l /\ completed l = [].
Proof. intros Hl. unfold complete_lines, unfinished, completed. by rewrite (split_on_none _ _ Hl). Qed.

Lemma lines_cons l k :
  Forall (fun b => is_lf b = false) l ->
  complete_lines (l ++ LF :: k) = of_bytes (strip_cr l) :: complete_lines k /\
  unfinished (l ++ LF :: k) = unfinished k /\
  completed (l ++ LF :: k) = l ++ LF :: completed k.
Proof.
  intros Hl. unfold complete_lines, unfinished, completed, pop.
  rewrite split_on_app, (split_on_none _ _ Hl) by done.
  destruct (split_on is_lf k) eqn:E; [by apply split_on_ne in E|].
  split_and!; try done. cbn. by rewrite <- app_assoc.
Qed.

(** A text is its complete lines and the rest. *)
Lemma completed_unfinished l : l = completed l ++ unfinished l.
Proof.
  induction l as [l IH] using list_length_ind.
  destruct (text_cases l) as [Hn|(pos & _ & Hlt & Hf & Hl)].
  { by destruct (lines_none l Hn) as (_ & -> & ->). }
  rewrite Hl at 2 3. destruct (lines_cons _ (drop (S pos) l) Hf) as (_ & -> & ->).
  rewrite <- app_assoc. cbn [app]. rewrite <- IH by (rewrite length_drop; lia). done.
Qed.

Lemma no_lf_end l : Forall (fun b => is_lf b = false) l -> ends_with LF l = false.
Proof.
  intros Hn. apply bool_decide_eq_false. intros Hlast%last_Some_elem_of.
  rewrite Forall_forall in Hn. by apply Hn in Hlast.
Qed.

(** A line with its line feed, stripped. *)
Lemma strip_newline_lf l : strip_newline (l ++ [LF]) = strip_cr l.
Proof.
  unfold strip_newline, ends_with, pop, strip_cr. rewrite last_snoc, bool_decide_true by done.
  rewrite length_app, Nat.add_1_r. cbn [pred]. rewrite take_app_length.
  destruct (last l) as [b|]; [|done].
  destruct (bool_decide_reflect (b = CR)) as [->|Hb].
  - by rewrite bool_decide_true.
  - rewrite bool_decide_false; [done|congruence].
Qed.

Lemma read_line_lf l k err :
  Forall (fun b => is_lf b = false) l ->
  read_line {| r_data := l ++ LF :: k; r_error := err |}
    = if utf8_valid l then Ok (l ++ [LF], {| r_data := k; r_error := err |}) else Err invalid_utf8.
Proof.
  intros Hl. unfold read_line. cbn [r_data r_error]. rewrite position_app_mid by done.
  rewrite (cons_middle LF l k), app_assoc.
  rewrite take_app_length', drop_app_length' by (rewrite length_app; cbn; lia).
  unfold check_utf8. rewrite utf8_valid_lf, andb_true_r. by destruct (utf8_valid l).
Qed.

Lemma read_line_tail l :
  Forall (fun b => is_lf b = false) l ->
  read_line {| r_data := l; r_error := None |}
    = if utf8_valid l then Ok (l, {| r_data := []; r_error := None |}) else Err invalid_utf8.
Proof.
  intros Hl. unfold read_line. cbn. rewrite (proj2 (position_None _ _) Hl).
  unfold check_utf8. by destruct (utf8_valid l).
Qed.

Definition last_n {A} (n : nat) (l : list A) : list A := drop (length l - n) l.

Lemma push_window_last n (l : list string) x :
  push_window n (last_n n l) x = last_n n (l ++ [x]).
Proof.
  unfold push_window, last_n. rewrite length_drop, length_app. cbn [length].
  destruct n as [|n].
  { rewrite !Nat.sub_0_r. cbn. destruct (Nat.eqb_spec (length l - length l) 0); [|lia].
    rewrite drop_drop. rewrite !drop_ge; [done|rewrite length_app; cbn; lia|lia]. }
  cbn [Nat.ltb Nat.leb]. destruct (Nat.eqb_spec (length l - (length l - S n)) (S n)).
  - rewrite drop_drop. rewrite drop_app_le by lia. do 2 f_equal. lia.
  - replace (length l - S n) with 0 by lia. replace (length l + 1 - S n) with 0 by lia. done.
Qed.

Lemma tail_loop_spec fuel data n (seen : list string) :
  length data < fuel ->
  tail_loop fuel {| r_data := data; r_error := None |} n (last_n n seen)
    = Some (if utf8_valid data then Ok (last_n n (seen ++ lines_of data)) else Err invalid_utf8).
Proof.
  revert data seen. induction fuel as [|fuel IH]; intros data seen Hf; [lia|]. cbn [tail_loop].
  destruct (text_cases data) as [Hn|(pos & _ & Hlt & Hl & Hd)].
  - rewrite read_line_tail by done. unfold lines_of. destruct (lines_none data Hn) as (-> & -> & _).
    destruct (utf8_valid data) eqn:Hv; [|done].
    destruct data as [|b data]; [cbn; by rewrite app_nil_r|].
    rewrite bool_decide_false by done. rewrite push_window_last.
    destruct fuel; [cbn in Hf; lia|]. cbn. do 4 f_equal. cbn. unfold strip_newline.
    by rewrite no_lf_end.
  - set (l := take pos data) in *. set (k := drop (S pos) data) in *.
    assert (length k < length data) by (unfold k; rewrite length_drop; lia).
    rewrite Hd, read_line_lf, utf8_valid_lf by done.
    destruct (utf8_valid l); cbn [andb]; [|done].
    destruct (l ++ [LF]) as [|b0 l0] eqn:E; [by destruct l|]. rewrite <- E.
    rewrite strip_newline_lf, push_window_last, IH by lia.
    unfold lines_of. destruct (lines_cons l k Hl) as (-> & -> & _).
    by rewrite <- !app_assoc.
Qed.

Lemma read_new_spec fuel pos data :
  length data < fuel -> utf8_valid (completed data) = true ->
  read_new fuel pos {| r_data := data; r_error := None |}
    = (complete_lines data, (pos + Z.of_nat (length (completed data)))%Z,
       if utf8_valid (unfinished data) then None else Some invalid_utf8).
Proof.
  revert pos data. induction fuel as [|fuel IH]; intros pos data Hf Hv; [lia|]. cbn [read_new].
  destruct (text_cases data) as [Hn|(p & _ & Hlt & Hl & Hd)].
  - rewrite read_line_tail by done. destruct (lines_none data Hn) as (-> & -> & ->).
    rewrite Z.add_0_r. destruct (utf8_valid data); [|done].
    case_bool_decide; [done|]. by rewrite no_lf_end.
  - set (l := take p data) in *. set (k := drop (S p) data) in *.
    assert (Hk : length k < length data) by (unfold k; rewrite length_drop; lia).
    destruct (lines_cons l k Hl) as (Hc & Hu & Hb). rewrite Hd in Hv |- *. rewrite Hc, Hu, Hb in *.
    rewrite utf8_valid_lf in Hv. apply andb_true_iff in Hv as [Hv1 Hv2].
    rewrite read_line_lf, Hv1 by done. rewrite bool_decide_false by (by destruct l).
    assert (ends_with LF (l ++ [LF]) = true) as -> by (unfold ends_with; by rewrite last_snoc).
    cbn [negb]. rewrite IH by (done || lia). rewrite strip_newline_lf. do 2 f_equal.
    rewrite !length_app. cbn. lia.
Qed.

Lemma lines_app a b :
  complete_lines (a ++ b) = complete_lines a ++ complete_lines (unfinished a ++ b) /\
  unfinished (a ++ b) = unfinished (unfinished a ++ b) /\
  completed (a ++ b) = completed a ++ completed (unfinished a ++ b).
Proof.
  induction a as [a IH] using list_length_ind.
  destruct (text_cases a) as [Hn|(pos & _ & Hlt & Hf & Ha)].
  { by destruct (lines_none a Hn) as (-> & -> & ->). }
  set (l := take pos a) in *. set (k := drop (S pos) a) in *.
  assert (Hk : length k < length a) by (unfold k; rewrite length_drop; lia).
  rewrite Ha, <- app_assoc. cbn [app].
  destruct (lines_cons l (k ++ b) Hf) as (-> & -> & ->), (lines_cons l k Hf) as (-> & -> & ->).
  destruct (IH k Hk) as (-> & -> & ->). by rewrite <- app_assoc.
Qed.

Lemma utf8_valid_completed a k :
  utf8_valid (completed a ++ k) = utf8_valid (completed a) && utf8_valid k.
Proof.
  induction a as [a IH] using list_length_ind.
  destruct (text_cases a) as [Hn|(pos & _ & Hlt & Hf & Ha)].
  { by destruct (lines_none a Hn) as (_ & _ & ->). }
  rewrite Ha. destruct (lines_cons _ (drop (S pos) a) Hf) as (_ & _ & ->).
  rewrite <- app_assoc. cbn [app]. rewrite !utf8_valid_lf, IH by (rewrite length_drop; lia).
  by rewrite andb_assoc.
Qed.

(** Contents that only grow, and what a poll sees of one. *)
Fixpoint growing (c : list byte) (cs : list (list byte)) : Prop :=
  match cs with
  | [] => True
  | c' :: cs' => c `prefix_of` c' /\ growing c' cs'
  end.
Definition observe (c : list byte) : Poll :=
  {| stop := false; len := Some (Z.of_nat (length c));
     file := Ok {| r_data := c; r_error := None |} |}.

(** One poll after [t] was seen, [d] being new since. *)
Lemma follow_poll base t d polls :
  utf8_valid (t ++ d) = true ->
  follow_loop (Z.of_nat (length base + length (completed t))) (observe (base ++ t ++ d) :: polls)
    = let '(lines, res) := follow_loop (Z.of_nat (length base + length (completed (t ++ d)))) polls in
      (complete_lines (unfinished t ++ d) ++ lines, res).
Proof.
  intros Hv. destruct (lines_app t d) as (_ & _ & ->).
  assert (Ht : base ++ t ++ d = base ++ completed t ++ unfinished t ++ d).
  { rewrite (completed_unfinished t) at 1. by rewrite <- app_assoc. }
  rewrite (completed_unfinished t), <- app_assoc, utf8_valid_completed in Hv.
  apply andb_true_iff in Hv as [_ Hv]. rewrite Ht. set (u := unfinished t ++ d) in *.
  cbn [follow_loop observe stop len file].
  rewrite !length_app. rewrite (proj2 (Z.ltb_ge _ _)) by lia.
  destruct (Z.eqb_spec (Z.of_nat (length base + (length (completed t) + length u)))
    (Z.of_nat (length base + length (completed t)))) as [Hu|_].
  { assert (u = []) as -> by (destruct u; [done|cbn in Hu; lia]). cbn.
    rewrite Nat.add_0_r. by destruct (follow_loop _ polls). }
  unfold seek. cbn [r_data r_error]. rewrite Nat2Z.id.
  rewrite app_assoc, drop_app_length' by (by rewrite length_app).
  rewrite (completed_unfinished u), utf8_valid_completed in Hv.
  apply andb_true_iff in Hv as [Hv1 Hv2].
  rewrite read_new_spec, Hv2 by (done || lia).
  replace (Z.of_nat (length base + length (completed t)) + Z.of_nat (length (completed u)))%Z
    with (Z.of_nat (length base + (length (completed t) + length (completed u)))) by lia.
  done.
Qed.

Lemma follow_growing base cs t :
  growing (base ++ t) cs -> Forall (fun c => utf8_valid (drop (length base) c) = true) cs ->
  let t' := drop (length base) (default (base ++ t) (last cs)) in
  exists lines,
    follow_loop (Z.of_nat (length base + length (completed t))) (observe <$> cs)
      = (lines, inl (Z.of_nat (length base + length (completed t')))) /\
    complete_lines t' = complete_lines t ++ lines.
Proof.
  revert t. induction cs as [|c cs IH]; intros t Hg Hv t'.
  { exists []. unfold t'. cbn. rewrite drop_app_length. by rewrite app_nil_r. }
  destruct Hg as [[d ->] Hg]. apply Forall_cons in Hv as [Hv Hvs].
  rewrite <- app_assoc, drop_app_length in Hv. rewrite <- app_assoc in Hg.
  destruct (IH (t ++ d) Hg Hvs) as (lines & Hf & Hl).
  assert (Ht' : t' = drop (length base) (default (base ++ t ++ d) (last cs))).
  { unfold t'. rewrite last_cons. destruct (last cs); cbn; [done|by rewrite <- app_assoc]. }
  rewrite <- Ht' in Hf, Hl. rewrite fmap_cons, <- app_assoc, follow_poll, Hf by done.
  eexists. split; [done|]. rewrite Hl. destruct (lines_app t d) as (-> & _). by rewrite app_assoc.
Qed.

(** ** Properties *)

(** C29: [last_n_lines] returns exactly the last [n] lines of the input, oldest
    first, without their line ends and with an unterminated last line included,
    for every [n]; input that is not UTF-8 is an error. *)
Theorem last_n_lines_spec data n :
  last_n_lines {| r_data := data; r_error := None |} n
    = if utf8_valid data
      then Ok (drop (length (lines_of data) - n) (lines_of data))
      else Err invalid_utf8.
Proof.
  unfold last_n_lines. cbn [r_data].
  rewrite (tail_loop_spec _ data n []) by lia. done.
Qed.

(** C30: following a file that only grows reports every line completed after the
    start exactly once and in order, however the growth falls between the
    polls, and an unfinished line stays unreported until its line feed
    arrives. *)
Theorem follow_appended base cs :
  growing base cs ->
  Forall (fun c => utf8_valid (drop (length base) c) = true) cs ->
  let new := drop (length base) (default base (last cs)) in
  follow (Ok (Z.of_nat (length base))) (observe <$> cs)
    = (complete_lines new, inl (Z.of_nat (length base + length (completed new)))).
Proof.
  intros Hg Hv new. destruct (follow_growing base cs []) as (lines & Hf & Hl).
  - by rewrite app_nil_r.
  - done.
  - rewrite app_nil_r in Hf, Hl. cbn in Hl. fold new in Hf, Hl. rewrite Hl.
    cbn [completed length] in Hf. rewrite Nat.add_0_r in Hf. done.
Qed.

Lemma follow_appended_witness :
  follow (Ok 6%Z) (observe <$> [as_bytes "first" ++ [LF] ++ as_bytes "sec";
                                as_bytes "first" ++ [LF] ++ as_bytes "second" ++ [LF] ++ as_bytes "th"])
  = (["second"], inl 13%Z).
Proof.
  refine (eq_trans (follow_appended (as_bytes "first" ++ [LF]) _ _ _) _).
  - split; [by exists (as_bytes "sec")|]. split; [by exists (as_bytes "ond" ++ [LF] ++ as_bytes "th")|done].
  - repeat (apply List.Forall_cons; [vm_compute; reflexivity|]). apply List.Forall_nil.
  - vm_compute. reflexivity.
Defined.

(** A poll that finds a character only half written gives up instead of
    leaving the unfinished line for the next poll: the new complete lines are
    reported and then the decoding error ends the loop. *)
Theorem follow_split_character base new polls :
  utf8_valid (completed new) = true -> utf8_valid (unfinished new) = false ->
  follow (Ok (Z.of_nat (length base))) (observe (base ++ new) :: polls)
    = (complete_lines new, inr (Err invalid_utf8)).
Proof.
  intros Hv Hu. cbn [follow follow_loop observe stop len file].
  assert (new <> []) by (by intros ->). rewrite length_app.
  rewrite (proj2 (Z.ltb_ge _ _)) by lia.
  destruct (Z.eqb_spec (Z.of_nat (length base + length new)) (Z.of_nat (length base))) as [He|_].
  { destruct new; [done|]. cbn in He. lia. }
  unfold seek. cbn [r_data r_error]. rewrite Nat2Z.id, drop_app_length.
  rewrite read_new_spec, Hu by (done || lia). done.
Qed.

Lemma follow_split_character_witness :
  follow (Ok 0%Z) [observe (as_bytes "a" ++ [LF; "195"%char]);
                   observe (as_bytes "a" ++ [LF; "195"%char; "169"%char; LF])]
  = (["a"], inr (Err invalid_utf8)).
Proof.
  apply (follow_split_character [] (as_bytes "a" ++ [LF; "195"%char]));
    vm_compute; reflexivity.
Defined.
