(* ===== verification/Fs.v ===== *)
(** * The file system

    [std::fs] and [tokio::fs] act on the host: an interface. Every access goes
    through the record kept here, so that which paths a routine touches can be
    stated. *)

From S2P Require Import Prelude Trace.
From stdpp Require Import options.
Set Default Proof Using "Type*".

Abbreviation path := (list byte).

(** [modified] in seconds since the epoch; [None] when it is not available or
    lies before it. *)
Record Metadata := {
  md_is_dir : bool;
  md_is_file : bool;
  md_len : Z;
  md_modified : option Z;
}.

(** A directory entry as it is listed: the name, and the outcome of asking for
    its metadata; or the error of reading the entry. *)
Abbreviation listed := (result (list byte * result Metadata)).

Class FileSystem (F : Type) := {
  fs_metadata : path -> M F Metadata;
  (** [Ok None]: the directory does not exist *)
  fs_read_dir : path -> M F (option (list listed));
  fs_read : path -> M F (list byte);
  fs_write : path -> list byte -> M F unit;
  fs_create_dir_all : path -> M F unit;
  fs_rename : path -> path -> M F unit;
  fs_remove_file : path -> M F unit;
  fs_remove_dir_all : path -> M F unit;
}.

(** What was accessed: read, or changed. *)
Inductive access :=
| AMetadata (p : path) | AReadDir (p : path) | ARead (p : path)
| AWrite (p : path) | ACreateDirAll (p : path) | ARename (p q : path)
| ARemoveFile (p : path) | ARemoveDirAll (p : path)
| AWalk (p : path) | AUnpack (p : path).

Definition access_paths (a : access) : list path :=
  match a with
  | AMetadata p | AReadDir p | ARead p | AWrite p | ACreateDirAll p
  | ARemoveFile p | ARemoveDirAll p | AWalk p | AUnpack p => [p]
  | ARename p q => [p; q]
  end.

Record FsState (F : Type) := { disk : F; accesses : list access }.
Arguments disk {F} _.
Arguments accesses {F} _.

Section fs.
Context {F : Type} `{FileSystem F}.

Definition access_fs {A} (a : access) (m : M F A) : M (FsState F) A := fun s =>
  let '(d, r) := m (disk s) in ({| disk := d; accesses := accesses s ++ [a] |}, r).

Definition metadata (p : path) := access_fs (AMetadata p) (fs_metadata p).
Definition read_dir (p : path) := access_fs (AReadDir p) (fs_read_dir p).
Definition read (p : path) := access_fs (ARead p) (fs_read p).
Definition write (p : path) (bytes : list byte) := access_fs (AWrite p) (fs_write p bytes).
Definition create_dir_all (p : path) := access_fs (ACreateDirAll p) (fs_create_dir_all p).
Definition rename (p q : path) := access_fs (ARename p q) (fs_rename p q).
Definition remove_file (p : path) := access_fs (ARemoveFile p) (fs_remove_file p).
Definition remove_dir_all (p : path) := access_fs (ARemoveDirAll p) (fs_remove_dir_all p).

Lemma issues_access {A} (a : access) (m : M F A) :
  issues accesses (access_fs a m) (fun cs _ => cs = [a]).
Proof.
  intros s. unfold access_fs. destruct (m (disk s)) as [d r]. eexists. cbn. done.
Qed.
End fs.

(** What the daemon relies on of the host's files: a file that was written has
    those bytes and that length. *)
Class FsLaws {F} (FS : FileSystem F) := {
  law_write_read p bytes d d' :
    fs_write p bytes d = (d', Ok tt) ->
    exists d'', fs_read p d' = (d'', Ok bytes);
  law_write_metadata p bytes d d' :
    fs_write p bytes d = (d', Ok tt) ->
    exists md, fs_metadata p d' = (d', Ok md) /\ md_len md = Z.of_nat (length bytes);
}.
