(* ===== verification/Backup.v ===== *)
(** * Backups (skyperf-core/src/backup.rs)

    The crates [tar] and [zstd] are an interface: packing a directory, listing
    the entries of an archive, unpacking one entry at a path. *)

From S2P Require Import Prelude Trace RustStr Paths Fs.
From stdpp Require Import options.
Set Default Proof Using "Type*".

(** An archive entry: its path, as [Entry::path] reads it, and the rest. *)
Record Entry := { entry_path : result path; entry_body : list byte }.

Class Archive (F : Type) := {
  (** [append_dir_all] into a zstd encoder: the bytes that were written, and
      whether it came to the end *)
  tar_zst : path -> F -> F * (list byte * result unit);
  (** the entries in order; an error where the archive cannot be read on *)
  untar_zst : list byte -> result (list (result Entry));
  unpack : Entry -> path -> M F unit;
}.

Section backup.
Context {F : Type} `{FileSystem F} `{Archive F}.
Abbreviation S := (FsState F).

Definition pack (src : path) : M S (list byte * result unit) := fun s =>
  let '(d, r) := tar_zst src (disk s) in
  ({| disk := d; accesses := accesses s ++ [AWalk src] |}, Ok r).

(** [File::create] empties the file before anything is packed; what a failed run
    wrote stays there. *)
Definition create_backup (src_dir dest_path : path) : M S Z :=
  md ← mtry (metadata src_dir);
  if negb match md with Ok md => md_is_dir md | Err _ => false end then
    lift (Err ("source directory not found: " +:+ from_utf8_lossy src_dir))
  else
    _ ← write dest_path [];
    '(bytes, outcome) ← pack src_dir;
    _ ← write dest_path bytes;
    _ ← lift outcome;
    md ← metadata dest_path;
    mret (md_len md).

Fixpoint restore_loop (dest_dir : path) (entries : list (result Entry)) : M S unit :=
  match entries with
  | [] => mret tt
  | entry_result :: entries' =>
      entry ← lift entry_result;
      rel_path ← lift (entry_path entry);
      if negb (is_safe_relative_path rel_path) then restore_loop dest_dir entries'
      else
        let target := join dest_dir rel_path in
        _ ← access_fs (AUnpack target) (unpack entry target);
        restore_loop dest_dir entries'
  end.

Definition restore_backup (archive_path dest_dir : path) : M S unit :=
  in_file ← read archive_path;
  _ ← create_dir_all dest_dir;
  entries ← lift (untar_zst in_file);
  restore_loop dest_dir entries.

(** ** Lemmas *)

(** The paths of the entries that are extracted: those before the first
    unreadable one that pass the guard. *)
Fixpoint safe_paths (entries : list (result Entry)) : list path :=
  match entries with
  | Ok {| entry_path := Ok p |} :: entries' =>
      if is_safe_relative_path p then p :: safe_paths entries' else safe_paths entries'
  | _ => []
  end.
Definition readable (entries : list (result Entry)) : bool :=
  forallb (fun e => match e with Ok e => is_ok (entry_path e) | Err _ => false end) entries.

Lemma issues_restore_loop dest entries :
  issues accesses (restore_loop dest entries) (fun cs r =>
    exists done, cs = (AUnpack ∘ join dest) <$> done /\ done `prefix_of` safe_paths entries /\
      (r = Ok tt -> done = safe_paths entries /\ readable entries = true)).
Proof.
  induction entries as [|[[[p|e] b]|e] entries IH]; cbn [restore_loop].
  - eapply issues_mono; [apply issues_ret|]. intros cs r [-> ->]. by exists [].
  - rewrite bind_lift_ok. cbn [entry_path]. rewrite bind_lift_ok. cbn [safe_paths].
    change (readable (Ok {| entry_path := Ok p; entry_body := b |} :: entries)) with (readable entries).
    destruct (is_safe_relative_path p) eqn:Hp; cbn [negb]; [|exact IH].
    eapply issues_mono.
    { eapply issues_bind; [apply issues_access|]. intros ?. apply IH. }
    intros cs r (cs1 & [[]|e] & -> & Hr).
    + destruct Hr as (cs2 & -> & ps & -> & Hpre & Hok). exists (p :: ps).
      split_and!; [done|by apply prefix_cons|]. naive_solver.
    + destruct Hr as [-> ->]. exists [p]. split_and!; [done|by apply prefix_cons, prefix_nil|done].
  - intros s. exists []. cbn. rewrite app_nil_r. split; [done|]. by exists [].
  - intros s. exists []. cbn. rewrite app_nil_r. split; [done|]. by exists [].
Qed.

Lemma safe_paths_below dest entries p :
  dest <> [] -> p ∈ safe_paths entries -> below dest (join dest p).
Proof.
  intros Hd. induction entries as [|[[[q|e] b]|e] entries IH]; cbn; [set_solver| |set_solver|set_solver].
  destruct (is_safe_relative_path q) eqn:Hq; [|done].
  intros [->|?]%elem_of_cons; [|auto]. unfold is_safe_relative_path in Hq.
  apply andb_true_iff in Hq as [_ Hq]. by apply join_below.
Qed.

Lemma issues_restore archive dest :
  issues accesses (restore_backup archive dest) (fun cs r =>
    exists tail, cs = [ARead archive] ++ tail /\
    (tail = [] /\ (forall u, r <> Ok u) \/
     exists targets, tail = ACreateDirAll dest :: (AUnpack ∘ join dest <$> targets) /\
       (dest <> [] -> Forall (fun p => below dest (join dest p)) targets))).
Proof.
  unfold restore_backup. eapply issues_mono.
  { eapply issues_bind; [apply issues_access|]. intros ?.
    eapply issues_bind; [apply issues_access|]. intros ?.
    eapply issues_bind; [apply issues_lift|]. intros ?. apply issues_restore_loop. }
  intros cs r (cs1 & [bytes|e] & -> & Hr).
  2: { destruct Hr as [-> ->]. exists []. split; [done|]. by left. }
  destruct Hr as (cs2 & -> & cs3 & [[]|e] & -> & Hr).
  2: { destruct Hr as [-> ->]. exists [ACreateDirAll dest]. split; [done|]. right. exists [].
       split; [done|]. constructor. }
  destruct Hr as (cs4 & -> & cs5 & [entries|e] & [-> ?] & Hr).
  2: { destruct Hr as [-> ->]. exists [ACreateDirAll dest]. split; [done|]. right. exists [].
       split; [done|]. constructor. }
  destruct Hr as (cs6 & -> & targets & -> & Hpre & _). eexists. split; [done|]. right.
  exists targets. split; [done|]. intros Hd. apply Forall_forall. intros p Hp.
  eapply safe_paths_below; [done|]. eapply elem_of_prefix; [exact Hp|exact Hpre].
Qed.

(** ** Properties *)


(** [create_backup] packs only an existing directory; it touches no path but
    the source it walks and the archive it writes, and the size it reports is
    the archive's. *)
Theorem create_backup_accesses src dest (s : S) :
  let '(s', r) := create_backup src dest s in
  exists cs, accesses s' = accesses s ++ cs /\
    cs `prefix_of` [AMetadata src; AWrite dest; AWalk src; AWrite dest; AMetadata dest] /\
    (is_ok r = true -> length cs = 5) /\
    ((forall d md, fs_metadata src (disk s) <> (d, Ok md) \/ md_is_dir md = false) ->
     cs = [AMetadata src] /\ is_ok r = false).
Proof.
  unfold create_backup, metadata, write, pack, access_fs. run.
  destruct (fs_metadata src (disk s)) as [d1 [md|e]] eqn:Hmd; cbn.
  2: { eexists. split; [done|]. split; [by apply prefix_cons, prefix_nil|done]. }
  destruct (md_is_dir md) eqn:Hdir; cbn.
  2: { eexists. split; [done|]. split; [by apply prefix_cons, prefix_nil|done]. }
  assert (Hex : (forall d md', (d1, Ok md) <> (d, Ok md') \/ md_is_dir md' = false) -> False).
  { intros Hn. destruct (Hn d1 md); congruence. }
  destruct (fs_write dest [] d1) as [d2 [[]|e]]; cbn; rewrite <- ?app_assoc.
  2: { eexists. split; [done|]. split; [by repeat apply prefix_cons; apply prefix_nil|naive_solver]. }
  destruct (tar_zst src d2) as [d3 [bytes outcome]]; cbn; rewrite <- ?app_assoc.
  destruct (fs_write dest bytes d3) as [d4 [[]|e]]; cbn; rewrite <- ?app_assoc.
  2: { eexists. split; [done|]. split; [by repeat apply prefix_cons; apply prefix_nil|naive_solver]. }
  destruct outcome as [[]|e]; cbn; rewrite <- ?app_assoc.
  2: { eexists. split; [done|]. split; [by repeat apply prefix_cons; apply prefix_nil|naive_solver]. }
  destruct (fs_metadata dest d4) as [d5 [md'|e]]; cbn; rewrite <- ?app_assoc;
    (eexists; split; [done|]; split; [done|]; naive_solver).
Qed.
End backup.
