(* ===== verification/MemFs.v ===== *)
(** * A file system in memory

    An executable stand-in for the host's files and for the archive crates,
    which satisfies the laws assumed of them; the witnesses run on it. *)

From S2P Require Import Prelude RustStr Paths Fs Backup.
From stdpp Require Import options.

Inductive node := Dir | File (bytes : list byte).
Abbreviation memfs := (gmap path node).

Definition not_found : string := "No such file or directory (os error 2)".

Definition node_metadata (n : node) : Metadata :=
  match n with
  | Dir => {| md_is_dir := true; md_is_file := false; md_len := 4096; md_modified := Some 1700000000%Z |}
  | File b => {| md_is_dir := false; md_is_file := true; md_len := Z.of_nat (length b);
                 md_modified := Some 1700000000%Z |}
  end.

(** The name of [q] in the directory [p], if it is directly there. *)
Definition name_in (p q : path) : option path :=
  let w := p ++ [sep] in
  if bool_decide (w `prefix_of` q) then
    let name := drop (length w) q in
    if bool_decide (sep ∈ name) then None else Some name
  else None.

(** A path names the same file with slashes at its end. *)
Fixpoint drop_slashes (r : path) : path :=
  match r with c :: r' => if bool_decide (c = sep) then drop_slashes r' else r | [] => [] end.
Definition norm (p : path) : path :=
  match drop_slashes (reverse p) with [] => p | r => reverse r end.

(** [q] is [p] or lies somewhere below it. *)
Definition under (p q : path) : bool := bool_decide (q = p \/ (p ++ [sep]) `prefix_of` q).

(** [p] and the directories it lies in. *)
Fixpoint ancestors (fuel : nat) (p : path) : list path :=
  match fuel with
  | 0 => []
  | S fuel' => p :: match parent p with Some q => ancestors fuel' q | None => [] end
  end.
Definition make_dirs (p : path) (d : memfs) : memfs :=
  foldr (fun q d => <[q := Dir]> d) d (ancestors (length p) p).
Definition is_file_at (d : memfs) (p : path) : bool :=
  match d !! p with Some (File _) => true | _ => false end.

Global Instance mem_fs : FileSystem memfs := {|
  fs_metadata := fun p d => (d, ok_or not_found (node_metadata <$> d !! norm p));
  fs_read_dir := fun p d => let p := norm p in
    (d, match d !! p with
        | Some Dir => Ok (Some (omap (fun qn : path * node =>
                            (fun name => Ok (name, Ok (node_metadata qn.2))) <$> name_in p qn.1)
                          (map_to_list d)))
        | Some (File _) => Err "Not a directory (os error 20)"
        | None => Ok None
        end);
  fs_read := fun p d =>
    (d, match d !! norm p with Some (File b) => Ok b | Some Dir => Err "is a directory" | None => Err not_found end);
  fs_write := fun p b d => let p := norm p in
    match d !! p with Some Dir => (d, Err "is a directory") | _ => (<[p := File b]> d, Ok tt) end;
  fs_create_dir_all := fun p d => let p := norm p in
    if existsb (is_file_at d) (ancestors (length p) p) then (d, Err "exists") else (make_dirs p d, Ok tt);
  fs_rename := fun p q d => let p := norm p in let q := norm q in
    match d !! p with
    | Some _ => (list_to_map ((fun xn : path * node =>
                   (if under p xn.1 then q ++ drop (length p) xn.1 else xn.1, xn.2)) <$> map_to_list d), Ok tt)
    | None => (d, Err not_found)
    end;
  fs_remove_file := fun p d => let p := norm p in
    match d !! p with Some (File _) => (delete p d, Ok tt) | _ => (d, Err not_found) end;
  fs_remove_dir_all := fun p d => let p := norm p in
    (filter (fun qn : path * node => under p qn.1 = false) d, Ok tt);
|}.

Global Instance mem_fs_laws : FsLaws mem_fs.
Proof.
  split; cbn; intros p bytes d d'.
  - destruct (d !! norm p) as [[|b]|]; intros; simplify_eq; eexists; by rewrite lookup_insert_eq.
  - destruct (d !! norm p) as [[|b]|]; intros; simplify_eq; eexists; by rewrite lookup_insert_eq.
Qed.

(** Archives as lists of lines [name=content]; unpacking writes the content. *)
Definition lf : byte := "010"%char.
Definition eq_sign : byte := "="%char.
Definition is_lf_byte (b : byte) : bool := bool_decide (b = lf).
Definition is_eq_byte (b : byte) : bool := bool_decide (b = eq_sign).

Global Instance mem_archive : Archive memfs := {|
  tar_zst := fun src d =>
    (d, (concat (omap (fun qn : path * node =>
           match qn.2 with
           | File b => if under src qn.1
                       then Some (drop (S (length src)) qn.1 ++ [eq_sign] ++ b ++ [lf]) else None
           | Dir => None
           end) (map_to_list d)), Ok tt));
  untar_zst := fun bytes =>
    Ok (omap (fun line => match split_on is_eq_byte line with
                          | [name; content] => Some (Ok {| entry_path := Ok name; entry_body := content |})
                          | _ => None
                          end) (split_on is_lf_byte bytes));
  unpack := fun e target d =>
    fs_write target (entry_body e) match parent target with Some q => make_dirs q d | None => d end;
|}.

Definition sample_disk : memfs :=
  <[as_bytes "/b/evil.tar.zst" := File (as_bytes "../x=pwned" ++ [lf] ++ as_bytes "ok.txt=fine")]>
  (<[as_bytes "/v/s1" := Dir]> ∅).

