(* ===== verification/Dirsize.v ===== *)
(** * Directory sizes (skyperf-core/src/dirsize.rs)

    The crate [walkdir] is an interface: the entries of a walk that does not
    follow links, in order. *)

From S2P Require Import Prelude Fs.
From stdpp Require Import options.

(** An entry's [file_type().is_file()] and what [metadata()] returns. *)
Record WalkEntry := { we_is_file : bool; we_metadata : result Metadata }.

Class WalkDir (F : Type) := {
  symlink_metadata : path -> F -> result Metadata;
  walk_dir : path -> F -> list (result WalkEntry);
}.

(** The loop; [None] is the overflow panic of a checked build. *)
Fixpoint size_loop (p : profile) (total : Z) (entries : list (result WalkEntry)) : option (result Z) :=
  match entries with
  | [] => Some (Ok total)
  | Err e :: _ => Some (Err e)
  | Ok entry :: entries' =>
      if we_is_file entry then
        match we_metadata entry with
        | Err e => Some (Err e)
        | Ok md => total ← arith_u64 p (total + md_len md); size_loop p total entries'
        end
      else size_loop p total entries'
  end.

Definition compute_dir_size {F} `{WalkDir F} (p : profile) (dir : path) (d : F) : option (result Z) :=
  match symlink_metadata dir d with
  | Err e => Some (Err e)
  | Ok _ => size_loop p 0 (walk_dir dir d)
  end.

(** ** Specification *)

(** A directory tree: regular files with their sizes, links and other special
    files, directories. *)
Inductive tree :=
| TFile (size : Z)
| TSpecial (md : Metadata)
| TDir (md : Metadata) (children : list tree).

Fixpoint tree_size (t : tree) : Z :=
  match t with
  | TFile n => n
  | TSpecial _ => 0
  | TDir _ ts => fold_right Z.add 0%Z (map tree_size ts)
  end.

Definition file_entry (n : Z) : WalkEntry :=
  {| we_is_file := true;
     we_metadata := Ok {| md_is_dir := false; md_is_file := true; md_len := n; md_modified := None |} |}.

(** The walk of a tree: every entry once, a directory before its children. A
    link is an entry of its own and is not entered. *)
Fixpoint walk_tree (t : tree) : list WalkEntry :=
  match t with
  | TFile n => [file_entry n]
  | TSpecial md => [{| we_is_file := false; we_metadata := Ok md |}]
  | TDir md ts => {| we_is_file := false; we_metadata := Ok md |} :: concat (map walk_tree ts)
  end.

Fixpoint sizes_ok (t : tree) : bool :=
  match t with
  | TFile n => (0 <=? n)%Z
  | TSpecial _ => true
  | TDir _ ts => forallb sizes_ok ts
  end.

(** ** Lemmas *)

Definition entry_size (e : WalkEntry) : Z :=
  if we_is_file e then match we_metadata e with Ok md => md_len md | Err _ => 0 end else 0.
Definition entries_size (es : list WalkEntry) : Z := fold_right Z.add 0%Z (map entry_size es).

Lemma entries_size_app es fs : entries_size (es ++ fs) = (entries_size es + entries_size fs)%Z.
Proof. induction es as [|e es IH]; cbn in *; [done|]. unfold entries_size in *. cbn. lia. Qed.

Lemma entries_size_cons e es : entries_size (e :: es) = (entry_size e + entries_size es)%Z.
Proof. done. Qed.

Definition well (e : WalkEntry) : Prop :=
  is_ok (we_metadata e) = true /\ (0 <= entry_size e)%Z.

Section tree_rect.
Variable P : tree -> Prop.
Hypothesis HF : forall n, P (TFile n).
Hypothesis HS : forall md, P (TSpecial md).
Hypothesis HD : forall md ts, Forall P ts -> P (TDir md ts).
Fixpoint tree_ind' (t : tree) : P t :=
  match t with
  | TFile n => HF n
  | TSpecial md => HS md
  | TDir md ts =>
      HD md ts ((fix all ts := match ts return Forall P ts with
                               | [] => @List.Forall_nil _ P
                               | t :: ts => @List.Forall_cons _ P t ts (tree_ind' t) (all ts)
                               end) ts)
  end.
End tree_rect.

Lemma walk_tree_size t : sizes_ok t = true ->
  entries_size (walk_tree t) = tree_size t /\ Forall well (walk_tree t).
Proof.
  induction t as [n|md|md ts IH] using tree_ind'; cbn [sizes_ok walk_tree tree_size].
  - intros Hn. unfold entries_size. cbn. split; [lia|]. repeat constructor. cbn. lia.
  - intros _. by repeat constructor.
  - intros Hs. rewrite entries_size_cons, Z.add_0_l, Forall_cons.
    induction IH as [|t ts Ht _ IHts]; [by repeat constructor|].
    cbn [forallb map concat fold_right] in Hs |- *. apply andb_true_iff in Hs as [H1 H2].
    destruct (Ht H1) as [Hz Hw], (IHts H2) as (Hz' & He & Hw').
    rewrite entries_size_app, Hz, Hz'. split_and!; [done|done|]. by apply Forall_app.
Qed.

Lemma size_loop_sum p total es :
  (0 <= total <= u64_max)%Z -> Forall well es ->
  size_loop p total (map Ok es)
    = if bool_decide (total + entries_size es <= u64_max)%Z then Some (Ok (total + entries_size es)%Z)
      else match p with
           | Checked => None
           | Wrapping => Some (Ok (wrap_u64 (total + entries_size es)))
           end.
Proof.
  intros Ht Hw. revert total Ht.
  assert (Hpos : forall l, Forall well l -> (0 <= entries_size l)%Z).
  { unfold entries_size. induction 1 as [|x l [_ Hx] _ IHl]; cbn; [lia|lia]. }
  induction Hw as [|e es [Hok Hpos1] Hes IH]; intros total Ht.
  { cbn. rewrite Z.add_0_r, bool_decide_true by lia. done. }
  specialize (Hpos es Hes). cbn [map size_loop].
  rewrite entries_size_cons.
  unfold entry_size in *. destruct (we_is_file e); [|by rewrite Z.add_0_l, IH].
  destruct (we_metadata e) as [md|]; [|done]. unfold arith_u64.
  case_bool_decide as Hfit; cbn [mbind option_bind].
  { rewrite IH by lia. by rewrite Z.add_assoc. }
  rewrite bool_decide_false by lia.
  destruct p; cbn; [done|].
  assert (Hwr : (0 <= wrap_u64 (total + md_len md) <= u64_max)%Z).
  { unfold wrap_u64, u64_max. pose proof (Z.mod_pos_bound (total + md_len md) (2 ^ 64)). lia. }
  rewrite IH by done.
  assert (Heq : wrap_u64 (wrap_u64 (total + md_len md) + entries_size es)
    = wrap_u64 (total + (md_len md + entries_size es))).
  { unfold wrap_u64. rewrite Z.add_assoc, Zplus_mod_idemp_l. done. }
  case_bool_decide as Hle; [|by rewrite Heq].
  rewrite <- Heq, (wrap_u64_id (_ + entries_size es)); [done|]. unfold in_u64. lia.
Qed.

(** ** Properties *)

(** C39: [compute_dir_size] is the sum of the sizes of the regular files in the
    tree, links neither followed nor counted, whenever that sum fits a [u64];
    beyond that a checked build panics and a release build wraps around. *)
Theorem compute_dir_size_spec {F} `{WalkDir F} p dir (d : F) md t :
  symlink_metadata dir d = Ok md -> walk_dir dir d = map Ok (walk_tree t) -> sizes_ok t = true ->
  compute_dir_size p dir d
    = if bool_decide (tree_size t <= u64_max)%Z then Some (Ok (tree_size t))
      else match p with Checked => None | Wrapping => Some (Ok (wrap_u64 (tree_size t))) end.
Proof.
  intros Hm Hw Hs. unfold compute_dir_size. rewrite Hm, Hw.
  destruct (walk_tree_size t Hs) as [Hz Hf]. rewrite size_loop_sum; [|done|done].
  by rewrite Hz, Z.add_0_l.
Qed.

Definition dir_md : Metadata :=
  {| md_is_dir := true; md_is_file := false; md_len := 4096; md_modified := None |}.
Definition sample_tree : tree :=
  TDir dir_md [TFile 5; TSpecial dir_md; TDir dir_md [TFile 10; TFile 3]].
Global Instance tree_walk : WalkDir tree :=
  {| symlink_metadata := fun _ _ => Ok dir_md; walk_dir := fun _ t => map Ok (walk_tree t) |}.

Lemma compute_dir_size_spec_witness :
  compute_dir_size Checked (as_bytes "/srv") sample_tree = Some (Ok 18%Z).
Proof.
  exact (compute_dir_size_spec Checked (as_bytes "/srv") sample_tree dir_md sample_tree
    eq_refl eq_refl eq_refl).
Defined.
