(* ===== verification/Dispatcher.v ===== *)
(** * The command dispatcher (daemon/src/agent/dispatcher.rs)

    Commands run against a container runtime, the host's files and a database
    server, all of them interfaces. One [handle] call is one step of the state
    below; how several calls and the console tasks they leave behind interleave
    is the subject of Concurrent and Pool. *)

From S2P Require Import Prelude RustStr Paths Json Payloads Runtime Db Fs Backup Stats.
From stdpp Require Import options.
Set Default Proof Using "Type*".

(** The crate [base64]'s standard engine. *)
Class Base64 := {
  b64_encode : list byte -> string;
  b64_decode : string -> option (list byte);
}.
Class Base64Laws `{Base64} := { b64_roundtrip bs : b64_decode (b64_encode bs) = Some bs }.

Definition MAX_FILE_BYTES : Z := (10 * 1024 * 1024)%Z.

(** An [Arc<ActiveConsole>]: which one it is, and its stdin. *)
Record ActiveConsole := { ac_id : nat; ac_stdin : nat }.

(** A spawned console task: the server, the console it was started for, and the
    receiver it drains. *)
Record PumpTask := { pt_server_id : string; pt_console : nat; pt_output : nat }.

(** The fields of the dispatcher that never change. *)
Record Dispatcher := {
  volumes_root : string;
  backups_root : string;
  db : option DbAdmin;
}.

(** Everything a command may change. [events] is what was sent to [events_tx]
    while its receiver was there. *)
Record World (R F Q : Type) := {
  w_rt : R;
  w_fs : FsState F;
  w_db : SqlState Q;
  tracked : gmap string string;
  consoles : gmap string ActiveConsole;
  events : list EventPayload;
  events_open : bool;
  pumps : list PumpTask;
  next_console : nat;
}.
Arguments w_rt {R F Q} _.
Arguments w_fs {R F Q} _.
Arguments w_db {R F Q} _.
Arguments tracked {R F Q} _.
Arguments consoles {R F Q} _.
Arguments events {R F Q} _.
Arguments events_open {R F Q} _.
Arguments pumps {R F Q} _.
Arguments next_console {R F Q} _.

Section dispatcher.
Context {R F Q : Type}.
Abbreviation W := (World R F Q).

(** ** Field updates *)

Definition set_rt (r : R) (w : W) : W :=
  {| w_rt := r; w_fs := w_fs w; w_db := w_db w; tracked := tracked w; consoles := consoles w;
     events := events w; events_open := events_open w; pumps := pumps w;
     next_console := next_console w |}.
Definition set_fs (f : FsState F) (w : W) : W :=
  {| w_rt := w_rt w; w_fs := f; w_db := w_db w; tracked := tracked w; consoles := consoles w;
     events := events w; events_open := events_open w; pumps := pumps w;
     next_console := next_console w |}.
Definition set_db_state (q : SqlState Q) (w : W) : W :=
  {| w_rt := w_rt w; w_fs := w_fs w; w_db := q; tracked := tracked w; consoles := consoles w;
     events := events w; events_open := events_open w; pumps := pumps w;
     next_console := next_console w |}.
Definition set_tracked (t : gmap string string) (w : W) : W :=
  {| w_rt := w_rt w; w_fs := w_fs w; w_db := w_db w; tracked := t; consoles := consoles w;
     events := events w; events_open := events_open w; pumps := pumps w;
     next_console := next_console w |}.
Definition set_consoles (c : gmap string ActiveConsole) (w : W) : W :=
  {| w_rt := w_rt w; w_fs := w_fs w; w_db := w_db w; tracked := tracked w; consoles := c;
     events := events w; events_open := events_open w; pumps := pumps w;
     next_console := next_console w |}.
Definition push_event (e : EventPayload) (w : W) : W :=
  {| w_rt := w_rt w; w_fs := w_fs w; w_db := w_db w; tracked := tracked w; consoles := consoles w;
     events := if events_open w then events w ++ [e] else events w;
     events_open := events_open w; pumps := pumps w; next_console := next_console w |}.
Definition spawn_pump (sid : string) (output : nat) (w : W) : W :=
  {| w_rt := w_rt w; w_fs := w_fs w; w_db := w_db w; tracked := tracked w; consoles := consoles w;
     events := events w; events_open := events_open w;
     pumps := pumps w ++ [{| pt_server_id := sid; pt_console := next_console w; pt_output := output |}];
     next_console := S (next_console w) |}.

Definition on_rt {A} (m : M R A) : M W A := fun w =>
  let '(r, x) := m (w_rt w) in (set_rt r w, x).
Definition on_fs {A} (m : M (FsState F) A) : M W A := fun w =>
  let '(f, x) := m (w_fs w) in (set_fs f w, x).
Definition on_db {A} (m : M (SqlState Q) A) : M W A := fun w =>
  let '(q, x) := m (w_db w) in (set_db_state q w, x).

(** ** Tracking *)

Definition track (server_id container_id : string) : M W unit :=
  modify (fun w => set_tracked (<[server_id := container_id]> (tracked w)) w).
Definition untrack (server_id : string) : M W unit :=
  modify (fun w => set_tracked (delete server_id (tracked w)) w).

Definition container_for (cmd : CommandPayload) : M W string :=
  match cmd_container_id cmd with
  | Some id => mret id
  | None =>
      t ← gets tracked;
      lift (ok_or ("no known container for server " +:+ cmd_server_id cmd) (t !! cmd_server_id cmd))
  end.

(** ** Events *)

Definition emit (server_id : string) (kind : EventKind) (message : string) : M W unit :=
  modify (push_event {| ev_server_id := server_id; ev_kind := kind; ev_message := message |}).
Definition emit_state_changed (server_id state : string) : M W unit := emit server_id StateChanged state.
Definition emit_console (server_id message : string) : M W unit := emit server_id ConsoleLine message.
Definition emit_backup_event (server_id : string) (kind : EventKind) (message : string) : M W unit :=
  emit server_id kind message.

Context `{ContainerRuntime R} `{FileSystem F} `{Archive F} `{MariaDb Q} `{Base64}.
Variable d : Dispatcher.

(** ** Consoles *)

Definition start_console_stream (server_id container_id : string) : M W unit :=
  cs ← gets consoles;
  match cs !! server_id with
  | Some _ => mret tt
  | None =>
      console ← mtry (on_rt (rt_attach container_id));
      match console with
      | Err _ => mret tt
      | Ok console => modify (fun w =>
          spawn_pump server_id (con_output console)
            (set_consoles (<[server_id := {| ac_id := next_console w;
                                             ac_stdin := con_stdin console |}]> (consoles w)) w))
      end
  end.

(** One turn of a spawned console task; [None] once it has ended. *)
Definition pump_turn (t : PumpTask) (w : W) : W * option PumpTask :=
  let '(r, x) := console_recv (pt_output t) (w_rt w) in
  let w := set_rt r w in
  match x with
  | Pending => (w, Some t)
  | Line line =>
      let w' := push_event {| ev_server_id := pt_server_id t; ev_kind := ConsoleLine;
                              ev_message := line |} w in
      if events_open w then (w', Some t)
      else (set_consoles (delete (pt_server_id t) (consoles w)) w, None)
  | Closed => (set_consoles (delete (pt_server_id t) (consoles w)) w, None)
  end.

(** ** Files *)

Definition file_entry (e : listed) : result FileEntry :=
  '(name, md) ← context "read directory entry" e;
  md ← context "read entry metadata" md;
  Ok {| fe_name := from_utf8_lossy name; fe_is_dir := md_is_dir md; fe_size_bytes := md_len md |}.

(** The loop over the entries stops at the first error. *)
Fixpoint collect {A B} (f : A -> result B) (l : list A) : result (list B) :=
  match l with
  | [] => Ok []
  | a :: l' => b ← f a; bs ← collect f l'; Ok (b :: bs)
  end.

Definition list_files (dir : path) : M (FsState F) (list FileEntry) :=
  entries ← mcontext "list files" (read_dir dir);
  entries ← lift (ok_or "list files" entries);
  lift (collect file_entry entries).

Definition too_large (n : Z) : string :=
  "file is too large for the command channel (" +:+ pretty n +:+ " bytes, max "
  +:+ pretty MAX_FILE_BYTES +:+ ")".

Definition read_file (p : path) : M (FsState F) ReadFileResult :=
  md ← mcontext "stat file" (metadata p);
  if (MAX_FILE_BYTES <? md_len md)%Z then lift (Err (too_large (md_len md))) else
  bytes ← mcontext "read file" (read p);
  mret {| rf_content_base64 := b64_encode bytes; rf_size_bytes := Z.of_nat (length bytes) |}.

Definition write_file (p : path) (content_base64 : string) : M (FsState F) unit :=
  bytes ← lift (ok_or "decode base64 content" (b64_decode content_base64));
  if (MAX_FILE_BYTES <? Z.of_nat (length bytes))%Z
  then lift (Err (too_large (Z.of_nat (length bytes)))) else
  _ ← match parent p with
      | Some dir => mcontext "create parent directory" (create_dir_all dir)
      | None => mret tt
      end;
  mcontext "write file" (write p bytes).

Definition delete_path (p : path) : M (FsState F) unit :=
  md ← mcontext "stat path" (metadata p);
  if md_is_dir md then mcontext "delete directory" (remove_dir_all p)
  else mcontext "delete file" (remove_file p).

(** ** Backups *)

Definition volume (server_id : string) : path := join (as_bytes (volumes_root d)) (as_bytes server_id).
Definition backups_of (server_id : string) : path := backups_dir (backups_root d) server_id.

Definition backup_filename (secs : Z) : string := "backup-" +:+ pretty secs +:+ ".tar.zst".

(** [now] is the wall clock in seconds, 0 before the epoch. *)
Definition create_backup (now : Z) (server_id : string) : M (FsState F) BackupResult :=
  let src := volume server_id in
  let dir := backups_of server_id in
  _ ← mcontext "create backups directory" (create_dir_all dir);
  let filename := backup_filename now in
  let dest := join dir (as_bytes filename) in
  size_bytes ← mcontext "create backup archive" (Backup.create_backup src dest);
  mret {| br_filename := filename; br_size_bytes := size_bytes |}.

(** The loop of [list_backups]: regular files only. *)
Fixpoint backup_entries (l : list listed) : result (list BackupEntry) :=
  match l with
  | [] => Ok []
  | e :: l' =>
      '(name, md) ← context "read backup entry" e;
      md ← context "stat backup" md;
      if negb (md_is_file md) then backup_entries l' else
      bs ← backup_entries l';
      Ok ({| be_filename := from_utf8_lossy name; be_size_bytes := md_len md;
             be_created_at := default 0%Z (md_modified md) |} :: bs)
  end.

(** [sort_by_key] with a reversed key: stable, largest first. *)
Fixpoint insert_newest (b : BackupEntry) (l : list BackupEntry) : list BackupEntry :=
  match l with
  | [] => [b]
  | c :: l' => if (be_created_at c <=? be_created_at b)%Z then b :: l else c :: insert_newest b l'
  end.
Definition sort_newest (l : list BackupEntry) : list BackupEntry := fold_right insert_newest [] l.

Definition list_backups (server_id : string) : M (FsState F) (list BackupEntry) :=
  entries ← mcontext "list backups" (read_dir (backups_of server_id));
  match entries with
  | None => mret []
  | Some entries => bs ← lift (backup_entries entries); mret (sort_newest bs)
  end.

Definition restore_backup (server_id name : string) : M (FsState F) unit :=
  archive ← lift (backup_path (backups_root d) server_id name);
  mcontext "restore backup archive" (Backup.restore_backup archive (volume server_id)).

Definition delete_backup (server_id name : string) : M (FsState F) unit :=
  archive ← lift (backup_path (backups_root d) server_id name);
  mcontext "delete backup archive" (remove_file archive).

Definition resolve (server_id rel : string) : result path := resolve_path (volumes_root d) server_id rel.

(** ** [handle_inner] and [handle] *)

Definition handle_inner (now : Z) (cmd : CommandPayload) : M W (option json) :=
  let sid := cmd_server_id cmd in
  match cmd_action cmd with
  | Create =>
      spec ← lift (ok_or "create command missing spec" (cmd_spec cmd));
      id ← on_rt (rt_create spec);
      _ ← track sid id;
      mret None
  | PullImage =>
      image ← lift (ok_or "pull_image command missing image" (cmd_image cmd));
      _ ← emit_console sid ("[sky] pulling image " +:+ image +:+ "…");
      _ ← on_rt (rt_pull image);
      _ ← emit_console sid "[sky] image ready";
      mret None
  | Start =>
      id ← container_for cmd;
      _ ← on_rt (rt_start id);
      _ ← track sid id;
      _ ← emit_state_changed sid "running";
      _ ← start_console_stream sid id;
      mret None
  | Stop =>
      id ← container_for cmd;
      _ ← on_rt (rt_stop id 15);
      _ ← emit_state_changed sid "offline";
      mret None
  | Kill =>
      id ← container_for cmd;
      _ ← on_rt (rt_kill id);
      _ ← emit_state_changed sid "offline";
      mret None
  | Remove =>
      id ← container_for cmd;
      _ ← on_rt (rt_remove id);
      _ ← untrack sid;
      _ ← modify (fun w => set_consoles (delete sid (consoles w)) w);
      mret None
  | ConsoleInput =>
      input ← lift (ok_or "console_input command missing input" (cmd_input cmd));
      cs ← gets consoles;
      console ← lift (ok_or ("no active console session for server " +:+ sid) (cs !! sid));
      _ ← on_rt (console_write (ac_stdin console) (as_bytes input));
      _ ← on_rt (console_write (ac_stdin console) ["010"%char]);
      mret None
  | ListFiles =>
      dir ← lift (resolve sid (default "" (cmd_path cmd)));
      entries ← on_fs (list_files dir);
      mret (Some (to_value (enc_list_files {| lf_entries := entries |})))
  | ReadFile =>
      rel ← lift (ok_or "read_file missing path" (cmd_path cmd));
      p ← lift (resolve sid rel);
      r ← on_fs (read_file p);
      mret (Some (to_value (enc_read_file r)))
  | WriteFile =>
      rel ← lift (ok_or "write_file missing path" (cmd_path cmd));
      p ← lift (resolve sid rel);
      content ← lift (ok_or "write_file missing content" (cmd_content_base64 cmd));
      _ ← on_fs (write_file p content);
      mret None
  | RenameFile =>
      rel ← lift (ok_or "rename_file missing path" (cmd_path cmd));
      from ← lift (resolve sid rel);
      rel' ← lift (ok_or "rename_file missing new_path" (cmd_new_path cmd));
      to ← lift (resolve sid rel');
      _ ← on_fs (mcontext "rename file" (rename from to));
      mret None
  | DeleteFile =>
      rel ← lift (ok_or "delete_file missing path" (cmd_path cmd));
      p ← lift (resolve sid rel);
      _ ← on_fs (delete_path p);
      mret None
  | Mkdir =>
      rel ← lift (ok_or "mkdir missing path" (cmd_path cmd));
      p ← lift (resolve sid rel);
      _ ← on_fs (mcontext "create directory" (create_dir_all p));
      mret None
  | Payloads.Backup =>
      r ← on_fs (create_backup now sid);
      _ ← emit_backup_event sid BackupDone (br_filename r);
      mret (Some (to_value (enc_backup r)))
  | ListBackups =>
      bs ← on_fs (list_backups sid);
      mret (Some (to_value (enc_list_backups {| lb_backups := bs |})))
  | RestoreBackup =>
      name ← lift (ok_or "restore_backup missing path" (cmd_path cmd));
      _ ← on_fs (restore_backup sid name);
      mret None
  | DeleteBackup =>
      name ← lift (ok_or "delete_backup missing path" (cmd_path cmd));
      _ ← on_fs (delete_backup sid name);
      mret None
  | CreateDatabase =>
      admin ← lift (ok_or "databases are not configured on this node" (db d));
      name ← lift (ok_or "create_database missing database_name" (cmd_database_name cmd));
      user ← lift (ok_or "create_database missing database_user" (cmd_database_user cmd));
      password ← lift (ok_or "create_database missing database_password" (cmd_database_password cmd));
      _ ← on_db (create_database name user password);
      mret (Some (to_value (enc_create_database
        {| cd_host := public_host admin; cd_port := public_port admin |})))
  | DeleteDatabase =>
      admin ← lift (ok_or "databases are not configured on this node" (db d));
      name ← lift (ok_or "delete_database missing database_name" (cmd_database_name cmd));
      user ← lift (ok_or "delete_database missing database_user" (cmd_database_user cmd));
      _ ← on_db (delete_database name user);
      mret None
  end.

Definition handle (now : Z) (cmd : CommandPayload) (w : W) : W * AckPayload :=
  let '(w', r) := handle_inner now cmd w in
  (w', match r with
       | Ok result => {| ack_command_id := cmd_command_id cmd; ack_ok := true;
                         ack_error := None; ack_result := result |}
       | Err err => {| ack_command_id := cmd_command_id cmd; ack_ok := false;
                       ack_error := Some err; ack_result := None |}
       end).

(** ** [reconcile] and [heartbeat] *)

(** [entry(server_id).or_insert_with(...)] for each container found. *)
Definition or_insert (t : gmap string string) (mc : ManagedContainer) : gmap string string :=
  match t !! mc_server_id mc with
  | Some _ => t
  | None => <[mc_server_id mc := mc_container_id mc]> t
  end.

Definition reconcile : M W unit :=
  found ← mtry (on_rt rt_list_managed);
  match found with
  | Ok found => modify (fun w => set_tracked (foldl or_insert (tracked w) found) w)
  | Err _ => mret tt
  end.

(** One container of the snapshot; [None] when it does not report. *)
Definition heartbeat_one (kv : string * string) : M W (option ContainerHeartbeat) :=
  state ← mtry (on_rt (rt_inspect kv.2));
  match state with
  | Err _ => mret None
  | Ok state =>
      let idle := {| hb_server_id := kv.1; hb_running := cs_running state;
                     hb_cpu_percent := Float64.f64_zero; hb_mem_used_bytes := 0;
                     hb_mem_limit_bytes := 0; hb_net_rx_bytes := 0; hb_net_tx_bytes := 0 |} in
      if cs_running state then
        stats ← mtry (on_rt (rt_stats kv.2));
        mret (Some match stats with
                   | Ok st => {| hb_server_id := kv.1; hb_running := cs_running state;
                                 hb_cpu_percent := st_cpu_percent st;
                                 hb_mem_used_bytes := st_mem_used_bytes st;
                                 hb_mem_limit_bytes := st_mem_limit_bytes st;
                                 hb_net_rx_bytes := st_net_rx_bytes st;
                                 hb_net_tx_bytes := st_net_tx_bytes st |}
                   | Err _ => idle
                   end)
      else mret (Some idle)
  end.

Fixpoint heartbeat_loop (snapshot : list (string * string)) (containers : list ContainerHeartbeat)
    : M W (list ContainerHeartbeat) :=
  match snapshot with
  | [] => mret containers
  | kv :: snapshot' =>
      hb ← heartbeat_one kv;
      heartbeat_loop snapshot' match hb with Some hb => containers ++ [hb] | None => containers end
  end.

Definition heartbeat : M W HeartbeatPayload :=
  t ← gets tracked;
  containers ← heartbeat_loop (map_to_list t) [];
  mret {| hb_containers := containers |}.
End dispatcher.

(** [Dispatcher::new], [set_db] and [database_enabled]. *)
Definition dispatcher_new (volumes_root backups_root : string) : Dispatcher :=
  {| volumes_root := volumes_root; backups_root := backups_root; db := None |}.
Definition set_db (admin : DbAdmin) (d : Dispatcher) : Dispatcher :=
  {| volumes_root := volumes_root d; backups_root := backups_root d; db := Some admin |}.
Definition database_enabled (d : Dispatcher) : bool :=
  match db d with Some _ => true | None => false end.
Definition world_new {R F Q} (rt : R) (fs : F) (q : Q) : World R F Q :=
  {| w_rt := rt; w_fs := {| disk := fs; accesses := [] |};
     w_db := {| server := q; queries := [] |};
     tracked := ∅; consoles := ∅; events := []; events_open := true; pumps := []; next_console := 0 |}.
