(* ===== verification/ToyNode.v ===== *)
(** * A node in memory

    A dispatcher over the in-memory runtime, the in-memory file system and the
    small database server, with which the witnesses of the dispatcher's and the
    session's theorems run commands. *)

From S2P Require Import Prelude RustStr Payloads Runtime FakeRuntime Db Fs Backup MemFs.
From S2P Require Import Dispatcher.
From stdpp Require Import options.

Module Toy.
(** Texts that stand for themselves. *)
Global Instance base64 : Base64 := {|
  b64_encode := of_bytes;
  b64_decode := fun s => Some (as_bytes s);
|}.
Global Instance base64_laws : Base64Laws.
Proof. split. intros bs. cbn. by rewrite as_of_bytes. Qed.

Global Instance runtime : ContainerRuntime FakeState := fake_runtime sample_uuid.
Global Instance runtime_laws : RuntimeLaws runtime := fake_laws sample_uuid.
Global Instance runtime_types : RuntimeTypes runtime := fake_types sample_uuid.

Definition node : Dispatcher := dispatcher_new "/v" "/b".
Abbreviation state := (World FakeState memfs ToyDb.state).
Definition disk : memfs :=
  <[as_bytes "/b/s1/old" := File (as_bytes "x=1")]>
  (<[as_bytes "/b/s1" := Dir]> (<[as_bytes "/v/s1" := Dir]> sample_disk)).
Definition start : state := world_new Fake.new disk (∅, false).

Definition command (a : Action) (sid : string) (path content : option string) : CommandPayload :=
  {| cmd_command_id := "c"; cmd_action := a; cmd_server_id := sid; cmd_container_id := None;
     cmd_spec := Some default_spec; cmd_image := None; cmd_input := path; cmd_path := path;
     cmd_new_path := None; cmd_content_base64 := content; cmd_database_name := None;
     cmd_database_user := None; cmd_database_password := None |}.
End Toy.
