(* ===== verification/DispatcherSpec.v ===== *)
(** * What the dispatcher guarantees

    Theorems about the definitions of Dispatcher: acknowledgements, which files
    a command may touch, which parts of the node a command leaves alone, the
    server-to-container map, heartbeats, files and backups. *)

From S2P Require Import Prelude Trace RustStr Paths Json Payloads Runtime FakeRuntime Db Fs.
From S2P Require Import Backup MemFs Stats Dispatcher ToyNode.
From stdpp Require Import options.
Set Default Proof Using "Type*".

(** ** Paths below a server's directories *)

Lemma resolve_below d sid rel p :
  volumes_root d <> "" -> resolve d sid rel = Ok p -> below (volume d sid) p.
Proof.
  intros Hv. unfold resolve, resolve_path. case_match eqn:Hp; [|done]. intros [= <-].
  apply join_below; [|done]. by apply join_ne, as_bytes_ne.
Qed.

Lemma backup_path_below d sid name p :
  backups_root d <> "" -> backup_path (backups_root d) sid name = Ok p -> below (backups_of d sid) p.
Proof.
  intros Hb. unfold backup_path. repeat (case_match; try done). intros [= <-].
  apply join_below; [by apply join_ne, as_bytes_ne|]. by rewrite H.
Qed.

(** One plain file name. *)
Lemma plain_name l :
  Forall (fun b => is_sep b = false) l -> parse_piece l = Some (Normal l) ->
  forallb plain_component (components l) = true.
Proof.
  intros Hs Hp. unfold components, body, leading, pieces. rewrite split_on_none by done.
  assert (Hr : has_root l = false) by (destruct Hs; done). rewrite Hr.
  change (omap parse_piece [l]) with (match parse_piece l with Some c => [c] | None => [] end).
  rewrite Hp. by destruct l as [|[[] [] [] [] [] [] [] []] [|]].
Qed.

Lemma backup_filename_plain z : forallb plain_component (components (as_bytes (backup_filename z))) = true.
Proof.
  apply plain_name; [|done]. unfold backup_filename. rewrite !as_bytes_app.
  apply Forall_app; split; [by repeat constructor|]. apply Forall_app; split; [|by repeat constructor].
  apply pretty_Z_chars; [|done]. intros b Hb. unfold is_sep. apply bool_decide_eq_false. by intros ->.
Qed.

Lemma below_refl p : below p p.
Proof. exists []. by rewrite app_nil_r. Qed.

(** What a command of server [sid] may do to the file system: act on paths below
    the server's volume or its backup directory, and create the directory a
    file below the volume is in. *)
Definition allowed (vol bak : path) (a : access) : Prop :=
  match a with
  | ACreateDirAll q => below vol q \/ below bak q \/ exists p, below vol p /\ parent p = Some q
  | _ => Forall (fun p => below vol p \/ below bak p) (access_paths a)
  end.

Section spec.
Context {R F Q : Type} `{ContainerRuntime R} `{FileSystem F} `{Archive F} `{MariaDb Q} `{Base64}.
Variable d : Dispatcher.
Abbreviation W := (World R F Q).

(** ** Framing *)

Lemma keeps_on_rt {A B} (g : W -> B) (m : M R A) :
  (forall r w, g (set_rt r w) = g w) -> keeps g (on_rt m).
Proof. intros Hg w. unfold on_rt. destruct (m (w_rt w)). apply Hg. Qed.
Lemma keeps_on_fs {A B} (g : W -> B) (m : M (FsState F) A) :
  (forall f w, g (set_fs f w) = g w) -> keeps g (on_fs m).
Proof. intros Hg w. unfold on_fs. destruct (m (w_fs w)). apply Hg. Qed.
Lemma keeps_on_db {A B} (g : W -> B) (m : M (SqlState Q) A) :
  (forall q w, g (set_db_state q w) = g w) -> keeps g (on_db m).
Proof. intros Hg w. unfold on_db. destruct (m (w_db w)). apply Hg. Qed.

Lemma keeps_container_for {B} (g : W -> B) cmd : keeps g (container_for cmd).
Proof. unfold container_for. destruct (cmd_container_id cmd); eauto with sky. Qed.

(** Split a routine at its binds and frame each step. *)
Ltac frame :=
  lazymatch goal with
  | |- keeps _ (_ ≫= _) => apply keeps_bind; [frame|intros ?; frame]
  | |- keeps _ (match ?x with _ => _ end) => destruct x; frame
  | |- keeps _ (let _ := _ in _) => cbv zeta; frame
  | |- keeps _ (mret _) => apply keeps_ret
  | |- keeps _ (lift _) => apply keeps_lift
  | |- keeps _ (gets _) => apply keeps_gets
  | |- keeps _ (mtry _) => apply keeps_try; frame
  | |- keeps _ (on_rt _) => apply keeps_on_rt; done
  | |- keeps _ (on_fs _) => apply keeps_on_fs; done
  | |- keeps _ (on_db _) => apply keeps_on_db; done
  | |- keeps _ (container_for _) => apply keeps_container_for
  | |- keeps _ (modify _) => apply keeps_modify; done
  | |- keeps _ (track _ _) => unfold track; frame
  | |- keeps _ (untrack _) => unfold untrack; frame
  | |- keeps _ (emit _ _ _) => unfold emit; frame
  | |- keeps _ (emit_console _ _) => unfold emit_console; frame
  | |- keeps _ (emit_state_changed _ _) => unfold emit_state_changed; frame
  | |- keeps _ (emit_backup_event _ _ _) => unfold emit_backup_event; frame
  | |- keeps _ (start_console_stream _ _) => unfold start_console_stream; frame
  end.

(** The three groups of actions. *)
Definition runtime_action (a : Action) : bool :=
  match a with
  | Create | Start | Stop | Kill | Remove | PullImage | ConsoleInput => true
  | _ => false
  end.
Definition db_action (a : Action) : bool :=
  match a with CreateDatabase | DeleteDatabase => true | _ => false end.
Definition fs_action (a : Action) : bool := negb (runtime_action a) && negb (db_action a).

Lemma handle_inner_frame now cmd :
  (runtime_action (cmd_action cmd) = false ->
   keeps (fun w : W => (w_rt w, tracked w, consoles w, pumps w)) (handle_inner d now cmd)) /\
  (fs_action (cmd_action cmd) = false -> keeps (fun w : W => w_fs w) (handle_inner d now cmd)) /\
  (db_action (cmd_action cmd) = false -> keeps (fun w : W => w_db w) (handle_inner d now cmd)).
Proof.
  unfold handle_inner. destruct (cmd_action cmd); split_and!; intros Ha; try done; frame.
Qed.

(** ** Accesses *)

Abbreviation world_accesses := (fun w : W => accesses (w_fs w)).

Lemma all_on_fs {A} (P : access -> Prop) (m : M (FsState F) A) :
  all_calls accesses P m -> all_calls world_accesses P (on_fs m).
Proof.
  intros Hm w. unfold on_fs. destruct (Hm (w_fs w)) as (cs & Hc & Hp). exists cs.
  destruct (m (w_fs w)) as [f r]. done.
Qed.

Lemma all_access {A} (P : access -> Prop) (a : access) (m : M F A) :
  P a -> all_calls accesses P (access_fs a m).
Proof.
  intros Ha. eapply issues_mono; [apply issues_access|]. intros cs r ->. by repeat constructor.
Qed.

Section allowed.
Variable sid : string.
Hypothesis Hvol : volumes_root d <> "".
Hypothesis Hbak : backups_root d <> "".
Abbreviation ok := (allowed (volume d sid) (backups_of d sid)).

Lemma volume_ne : volume d sid <> [].
Proof. by apply join_ne, as_bytes_ne. Qed.
Lemma backups_ne : backups_of d sid <> [].
Proof. by apply join_ne, as_bytes_ne. Qed.

Lemma list_files_allowed p : below (volume d sid) p -> all_calls accesses ok (list_files p).
Proof.
  intros Hp. unfold list_files. apply all_bind.
  - apply all_context, all_access. constructor; [by left|constructor].
  - intros. apply all_lift_bind. intros. apply all_silent, keeps_lift.
Qed.

Lemma read_file_allowed p : below (volume d sid) p -> all_calls accesses ok (read_file p).
Proof.
  intros Hp. unfold read_file. apply all_bind.
  - apply all_context, all_access. constructor; [by left|constructor].
  - intros md. case_match; [apply all_silent, keeps_lift|]. apply all_bind.
    + apply all_context, all_access. constructor; [by left|constructor].
    + intros. apply all_silent, keeps_ret.
Qed.

Lemma write_file_allowed p content :
  below (volume d sid) p -> all_calls accesses ok (write_file p content).
Proof.
  intros Hp. unfold write_file. apply all_lift_bind. intros bytes _.
  case_match; [apply all_silent, keeps_lift|]. apply all_bind.
  - destruct (parent p) as [q|] eqn:Hq; [|apply all_silent, keeps_ret].
    apply all_context, all_access. right; right. eauto.
  - intros. apply all_context, all_access. constructor; [by left|constructor].
Qed.

Lemma delete_path_allowed p : below (volume d sid) p -> all_calls accesses ok (delete_path p).
Proof.
  intros Hp. unfold delete_path. apply all_bind.
  - apply all_context, all_access. constructor; [by left|constructor].
  - intros md. case_match; apply all_context, all_access; (constructor; [by left|constructor]).
Qed.

Lemma list_backups_allowed : all_calls accesses ok (list_backups d sid).
Proof.
  unfold list_backups. apply all_bind.
  - apply all_context, all_access. constructor; [right; apply below_refl|constructor].
  - intros [entries|]; [|apply all_silent, keeps_ret].
    apply all_lift_bind. intros. apply all_silent, keeps_ret.
Qed.

Lemma archive_allowed now :
  all_calls accesses ok (Backup.create_backup (volume d sid) (join (backups_of d sid) (as_bytes (backup_filename now)))).
Proof.
  assert (Hsrc : Forall (fun p => below (volume d sid) p \/ below (backups_of d sid) p) [volume d sid])
    by (constructor; [left; apply below_refl|constructor]).
  assert (Hdest : Forall (fun p => below (volume d sid) p \/ below (backups_of d sid) p)
    [join (backups_of d sid) (as_bytes (backup_filename now))]).
  { constructor; [right|constructor]. apply join_below; [apply backups_ne|apply backup_filename_plain]. }
  unfold Backup.create_backup. apply all_bind.
  { by apply all_try, all_access. }
  intros md. case_match; [apply all_silent, keeps_lift|].
  apply all_bind; [by apply all_access|]. intros _. apply all_bind.
  { intros s. unfold pack. destruct (tar_zst _ (disk s)) as [e r].
    exists [AWalk (volume d sid)]. split; [done|]. by apply Forall_singleton. }
  intros [bytes outcome]. apply all_bind; [by apply all_access|]. intros _.
  apply all_lift_bind. intros _ _. apply all_bind; [by apply all_access|].
  intros. apply all_silent, keeps_ret.
Qed.

Lemma create_backup_allowed now : all_calls accesses ok (create_backup d now sid).
Proof.
  unfold create_backup. apply all_bind.
  { apply all_context, all_access. right; left. apply below_refl. }
  intros _. apply all_bind; [|intros; apply all_silent, keeps_ret].
  apply all_context, archive_allowed.
Qed.

Lemma restore_backup_allowed name : all_calls accesses ok (restore_backup d sid name).
Proof.
  unfold restore_backup. apply all_lift_bind. intros archive Ha.
  apply backup_path_below in Ha; [|done]. apply all_context.
  eapply issues_mono; [apply issues_restore|].
  intros cs r (tail & -> & Ht). constructor; [constructor; [by right|constructor]|].
  destruct Ht as [[-> _]|(targets & -> & Hb)]; [constructor|].
  constructor; [left; apply below_refl|].
  specialize (Hb volume_ne). rewrite Forall_fmap. eapply Forall_impl; [exact Hb|].
  intros p Hp. constructor; [by left|constructor].
Qed.

Lemma delete_backup_allowed name : all_calls accesses ok (delete_backup d sid name).
Proof.
  unfold delete_backup. apply all_lift_bind. intros archive Ha.
  apply backup_path_below in Ha; [|done].
  apply all_context, all_access. constructor; [by right|constructor].
Qed.
End allowed.

(** C4: whatever a command asks for, it acts only on files below its server's
    volume directory and its server's backup directory (and creates the
    directory a written file is in): every path the dispatcher hands to the
    file system, in every action and on every error path, is such a path. *)
Theorem handle_confined now cmd (w : W) :
  volumes_root d <> "" -> backups_root d <> "" ->
  let '(w', _) := handle d now cmd w in
  exists cs, accesses (w_fs w') = accesses (w_fs w) ++ cs /\
    Forall (allowed (volume d (cmd_server_id cmd)) (backups_of d (cmd_server_id cmd))) cs.
Proof.
  intros Hv Hb. set (sid := cmd_server_id cmd).
  set (ok := allowed (volume d sid) (backups_of d sid)).
  cut (all_calls (fun w : W => accesses (w_fs w)) ok (handle_inner d now cmd)).
  { intros Hall. destruct (Hall w) as (cs & Hc & Hp). unfold handle.
    destruct (handle_inner d now cmd w) as [w' r]. eauto. }
  destruct (fs_action (cmd_action cmd)) eqn:Ha.
  2: { apply all_silent. intros w'. by rewrite (proj1 (proj2 (handle_inner_frame now cmd)) Ha w'). }
  assert (Hfs : forall {A} (m : M (FsState F) A) (f : A -> M W (option json)),
    all_calls accesses ok m -> (forall a, keeps (fun w : W => accesses (w_fs w)) (f a)) ->
    all_calls (fun w : W => accesses (w_fs w)) ok (on_fs m ≫= f)).
  { intros A m f Hm Hf. apply all_bind; [by apply all_on_fs|]. intros. apply all_silent, Hf. }
  assert (Hret : forall x, keeps (fun w : W => accesses (w_fs w)) (mret x : M W (option json)))
    by (intros; apply keeps_ret).
  unfold handle_inner. fold sid.
  destruct (cmd_action cmd); try discriminate Ha; repeat (apply all_lift_bind; intros ? ?).
  - apply Hfs; [|done]. apply list_files_allowed; try done; by eapply resolve_below.
  - apply Hfs; [|done]. apply read_file_allowed; try done; by eapply resolve_below.
  - apply Hfs; [|done]. apply write_file_allowed; try done; by eapply resolve_below.
  - apply Hfs; [|done]. apply all_context, all_access.
    constructor; [left; by eapply resolve_below|constructor; [left; by eapply resolve_below|constructor]].
  - apply Hfs; [|done]. apply delete_path_allowed; try done; by eapply resolve_below.
  - apply Hfs; [|done]. apply all_context, all_access. left. by eapply resolve_below.
  - apply Hfs; [by apply create_backup_allowed|]. intros r. frame.
  - apply Hfs; [by apply list_backups_allowed|done].
  - apply Hfs; [by apply restore_backup_allowed|done].
  - apply Hfs; [by apply delete_backup_allowed|done].
Qed.

(** Commands stay in their part of the node. File and backup commands change
    no container, no tracking and no console and send no SQL; database commands
    touch no file and no container; container commands touch no file and no
    database. *)
Theorem handle_separation now cmd (w : W) :
  let '(w', _) := handle d now cmd w in
  (runtime_action (cmd_action cmd) = false ->
   w_rt w' = w_rt w /\ tracked w' = tracked w /\ consoles w' = consoles w /\ pumps w' = pumps w) /\
  (fs_action (cmd_action cmd) = false -> w_fs w' = w_fs w) /\
  (db_action (cmd_action cmd) = false -> w_db w' = w_db w).
Proof.
  destruct (handle_inner_frame now cmd) as (Hr & Hf & Hd). unfold handle.
  specialize (fun E => Hr E w). specialize (fun E => Hf E w). specialize (fun E => Hd E w).
  destruct (handle_inner d now cmd w) as [w' r]. cbn in *. split_and!; try done.
  intros E. specialize (Hr E). by simplify_eq.
Qed.

(** ** Events *)

(** Everything a routine sends to the event channel is in [P]. *)
Abbreviation world_events := (fun w : W => events w).

Lemma all_emit (P : EventPayload -> Prop) sid kind msg :
  P {| ev_server_id := sid; ev_kind := kind; ev_message := msg |} ->
  all_calls world_events P (emit sid kind msg : M W unit).
Proof.
  intros HP w. cbn. destruct (events_open w); [|exists []; by rewrite app_nil_r].
  eexists. split; [done|]. by repeat constructor.
Qed.

Ltac emits :=
  lazymatch goal with
  | |- all_calls _ _ (emit _ _ _ ≫= _) => apply all_bind; [by apply all_emit|intros ?; emits]
  | |- all_calls _ _ (emit_console _ _ ≫= _) => unfold emit_console; emits
  | |- all_calls _ _ (emit_state_changed _ _ ≫= _) => unfold emit_state_changed; emits
  | |- all_calls _ _ (emit_backup_event _ _ _ ≫= _) => unfold emit_backup_event; emits
  | |- all_calls _ _ (_ ≫= _) => apply all_bind; [apply all_silent; frame|intros ?; emits]
  | |- _ => apply all_silent; frame
  end.

(** Every event a command causes directly is about its own server. *)
Lemma handle_inner_events now cmd :
  all_calls world_events (fun e => ev_server_id e = cmd_server_id cmd) (handle_inner d now cmd).
Proof. unfold handle_inner. destruct (cmd_action cmd); cbv zeta; emits. Qed.

(** A heartbeat only calls the runtime. *)
Lemma heartbeat_keeps {B} (g : W -> B) :
  (forall r w, g (set_rt r w) = g w) -> keeps g (heartbeat : M W _).
Proof.
  intros Hg. assert (Hone : forall kv, keeps g (heartbeat_one kv)).
  { intros kv. unfold heartbeat_one. repeat first [apply keeps_on_rt; exact Hg | frame]. }
  unfold heartbeat. apply keeps_bind; [frame|]. intros t. apply keeps_bind; [|intros; frame].
  generalize ([] : list ContainerHeartbeat). induction (map_to_list t) as [|kv l IH]; intros acc;
    cbn [heartbeat_loop]; [frame|]. apply keeps_bind; [apply Hone|]. intros. apply IH.
Qed.

(** ** Tracking *)

(** What a command does to the server-to-container map. *)
Inductive tracking := Same | Set_to (id : string) | Dropped.
Definition apply_tracking (sid : string) (t : tracking) (m : gmap string string) : gmap string string :=
  match t with Same => m | Set_to id => <[sid := id]> m | Dropped => delete sid m end.

Definition named_container (cmd : CommandPayload) (w : W) : option string :=
  match cmd_container_id cmd with
  | Some id => Some id
  | None => tracked w !! cmd_server_id cmd
  end.

Lemma container_for_spec cmd (w : W) :
  container_for cmd w
    = (w, ok_or ("no known container for server " +:+ cmd_server_id cmd) (named_container cmd w)).
Proof.
  unfold container_for, named_container. destruct (cmd_container_id cmd); [done|].
  run. by destruct (tracked w !! _).
Qed.

(** The rest of a routine that only touches other fields. *)
Lemma keeps_tracked_console sid id : keeps (fun w : W => tracked w) (start_console_stream sid id).
Proof. frame. Qed.

Definition tracking_action (a : Action) : bool :=
  match a with Create | Start | Remove => true | _ => false end.

Lemma handle_inner_tracked now cmd :
  tracking_action (cmd_action cmd) = false ->
  keeps (fun w : W => tracked w) (handle_inner d now cmd).
Proof. intros Ha. unfold handle_inner. destruct (cmd_action cmd); try discriminate Ha; frame. Qed.

Lemma start_console_stream_ok sid id (w : W) : (start_console_stream sid id w).2 = Ok tt.
Proof.
  unfold start_console_stream, on_rt. run. destruct (consoles w !! sid); [done|].
  by destruct (rt_attach id (w_rt w)) as [r [c|e]].
Qed.

(** The map from servers to containers changes only on success, and only for
    the command's server: a created container's id is recorded, a started one
    is recorded as the one that was started (also when the panel named it), and
    a removed one is forgotten. No other action changes the map. *)
Theorem handle_tracks now cmd (w : W) :
  let '(w', ack) := handle d now cmd w in
  exists t, tracked w' = apply_tracking (cmd_server_id cmd) t (tracked w) /\
    match cmd_action cmd with
    | Create => if ack_ok ack
                then exists spec id, cmd_spec cmd = Some spec /\
                       (rt_create spec (w_rt w)).2 = Ok id /\ t = Set_to id
                else t = Same
    | Start => if ack_ok ack
               then exists id, named_container cmd w = Some id /\ t = Set_to id
               else t = Same
    | Remove => t = if ack_ok ack then Dropped else Same
    | _ => t = Same
    end.
Proof.
  destruct (tracking_action (cmd_action cmd)) eqn:Ha.
  2: { pose proof (handle_inner_tracked now cmd Ha w) as Hk. unfold handle.
       destruct (handle_inner d now cmd w) as [w' r]. exists Same. split; [done|].
       by destruct (cmd_action cmd). }
  unfold handle, handle_inner. destruct (cmd_action cmd); try discriminate Ha.
  - run. destruct (cmd_spec cmd) as [spec|]; [|by exists Same].
    unfold on_rt. destruct (rt_create spec (w_rt w)) as [r [id|e]] eqn:Hc; [|by exists Same].
    exists (Set_to id). split; [done|]. cbn. exists spec, id. by rewrite Hc.
  - unfold mbind at 1, M_bind at 1. rewrite container_for_spec.
    destruct (named_container cmd w) as [id|]; [|by exists Same]. cbn [ok_or].
    unfold mbind at 1, M_bind at 1. unfold on_rt at 1.
    destruct (rt_start id (w_rt w)) as [r [[]|e]]; [|by exists Same].
    unfold mbind at 1, M_bind at 1. cbn [track modify].
    unfold mbind at 1, M_bind at 1. cbn [emit_state_changed emit modify].
    unfold mbind at 1, M_bind at 1.
    pose proof (keeps_tracked_console (cmd_server_id cmd) id) as Hk.
    match goal with |- context [start_console_stream ?a ?b ?w1] =>
      specialize (Hk w1); pose proof (start_console_stream_ok a b w1) as Hok;
      destruct (start_console_stream a b w1) as [w2 r2] end.
    cbn in Hk, Hok. subst r2. exists (Set_to id). split; [exact Hk|]. cbn. eauto.
  - unfold mbind at 1, M_bind at 1. rewrite container_for_spec.
    destruct (named_container cmd w) as [id|]; [|by exists Same]. cbn [ok_or]. run. unfold on_rt.
    destruct (rt_remove id (w_rt w)) as [r [[]|e]]; [|by exists Same]. by exists Dropped.
Qed.
End spec.

(** ** Heartbeats, against the runtime's promises *)

Section heartbeat.
Context {R F Q : Type} {RT : ContainerRuntime R} {L : RuntimeLaws RT}.
Abbreviation W := (World R F Q).

Definition reported (hb : ContainerHeartbeat) : string * bool := (hb_server_id hb, hb_running hb).

(** The containers of a world, as the runtime knows them. *)
Definition known (w : W) : gmap string bool := containers_of (w_rt w).

Lemma heartbeat_one_spec kv (w : W) :
  exists w' o, heartbeat_one kv w = (w', Ok o) /\ known w' = known w /\ tracked w' = tracked w /\
    reported <$> o = pair kv.1 <$> known w !! kv.2.
Proof.
  unfold heartbeat_one, on_rt. run. unfold known.
  pose proof (law_inspect_frame kv.2 (w_rt w)) as Hf.
  destruct (rt_inspect kv.2 (w_rt w)) as [r [st|e]] eqn:Hi; cbn in *.
  - pose proof (law_inspect _ _ _ _ Hi) as Hr. rewrite Hr.
    destruct (cs_running st) eqn:Hrun.
    + cbn [w_rt set_rt]. pose proof (law_stats_frame kv.2 r) as Hs. destruct (rt_stats kv.2 r) as [r2 [stt|e]]; cbn in *;
        (eexists _, _; split; [reflexivity|]); (split_and!; [cbn; congruence|done|done]).
    + eexists _, _. split; [reflexivity|]. split_and!; [cbn; congruence|done|done].
  - destruct (containers_of (w_rt w) !! kv.2) as [b|] eqn:Hk.
    { destruct (law_inspect_total kv.2 (w_rt w)) as (? & ? & ?); [by eexists|congruence]. }
    eexists _, None. split; [done|]. cbn. done.
Qed.

Lemma heartbeat_loop_spec snapshot acc (w : W) :
  exists w' l, heartbeat_loop snapshot acc w = (w', Ok (acc ++ l)) /\
    known w' = known w /\ tracked w' = tracked w /\
    reported <$> l = omap (fun kv => pair kv.1 <$> known w !! kv.2) snapshot.
Proof.
  revert acc w. induction snapshot as [|kv snapshot IH]; intros acc w; cbn [heartbeat_loop].
  { exists w, []. cbn. by rewrite app_nil_r. }
  destruct (heartbeat_one_spec kv w) as (w1 & o & Ho & Hk & Ht & Hr).
  unfold mbind at 1, M_bind. rewrite Ho.
  destruct (IH match o with Some hb => acc ++ [hb] | None => acc end w1) as (w2 & l & Hl & Hk2 & Ht2 & Hr2).
  exists w2, (option_list o ++ l). rewrite Hl. split_and!.
  - destruct o; cbn; [by rewrite <- app_assoc|done].
  - congruence.
  - congruence.
  - rewrite fmap_app, Hr2, Hk. cbn [omap list_omap]. rewrite <- Hr. by destruct o.
Qed.

Lemma heartbeat_reports (w : W) :
  exists w' hb, heartbeat w = (w', Ok hb) /\ known w' = known w /\ tracked w' = tracked w /\
    reported <$> hb_containers hb
      = omap (fun kv => pair kv.1 <$> known w !! kv.2) (map_to_list (tracked w)).
Proof.
  unfold heartbeat. unfold mbind, M_bind, gets.
  destruct (heartbeat_loop_spec (map_to_list (tracked w)) [] w) as (w' & l & Hl & Hk & Ht & Hr).
  rewrite Hl. cbn. eexists _, _. split; [done|]. done.
Qed.

(** A heartbeat always succeeds and reports exactly the tracked servers whose
    container exists, each once, with the running state the runtime has for
    it; it changes neither the containers nor the tracking. *)
Lemma heartbeat_exact (w : W) :
  exists w' hb, heartbeat w = (w', Ok hb) /\ known w' = known w /\ tracked w' = tracked w /\
    NoDup (hb_server_id <$> hb_containers hb) /\
    forall sid b, (sid, b) ∈ reported <$> hb_containers hb <->
      exists id, tracked w !! sid = Some id /\ known w !! id = Some b.
Proof.
  destruct (heartbeat_reports w) as (w' & hb & Hh & Hk & Ht & Hr).
  exists w', hb. split_and!; [done..| |].
  - assert (Hfst : hb_server_id <$> hb_containers hb = (reported <$> hb_containers hb).*1).
    { rewrite <- list_fmap_compose. done. }
    rewrite Hfst, Hr. pose proof (NoDup_fst_map_to_list (tracked w)) as Hnd.
    revert Hnd. generalize (map_to_list (tracked w)) as l. induction l as [|kv l IH]; intros Hnd; [constructor|].
    rewrite fmap_cons, NoDup_cons in Hnd. destruct Hnd as [Hn Hnd]. cbn [omap list_omap].
    destruct (known w !! kv.2) as [b|]; cbn; [|by apply IH].
    constructor; [|by apply IH]. intros (xy & Heq & Hin)%list_elem_of_fmap.
    apply list_elem_of_omap in Hin as (kv' & Hin & He).
    destruct (known w !! kv'.2); cbn in He; simplify_eq. apply Hn. cbn in Heq. rewrite Heq.
    by apply list_elem_of_fmap_2.
  - intros sid b. rewrite Hr, list_elem_of_omap. split.
    + intros ([k id] & Hin%elem_of_map_to_list & He). cbn in *.
      destruct (known w !! id) eqn:E; cbn in He; simplify_eq. eauto.
    + intros (id & Hid & Hb). exists (sid, id). split; [by apply elem_of_map_to_list|]. cbn. by rewrite Hb.
Qed.

(** *** The life of a server *)

Context `{FileSystem F} `{Archive F} `{MariaDb Q} `{Base64}.
Variable d : Dispatcher.

Definition plain_command (a : Action) (sid : string) (spec : option ContainerSpec) : CommandPayload :=
  {| cmd_command_id := "c"; cmd_action := a; cmd_server_id := sid; cmd_container_id := None;
     cmd_spec := spec; cmd_image := None; cmd_input := None; cmd_path := None; cmd_new_path := None;
     cmd_content_base64 := None; cmd_database_name := None; cmd_database_user := None;
     cmd_database_password := None |}.

(** What the panel sees of [sid]: the tracked container's running state. *)
Definition seen_as (w : W) (sid : string) : option bool := tracked w !! sid ≫= fun id => known w !! id.

Lemma start_console_known sid id (w : W) : known (start_console_stream sid id w).1 = known w.
Proof.
  unfold start_console_stream, on_rt. run. destruct (consoles w !! sid); [done|].
  pose proof (law_attach_frame id (w_rt w)) as Ha. by destruct (rt_attach id (w_rt w)) as [r [c|e]].
Qed.

Lemma handle_create now sid spec (w w' : W) ack :
  handle d now (plain_command Create sid (Some spec)) w = (w', ack) -> ack_ok ack = true ->
  seen_as w' sid = Some false.
Proof.
  unfold handle, handle_inner. cbn [plain_command cmd_action cmd_spec cmd_server_id]. run. unfold on_rt.
  destruct (rt_create spec (w_rt w)) as [r [id|e]] eqn:Hc; intros [= <- <-]; [|done]. intros _.
  unfold seen_as. cbn. rewrite lookup_insert_eq. unfold known. cbn.
  rewrite (law_create _ _ _ _ Hc). by rewrite lookup_insert_eq.
Qed.

Lemma handle_start now sid (w w' : W) ack :
  handle d now (plain_command Start sid None) w = (w', ack) -> ack_ok ack = true ->
  seen_as w' sid = Some true.
Proof.
  unfold handle, handle_inner. cbn [plain_command cmd_action].
  unfold mbind at 1, M_bind at 1. rewrite container_for_spec. cbn [named_container cmd_container_id plain_command].
  destruct (tracked w !! _) as [id|] eqn:Ht; [|intros [= <- <-]; done]. cbn [ok_or].
  unfold mbind at 1, M_bind at 1. unfold on_rt at 1.
  destruct (rt_start id (w_rt w)) as [r [[]|e]] eqn:Hs; [|intros [= <- <-]; done].
  unfold mbind at 1, M_bind at 1. cbn [track modify].
  unfold mbind at 1, M_bind at 1. cbn [emit_state_changed emit modify].
  unfold mbind at 1, M_bind at 1.
  match goal with |- context [start_console_stream ?a ?b ?w1] =>
    pose proof (start_console_known a b w1) as Hk; pose proof (keeps_tracked_console a b w1) as Htr;
    pose proof (start_console_stream_ok a b w1) as Hok;
    destruct (start_console_stream a b w1) as [w2 r2] end.
  cbn in Hk, Htr, Hok. subst r2. intros [= <- <-] _.
  unfold seen_as. rewrite Htr, Hk, lookup_insert_eq. unfold known. cbn.
  destruct (law_start _ _ _ Hs) as [_ ->]. by rewrite lookup_insert_eq.
Qed.

Lemma handle_stop now a sid (w w' : W) ack :
  a = Stop \/ a = Kill ->
  handle d now (plain_command a sid None) w = (w', ack) -> ack_ok ack = true ->
  seen_as w' sid = Some false.
Proof.
  intros Ha. unfold handle, handle_inner. cbn [plain_command cmd_action].
  destruct Ha as [-> | ->]; unfold mbind at 1, M_bind at 1; rewrite container_for_spec;
    cbn [named_container cmd_container_id plain_command cmd_server_id];
    (destruct (tracked w !! sid) as [id|] eqn:Ht; [|intros [= <- <-]; done]); cbn [ok_or]; run;
    unfold on_rt.
  - destruct (rt_stop id 15 (w_rt w)) as [r [[]|e]] eqn:Hs; intros [= <- <-]; [|done]. intros _.
    unfold seen_as. cbn. rewrite Ht. unfold known. cbn.
    destruct (law_stop _ _ _ _ Hs) as [_ ->]. by rewrite lookup_insert_eq.
  - destruct (rt_kill id (w_rt w)) as [r [[]|e]] eqn:Hs; intros [= <- <-]; [|done]. intros _.
    unfold seen_as. cbn. rewrite Ht. unfold known. cbn.
    destruct (law_kill _ _ _ Hs) as [_ ->]. by rewrite lookup_insert_eq.
Qed.

Lemma handle_remove now sid (w w' : W) ack :
  handle d now (plain_command Remove sid None) w = (w', ack) -> ack_ok ack = true ->
  tracked w' !! sid = None /\ consoles w' !! sid = None.
Proof.
  unfold handle, handle_inner. cbn [plain_command cmd_action].
  unfold mbind at 1, M_bind at 1. rewrite container_for_spec.
  cbn [named_container cmd_container_id plain_command cmd_server_id].
  destruct (tracked w !! sid) as [id|] eqn:Ht; [|intros [= <- <-]; done]. cbn [ok_or]. run. unfold on_rt.
  destruct (rt_remove id (w_rt w)) as [r [[]|e]] eqn:Hs; intros [= <- <-]; [|done]. intros _.
  cbn. by rewrite !lookup_delete_eq.
Qed.

End heartbeat.


(** ** Restarts and console input *)

Section reconcile.
Context {R F Q : Type} `{ContainerRuntime R} `{FileSystem F} `{Archive F} `{MariaDb Q} `{Base64}.
Variable d : Dispatcher.
Abbreviation W := (World R F Q).

(** The first container found for [sid]. *)
Definition first_for (sid : string) (found : list ManagedContainer) : option string :=
  mc_container_id <$> head (filter (fun mc => mc_server_id mc = sid) found).

Lemma or_inserts_lookup found t sid :
  foldl or_insert t found !! sid = match t !! sid with Some id => Some id | None => first_for sid found end.
Proof.
  revert t. induction found as [|mc found IH]; intros t; cbn [foldl].
  { unfold first_for. cbn. by destruct (t !! sid). }
  rewrite IH. unfold or_insert, first_for.
  destruct (decide (mc_server_id mc = sid)) as [Hs|Hs].
  - rewrite filter_cons_True by done. rewrite Hs.
    destruct (t !! sid) eqn:Ht; [by rewrite Ht|]. by rewrite lookup_insert_eq.
  - rewrite filter_cons_False by done.
    destruct (t !! mc_server_id mc); [done|]. by rewrite lookup_insert_ne.
Qed.

(** Reconciling after a restart never fails and never overrides what is
    already tracked; every other server gets the first container the runtime
    lists for it, and when the runtime cannot list, nothing changes. *)
Theorem reconcile_spec (w : W) :
  let '(w', r) := reconcile w in
  r = Ok tt /\ events w' = events w /\ consoles w' = consoles w /\
  forall sid, tracked w' !! sid =
    match tracked w !! sid, (rt_list_managed (w_rt w)).2 with
    | Some id, _ => Some id
    | None, Ok found => first_for sid found
    | None, Err _ => None
    end.
Proof.
  unfold reconcile, on_rt. run. destruct (rt_list_managed (w_rt w)) as [r [found|e]]; cbn.
  - split_and!; [done..|]. intros sid. apply or_inserts_lookup.
  - split_and!; [done..|]. intros sid. by destruct (tracked w !! sid).
Qed.

(** Console input reaches exactly the console registered for the command's
    server, as the input's bytes followed by one newline; it is refused, with
    nothing written, when there is no input or no console, and it changes
    nothing but the runtime. *)
Theorem console_input_spec now cmd (w : W) :
  cmd_action cmd = ConsoleInput ->
  let '(w', ack) := handle d now cmd w in
  exists r, w' = set_rt r w /\
  match cmd_input cmd, consoles w !! cmd_server_id cmd with
  | Some input, Some c =>
      let '(r1, x1) := console_write (ac_stdin c) (as_bytes input) (w_rt w) in
      let '(r2, x2) := console_write (ac_stdin c) ["010"%char] r1 in
      if ack_ok ack then x1 = Ok tt /\ x2 = Ok tt /\ r = r2
      else is_ok x1 = false /\ r = r1 \/ is_ok x2 = false /\ r = r2
  | _, _ => ack_ok ack = false /\ r = w_rt w
  end.
Proof.
  intros Ha. unfold handle, handle_inner. rewrite Ha. run.
  assert (Hw : w = set_rt (w_rt w) w) by (by destruct w).
  destruct (cmd_input cmd) as [input|]; [|by exists (w_rt w)].
  destruct (consoles w !! _) as [c|]; [|by exists (w_rt w)]. cbn [ok_or]. unfold on_rt.
  destruct (console_write (ac_stdin c) (as_bytes input) (w_rt w)) as [r1 [[]|e1]]; cbn.
  - destruct (console_write (ac_stdin c) ["010"%char] r1) as [r2 [[]|e2]]; cbn.
    + exists r2. eauto.
    + exists r2. split; [done|]. right. by eauto.
  - exists r1. split; [done|].
    destruct (console_write (ac_stdin c) ["010"%char] r1) as [r2 x2]. left. by eauto.
Qed.
End reconcile.

(** ** Commands on a node in memory *)

Lemma handle_confined_witness :
  let '(w', ack) := handle Toy.node 7 (Toy.command Payloads.Backup "s1" None None) Toy.start in
  ack_ok ack = true /\
  exists cs, accesses (w_fs w') = [] ++ cs /\
    Forall (allowed (as_bytes "/v/s1") (as_bytes "/b/s1")) cs.
Proof.
  assert (Hv : volumes_root Toy.node <> "") by discriminate.
  assert (Hb : backups_root Toy.node <> "") by discriminate.
  pose proof (handle_confined Toy.node 7 (Toy.command Payloads.Backup "s1" None None) Toy.start Hv Hb) as H.
  assert (Hok : ack_ok (handle Toy.node 7 (Toy.command Payloads.Backup "s1" None None) Toy.start).2 = true)
    by (vm_compute; reflexivity).
  destruct (handle Toy.node 7 (Toy.command Payloads.Backup "s1" None None) Toy.start) as [w' ack].
  split; [exact Hok|exact H].
Defined.


Lemma console_input_spec_witness :
  let w1 := (handle Toy.node 7 (Toy.command Create "s1" None None) Toy.start).1 in
  let w2 := (handle Toy.node 7 (Toy.command Start "s1" None None) w1).1 in
  let '(w3, ack) := handle Toy.node 7 (Toy.command ConsoleInput "s1" (Some "say hi") None) w2 in
  ack_ok ack = true /\ Fake.console_writes "c0" (w_rt w3) = ["say hi"; String "010" ""] /\
  exists r, w3 = set_rt r w2.
Proof.
  intros w1 w2.
  pose proof (console_input_spec Toy.node 7 (Toy.command ConsoleInput "s1" (Some "say hi") None) w2
    eq_refl) as H.
  assert (Hok : let '(w3, ack) :=
    handle Toy.node 7 (Toy.command ConsoleInput "s1" (Some "say hi") None) w2 in
    ack_ok ack = true /\ Fake.console_writes "c0" (w_rt w3) = ["say hi"; String "010" ""])
    by (vm_compute; split; reflexivity).
  destruct (handle Toy.node 7 (Toy.command ConsoleInput "s1" (Some "say hi") None) w2) as [w3 ack].
  destruct H as (r & H & _). destruct Hok as [H1 H2].
  split; [exact H1|]. split; [exact H2|]. exists r. exact H.
Defined.
