(* ===== verification/DispatcherFiles.v ===== *)
(** * Files and backups through the dispatcher

    What the file commands read back and in which order backups are listed. *)

From S2P Require Import Prelude Trace RustStr Paths Json Payloads Runtime FakeRuntime Db Fs.
From S2P Require Import Backup MemFs Stats Dispatcher ToyNode.
From stdpp Require Import options.
From Stdlib Require Import Sorting.Sorted.
Set Default Proof Using "Type*".

(** ** Order of the backup list *)

(** Newest first. *)
Definition newer (b c : BackupEntry) : Prop := (be_created_at c <= be_created_at b)%Z.
Definition made_at (t : Z) (b : BackupEntry) : Prop := be_created_at b = t.
Global Instance made_at_dec t b : Decision (made_at t b).
Proof. unfold made_at. apply _. Defined.

Lemma insert_newest_perm b l : insert_newest b l ≡ₚ b :: l.
Proof.
  induction l as [|c l IH]; cbn; [done|]. case_match; [done|].
  rewrite IH. apply Permutation_swap.
Qed.

Lemma insert_newest_sorted b l : StronglySorted newer l -> StronglySorted newer (insert_newest b l).
Proof.
  induction l as [|c l IH]; intros Hs; cbn; [by repeat constructor|].
  inversion Hs as [|? ? Hl Hf]; subst. destruct (_ <=? _)%Z eqn:Hle.
  - apply Z.leb_le in Hle. constructor; [done|]. constructor; [done|].
    eapply Forall_impl; [exact Hf|]. unfold newer. intros ? ?. lia.
  - apply Z.leb_gt in Hle. constructor; [by apply IH|].
    rewrite insert_newest_perm. constructor; [unfold newer; lia|done].
Qed.

Lemma insert_newest_stable t b l :
  filter (made_at t) (insert_newest b l) = filter (made_at t) (b :: l).
Proof.
  induction l as [|c l IH]; cbn [insert_newest]; [done|]. destruct (_ <=? _)%Z eqn:Hle; [done|].
  apply Z.leb_gt in Hle. rewrite filter_cons, IH, !filter_cons.
  destruct (decide (made_at t c)), (decide (made_at t b)); try done. unfold made_at in *. lia.
Qed.

Lemma sort_newest_spec l :
  sort_newest l ≡ₚ l /\ StronglySorted newer (sort_newest l) /\
  forall t, filter (made_at t) (sort_newest l) = filter (made_at t) l.
Proof.
  induction l as [|b l (Hp & Hs & Hf)]; [by repeat constructor|]. cbn [sort_newest fold_right].
  fold (sort_newest l). split_and!.
  - by rewrite insert_newest_perm, Hp.
  - by apply insert_newest_sorted.
  - intros t. rewrite insert_newest_stable, !filter_cons, Hf. done.
Qed.

(** The backups among readable directory entries. *)
Definition readable (e : listed) : Prop := exists name md, e = Ok (name, Ok md).
Definition backup_of (e : listed) : option BackupEntry :=
  match e with
  | Ok (name, Ok md) =>
      if md_is_file md
      then Some {| be_filename := from_utf8_lossy name; be_size_bytes := md_len md;
                   be_created_at := default 0%Z (md_modified md) |}
      else None
  | _ => None
  end.

Lemma backup_entries_spec l :
  (Forall readable l -> backup_entries l = Ok (omap backup_of l)) /\
  (is_ok (backup_entries l) = true -> Forall readable l).
Proof.
  induction l as [|e l [IH1 IH2]]; [done|]. split.
  - intros [(name & md & ->) Hl]%Forall_cons. cbn. rewrite (IH1 Hl). by destruct (md_is_file md).
  - destruct e as [[name [md|e]]|e]; cbn; try done.
    destruct (md_is_file md); cbn; [|intros; constructor; [by eexists _, _|auto]].
    destruct (backup_entries l); cbn; [|done]. intros. constructor; [by eexists _, _|auto].
Qed.

Section files.
Context {R F Q : Type} `{ContainerRuntime R} `{FS : FileSystem F} `{Archive F} `{MariaDb Q} `{Base64}.
Variable d : Dispatcher.
Abbreviation W := (World R F Q).

(** The acknowledgement of a successful command. *)
Definition acked (cmd : CommandPayload) (x : option json) : AckPayload :=
  {| ack_command_id := cmd_command_id cmd; ack_ok := true; ack_error := None;
     ack_result := to_value <$> x |}.

(** C32: listing backups answers with the regular files of the server's backup
    directory, each once, newest first and otherwise in directory order; a
    directory that does not exist is an empty list, and an entry that cannot be
    read fails the command. *)
Theorem list_backups_complete now cmd (w : W) :
  cmd_action cmd = ListBackups ->
  let '(w', ack) := handle d now cmd w in
  match (fs_read_dir (backups_of d (cmd_server_id cmd)) (disk (w_fs w))).2 with
  | Ok None => ack = acked cmd (Some (enc_list_backups {| lb_backups := [] |}))
  | Ok (Some es) =>
      if ack_ok ack
      then Forall readable es /\
        exists bs, ack = acked cmd (Some (enc_list_backups {| lb_backups := bs |})) /\
          bs ≡ₚ omap backup_of es /\ StronglySorted newer bs /\
          forall t, filter (made_at t) bs = filter (made_at t) (omap backup_of es)
      else ~ Forall readable es
  | Err _ => ack_ok ack = false
  end.
Proof.
  intros Ha. unfold handle, handle_inner. rewrite Ha. run. unfold on_fs, list_backups, read_dir, access_fs.
  run. unfold mcontext. destruct (fs_read_dir _ (disk (w_fs w))) as [d' [[es|]|e]]; cbn; [|done..].
  destruct (backup_entries_spec es) as [H1' H2'].
  destruct (backup_entries es) as [bs|e] eqn:He; cbn.
  - split; [by apply H2'|]. exists (sort_newest bs). split; [done|].
    specialize (H1' (H2' eq_refl)). injection H1' as ->. apply sort_newest_spec.
  - intros Hr. by specialize (H1' Hr).
Qed.

(** *** File contents *)

(** What a write command carries, when it is acceptable. *)
Definition accepted (cmd : CommandPayload) : option (path * list byte) :=
  rel ← cmd_path cmd;
  match resolve d (cmd_server_id cmd) rel with
  | Err _ => None
  | Ok p =>
      content ← cmd_content_base64 cmd;
      bytes ← b64_decode content;
      if (MAX_FILE_BYTES <? Z.of_nat (length bytes))%Z then None else Some (p, bytes)
  end.

Lemma accepted_spec cmd p bytes :
  accepted cmd = Some (p, bytes) ->
  (Z.of_nat (length bytes) <= MAX_FILE_BYTES)%Z /\
  exists rel, cmd_path cmd = Some rel /\ resolve d (cmd_server_id cmd) rel = Ok p.
Proof.
  unfold accepted. destruct (cmd_path cmd) as [rel|]; [|done]. cbn.
  destruct (resolve d _ rel) as [p'|] eqn:Hr; [|done].
  destruct (cmd_content_base64 cmd); [|done]. cbn.
  destruct (b64_decode _); [|done]. cbn. destruct (_ <? _)%Z eqn:Hlt; [done|].
  intros [= -> ->]. apply Z.ltb_ge in Hlt. eauto.
Qed.

Lemma write_inner now cmd (w : W) :
  cmd_action cmd = WriteFile ->
  match accepted cmd with
  | None => exists e, handle_inner d now cmd w = (w, Err e)
  | Some (p, bytes) =>
      handle_inner d now cmd w =
        (_ ← on_fs (_ ← match parent p with
                        | Some dir => mcontext "create parent directory" (create_dir_all dir)
                        | None => mret tt
                        end;
                    mcontext "write file" (write p bytes));
         mret None) w
  end.
Proof.
  intros Ha. unfold handle_inner, accepted. rewrite Ha. run.
  assert (Hw : set_fs (w_fs w) w = w) by (by destruct w).
  destruct (cmd_path cmd) as [rel|]; cbn; [|by eexists].
  destruct (resolve d _ rel) as [p|e]; cbn; [|by eexists].
  destruct (cmd_content_base64 cmd) as [content|]; cbn; [|by eexists].
  unfold on_fs, write_file. run. destruct (b64_decode content) as [bytes|]; cbn; [|eexists; by rewrite Hw].
  destruct (_ <? _)%Z; cbn; [eexists; by rewrite Hw|]. done.
Qed.

Context {L : FsLaws FS}.

Lemma write_then_read p bytes (f f' : FsState F) :
  (Z.of_nat (length bytes) <= MAX_FILE_BYTES)%Z ->
  write p bytes f = (f', Ok tt) ->
  exists f'', read_file p f' = (f'', Ok {| rf_content_base64 := b64_encode bytes;
                                           rf_size_bytes := Z.of_nat (length bytes) |}).
Proof.
  intros Hlen. unfold write, access_fs. destruct (fs_write p bytes (disk f)) as [dk r] eqn:Hw.
  intros [= <- ->]. destruct (law_write_metadata _ _ _ _ Hw) as (md & Hm & Hl).
  destruct (law_write_read _ _ _ _ Hw) as (d'' & Hr).
  unfold read_file, metadata, read, access_fs, mcontext. run. cbn. rewrite Hm. cbn. rewrite Hl.
  rewrite (proj2 (Z.ltb_ge _ _)) by done. cbn. rewrite Hr. cbn. by eexists.
Qed.

(** C31: what was written is read back. After an acknowledged write, a read of
    the same path of the same server succeeds and answers with the base64 of
    exactly the bytes that were sent, and their number. *)
Theorem file_roundtrip now now' wr rd (w w' : W) ack :
  cmd_action wr = WriteFile -> cmd_action rd = ReadFile ->
  cmd_server_id rd = cmd_server_id wr -> cmd_path rd = cmd_path wr ->
  handle d now wr w = (w', ack) -> ack_ok ack = true ->
  exists p bytes w'', accepted wr = Some (p, bytes) /\
    handle d now' rd w' =
      (w'', acked rd (Some (enc_read_file {| rf_content_base64 := b64_encode bytes;
                                             rf_size_bytes := Z.of_nat (length bytes) |}))).
Proof.
  intros Ha Hb Hsid Hpath Hh Hok. pose proof (write_inner now wr w Ha) as Hw.
  unfold handle in Hh. destruct (accepted wr) as [[p bytes]|] eqn:Hacc.
  2: { destruct Hw as [e Hw]. rewrite Hw in Hh. injection Hh as <- <-. done. }
  rewrite Hw in Hh. clear Hw.
  destruct (accepted_spec _ _ _ Hacc) as (Hlen & rel & Hrel & Hres).
  set (mk := match parent p with
             | Some dir => mcontext "create parent directory" (create_dir_all dir)
             | None => mret tt
             end : M (FsState F) unit) in Hh.
  clearbody mk. revert Hh. run. unfold on_fs. run. unfold mcontext.
  destruct (mk (w_fs w)) as [f1 [[]|e]]; [|intros [= <- <-]; done].
  destruct (write p bytes f1) as [f2 [[]|e]] eqn:Hwr; cbn; intros [= <- <-]; [|done].
  destruct (write_then_read p bytes f1 f2 Hlen Hwr) as (f3 & Hrd).
  exists p, bytes. unfold handle, handle_inner. rewrite Hb, Hsid, Hpath, Hrel. run. cbn [ok_or].
  rewrite Hres. unfold on_fs. cbn [w_fs set_fs]. rewrite Hrd. cbn. by eexists.
Qed.
End files.

(** ** On a node in memory *)

Definition listing : CommandPayload := Toy.command ListBackups "s1" None None.

Lemma list_backups_complete_witness :
  let '(w', ack) := handle Toy.node 7 listing Toy.start in
  ack = acked listing (Some (enc_list_backups {| lb_backups :=
    [{| be_filename := "old"; be_size_bytes := 3; be_created_at := 1700000000 |}] |})) /\
  exists bs, ack = acked listing (Some (enc_list_backups {| lb_backups := bs |})) /\ StronglySorted newer bs.
Proof.
  pose proof (list_backups_complete Toy.node 7 listing Toy.start eq_refl) as H.
  assert (He : exists es, (fs_read_dir (backups_of Toy.node (cmd_server_id listing))
                (disk (w_fs Toy.start))).2 = Ok (Some es)) by (eexists; vm_compute; reflexivity).
  assert (Ha : (handle Toy.node 7 listing Toy.start).2
    = acked listing (Some (enc_list_backups {| lb_backups :=
        [{| be_filename := "old"; be_size_bytes := 3; be_created_at := 1700000000 |}] |})))
    by (vm_compute; reflexivity).
  destruct He as [es He]. rewrite He in H.
  destruct (handle Toy.node 7 listing Toy.start) as [w' ack]. cbn [snd] in Ha. rewrite Ha in H |- *.
  destruct H as (_ & bs & H1 & _ & H2 & _). split; [reflexivity|]. exists bs. split; [exact H1|exact H2].
Defined.

Definition writing (path content : string) : CommandPayload :=
  Toy.command WriteFile "s1" (Some path) (Some content).
Definition reading (path : string) : CommandPayload := Toy.command ReadFile "s1" (Some path) None.

Lemma file_roundtrip_witness :
  let w1 := (handle Toy.node 7 (writing "a/b.txt" "hi") Toy.start).1 in
  exists p bytes w2, accepted Toy.node (writing "a/b.txt" "hi") = Some (p, bytes) /\
    handle Toy.node 8 (reading "a/b.txt") w1 =
      (w2, acked (reading "a/b.txt") (Some (enc_read_file
             {| rf_content_base64 := b64_encode bytes; rf_size_bytes := Z.of_nat (length bytes) |}))).
Proof.
  intros w1.
  assert (Hok : ack_ok (handle Toy.node 7 (writing "a/b.txt" "hi") Toy.start).2 = true)
    by (vm_compute; reflexivity).
  exact (file_roundtrip Toy.node 7 8 (writing "a/b.txt" "hi") (reading "a/b.txt") Toy.start w1 _
    eq_refl eq_refl eq_refl eq_refl (surjective_pairing _) Hok).
Defined.
