(* ===== verification/DispatcherErrors.v ===== *)
(** * Which commands are refused, and with which text

    [handle_inner] checks the arguments of a command at many places: missing
    fields, paths and names, the known container, the registered console, the
    database configuration. [checks] lists them per action, in the order in
    which they are made, [passes] and [complaint] say what each asks for and
    answers. The theorem: a command that fails a check is answered with the text
    of the first one it fails and changes nothing at all; a command that passes
    all of them reaches the runtime, the file system or the database server. To
    say that, the runtime and the server are wrapped so that they count the
    calls they get. *)

From S2P Require Import Prelude Trace RustStr Paths Json Payloads Runtime FakeRuntime Db Fs.
From S2P Require Import Backup MemFs Stats Dispatcher ToyNode DispatcherSpec.
From stdpp Require Import options.
Set Default Proof Using "Type*".

(** ** The checks *)

Inductive check :=
| HasSpec | HasImage | HasInput | HasPath | HasNewPath | HasContent
| HasDatabaseName | HasDatabaseUser | HasDatabasePassword
| PathInVolume | NewPathInVolume | BackupName
| ContentDecodes | ContentFits
| KnownContainer | ActiveSession
| DatabasesConfigured | DatabaseNameValid | DatabaseUserValid.

(** In the order in which they are made. *)
Definition checks (a : Action) : list check :=
  match a with
  | Create => [HasSpec]
  | PullImage => [HasImage]
  | Start | Stop | Kill | Remove => [KnownContainer]
  | ConsoleInput => [HasInput; ActiveSession]
  | ListFiles => [PathInVolume]
  | ReadFile | DeleteFile | Mkdir => [HasPath; PathInVolume]
  | WriteFile => [HasPath; PathInVolume; HasContent; ContentDecodes; ContentFits]
  | RenameFile => [HasPath; PathInVolume; HasNewPath; NewPathInVolume]
  | Payloads.Backup | ListBackups => []
  | RestoreBackup | DeleteBackup => [HasPath; BackupName]
  | CreateDatabase => [DatabasesConfigured; HasDatabaseName; HasDatabaseUser; HasDatabasePassword;
                       DatabaseNameValid; DatabaseUserValid]
  | DeleteDatabase => [DatabasesConfigured; HasDatabaseName; HasDatabaseUser;
                       DatabaseNameValid; DatabaseUserValid]
  end.

Definition given {A} (o : option A) : bool := bool_decide (is_Some o).

(** Neither absolute nor with a [..]. *)
Definition stays_inside (rel : string) : bool :=
  forallb plain_component (components (as_bytes rel)).

Definition single_name (name : string) : bool :=
  match components (as_bytes name) with [Normal _] => true | _ => false end.

Definition identifier (s : string) (max : nat) : bool :=
  (1 <=? String.length s) && (String.length s <=? max) && forallb ident_byte (as_bytes s).

Section checks.
Context {R F Q : Type} `{Base64}.
Variable d : Dispatcher.
Variable w : World R F Q.
Variable cmd : CommandPayload.

Definition content : list byte := default [] (cmd_content_base64 cmd ≫= b64_decode).

Definition passes (c : check) : bool :=
  match c with
  | HasSpec => given (cmd_spec cmd)
  | HasImage => given (cmd_image cmd)
  | HasInput => given (cmd_input cmd)
  | HasPath => given (cmd_path cmd)
  | HasNewPath => given (cmd_new_path cmd)
  | HasContent => given (cmd_content_base64 cmd)
  | HasDatabaseName => given (cmd_database_name cmd)
  | HasDatabaseUser => given (cmd_database_user cmd)
  | HasDatabasePassword => given (cmd_database_password cmd)
  | PathInVolume => stays_inside (default "" (cmd_path cmd))
  | NewPathInVolume => stays_inside (default "" (cmd_new_path cmd))
  | BackupName => single_name (default "" (cmd_path cmd))
  | ContentDecodes => given (cmd_content_base64 cmd ≫= b64_decode)
  | ContentFits => (Z.of_nat (length content) <=? MAX_FILE_BYTES)%Z
  | KnownContainer => given (cmd_container_id cmd) || given (tracked w !! cmd_server_id cmd)
  | ActiveSession => given (consoles w !! cmd_server_id cmd)
  | DatabasesConfigured => given (db d)
  | DatabaseNameValid => identifier (default "" (cmd_database_name cmd)) 64
  | DatabaseUserValid => identifier (default "" (cmd_database_user cmd)) 32
  end.

(** The complaints name the action as it is spelt on the wire. *)
Definition complaint (c : check) : string :=
  let action := action_name (cmd_action cmd) in
  match c with
  | HasSpec => action +:+ " command missing spec"
  | HasImage => action +:+ " command missing image"
  | HasInput => action +:+ " command missing input"
  | HasPath => action +:+ " missing path"
  | HasNewPath => action +:+ " missing new_path"
  | HasContent => action +:+ " missing content"
  | HasDatabaseName => action +:+ " missing database_name"
  | HasDatabaseUser => action +:+ " missing database_user"
  | HasDatabasePassword => action +:+ " missing database_password"
  | PathInVolume => "path escapes the server volume: " +:+ default "" (cmd_path cmd)
  | NewPathInVolume => "path escapes the server volume: " +:+ default "" (cmd_new_path cmd)
  | BackupName => "invalid backup name: " +:+ default "" (cmd_path cmd)
  | ContentDecodes => "decode base64 content"
  | ContentFits => too_large (Z.of_nat (length content))
  | KnownContainer => "no known container for server " +:+ cmd_server_id cmd
  | ActiveSession => "no active console session for server " +:+ cmd_server_id cmd
  | DatabasesConfigured => "databases are not configured on this node"
  | DatabaseNameValid => "invalid database name"
  | DatabaseUserValid => "invalid database user"
  end.

Definition first_failed : option check := List.find (fun c => negb (passes c)) (checks (cmd_action cmd)).

Definition refusal (c : check) : AckPayload :=
  {| ack_command_id := cmd_command_id cmd; ack_ok := false;
     ack_error := Some (complaint c); ack_result := None |}.
End checks.

(** ** The guards of the code are the checks *)

Lemma given_Some {A} (a : A) : given (Some a) = true.
Proof. done. Qed.
Lemma given_None {A} : given (@None A) = false.
Proof. done. Qed.

Lemma resolve_checks d sid rel :
  resolve d sid rel =
  if stays_inside rel then Ok (join (volume d sid) (as_bytes rel))
  else Err ("path escapes the server volume: " +:+ rel).
Proof. done. Qed.

Lemma backup_path_checks root sid name :
  backup_path root sid name =
  if single_name name then Ok (join (backups_dir root sid) (as_bytes name))
  else Err ("invalid backup name: " +:+ name).
Proof. unfold backup_path, single_name. by repeat case_match. Qed.

Lemma validate_ident_checks msg s max :
  context msg (validate_ident s max) = if identifier s max then Ok tt else Err msg.
Proof.
  destruct (validate_ident s max) as [[]|e] eqn:Hv; cbn.
  - apply validate_ident_ok in Hv as [Hl Hf]. unfold identifier.
    rewrite (proj2 (Nat.leb_le _ _) (proj1 Hl)), (proj2 (Nat.leb_le _ _) (proj2 Hl)). cbn.
    rewrite (proj2 (forallb_forall _ _)); [done|]. intros b Hb%list_elem_of_In.
    by eapply Forall_forall in Hf.
  - destruct (identifier s max) eqn:Hi; [|done]. unfold identifier in Hi.
    apply andb_true_iff in Hi as [[H1%Nat.leb_le H2%Nat.leb_le]%andb_true_iff Hf].
    rewrite (proj2 (validate_ident_ok s max)) in Hv; [done|]. split; [lia|].
    apply Forall_forall. intros b Hb%list_elem_of_In. by eapply forallb_forall in Hf.
Qed.

(** ** Refused commands *)

Section refused.
Context {R F Q : Type} `{ContainerRuntime R} `{FileSystem F} `{Archive F} `{MariaDb Q} `{Base64}.
Variable d : Dispatcher.
Abbreviation W := (World R F Q).

Lemma set_fs_back (w : W) : set_fs (w_fs w) w = w.
Proof. by destruct w. Qed.
Lemma set_db_back (w : W) : set_db_state (w_db w) w = w.
Proof. by destruct w. Qed.

(** A guard that fails ends the routine where it stands. *)
Lemma lift_err_bind {S A B} e (f : A -> M S B) : (lift (Err e) ≫= f) = lift (Err e).
Proof. done. Qed.
Lemma lift_ok_bind {S A B} (a : A) (f : A -> M S B) : (lift (Ok a) ≫= f) = f a.
Proof. done. Qed.
Lemma gets_bind {S A B} (g : S -> A) (f : A -> M S B) s : (gets g ≫= f) s = f (g s) s.
Proof. done. Qed.
Lemma on_fs_err {A B} e (f : A -> M W B) w :
  (on_fs (lift (Err e)) ≫= f) w = (w, Err e).
Proof. unfold mbind, M_bind, on_fs, lift. by rewrite set_fs_back. Qed.
Lemma on_db_err {A B} e (f : A -> M W B) w :
  (on_db (lift (Err e)) ≫= f) w = (w, Err e).
Proof. unfold mbind, M_bind, on_db, lift. by rewrite set_db_back. Qed.

(** The container a command is about. *)
Lemma container_bind {B} cmd (f : string -> M W B) (w : W) :
  (container_for cmd ≫= f) w =
  match (match cmd_container_id cmd with
         | Some id => Some id
         | None => tracked w !! cmd_server_id cmd
         end) with
  | Some id => f id w
  | None => (w, Err ("no known container for server " +:+ cmd_server_id cmd))
  end.
Proof.
  unfold container_for. run. destruct (cmd_container_id cmd); [done|].
  by destruct (tracked w !! cmd_server_id cmd).
Qed.

Lemma write_file_checks p c :
  write_file p c =
  (if given (b64_decode c) then
     let bytes := default [] (b64_decode c) in
     if (Z.of_nat (length bytes) <=? MAX_FILE_BYTES)%Z then
       _ ← match parent p with
           | Some dir => mcontext "create parent directory" (create_dir_all dir)
           | None => mret tt
           end;
       mcontext "write file" (write p bytes)
     else lift (Err (too_large (Z.of_nat (length bytes))))
   else lift (Err "decode base64 content") : M (FsState F) unit).
Proof.
  unfold write_file. destruct (b64_decode c) as [bytes|]; [|done]. cbn [default given ok_or].
  rewrite given_Some, lift_ok_bind, Z.leb_antisym. cbn. by destruct (MAX_FILE_BYTES <? _)%Z.
Qed.
End refused.

(** Follows the checks of a command, field by field, and then the guards of the
    code, which have the same outcomes. *)
Ltac check_fields :=
  lazymatch goal with
  | |- context [given (@None _)] => rewrite given_None; cbn [negb orb]; check_fields
  | |- context [given (Some _)] => rewrite given_Some; cbn [negb orb]; check_fields
  | |- context [given (?o ≫= _)] => destruct o eqn:?; cbn [mbind option_bind]; check_fields
  | |- context [given ?o] => destruct o eqn:?; check_fields
  | |- context [if negb ?b then _ else _] => destruct b eqn:?; cbn [negb]; check_fields
  | |- _ => idtac
  end.
Ltac run_guards :=
  repeat first
  [ progress cbn [ok_or default from_option id fst snd orb]
  | match goal with
    | Hb : ?b = _ |- context [if ?b then _ else _] => rewrite Hb
    | Ho : ?o = _ |- context [ok_or _ ?o] => rewrite Ho
    | Hc : b64_decode ?c = _ |- context [b64_decode ?c] => rewrite Hc
    | Hi : cmd_container_id ?c = _ |- context [cmd_container_id ?c] => rewrite Hi
    | Ht : tracked ?w !! ?i = _ |- context [tracked ?w !! ?i] => rewrite Ht
    end
  | rewrite lift_ok_bind | rewrite lift_err_bind | rewrite gets_bind
  | rewrite resolve_checks | rewrite backup_path_checks | rewrite validate_ident_checks
  | rewrite given_Some | rewrite given_None
  | rewrite write_file_checks | rewrite container_bind ].

Section guards.
Context {R F Q : Type} `{ContainerRuntime R} `{FileSystem F} `{Archive F} `{MariaDb Q} `{Base64}.
Variable d : Dispatcher.
Abbreviation W := (World R F Q).

Lemma handle_inner_refuses now cmd (w : W) :
  match first_failed d w cmd with
  | Some c => handle_inner d now cmd w = (w, Err (complaint cmd c))
  | None => True
  end.
Proof.
  unfold first_failed, handle_inner, restore_backup, delete_backup, create_database, delete_database.
  destruct (cmd_action cmd) eqn:Ha; cbn [checks List.find passes]; try exact I.
  all: unfold complaint, content; rewrite ?Ha.
  all: check_fields; try exact I; cbn in *; run_guards.
  all: try (rewrite ?on_fs_err, ?on_db_err; reflexivity).
Qed.
End guards.

(** ** Accepted commands *)

(** A backend that counts the calls it gets. *)
Record counted (B : Type) := { inner : B; calls : nat }.
Arguments inner {B} _.
Arguments calls {B} _.

Definition count {B A} (m : M B A) : M (counted B) A := fun s =>
  let '(i, r) := m (inner s) in ({| inner := i; calls := S (calls s) |}, r).

Global Instance counted_runtime {R} `{ContainerRuntime R} : ContainerRuntime (counted R) := {|
  rt_pull image := count (rt_pull image);
  rt_create spec := count (rt_create spec);
  rt_list_managed := count rt_list_managed;
  rt_start id := count (rt_start id);
  rt_stop id t := count (rt_stop id t);
  rt_kill id := count (rt_kill id);
  rt_remove id := count (rt_remove id);
  rt_inspect id := count (rt_inspect id);
  rt_stats id := count (rt_stats id);
  rt_attach id := count (rt_attach id);
  console_write i bytes := count (console_write i bytes);
  console_recv i s := let '(r, x) := console_recv i (inner s) in
                      ({| inner := r; calls := S (calls s) |}, x);
|}.

Global Instance counted_db {Q} `{MariaDb Q} : MariaDb (counted Q) := {|
  get_conn := count get_conn;
  run_query sql := count (run_query sql);
|}.

Lemma grows_count {B A} (m : M B A) : grows calls 1 (count m).
Proof. intros s. unfold count. destruct (m (inner s)) as [i r]. cbn. lia. Qed.

Lemma grows_lt {S A} (g : S -> nat) (m : M S A) s : grows g 1 m -> g s < g (m s).1.
Proof. intros Hm. specialize (Hm s). lia. Qed.

Section reaches.
Context {R F Q : Type} `{ContainerRuntime R} `{FileSystem F} `{Archive F} `{MariaDb Q} `{Base64}.
Variable d : Dispatcher.
Abbreviation W := (World (counted R) F (counted Q)).

(** How often the runtime, the file system and the database server were used. *)
Definition uses (w : W) : nat :=
  calls (w_rt w) + length (accesses (w_fs w)) + calls (server (w_db w)).

Lemma grows_on_rt {A} k (m : M (counted R) A) : grows calls k m -> grows uses k (on_rt m).
Proof.
  intros Hm w. unfold on_rt, uses. specialize (Hm (w_rt w)). destruct (m (w_rt w)). cbn in *. lia.
Qed.
Lemma grows_on_fs {A} k (m : M (FsState F) A) :
  grows (fun s => length (accesses s)) k m -> grows uses k (on_fs m).
Proof.
  intros Hm w. unfold on_fs, uses. specialize (Hm (w_fs w)). destruct (m (w_fs w)). cbn in *. lia.
Qed.
Lemma grows_on_db {A} k (m : M (SqlState (counted Q)) A) :
  grows (fun s => calls (server s)) k m -> grows uses k (on_db m).
Proof.
  intros Hm w. unfold on_db, uses. specialize (Hm (w_db w)). destruct (m (w_db w)). cbn in *. lia.
Qed.

Lemma grows_access {A} a (m : M F A) : grows (fun s => length (accesses s)) 1 (access_fs a m).
Proof. intros s. unfold access_fs. destruct (m (disk s)). cbn. rewrite length_app. cbn. lia. Qed.
Lemma grows_pack src : grows (fun s : FsState F => length (accesses s)) 1 (pack src).
Proof. intros s. unfold pack. destruct (tar_zst src (disk s)). cbn. rewrite length_app. cbn. lia. Qed.
Lemma grows_conn : grows (fun s : SqlState (counted Q) => calls (server s)) 1 conn.
Proof. intros s. unfold conn. pose proof (grows_count get_conn (server s)). cbn in *. by destruct (count _ _). Qed.
Lemma grows_query sql : grows (fun s : SqlState (counted Q) => calls (server s)) 1 (query_drop sql).
Proof.
  intros s. unfold query_drop. pose proof (grows_count (run_query sql) (server s)). cbn in *.
  by destruct (count _ _).
Qed.

Lemma grows_restore_loop dest entries :
  grows (fun s : FsState F => length (accesses s)) 0 (restore_loop dest entries).
Proof.
  induction entries as [|e entries IH]; cbn [restore_loop]; [by apply grows_keeps|].
  apply grows_bind; [by apply grows_keeps|]. intros entry.
  apply grows_bind; [by apply grows_keeps|]. intros rel. destruct (negb _); [done|].
  apply grows_bind; [eapply grows_weaken, grows_access|done].
Qed.

(** The directory of a file to write may not have to be made. *)
Lemma grows_parent {A} (o : option path) msg (f : unit -> M (FsState F) A) :
  (forall u, grows (fun s => length (accesses s)) 1 (f u)) ->
  grows (fun s => length (accesses s)) 1
    (match o with Some dir => mcontext msg (create_dir_all dir) | None => mret tt end ≫= f).
Proof.
  intros Hf. destruct o; [|apply (Hf tt)]. apply grows_bind; [apply grows_context, grows_access|].
  intros ?. by eapply grows_weaken.
Qed.

(** Announcing the pull comes before it. *)
Lemma grows_pull {A} sid msg (f : unit -> M W A) (w : W) :
  grows uses 1 (f tt) -> uses w < uses ((emit_console sid msg ≫= f) w).1.
Proof. intros Hf. apply (grows_lt uses (f tt) (push_event _ w) Hf). Qed.

(** Splits a routine at its binds; the first call counts. *)
Ltac growing :=
  lazymatch goal with
  | |- grows _ 1 (match parent _ with _ => _ end ≫= _) => apply grows_parent; intros ?; growing
  | |- grows _ _ (_ ≫= _) => apply grows_bind; [growing|intros ?; growing]
  | |- grows _ 0 (match ?x with _ => _ end) => destruct x; growing
  | |- grows _ 1 (list_files _) => unfold list_files; growing
  | |- grows _ 1 (read_file _) => unfold read_file; growing
  | |- grows _ 1 (delete_path _) => unfold delete_path; growing
  | |- grows _ 1 (create_backup _ _ _) => unfold create_backup; cbv zeta; growing
  | |- grows _ 0 (Backup.create_backup _ _) => unfold Backup.create_backup; growing
  | |- grows _ 1 (list_backups _ _) => unfold list_backups; growing
  | |- grows _ 1 (Backup.restore_backup _ _) => unfold Backup.restore_backup; growing
  | |- grows _ 0 (restore_loop _ _) => apply grows_restore_loop
  | |- grows _ 0 (create_rest _ _ _) => unfold create_rest; growing
  | |- grows _ 0 (start_console_stream _ _) => unfold start_console_stream; growing
  | |- grows _ _ (mtry _) => apply grows_try; growing
  | |- grows _ _ (mcontext _ _) => apply grows_context; growing
  | |- grows _ _ (on_rt _) => apply grows_on_rt; growing
  | |- grows _ _ (on_fs _) => apply grows_on_fs; growing
  | |- grows _ _ (on_db _) => apply grows_on_db; growing
  | |- grows _ 1 (access_fs _ _) => apply grows_access
  | |- grows _ 1 (pack _) => apply grows_pack
  | |- grows _ 1 conn => apply grows_conn
  | |- grows _ 1 (query_drop _) => apply grows_query
  | |- grows calls 1 _ => apply grows_count
  | |- grows _ 0 (access_fs _ _) => eapply grows_weaken, grows_access
  | |- grows _ 0 (pack _) => eapply grows_weaken, grows_pack
  | |- grows _ 0 conn => eapply grows_weaken, grows_conn
  | |- grows _ 0 (query_drop _) => eapply grows_weaken, grows_query
  | |- grows calls 0 _ => eapply grows_weaken, grows_count
  | |- grows (fun s => length (accesses s)) 1 _ => apply grows_access
  | |- grows (fun s => length (accesses s)) 0 _ =>
      first [by apply grows_keeps|eapply grows_weaken, grows_access]
  | |- grows _ 0 (mret _) => by apply grows_keeps
  | |- grows _ 0 (lift _) => by apply grows_keeps
  | |- grows _ 0 (gets _) => by apply grows_keeps
  | |- grows uses 0 _ => by apply grows_keeps
  | |- _ => idtac
  end.

Lemma handle_inner_reaches now cmd (w : W) :
  first_failed d w cmd = None -> uses w < uses (handle_inner d now cmd w).1.
Proof.
  unfold first_failed, handle_inner, restore_backup, delete_backup, create_database, delete_database.
  destruct (cmd_action cmd) eqn:Ha; cbn [checks List.find passes].
  all: unfold content; check_fields; intros Hf; try discriminate Hf; clear Hf; cbn in *; run_guards.
  all: lazymatch goal with
       | |- context [emit_console _ _ ≫= _] => apply grows_pull
       | |- _ => apply grows_lt
       end.
  all: growing.
Qed.

(** C22: a command that fails one of its checks (a missing field, a path that
    leaves the volume, a bad name, content that is not base64 or too large, an
    unknown container, no console, no database server) is answered, under its
    id, with the text of the first check it fails and changes nothing at all: no
    call, no access, no event, no tracking. A command that passes all its checks
    reaches the runtime, the file system or the database server. *)
Theorem handle_checks now cmd (w : W) :
  match first_failed d w cmd with
  | Some c => handle d now cmd w = (w, refusal cmd c)
  | None => uses w < uses (handle d now cmd w).1
  end.
Proof.
  pose proof (handle_inner_refuses d now cmd w) as Hr. pose proof (handle_inner_reaches now cmd w) as Ha.
  unfold handle. destruct (first_failed d w cmd) as [c|].
  - by rewrite Hr.
  - specialize (Ha eq_refl). by destruct (handle_inner d now cmd w).
Qed.
End reaches.

(** ** On a node in memory *)

Module Refusals.
Definition start : World (counted FakeState) memfs (counted ToyDb.state) :=
  world_new {| inner := Fake.new; calls := 0 |} Toy.disk {| inner := (∅, false); calls := 0 |}.

Definition answer (cmd : CommandPayload) : option string :=
  ack_error (handle Toy.node 7 cmd start).2.

(** A path out of the volume is reported before missing content. *)
Example refusals :
  answer <$>
    [Toy.command WriteFile "s1" (Some "../s2/x") None; Toy.command WriteFile "s1" (Some "x") None;
     Toy.command CreateDatabase "s1" None None; Toy.command Stop "s1" None None;
     Toy.command DeleteBackup "s1" (Some "a/b") None; Toy.command WriteFile "s1" (Some "x") (Some "hi")]
  = [Some "path escapes the server volume: ../s2/x"; Some "write_file missing content";
     Some "databases are not configured on this node"; Some "no known container for server s1";
     Some "invalid backup name: a/b"; None].
Proof. vm_compute. done. Qed.
End Refusals.
