(* ===== verification/DispatcherWire.v ===== *)
(** * What the dispatcher sends across the wire

    The acknowledgements and heartbeats of the dispatcher as payloads: their
    shape, and that the panel's side of the protocol reads them back. *)

From S2P Require Import Prelude Trace RustStr Json Payloads Float64 Wire Stats Runtime FakeRuntime.
From S2P Require Import Db Fs Backup MemFs Dispatcher ToyNode.
From stdpp Require Import options.
Set Default Proof Using "Type*".

Section wire.
Context {R F Q : Type} {RT : ContainerRuntime R} `{FileSystem F} `{Archive F} `{MariaDb Q} `{Base64}.
Abbreviation W := (World R F Q).

(** ** Acknowledgements *)

(** The data is a [Value] made of an [A], and is read back as that [A]. *)
Definition carries (A : Type) `{Wire A} (x : option json) : Prop :=
  exists r : A, x = Some (to_value (to_json r)) /\
    (rust_value r -> of_json (to_value (to_json r)) = Some r).

Definition answer_type (a : Action) (x : option json) : Prop :=
  match a with
  | ListFiles => carries ListFilesResult x
  | ReadFile => carries ReadFileResult x
  | Payloads.Backup => carries BackupResult x
  | ListBackups => carries ListBackupsResult x
  | CreateDatabase => carries CreateDatabaseResult x
  | _ => x = None
  end.

Lemma carries_result {A} `{WireResult A} (r : A) : carries A (Some (to_value (to_json r))).
Proof. exists r. split; [done|apply wire_value]. Qed.

Lemma handle_inner_answers d now cmd :
  returns (answer_type (cmd_action cmd)) (handle_inner d now cmd : M W _).
Proof.
  unfold handle_inner. destruct (cmd_action cmd);
    repeat (apply returns_bind; intros ?); apply returns_ret;
    first [done | match goal with |- context [Some (to_value (_ ?r))] => exact (carries_result r) end].
Qed.

Lemma carries_value {A} `{WireResult A} x r :
  carries A x -> x = Some r -> to_value r = r /\ r <> JNull.
Proof. intros (a & -> & _) [= <-]. apply (result_value a). Qed.

Lemma answer_value a x r : answer_type a x -> x = Some r -> to_value r = r /\ r <> JNull.
Proof. intros Hx Hr. destruct a; cbn in Hx; first [exact (carries_value _ _ Hx Hr)|by subst]. Qed.

Lemma ack_readable d now cmd (w : W) :
  let ack := (handle d now cmd w).2 in dec_ack (enc_ack ack) = Some ack.
Proof.
  pose proof (handle_inner_answers d now cmd w) as Hr. unfold handle.
  destruct (handle_inner d now cmd w) as [w' [x|e]]; cbn in Hr |- *; apply dec_ack_enc; [|done].
  intros r Hx. eapply answer_value; [by apply Hr|done].
Qed.

(** C23: every command is acknowledged under its own id, either ok, with data
    exactly for the five actions that answer with data and of that action's
    result type, or not ok, with an error text and no data; and the panel reads
    the acknowledgement back as it was sent. *)
Theorem handle_acknowledges d now cmd (w : W) :
  let ack := (handle d now cmd w).2 in
  ack_command_id ack = cmd_command_id cmd /\
  (if ack_ok ack then ack_error ack = None /\ answer_type (cmd_action cmd) (ack_result ack)
   else is_Some (ack_error ack) /\ ack_result ack = None) /\
  dec_ack (enc_ack ack) = Some ack.
Proof.
  intros ack. pose proof (ack_readable d now cmd w) as Hread. fold ack in Hread. revert Hread.
  pose proof (handle_inner_answers d now cmd w) as Hr. unfold ack, handle.
  destruct (handle_inner d now cmd w) as [w' [x|e]]; cbn in Hr |- *; intros Hread;
    (split; [done|]); (split; [|done]); [by specialize (Hr x eq_refl)|by eauto].
Qed.
End wire.
