(* ===== verification/Heartbeat.v ===== *)
(** * A heartbeat in turns (daemon/src/agent/dispatcher.rs:473-513)

    [Dispatcher::heartbeat] takes a snapshot of the tracked containers under the
    lock and then awaits the runtime once or twice per container, while commands
    and console streams go on. A [beat] is where it stands between two of these
    awaits. Run alone its turns are [heartbeat]; interleaved with anything, it
    ends and reports servers of the snapshot only, each at most once and as the
    runtime had it at some turn. *)

From S2P Require Import Prelude Trace RustStr Float64 Payloads Wire Runtime FakeRuntime Db Fs Backup.
From S2P Require Import MemFs Stats Dispatcher ToyNode DispatcherSpec.
From stdpp Require Import options.
Set Default Proof Using "Type*".

(** About to inspect the next container of the snapshot, or about to ask for
    the statistics of one that runs; with what was collected so far. *)
Inductive beat :=
| Inspecting (snapshot : list (string * string)) (containers : list ContainerHeartbeat)
| Measuring (kv : string * string) (state : ContainerState) (snapshot : list (string * string))
    (containers : list ContainerHeartbeat).

(** The entry of a container, with its statistics when there are any. *)
Definition entry_of (kv : string * string) (state : ContainerState) (stats : option Stats)
    : ContainerHeartbeat :=
  match stats with
  | Some st => {| hb_server_id := kv.1; hb_running := cs_running state;
                  hb_cpu_percent := st_cpu_percent st; hb_mem_used_bytes := st_mem_used_bytes st;
                  hb_mem_limit_bytes := st_mem_limit_bytes st;
                  hb_net_rx_bytes := st_net_rx_bytes st; hb_net_tx_bytes := st_net_tx_bytes st |}
  | None => {| hb_server_id := kv.1; hb_running := cs_running state;
               hb_cpu_percent := Float64.f64_zero; hb_mem_used_bytes := 0;
               hb_mem_limit_bytes := 0; hb_net_rx_bytes := 0; hb_net_tx_bytes := 0 |}
  end.

(** The payload, once the loop is through. *)
Definition beat_done (b : beat) : option HeartbeatPayload :=
  match b with Inspecting [] containers => Some {| hb_containers := containers |} | _ => None end.

Section beat.
Context {R F Q : Type} `{ContainerRuntime R}.
Abbreviation W := (World R F Q).

(** The snapshot, under the lock of [tracked]. *)
Definition beat_new (w : W) : beat := Inspecting (map_to_list (tracked w)) [].

Definition beat_turn (b : beat) (w : W) : W * beat :=
  match b with
  | Inspecting [] _ => (w, b)
  | Inspecting (kv :: snapshot) containers =>
      let '(w', r) := on_rt (rt_inspect kv.2) w in
      match r with
      | Err _ => (w', Inspecting snapshot containers)
      | Ok state =>
          if cs_running state then (w', Measuring kv state snapshot containers)
          else (w', Inspecting snapshot (containers ++ [entry_of kv state None]))
      end
  | Measuring kv state snapshot containers =>
      let '(w', r) := on_rt (rt_stats kv.2) w in
      (w', Inspecting snapshot (containers ++ [entry_of kv state (result_ok r)]))
  end.

(** A turn only calls the runtime. *)
Lemma beat_turn_rt b (w : W) : exists r, (beat_turn b w).1 = set_rt r w.
Proof.
  assert (Hw : w = set_rt (w_rt w) w) by by destruct w.
  destruct b as [[|kv l] cs|kv st l cs]; cbn [beat_turn]; [by exists (w_rt w)|..]; unfold on_rt.
  - destruct (rt_inspect kv.2 (w_rt w)) as [r [st|e]]; [|by exists r].
    destruct (cs_running st); by exists r.
  - destruct (rt_stats kv.2 (w_rt w)) as [r x]. by exists r.
Qed.

(** ** Run alone *)

Fixpoint beat_alone (n : nat) (b : beat) (w : W) : W * beat :=
  match n with 0 => (w, b) | S n' => let '(w', b') := beat_turn b w in beat_alone n' b' w' end.

Lemma beat_alone_done n cs (w : W) : beat_alone n (Inspecting [] cs) w = (w, Inspecting [] cs).
Proof. induction n as [|n IH]; [done|]. exact IH. Qed.

(** One round of the loop takes one turn or two. *)
Lemma beat_alone_one kv snapshot cs n (w : W) :
  let '(w', r) := heartbeat_one kv w in
  exists o m, r = Ok o /\ n <= m /\
  beat_alone (S (S n)) (Inspecting (kv :: snapshot) cs) w
    = beat_alone m (Inspecting snapshot match o with Some hb => cs ++ [hb] | None => cs end) w'.
Proof.
  cbn [beat_alone beat_turn]. unfold heartbeat_one. run. destruct (on_rt (rt_inspect kv.2) w) as [w1 [st|e]].
  - destruct (cs_running st) eqn:Hr.
    + destruct (on_rt (rt_stats kv.2) w1) as [w2 [x|e]] eqn:Hs; eexists _, n; cbn [beat_turn];
        rewrite Hs; cbn; rewrite ?Hr; done.
    + eexists _, (S n). split_and!; [done|lia|]. cbn. by rewrite Hr.
  - exists None, (S n). split_and!; [done|lia|done].
Qed.

Lemma beat_alone_loop snapshot cs n (w : W) :
  2 * length snapshot <= n ->
  let '(w', r) := heartbeat_loop snapshot cs w in
  exists l, r = Ok l /\ beat_alone n (Inspecting snapshot cs) w = (w', Inspecting [] l).
Proof.
  revert cs n w. induction snapshot as [|kv snapshot IH]; intros cs n w Hn; cbn [heartbeat_loop].
  { exists cs. split; [done|]. apply beat_alone_done. }
  cbn in Hn. destruct n as [|[|n]]; [lia..|].
  pose proof (beat_alone_one kv snapshot cs n w) as Ho. unfold mbind, M_bind.
  destruct (heartbeat_one kv w) as [w1 r]. destruct Ho as (o & m & -> & Hm & ->).
  apply IH. lia.
Qed.

(** Run alone, the turns are [heartbeat]. *)
Lemma beat_alone_heartbeat n (w : W) :
  2 * size (tracked w) <= n ->
  let '(w', b) := beat_alone n (beat_new w) w in
  exists hb, beat_done b = Some hb /\ heartbeat w = (w', Ok hb).
Proof.
  intros Hn. rewrite <- length_map_to_list in Hn.
  pose proof (beat_alone_loop _ [] n w Hn) as Hl. unfold heartbeat, beat_new. run.
  destruct (heartbeat_loop _ [] w) as [w' r]. destruct Hl as (l & -> & ->).
  by eexists.
Qed.

(** ** Interleaved *)

(** [ws] are the states the turns find. *)
Definition beat_through (ws : list W) (b : beat) : beat := foldl (fun b w => (beat_turn b w).2) b ws.

Lemma beat_through_cons w ws b : beat_through (w :: ws) b = beat_through ws (beat_turn b w).2.
Proof. done. Qed.
Lemma beat_through_done ws cs : beat_through ws (Inspecting [] cs) = Inspecting [] cs.
Proof. unfold beat_through. by induction ws. Qed.
End beat.

Section interleaved.
Context {R F Q : Type} {RT : ContainerRuntime R} {L : RuntimeLaws RT}.
Abbreviation W := (World R F Q).

(** What the rest of a heartbeat over [snapshot] adds when its turns find [ws]. *)
Record sound (ws : list W) (snapshot : list (string * string)) (l : list ContainerHeartbeat) : Prop := {
  so_order : (hb_server_id <$> l) `sublist_of` snapshot.*1;
  so_true hb : hb ∈ l -> exists id w, (hb_server_id hb, id) ∈ snapshot /\ w ∈ ws /\
    known w !! id = Some (hb_running hb);
  so_all sid id : (sid, id) ∈ snapshot -> (forall w, w ∈ ws -> is_Some (known w !! id)) ->
    sid ∈ hb_server_id <$> l;
}.

Lemma sound_nil ws : sound ws [] [].
Proof. split; [done|set_solver..]. Qed.

(** A container that is gone is left out. *)
Lemma sound_skip w ws ws' kv snapshot l :
  w ∈ ws' -> ws ⊆ ws' -> known w !! kv.2 = None -> sound ws snapshot l -> sound ws' (kv :: snapshot) l.
Proof.
  intros Hw Hsub Hn [Ho Ht Ha]. split.
  - by apply sublist_cons.
  - intros hb (id & w' & ? & ? & ?)%Ht. exists id, w'. set_solver.
  - intros sid id [<-|Hin]%elem_of_cons Hall.
    + destruct (Hall w Hw) as [b Hb]. cbn in Hn. congruence.
    + apply (Ha sid id Hin). set_solver.
Qed.

(** One that is there is reported as its inspection found it. *)
Lemma sound_cons w ws ws' kv snapshot hb l :
  w ∈ ws' -> ws ⊆ ws' -> hb_server_id hb = kv.1 -> known w !! kv.2 = Some (hb_running hb) ->
  sound ws snapshot l -> sound ws' (kv :: snapshot) (hb :: l).
Proof.
  intros Hw Hsub Hid Hk [Ho Ht Ha]. split.
  - cbn. rewrite Hid. by apply sublist_skip.
  - intros hb' [->|(id & w' & ? & ? & ?)%Ht]%elem_of_cons; [|exists id, w'; set_solver].
    exists kv.2, w. split_and!; [|done..]. rewrite Hid. destruct kv. set_solver.
  - intros sid id [<-|Hin]%elem_of_cons Hall; [set_solver|].
    apply list_elem_of_further, (Ha sid id Hin). set_solver.
Qed.

Lemma known_inspected (kv : string * string) (w : W) :
  match (on_rt (rt_inspect kv.2) w).2 with
  | Ok st => known w !! kv.2 = Some (cs_running st)
  | Err _ => known w !! kv.2 = None
  end.
Proof.
  unfold on_rt, known. destruct (rt_inspect kv.2 (w_rt w)) as [r [st|e]] eqn:Hi; cbn.
  - by eapply law_inspect.
  - destruct (containers_of (w_rt w) !! kv.2) eqn:Hk; [|done].
    destruct (law_inspect_total kv.2 (w_rt w)) as (? & ? & ?); [by eexists|congruence].
Qed.

Lemma beat_through_sound snapshot cs (ws : list W) :
  2 * length snapshot <= length ws ->
  exists l, beat_through ws (Inspecting snapshot cs) = Inspecting [] (cs ++ l) /\ sound ws snapshot l.
Proof.
  revert cs ws. induction snapshot as [|kv snapshot IH]; intros cs ws Hn.
  { exists []. rewrite app_nil_r, beat_through_done. split; [done|].
    split; [done|set_solver..]. }
  cbn in Hn. destruct ws as [|w1 [|w2 ws]]; cbn in Hn; [lia..|].
  rewrite beat_through_cons. cbn [beat_turn]. pose proof (known_inspected kv w1) as Hk.
  destruct (on_rt (rt_inspect kv.2) w1) as [w' [st|e]]; cbn [snd] in Hk |- *; [destruct (cs_running st) eqn:Hr; cbn [snd]|].
  - rewrite beat_through_cons. cbn [beat_turn]. destruct (on_rt (rt_stats kv.2) w2) as [w'' r]. cbn [snd].
    destruct (IH (cs ++ [entry_of kv st (result_ok r)]) ws) as (l & -> & Hl); [lia|].
    exists (entry_of kv st (result_ok r) :: l). rewrite <- app_assoc. split; [done|].
    eapply (sound_cons w1 ws); [set_solver|set_solver| | |exact Hl]; destruct (result_ok r); cbn; congruence.
  - destruct (IH (cs ++ [entry_of kv st None]) (w2 :: ws)) as (l & Hl & Hs); [cbn; lia|].
    exists (entry_of kv st None :: l). rewrite Hl, <- app_assoc. split; [done|].
    eapply (sound_cons w1 (w2 :: ws)); [set_solver|set_solver| | |exact Hs]; cbn; congruence.
  - destruct (IH cs (w2 :: ws)) as (l & Hl & Hs); [cbn; lia|].
    exists l. rewrite Hl. split; [done|].
    eapply (sound_skip w1 (w2 :: ws)); [set_solver..|done|exact Hs].
Qed.

End interleaved.

(** ** What the panel can read *)

Section typed.
Context {R F Q : Type} {RT : ContainerRuntime R} {T : RuntimeTypes RT}.
Abbreviation W := (World R F Q).

Definition collected (b : beat) : list ContainerHeartbeat :=
  match b with Inspecting _ cs | Measuring _ _ _ cs => cs end.
Definition beat_ok (b : beat) : Prop := Forall container_heartbeat_ok (collected b).

Lemma entry_ok kv st stats :
  (forall x, stats = Some x -> stats_ok x) -> container_heartbeat_ok (entry_of kv st stats).
Proof.
  intros Hs. destruct stats as [x|]; [by destruct (Hs x eq_refl) as (?&?&?&?&?)|].
  unfold container_heartbeat_ok, finite_f64, in_u64, u64_max. cbn. split; [done|]. lia.
Qed.

Lemma beat_turn_ok b (w : W) : beat_ok b -> beat_ok (beat_turn b w).2.
Proof.
  unfold beat_ok. destruct b as [[|kv l] cs|kv st l cs]; cbn [beat_turn]; intros Hb; [done|..]; unfold on_rt.
  - destruct (rt_inspect kv.2 (w_rt w)) as [r [st|e]]; [|done].
    destruct (cs_running st); [done|]. cbn [snd collected]. apply Forall_app. split; [done|].
    by apply Forall_singleton, entry_ok.
  - pose proof (law_stats_typed kv.2 (w_rt w)) as Ht. destruct (rt_stats kv.2 (w_rt w)) as [r x].
    cbn [snd collected] in *.
    apply Forall_app. split; [done|]. apply Forall_singleton, entry_ok. intros y Hy. apply Ht.
    by destruct x; simplify_eq/=.
Qed.

Lemma beat_through_ok (ws : list W) b : beat_ok b -> beat_ok (beat_through ws b).
Proof. revert b. induction ws as [|w ws IH]; intros b Hb; [done|]. by apply IH, beat_turn_ok. Qed.
Lemma beat_alone_ok n b (w : W) : beat_ok b -> beat_ok (beat_alone n b w).2.
Proof.
  revert b w. induction n as [|n IH]; intros b w Hb; [done|]. cbn.
  pose proof (beat_turn_ok b w Hb) as Hb'. destruct (beat_turn b w). by apply IH.
Qed.

Lemma beat_ok_readable b hb :
  beat_ok b -> beat_done b = Some hb -> dec_heartbeat (enc_heartbeat hb) = Some hb.
Proof. intros Hb Hd. destruct b as [[|] cs|]; simplify_eq/=. by apply dec_heartbeat_enc. Qed.

(** Every turn is one step nearer to the end. *)
Definition beat_left (b : beat) : nat :=
  match b with Inspecting l _ => 2 * length l | Measuring _ _ l _ => S (2 * length l) end.
Lemma beat_turn_left b (w : W) : beat_left (beat_turn b w).2 <= beat_left b - 1.
Proof.
  destruct b as [[|kv l] cs|kv st l cs]; cbn [beat_turn]; [cbn; lia|..]; unfold on_rt.
  - destruct (rt_inspect kv.2 (w_rt w)) as [r [st|e]]; [destruct (cs_running st)|]; cbn; lia.
  - destruct (rt_stats kv.2 (w_rt w)) as [r x]. cbn. lia.
Qed.
Lemma beat_through_left (ws : list W) b : beat_left (beat_through ws b) <= beat_left b - length ws.
Proof.
  revert b. induction ws as [|w ws IH]; intros b; [cbn; lia|]. rewrite beat_through_cons.
  pose proof (IH (beat_turn b w).2). pose proof (beat_turn_left b w). cbn [length]. lia.
Qed.

(** Whatever the runtime does and whatever comes in between, a heartbeat is
    produced, and the panel reads it back exactly: no CPU percentage turns into
    [null], no counter leaves its range. *)
Lemma heartbeat_readable (w : W) (ws : list W) :
  match beat_done (beat_through ws (beat_new w)) with
  | Some hb => dec_heartbeat (enc_heartbeat hb) = Some hb
  | None => length ws < 2 * size (tracked w)
  end /\
  exists w' hb, heartbeat w = (w', Ok hb) /\ dec_heartbeat (enc_heartbeat hb) = Some hb.
Proof.
  assert (Hnew : beat_ok (beat_new w)) by constructor. split.
  - destruct (beat_done _) as [hb|] eqn:Hd; [by eapply beat_ok_readable; [apply beat_through_ok|]|].
    pose proof (beat_through_left ws (beat_new w)) as Hl. unfold beat_new at 2 in Hl. cbn [beat_left] in Hl.
    rewrite length_map_to_list in Hl.
    destruct (beat_through ws (beat_new w)) as [[|] cs|]; [done|cbn in Hl; lia..].
  - pose proof (beat_alone_heartbeat _ w (le_n _)) as Ha.
    pose proof (beat_alone_ok (2 * size (tracked w)) _ w Hnew) as Hok.
    destruct (beat_alone _ (beat_new w) w) as [w' b]. destruct Ha as (hb & Hd & ->).
    exists w', hb. split; [done|]. by eapply beat_ok_readable.
Qed.
End typed.

(** ** On a node in memory *)

