(* ===== verification/DockerNode.v ===== *)
(** * The node: a dispatcher over the Docker runtime

    The dispatcher is written against the runtime interface; here it runs over
    the Docker implementation, as main.rs puts them together: what a restarted
    daemon knows, what its first commands then do, and what it reports. *)

From S2P Require Import Prelude Trace RustStr Json Instances Payloads Wire Config Firewall Http.
From S2P Require Import Runtime FakeRuntime Docker Db Fs Backup MemFs Dispatcher ToyNode.
From S2P Require Import DispatcherSpec DispatcherWire Heartbeat.
From stdpp Require Import options.
Set Default Proof Using "Type*".

Section node.
Context {E F Q : Type} `{Engine E} `{Host} `{HttpParse} `{SerdeJson}.
Context `{FileSystem F} `{Archive F} `{MariaDb Q} `{Base64}.
Variable rt : DockerRuntime.
Variable d : Dispatcher.
#[local] Instance docker : ContainerRuntime (DState E) := docker_runtime rt.
Abbreviation W := (World (DState E) F Q).

(** The containers the Engine listed in its answer. *)
Definition listed_items (x : result (Z * list byte)) : list ListItem :=
  match x with
  | Ok (status, body) =>
      if (status =? 200)%Z then default [] (from_text (of_bytes body) ≫= dec_vec dec_list_item) else []
  | Err _ => []
  end.

(** The container of [sid] among those listed: the first that carries its label,
    or, without a label, a name made of its UUID. *)
Definition container_of (sid : string) (items : list ListItem) : option string :=
  li_id <$> head (filter (fun it => server_id_from (li_names it) (li_labels it) = Some sid) items).

(** ** Listing *)

Lemma first_for_managed sid items :
  first_for sid (omap managed_of items) = container_of sid items.
Proof.
  unfold first_for, container_of. induction items as [|it items IH]; [done|].
  cbn [omap list_omap]. rewrite managed_of_spec.
  destruct (server_id_from (li_names it) (li_labels it)) as [s|] eqn:Hs; cbn [fmap option_fmap option_map].
  - destruct (decide (s = sid)) as [->|Hne].
    + by rewrite !filter_cons_True.
    + rewrite !filter_cons_False by (rewrite ?Hs; cbn; congruence). exact IH.
  - rewrite filter_cons_False by (rewrite Hs; done). exact IH.
Qed.

(** What the one request of a listing answered, and what came of it. *)
Lemma list_managed_answer :
  issues calls (list_managed rt) (fun cs r => exists x, cs = [call "GET" list_path x] /\
    forall sid, first_for sid (default [] (result_ok r)) = container_of sid (listed_items x)).
Proof.
  unfold list_managed. eapply issues_mono.
  { eapply issues_bind; [apply issues_expect|]. intros body.
    eapply issues_bind; [apply issues_lift|]. intros items. apply issues_ret. }
  intros cs r (cs1 & r1 & (x & -> & Hx) & Hr). exists x. destruct r1 as [body|e].
  - destruct Hx as (st & -> & ->%list_elem_of_singleton).
    destruct Hr as (cs2 & -> & cs3 & r3 & [-> ->] & Hr). unfold from_slice, ok_or in Hr. cbn [listed_items Z.eqb Pos.eqb].
    destruct (from_text (of_bytes body) ≫= dec_vec dec_list_item) as [items|] eqn:Hd.
    + destruct Hr as (cs4 & -> & -> & ->). split; [done|]. intros sid. apply first_for_managed.
    + destruct Hr as [-> ->]. by split.
  - destruct Hr as [-> ->]. split; [done|]. intros sid. unfold listed_items.
    destruct x as [[st body]|e']; [|done]. destruct (Z.eqb_spec st 200) as [->|]; [|done].
    destruct (Hx 200%Z body eq_refl). apply list_elem_of_singleton; done.
Qed.

(** ** Restarting *)

(** Starting up makes one request, the listing of all containers, and tracks
    what it says; no console is reattached. *)
Lemma reconcile_adopts (s : DState E) (f : F) (q : Q) :
  let w := (reconcile (world_new s f q) : W * result unit).1 in
  exists x, calls (w_rt w) = calls s ++ [call "GET" list_path x] /\ consoles w = ∅ /\
    forall sid, tracked w !! sid = container_of sid (listed_items x).
Proof.
  intros w. destruct (list_managed_answer s) as (cs & Hc & x & -> & Hx). exists x.
  pose proof (reconcile_spec (world_new s f q : W)) as Hr. fold w in Hr.
  unfold w. unfold reconcile, on_rt in *. revert Hr. run. cbn [w_rt world_new rt_list_managed docker docker_runtime].
  destruct (list_managed rt s) as [s' [found|e]]; cbn in Hc, Hx |- *; intros (_ & _ & _ & Ht);
    (split; [exact Hc|]); (split; [done|]); intros sid; rewrite <- Hx; rewrite Ht; done.
Qed.

(** The commands that stop a container: the request each makes, and the statuses
    it accepts. *)
Definition stopping (a : Action) : Prop := a = Stop \/ a = Kill \/ a = Remove.
Definition stop_request (a : Action) (id : string) : string * string :=
  match a with
  | Stop => ("POST", "/containers/" +:+ id +:+ "/stop?t=15")
  | Kill => ("POST", "/containers/" +:+ id +:+ "/kill")
  | _ => ("DELETE", remove_path id)
  end.
Definition stop_statuses (a : Action) : list Z :=
  match a with Stop => [204; 304]%Z | _ => [204]%Z end.
Definition stop_op (a : Action) (id : string) : M (DState E) unit :=
  match a with Stop => rt_stop id 15 | Kill => rt_kill id | _ => rt_remove id end.

(** The call made for [a], and whether it was done. *)
Definition stop_call (a : Action) (id : string) (y : result (Z * list byte)) : Call :=
  call (stop_request a id).1 (stop_request a id).2 y.
Definition stopped (a : Action) (y : result (Z * list byte)) : Prop :=
  exists st b, y = Ok (st, b) /\ st ∈ stop_statuses a.

Lemma stop_op_issues a id :
  stopping a ->
  issues calls (stop_op a id) (fun cs r => exists y, cs = [stop_call a id y] /\ (r = Ok tt <-> stopped a y)).
Proof. intros [-> | [-> | ->]]; apply issues_expect_unit. Qed.

Lemma stopping_command now cmd id (w : W) :
  stopping (cmd_action cmd) -> named_container cmd w = Some id ->
  let '(w', ack) := handle d now cmd w in
  exists y, calls (w_rt w') = calls (w_rt w) ++ [stop_call (cmd_action cmd) id y] /\
    (ack_ok ack = true <-> stopped (cmd_action cmd) y).
Proof.
  intros Ha Hn. destruct (stop_op_issues _ id Ha (w_rt w)) as (cs & Hc & y & -> & Hr).
  unfold handle, handle_inner.
  destruct Ha as [Ha | [Ha | Ha]]; rewrite Ha in *; unfold stop_op in Hc, Hr;
    unfold mbind at 1, M_bind at 1; rewrite container_for_spec, Hn; cbn [ok_or]; run; unfold on_rt;
    match goal with |- context [match ?op (w_rt w) with _ => _ end] =>
      destruct (op (w_rt w)) as [s' [[]|e]] end;
    exists y; (split; [exact Hc|]); rewrite <- Hr; done.
Qed.

Lemma unknown_container now cmd (w : W) :
  stopping (cmd_action cmd) -> named_container cmd w = None ->
  let '(w', ack) := handle d now cmd w in w' = w /\ ack_ok ack = false.
Proof.
  intros Ha Hn. unfold handle, handle_inner.
  destruct Ha as [Ha | [Ha | Ha]]; rewrite Ha; unfold mbind at 1, M_bind at 1;
    rewrite container_for_spec, Hn; done.
Qed.

(** C16: what a restarted daemon controls. Starting up makes one request, the
    listing of all containers, and reattaches no console. The first stop, kill
    or remove of a server then makes one more, for the first listed container
    that carries the server's label or, without a label, a name made of its
    UUID, and succeeds exactly when the Engine does it; with no such container,
    or no listing, the command is refused and no request is made. *)
Theorem restart_controls (s : DState E) (f : F) (q : Q) now cmd :
  stopping (cmd_action cmd) -> cmd_container_id cmd = None ->
  let w := (reconcile (world_new s f q) : W * result unit).1 in
  let '(w', ack) := handle d now cmd w in
  exists x, calls (w_rt w) = calls s ++ [call "GET" list_path x] /\ consoles w = ∅ /\
    match container_of (cmd_server_id cmd) (listed_items x) with
    | Some id =>
        exists y, calls (w_rt w') = calls (w_rt w) ++ [stop_call (cmd_action cmd) id y] /\
          (ack_ok ack = true <-> stopped (cmd_action cmd) y)
    | None => calls (w_rt w') = calls (w_rt w) /\ ack_ok ack = false
    end.
Proof.
  intros Ha Hid w. destruct (reconcile_adopts s f q) as (x & Hc & Hco & Ht). fold w in Hc, Hco, Ht.
  assert (Hn : named_container cmd w = container_of (cmd_server_id cmd) (listed_items x))
    by (unfold named_container; by rewrite Hid, Ht).
  destruct (container_of _ _) as [id|] eqn:Hcid.
  - pose proof (stopping_command now cmd id w Ha Hn) as Hs. destruct (handle d now cmd w) as [w' ack].
    destruct Hs as (y & Hy & Hok). exists x. rewrite Hcid. eauto.
  - pose proof (unknown_container now cmd w Ha Hn) as Hs.
    destruct (handle d now cmd w) as [w' ack]. destruct Hs as [-> Hok]. exists x. by rewrite Hcid.
Qed.

(** ** Reporting *)

(** C21: the node can always be seen. Whatever the Engine answers and whatever
    commands, streams and containers do in between, a heartbeat is produced, and
    the panel reads it back exactly: no CPU percentage turns into [null], no
    counter leaves its range. *)
Theorem node_heartbeat_readable (w : W) (ws : list W) :
  match beat_done (beat_through ws (beat_new w)) with
  | Some hb => dec_heartbeat (enc_heartbeat hb) = Some hb
  | None => length ws < 2 * size (tracked w)
  end /\
  exists w' hb, heartbeat w = (w', Ok hb) /\ dec_heartbeat (enc_heartbeat hb) = Some hb.
Proof. exact (heartbeat_readable w ws). Qed.
End node.

(** ** On a small Engine *)

(** A listing with a foreign container and the one of [s2], then a stop. *)
Definition restarted : DState Canned.state :=
  Canned.initial [Canned.response "200" (as_bytes (default "" (result_ok (to_text sample_listing))));
                  Canned.response "204" []].
Definition stop_s2 : CommandPayload :=
  {| cmd_command_id := "c"; cmd_action := Stop; cmd_server_id := "s2"; cmd_container_id := None;
     cmd_spec := None; cmd_image := None; cmd_input := None; cmd_path := None;
     cmd_new_path := None; cmd_content_base64 := None; cmd_database_name := None;
     cmd_database_user := None; cmd_database_password := None |}.

Abbreviation restarted_run :=
  (let RT := docker_runtime Canned.runtime in
   handle Toy.node 7 stop_s2
     (reconcile (world_new restarted Toy.disk (∅, false : bool) : World _ memfs ToyDb.state)).1).

Lemma restart_controls_witness :
  ack_ok restarted_run.2 = true /\
  (c_path <$> calls (w_rt restarted_run.1)) = [list_path; "/containers/c2/stop?t=15"] /\
  exists x id y, calls (w_rt restarted_run.1) = [call "GET" list_path x; stop_call Stop id y] /\
    container_of "s2" (listed_items x) = Some id /\ stopped Stop y.
Proof.
  pose proof (restart_controls Canned.runtime Toy.node restarted Toy.disk (∅, false) 7 stop_s2
    (or_introl eq_refl) eq_refl) as H. cbv zeta in H.
  assert (Hok : ack_ok restarted_run.2 = true) by (vm_compute; reflexivity).
  split; [exact Hok|]. split; [vm_compute; reflexivity|].
  rewrite (surjective_pairing (handle Toy.node 7 stop_s2 _)) in H.
  destruct H as (x & Hc & _ & Hm). change (cmd_server_id stop_s2) with "s2" in Hm.
  destruct (container_of "s2" (listed_items x)) as [id|] eqn:Hid.
  - destruct Hm as (y & Hy & Hs). exists x, id, y. split; [|split; [exact Hid|by apply Hs]].
    rewrite Hc in Hy. exact Hy.
  - destruct Hm as [_ Hf]. exfalso. discriminate (eq_trans (eq_sym Hok) Hf).
Defined.
