(* ===== verification/Task.v ===== *)
(** * Commands as tasks

    A spawned command runs interleaved with others. A [task] is such a command
    cut at the points where it awaits, takes a lock or uses a channel: what it
    does up to the next such point, given the wall clock and the state it finds
    there. [run_task] runs a task alone; [steps_in], [bounded] and [returning]
    say what each of its turns does, how many there can be and what it returns,
    whatever happens in between. *)

From S2P Require Import Prelude Trace.
From stdpp Require Import options.
Set Default Proof Using "Type*".

Inductive task (W A : Type) :=
| Done (r : result A)
| Step (f : Z -> W -> W * task W A).
Arguments Done {W A} _.
Arguments Step {W A} _.

Section task.
Context {W : Type}.

Global Instance task_ret : MRet (task W) := fun A a => Done (Ok a).
Global Instance task_bind : MBind (task W) := fun A B k =>
  fix go t :=
    match t with
    | Done (Ok a) => k a
    | Done (Err e) => Done (Err e)
    | Step f => Step (fun now w => let '(w', t') := f now w in (w', go t'))
    end.

(** One turn, one that reads the clock, and code between two turns. *)
Definition timed {A} (m : Z -> M W A) : task W A :=
  Step (fun now w => let '(w', r) := m now w in (w', Done r)).
Definition atomic {A} (m : M W A) : task W A := timed (fun _ => m).
Definition pure {A} (r : result A) : task W A := Done r.

(** The outcome as a value, as [mtry] has it. *)
Fixpoint task_try {A} (t : task W A) : task W (result A) :=
  match t with
  | Done r => Done (Ok r)
  | Step f => Step (fun now w => let '(w', t') := f now w in (w', task_try t'))
  end.

(** Run alone, at the time [now]. *)
Fixpoint run_task {A} (now : Z) (t : task W A) (w : W) : W * result A :=
  match t with
  | Done r => (w, r)
  | Step f => let '(w', t') := f now w in run_task now t' w'
  end.

(** Every turn of the task is in [G], whatever states it finds. *)
Fixpoint steps_in {A} (G : W -> W -> Prop) (t : task W A) : Prop :=
  match t with
  | Done _ => True
  | Step f => forall now w, let '(w', t') := f now w in G w w' /\ steps_in G t'
  end.

(** Whatever it returns is in [P]. *)
Fixpoint returning {A} (P : A -> Prop) (t : task W A) : Prop :=
  match t with
  | Done (Ok a) => P a
  | Done (Err _) => True
  | Step f => forall now w, let '(_, t') := f now w in returning P t'
  end.

(** What it can return, over all states its turns may find. *)
Inductive outcome {A} : task W A -> result A -> Prop :=
| outcome_done r : outcome (Done r) r
| outcome_step f now w r : outcome (f now w).2 r -> outcome (Step f) r.

(** It ends within [n] turns, whatever states it finds. *)
Fixpoint bounded {A} (n : nat) (t : task W A) {struct t} : Prop :=
  match t with
  | Done _ => True
  | Step f => match n with 0 => False | S n' => forall now w, let '(_, t') := f now w in bounded n' t' end
  end.
End task.

(** ** Lemmas *)

Section lemmas.
Context {W : Type}.

Lemma task_ind' {A} (P : task W A -> Prop) :
  (forall r, P (Done r)) -> (forall f, (forall now w, P (f now w).2) -> P (Step f)) -> forall t, P t.
Proof.
  intros HD HS. fix IH 1. intros [r|f]; [apply HD|]. apply HS. intros now w.
  destruct (f now w) as [w' t']. apply IH.
Qed.

Lemma run_task_bind {A B} now (t : task W A) (k : A -> task W B) w :
  run_task now (t ≫= k) w = mbind (M := M W) (fun a => run_task now (k a)) (run_task now t) w.
Proof.
  unfold mbind at 2, M_bind. revert w. induction t as [r|f IH] using task_ind'; intros w.
  - by destruct r.
  - cbn. specialize (IH now w). destruct (f now w) as [w' t']. apply IH.
Qed.

Lemma run_task_try {A} now (t : task W A) w :
  run_task now (task_try t) w = mtry (run_task now t) w.
Proof.
  unfold mtry. revert w. induction t as [r|f IH] using task_ind'; intros w; [done|].
  cbn. specialize (IH now w). destruct (f now w) as [w' t']. apply IH.
Qed.

Lemma run_task_timed {A} now (m : Z -> M W A) w : run_task now (timed m) w = m now w.
Proof. cbn. by destruct (m now w). Qed.
Lemma run_task_atomic {A} now (m : M W A) w : run_task now (atomic m) w = m w.
Proof. apply run_task_timed. Qed.

Lemma steps_in_bind {A B} G (t : task W A) (k : A -> task W B) :
  steps_in G t -> (forall a, steps_in G (k a)) -> steps_in G (t ≫= k).
Proof.
  intros Ht Hk. induction t as [r|f IH] using task_ind'.
  - by destruct r; cbn.
  - cbn in Ht |- *. intros now w. specialize (IH now w). specialize (Ht now w).
    destruct (f now w) as [w' t']. destruct Ht as [Hg Ht]. split; [done|]. by apply IH.
Qed.

Lemma steps_in_timed {A} (G : W -> W -> Prop) (m : Z -> M W A) :
  (forall now w, G w (m now w).1) -> steps_in G (timed m).
Proof. intros Hm now w. specialize (Hm now w). by destruct (m now w). Qed.
Lemma steps_in_atomic {A} (G : W -> W -> Prop) (m : M W A) :
  (forall w, G w (m w).1) -> steps_in G (atomic m).
Proof. intros Hm. by apply steps_in_timed. Qed.

Lemma steps_in_try {A} (G : W -> W -> Prop) (t : task W A) : steps_in G t -> steps_in G (task_try t).
Proof.
  induction t as [r|f IH] using task_ind'; [done|]. cbn. intros Ht now w.
  specialize (IH now w). specialize (Ht now w). destruct (f now w) as [w' t']. naive_solver.
Qed.

(** Code between turns has a known outcome afterwards. *)
Lemma steps_in_pure_bind {A B} G (r : result A) (k : A -> task W B) :
  (forall a, r = Ok a -> steps_in G (k a)) -> steps_in G (pure r ≫= k).
Proof. intros Hk. destruct r; cbn; [by apply Hk|done]. Qed.

Lemma steps_in_mono {A} (G G' : W -> W -> Prop) (t : task W A) :
  (forall w w', G w w' -> G' w w') -> steps_in G t -> steps_in G' t.
Proof.
  intros HG. induction t as [r|f IH] using task_ind'; [done|]. cbn. intros Ht now w.
  specialize (IH now w). specialize (Ht now w). destruct (f now w) as [w' t']. naive_solver.
Qed.

Lemma returning_bind {A B} (P : B -> Prop) (t : task W A) (k : A -> task W B) :
  (forall a, returning P (k a)) -> returning P (t ≫= k).
Proof.
  intros Hk. induction t as [r|f IH] using task_ind'.
  - by destruct r; cbn.
  - cbn. intros now w. specialize (IH now w). destruct (f now w). apply IH.
Qed.

Lemma returning_outcome {A} (P : A -> Prop) (t : task W A) a :
  returning P t -> outcome t (Ok a) -> P a.
Proof.
  intros Ht Ho. remember (Ok a) as r eqn:Hr. induction Ho as [r|f now w r Ho IH]; [by subst|].
  apply IH; [|done]. specialize (Ht now w). by destruct (f now w).
Qed.

(** Run alone, it returns one of them. *)
Lemma run_task_outcome {A} now (t : task W A) w : outcome t (run_task now t w).2.
Proof.
  revert w. induction t as [r|f IH] using task_ind'; intros w; [constructor|].
  cbn. specialize (IH now w). destruct (f now w) as [w' t'] eqn:Hf.
  apply (outcome_step f now w). rewrite Hf. apply IH.
Qed.

Lemma bounded_mono {A} n m (t : task W A) : n <= m -> bounded n t -> bounded m t.
Proof.
  revert n m. induction t as [r|f IH] using task_ind'; [by intros; cbn|].
  intros [|n] m Hle Hb; [by cbn in Hb|]. destruct m as [|m]; [lia|]. cbn in Hb |- *.
  intros now w. specialize (IH now w). specialize (Hb now w). destruct (f now w) as [w' t'].
  eapply IH; [|done]. lia.
Qed.

Lemma bounded_bind {A B} n m (t : task W A) (k : A -> task W B) :
  bounded n t -> (forall a, bounded m (k a)) -> bounded (n + m) (t ≫= k).
Proof.
  intros Ht Hk. revert n Ht. induction t as [r|f IH] using task_ind'; intros n Ht.
  - destruct r; cbn; [|done]. eapply bounded_mono; [|apply Hk]. lia.
  - destruct n as [|n]; [by cbn in Ht|]. cbn in Ht |- *. intros now w. specialize (IH now w).
    specialize (Ht now w). destruct (f now w) as [w' t']. by apply IH.
Qed.

Lemma bounded_try {A} n (t : task W A) : bounded n t -> bounded n (task_try t).
Proof.
  revert n. induction t as [r|f IH] using task_ind'; intros n Ht; [done|].
  destruct n as [|n]; [by cbn in Ht|]. cbn in Ht |- *. intros now w. specialize (IH now w).
  specialize (Ht now w). destruct (f now w) as [w' t']. by apply IH.
Qed.

Lemma bounded_timed {A} (m : Z -> M W A) : bounded 1 (timed m).
Proof. intros now w. by destruct (m now w). Qed.

(** The rest of a task after one of its turns. *)
Lemma steps_in_turn {A} G (f : Z -> W -> W * task W A) now w :
  steps_in G (Step f) -> G w (f now w).1 /\ steps_in G (f now w).2.
Proof. intros H. specialize (H now w). by destruct (f now w). Qed.

Lemma bounded_turn {A} n (f : Z -> W -> W * task W A) now w :
  bounded (S n) (Step f) -> bounded n (f now w).2.
Proof. intros H. specialize (H now w). by destruct (f now w). Qed.

Lemma returning_turn {A} (P : A -> Prop) (f : Z -> W -> W * task W A) now w :
  returning P (Step f) -> returning P (f now w).2.
Proof. intros H. specialize (H now w). by destruct (f now w). Qed.
End lemmas.
