(* ===== verification/ConsoleStream.v ===== *)
(** * Console streams (daemon/src/agent/dispatcher.rs:566-577)

    The task a started console leaves behind, cut into turns at the points where
    it awaits or takes the lock, and what must hold of the console map and these
    tasks together. *)

From S2P Require Import Prelude RustStr Payloads Runtime FakeRuntime Db Fs Backup MemFs.
From S2P Require Import Dispatcher ToyNode.
From stdpp Require Import options.
Set Default Proof Using "Type*".

(** In the loop, and after it, before the entry is removed. *)
Inductive stream := Pumping (t : PumpTask) | Ending (t : PumpTask).
Definition pump_of (s : stream) : PumpTask := match s with Pumping t | Ending t => t end.

Section stream.
Context {R F Q : Type} `{ContainerRuntime R}.
Abbreviation W := (World R F Q).

(** One turn: what it does to the world, and what becomes of the stream. *)
Definition stream_turn (s : stream) (w : W) : W * option stream :=
  match s with
  | Pumping t =>
      let '(r, x) := console_recv (pt_output t) (w_rt w) in
      let w := set_rt r w in
      match x with
      | Pending => (w, Some (Pumping t))
      | Line line =>
          if events_open w
          then (push_event {| ev_server_id := pt_server_id t; ev_kind := ConsoleLine;
                              ev_message := line |} w, Some (Pumping t))
          else (w, Some (Ending t))
      | Closed => (w, Some (Ending t))
      end
  | Ending t => (set_consoles (delete (pt_server_id t) (consoles w)) w, None)
  end.

(** Without interference. *)
Fixpoint solo (n : nat) (s : stream) (w : W) : W * option stream :=
  match n with
  | 0 => (w, Some s)
  | S n' => match stream_turn s w with
            | (w', Some s') => solo n' s' w'
            | (w', None) => (w', None)
            end
  end.

(** Run alone, the turns are one round of the spawned loop. *)
Lemma solo_pump_turn t (w : W) :
  let '(w', next) := pump_turn t w in
  solo (if next then 1 else 2) (Pumping t) w = (w', Pumping <$> next).
Proof.
  unfold pump_turn. destruct (console_recv (pt_output t) (w_rt w)) as [r [line| |]] eqn:Hr.
  - destruct (events_open (set_rt r w)) eqn:Ho; cbn [solo stream_turn]; rewrite Hr, Ho; done.
  - cbn [solo stream_turn]. by rewrite Hr.
  - cbn [solo stream_turn]. by rewrite Hr.
Qed.

Lemma stream_turn_events s (w : W) : events w `prefix_of` events (stream_turn s w).1.
Proof.
  destruct s as [t|t]; cbn [stream_turn]; [|done].
  destruct (console_recv (pt_output t) (w_rt w)) as [r [l| |]]; cbn; [|done..].
  destruct (events_open w) eqn:Ho; cbn; [|done]. rewrite Ho. by eexists.
Qed.

(** ** The console map and the streams *)

(** A registered console has a stream of its own that still runs, the streams'
    consoles are distinct, and fresh ones will be too. *)
Record stream_ok (w : W) (ts : list PumpTask) : Prop := {
  ok_pump sid a : consoles w !! sid = Some a ->
    exists t, t ∈ ts /\ pt_server_id t = sid /\ pt_console t = ac_id a;
  ok_fresh t : t ∈ ts -> pt_console t < next_console w;
  ok_nodup : NoDup (pt_console <$> ts);
}.

Lemma stream_ok_same (w w' : W) ts :
  consoles w' = consoles w -> next_console w' = next_console w -> stream_ok w ts -> stream_ok w' ts.
Proof. intros Hc Hn [H1 H2 H3]. split; by rewrite ?Hc, ?Hn. Qed.

Lemma stream_ok_delete sid (w w' : W) ts :
  consoles w' = delete sid (consoles w) -> next_console w' = next_console w ->
  stream_ok w ts -> stream_ok w' ts.
Proof.
  intros Hc Hn [H1 H2 H3]. split; rewrite ?Hc, ?Hn; [|done..].
  intros sid' a. rewrite lookup_delete_Some. intros [_ Ha]. by apply H1.
Qed.

Lemma stream_ok_spawn sid output stdin (w w' : W) ts :
  consoles w' = <[sid := {| ac_id := next_console w; ac_stdin := stdin |}]> (consoles w) ->
  next_console w' = S (next_console w) ->
  stream_ok w ts ->
  stream_ok w' (ts ++ [{| pt_server_id := sid; pt_console := next_console w; pt_output := output |}]).
Proof.
  intros Hc Hn [H1 H2 H3]. split; rewrite ?Hc, ?Hn.
  - intros sid' a. rewrite lookup_insert_Some. intros [[<- <-]|[Hne Ha]].
    + eexists. split; [apply elem_of_app; right; by apply list_elem_of_singleton|done].
    + destruct (H1 _ _ Ha) as (t & Hin & Ht). exists t. split; [set_solver|done].
  - intros t [Hin|Hin]%elem_of_app; [specialize (H2 t Hin); lia|].
    apply list_elem_of_singleton in Hin as ->. cbn. lia.
  - rewrite fmap_app. apply NoDup_app. split; [done|]. split; [|apply NoDup_singleton].
    intros n (t & -> & Hin)%list_elem_of_fmap Hn'%list_elem_of_singleton. cbn in Hn'.
    specialize (H2 t Hin). lia.
Qed.

Lemma stream_ok_end i t (w w' : W) ts :
  ts !! i = Some t -> consoles w' = delete (pt_server_id t) (consoles w) ->
  next_console w' = next_console w -> stream_ok w ts -> stream_ok w' (delete i ts).
Proof.
  intros Hi Hc Hn [H1 H2 H3].
  assert (Hsub : forall t', t' ∈ delete i ts -> t' ∈ ts).
  { rewrite delete_take_drop. intros t' [Hin|Hin]%elem_of_app;
      [by eapply subseteq_take|by eapply subseteq_drop]. }
  split; rewrite ?Hc, ?Hn.
  - intros sid a. rewrite lookup_delete_Some. intros [Hne Ha].
    destruct (H1 _ _ Ha) as (t' & Hin & Hs & Hid). exists t'. split; [|done].
    rewrite delete_take_drop. rewrite <- (take_drop_middle ts i t Hi) in Hin.
    set_unfold. destruct Hin as [?|[->|?]]; [by left|done|by right].
  - intros t' Hin. by apply H2, Hsub.
  - rewrite <- (take_drop_middle ts i t Hi), fmap_app, fmap_cons, <- Permutation_middle, NoDup_cons in H3.
    rewrite delete_take_drop, fmap_app. by destruct H3.
Qed.

Lemma stream_ok_turn i s (w : W) ss :
  ss !! i = Some s -> stream_ok w (pump_of <$> ss) ->
  let '(w', o) := stream_turn s w in
  stream_ok w' (pump_of <$> match o with Some s' => <[i := s']> ss | None => delete i ss end).
Proof.
  intros Hi Hok.
  assert (Hsame : forall s' w', pump_of s' = pump_of s -> consoles w' = consoles w ->
    next_console w' = next_console w -> stream_ok w' (pump_of <$> <[i := s']> ss)).
  { intros s' w' Hs Hc Hn. rewrite list_fmap_insert, Hs, list_insert_id.
    - by eapply stream_ok_same.
    - by rewrite list_lookup_fmap, Hi. }
  destruct s as [t|t]; cbn [stream_turn].
  - destruct (console_recv (pt_output t) (w_rt w)) as [r [line| |]]; [|by apply Hsame..].
    destruct (events_open _); by apply Hsame.
  - rewrite list_fmap_delete. eapply stream_ok_end; [by rewrite list_lookup_fmap, Hi|done..].
Qed.
End stream.

(** ** With the in-memory runtime *)

Definition line_event (sid line : string) : EventPayload :=
  {| ev_server_id := sid; ev_kind := ConsoleLine; ev_message := line |}.

Section forwards.
Context {F Q : Type}.
Variable uuid : nat -> string.
Local Instance rt : ContainerRuntime FakeState := fake_runtime uuid.
Abbreviation W := (World FakeState F Q).

(** A pump forwards every queued line of its container as one console event
    of its server, in order and without loss, and keeps running; it sends
    nothing else. *)
Theorem pump_forwards t lines (w : W) :
  channels (w_rt w) !! pt_output t = Some lines -> events_open w = true ->
  exists w', solo (length lines) (Pumping t) w = (w', Some (Pumping t)) /\
    events w' = events w ++ (line_event (pt_server_id t) <$> lines) /\
    channels (w_rt w') !! pt_output t = Some [] /\ consoles w' = consoles w.
Proof.
  revert w. induction lines as [|l lines IH]; intros w Hch Ho.
  { exists w. cbn. by rewrite app_nil_r. }
  assert (Hr : exists r, console_recv (pt_output t) (w_rt w) = (r, Line l) /\
    channels r !! pt_output t = Some lines).
  { cbn. unfold Fake.recv. rewrite Hch. eexists. split; [done|]. cbn. by rewrite lookup_insert_eq. }
  destruct Hr as (r & Hr & Hl).
  cbn [length solo stream_turn]. rewrite Hr. cbn [events_open set_rt]. rewrite Ho.
  match goal with |- context [solo _ _ ?w1] => destruct (IH w1) as (w' & -> & He & Hc & Hk) end.
  { done. }
  { done. }
  exists w'. split; [done|]. split_and!; [|done|done].
  rewrite He. cbn. rewrite Ho. by rewrite <- app_assoc.
Qed.
End forwards.
