(* ===== verification/Concurrent.v ===== *)
(** * Commands running side by side (daemon/src/agent/dispatcher.rs, session.rs)

    The session spawns every command as a task of its own, so commands, the
    console streams they leave behind and the containers themselves run
    interleaved on the dispatcher's shared state. [handle_task] is
    [Dispatcher::handle_inner] cut at its awaits, lock acquisitions and channel
    sends; [nstep] of Pool interleaves any number of such tasks. One call of the
    runtime and of the archive routines, and the two writes of console input
    under the console's own lock, are one turn each. *)

From S2P Require Import Prelude Trace RustStr Paths Json Payloads Runtime FakeRuntime Db Fs.
From S2P Require Import Backup MemFs Dispatcher ToyNode DispatcherSpec Task ConsoleStream.
From stdpp Require Import options.
Set Default Proof Using "Type*".

Create HintDb conc.

Section tasks.
Context {R F Q : Type} `{ContainerRuntime R} `{FileSystem F} `{Archive F} `{MariaDb Q} `{Base64}.
Variable d : Dispatcher.
Abbreviation W := (World R F Q).
Abbreviation T := (task W).

(** ** The routines, cut into turns *)

Definition console_task (server_id container_id : string) : T unit :=
  active ← atomic (gets (fun w => consoles w !! server_id));
  match active with
  | Some _ => mret tt
  | None =>
      console ← atomic (mtry (on_rt (rt_attach container_id)));
      match console with
      | Err _ => mret tt
      | Ok console => atomic (modify (fun w =>
          spawn_pump server_id (con_output console)
            (set_consoles (<[server_id := {| ac_id := next_console w;
                                             ac_stdin := con_stdin console |}]> (consoles w)) w)))
      end
  end.

Definition read_file_task (p : path) : T ReadFileResult :=
  md ← atomic (on_fs (mcontext "stat file" (metadata p)));
  if (MAX_FILE_BYTES <? md_len md)%Z then pure (Err (too_large (md_len md))) else
  bytes ← atomic (on_fs (mcontext "read file" (read p)));
  mret {| rf_content_base64 := b64_encode bytes; rf_size_bytes := Z.of_nat (length bytes) |}.

Definition write_file_task (p : path) (content_base64 : string) : T unit :=
  bytes ← pure (ok_or "decode base64 content" (b64_decode content_base64));
  if (MAX_FILE_BYTES <? Z.of_nat (length bytes))%Z
  then pure (Err (too_large (Z.of_nat (length bytes)))) else
  _ ← match parent p with
      | Some dir => atomic (on_fs (mcontext "create parent directory" (create_dir_all dir)))
      | None => mret tt
      end;
  atomic (on_fs (mcontext "write file" (write p bytes))).

Definition delete_path_task (p : path) : T unit :=
  md ← atomic (on_fs (mcontext "stat path" (metadata p)));
  if md_is_dir md then atomic (on_fs (mcontext "delete directory" (remove_dir_all p)))
  else atomic (on_fs (mcontext "delete file" (remove_file p))).

(** The clock is read after the directory was made. *)
Definition create_backup_task (server_id : string) : T BackupResult :=
  let src := volume d server_id in
  let dir := backups_of d server_id in
  _ ← atomic (on_fs (mcontext "create backups directory" (create_dir_all dir)));
  timed (fun now =>
    let filename := backup_filename now in
    let dest := join dir (as_bytes filename) in
    size_bytes ← on_fs (mcontext "create backup archive" (Backup.create_backup src dest));
    mret {| br_filename := filename; br_size_bytes := size_bytes |}).

(** Getting a connection and every query are one turn each; on an error of the
    block that creates the user and the grant the database and the user are
    dropped again. *)
Definition create_rest_task (name user pass : string) : T unit :=
  _ ← atomic (on_db (mcontext "create user" (query_drop (sql_create_user user pass))));
  atomic (on_db (mcontext "grant privileges" (query_drop (sql_grant name user)))).

Definition create_database_task (name user password : string) : T unit :=
  _ ← pure (context "invalid database name" (validate_ident name 64));
  _ ← pure (context "invalid database user" (validate_ident user 32));
  let pass := escape_sql_string password in
  _ ← atomic (on_db (mcontext "connect to MariaDB" conn));
  _ ← atomic (on_db (mcontext "create database" (query_drop (sql_create_db name))));
  rest ← task_try (create_rest_task name user pass);
  match rest with
  | Err e =>
      _ ← atomic (on_db (mtry (query_drop (sql_drop_db name))));
      _ ← atomic (on_db (mtry (query_drop (sql_drop_user user))));
      pure (Err e)
  | Ok _ =>
      _ ← atomic (on_db (mtry (query_drop sql_flush)));
      mret tt
  end.

Definition delete_database_task (name user : string) : T unit :=
  _ ← pure (context "invalid database name" (validate_ident name 64));
  _ ← pure (context "invalid database user" (validate_ident user 32));
  _ ← atomic (on_db (mcontext "connect to MariaDB" conn));
  _ ← atomic (on_db (mcontext "drop database" (query_drop (sql_drop_db name))));
  _ ← atomic (on_db (mtry (query_drop (sql_drop_user user))));
  _ ← atomic (on_db (mtry (query_drop sql_flush)));
  mret tt.

Definition handle_task (cmd : CommandPayload) : T (option json) :=
  let sid := cmd_server_id cmd in
  match cmd_action cmd with
  | Create =>
      spec ← pure (ok_or "create command missing spec" (cmd_spec cmd));
      id ← atomic (on_rt (rt_create spec));
      _ ← atomic (track sid id);
      mret None
  | PullImage =>
      image ← pure (ok_or "pull_image command missing image" (cmd_image cmd));
      _ ← atomic (emit_console sid ("[sky] pulling image " +:+ image +:+ "…"));
      _ ← atomic (on_rt (rt_pull image));
      _ ← atomic (emit_console sid "[sky] image ready");
      mret None
  | Start =>
      id ← atomic (container_for cmd);
      _ ← atomic (on_rt (rt_start id));
      _ ← atomic (track sid id);
      _ ← atomic (emit_state_changed sid "running");
      _ ← console_task sid id;
      mret None
  | Stop =>
      id ← atomic (container_for cmd);
      _ ← atomic (on_rt (rt_stop id 15));
      _ ← atomic (emit_state_changed sid "offline");
      mret None
  | Kill =>
      id ← atomic (container_for cmd);
      _ ← atomic (on_rt (rt_kill id));
      _ ← atomic (emit_state_changed sid "offline");
      mret None
  | Remove =>
      id ← atomic (container_for cmd);
      _ ← atomic (on_rt (rt_remove id));
      _ ← atomic (untrack sid);
      _ ← atomic (modify (fun w => set_consoles (delete sid (consoles w)) w));
      mret None
  | ConsoleInput =>
      input ← pure (ok_or "console_input command missing input" (cmd_input cmd));
      cs ← atomic (gets consoles);
      console ← pure (ok_or ("no active console session for server " +:+ sid) (cs !! sid));
      _ ← atomic (_ ← on_rt (console_write (ac_stdin console) (as_bytes input));
                  on_rt (console_write (ac_stdin console) ["010"%char]));
      mret None
  | ListFiles =>
      dir ← pure (resolve d sid (default "" (cmd_path cmd)));
      entries ← atomic (on_fs (list_files dir));
      mret (Some (to_value (enc_list_files {| lf_entries := entries |})))
  | ReadFile =>
      rel ← pure (ok_or "read_file missing path" (cmd_path cmd));
      p ← pure (resolve d sid rel);
      r ← read_file_task p;
      mret (Some (to_value (enc_read_file r)))
  | WriteFile =>
      rel ← pure (ok_or "write_file missing path" (cmd_path cmd));
      p ← pure (resolve d sid rel);
      content ← pure (ok_or "write_file missing content" (cmd_content_base64 cmd));
      _ ← write_file_task p content;
      mret None
  | RenameFile =>
      rel ← pure (ok_or "rename_file missing path" (cmd_path cmd));
      from ← pure (resolve d sid rel);
      rel' ← pure (ok_or "rename_file missing new_path" (cmd_new_path cmd));
      to ← pure (resolve d sid rel');
      _ ← atomic (on_fs (mcontext "rename file" (rename from to)));
      mret None
  | DeleteFile =>
      rel ← pure (ok_or "delete_file missing path" (cmd_path cmd));
      p ← pure (resolve d sid rel);
      _ ← delete_path_task p;
      mret None
  | Mkdir =>
      rel ← pure (ok_or "mkdir missing path" (cmd_path cmd));
      p ← pure (resolve d sid rel);
      _ ← atomic (on_fs (mcontext "create directory" (create_dir_all p)));
      mret None
  | Payloads.Backup =>
      r ← create_backup_task sid;
      _ ← atomic (emit_backup_event sid BackupDone (br_filename r));
      mret (Some (to_value (enc_backup r)))
  | ListBackups =>
      bs ← atomic (on_fs (list_backups d sid));
      mret (Some (to_value (enc_list_backups {| lb_backups := bs |})))
  | RestoreBackup =>
      name ← pure (ok_or "restore_backup missing path" (cmd_path cmd));
      _ ← atomic (on_fs (restore_backup d sid name));
      mret None
  | DeleteBackup =>
      name ← pure (ok_or "delete_backup missing path" (cmd_path cmd));
      _ ← atomic (on_fs (delete_backup d sid name));
      mret None
  | CreateDatabase =>
      admin ← pure (ok_or "databases are not configured on this node" (db d));
      name ← pure (ok_or "create_database missing database_name" (cmd_database_name cmd));
      user ← pure (ok_or "create_database missing database_user" (cmd_database_user cmd));
      password ← pure (ok_or "create_database missing database_password" (cmd_database_password cmd));
      _ ← create_database_task name user password;
      mret (Some (to_value (enc_create_database
        {| cd_host := public_host admin; cd_port := public_port admin |})))
  | DeleteDatabase =>
      admin ← pure (ok_or "databases are not configured on this node" (db d));
      name ← pure (ok_or "delete_database missing database_name" (cmd_database_name cmd));
      user ← pure (ok_or "delete_database missing database_user" (cmd_database_user cmd));
      _ ← delete_database_task name user;
      mret None
  end.

(** ** Run alone, a task is the routine it was cut from *)

Lemma M_bind_ext {S A B} (m m' : M S A) (k k' : A -> M S B) s :
  (forall s, m s = m' s) -> (forall a s, k a s = k' a s) -> (m ≫= k) s = (m' ≫= k') s.
Proof.
  intros Hm Hk. unfold mbind, M_bind. rewrite Hm. destruct (m' s) as [s' [a|e]]; [apply Hk|done].
Qed.

Lemma set_fs_same (w : W) : set_fs (w_fs w) w = w.
Proof. by destruct w. Qed.

Lemma on_fs_lift {A} (r : result A) (w : W) : on_fs (lift r) w = lift r w.
Proof. unfold on_fs, lift. by rewrite set_fs_same. Qed.
Lemma on_fs_ret {A} (a : A) (w : W) : on_fs (mret a) w = (mret a : M W A) w.
Proof. apply (on_fs_lift (Ok a)). Qed.

Lemma on_fs_bind {A B} (m : M (FsState F) A) (f : A -> M (FsState F) B) (w : W) :
  on_fs (m ≫= f) w = mbind (M := M W) (fun a => on_fs (f a)) (on_fs m) w.
Proof.
  unfold mbind, M_bind, on_fs. destruct (m (w_fs w)) as [g [a|e]]; [|done]. cbn.
  by destruct (f a g).
Qed.

Lemma set_db_state_same (w : W) : set_db_state (w_db w) w = w.
Proof. by destruct w. Qed.

Lemma on_db_lift {A} (r : result A) (w : W) : on_db (lift r) w = lift r w.
Proof. unfold on_db, lift. by rewrite set_db_state_same. Qed.

Lemma on_db_bind {A B} (m : M (SqlState Q) A) (f : A -> M (SqlState Q) B) (w : W) :
  on_db (m ≫= f) w = mbind (M := M W) (fun a => on_db (f a)) (on_db m) w.
Proof.
  unfold mbind, M_bind, on_db. destruct (m (w_db w)) as [g [a|e]]; [|done]. cbn.
  by destruct (f a g).
Qed.

Lemma on_db_try {A} (m : M (SqlState Q) A) (w : W) : on_db (mtry m) w = mtry (on_db m) w.
Proof. unfold mtry, on_db. by destruct (m (w_db w)). Qed.

(** Both sides make the same turn next. *)
Ltac alone :=
  lazymatch goal with
  | |- _ = on_fs (_ ≫= _) _ => rewrite on_fs_bind; alone
  | |- _ = on_fs (mret _) _ => by rewrite on_fs_ret
  | |- _ = on_fs (lift _) _ => by rewrite on_fs_lift
  | |- _ = on_db (_ ≫= _) _ => rewrite on_db_bind; alone
  | |- _ = on_db (lift _) _ => by rewrite on_db_lift
  | |- _ = on_db (mret ?a) _ => by rewrite (on_db_lift (Ok a))
  | |- run_task _ (_ ≫= _) _ = _ => rewrite run_task_bind; apply M_bind_ext; [intros ?; alone|intros ? ?; alone]
  | |- run_task _ (atomic _) _ = _ => apply run_task_atomic
  | |- run_task _ (match ?x with _ => _ end) _ = _ => destruct x; alone
  | |- _ => done
  end.

Lemma run_read_file now p (w : W) : run_task now (read_file_task p) w = on_fs (read_file p) w.
Proof. unfold read_file, read_file_task. alone. Qed.

Lemma run_write_file now p content (w : W) :
  run_task now (write_file_task p content) w = on_fs (write_file p content) w.
Proof. unfold write_file, write_file_task. alone. Qed.

Lemma run_delete_path now p (w : W) : run_task now (delete_path_task p) w = on_fs (delete_path p) w.
Proof. unfold delete_path, delete_path_task. alone. Qed.

Lemma run_create_backup now sid (w : W) :
  run_task now (create_backup_task sid) w = on_fs (create_backup d now sid) w.
Proof.
  unfold create_backup, create_backup_task. cbv zeta. rewrite on_fs_bind, run_task_bind.
  apply M_bind_ext; [intros; apply run_task_atomic|]. intros _ w'. rewrite run_task_timed, on_fs_bind.
  apply M_bind_ext; [done|]. intros size w''. by rewrite on_fs_ret.
Qed.

Lemma run_create_rest now name user pass (w : W) :
  run_task now (create_rest_task name user pass) w = on_db (create_rest name user pass) w.
Proof. unfold create_rest_task, create_rest. alone. Qed.

Lemma run_create_database now name user password (w : W) :
  run_task now (create_database_task name user password) w = on_db (create_database name user password) w.
Proof.
  unfold create_database_task, create_database. cbv zeta.
  do 4 (rewrite on_db_bind, run_task_bind; apply M_bind_ext;
        [intros ?; alone|intros ? ?]).
  rewrite on_db_bind, run_task_bind. apply M_bind_ext.
  - intros w'. rewrite run_task_try, on_db_try. unfold mtry. by rewrite run_create_rest.
  - intros [|e] w'; alone.
Qed.

Lemma run_delete_database now name user (w : W) :
  run_task now (delete_database_task name user) w = on_db (delete_database name user) w.
Proof. unfold delete_database_task, delete_database. alone. Qed.

Lemma run_console_task now sid id (w : W) :
  run_task now (console_task sid id) w = start_console_stream sid id w.
Proof.
  change (start_console_stream sid id w) with
    ((active ← gets (fun w => consoles w !! sid);
      match active with
      | Some _ => mret tt
      | None =>
          console ← mtry (on_rt (rt_attach id));
          match console with
          | Err _ => mret tt
          | Ok console => modify (fun w => spawn_pump sid (con_output console)
              (set_consoles (<[sid := {| ac_id := next_console w;
                                         ac_stdin := con_stdin console |}]> (consoles w)) w))
          end
      end : M W unit) w).
  unfold console_task. alone.
Qed.

Ltac routine :=
  lazymatch goal with
  | |- run_task _ (console_task _ _) _ = _ => apply run_console_task
  | |- run_task _ (read_file_task _) _ = _ => apply run_read_file
  | |- run_task _ (write_file_task _ _) _ = _ => apply run_write_file
  | |- run_task _ (delete_path_task _) _ = _ => apply run_delete_path
  | |- run_task _ (create_backup_task _) _ = _ => apply run_create_backup
  | |- run_task _ (create_database_task _ _ _) _ = _ => apply run_create_database
  | |- run_task _ (delete_database_task _ _) _ = _ => apply run_delete_database
  | |- run_task _ (atomic _) _ = _ => by rewrite run_task_atomic
  | |- _ => done
  end.

Lemma handle_task_run now cmd (w : W) :
  run_task now (handle_task cmd) w = handle_inner d now cmd w.
Proof.
  unfold handle_task, handle_inner. cbv zeta. destruct (cmd_action cmd); try (by alone).
  all: repeat (rewrite run_task_bind; apply M_bind_ext; [intros ?; routine|intros ? ?]); try done.
  (* the two writes of console input are one turn *)
  rewrite run_task_bind. unfold mbind at 1, M_bind at 1. rewrite run_task_atomic.
  unfold mbind at 1, M_bind at 1, mbind at 1, M_bind at 1.
  destruct (on_rt (console_write _ (as_bytes _)) _) as [w' [[]|e]]; [|done].
  unfold mbind, M_bind. by destruct (on_rt _ w') as [w'' [[]|e]].
Qed.

(** ** What a turn of a command may do *)

(** Nothing to the consoles; remove its server's; or register a new one for its
    server and leave a stream behind. *)
Inductive console_change (sid : string) (w w' : W) : Prop :=
| cc_same :
    consoles w' = consoles w -> pumps w' = pumps w -> next_console w' = next_console w ->
    console_change sid w w'
| cc_removed :
    consoles w' = delete sid (consoles w) -> pumps w' = pumps w -> next_console w' = next_console w ->
    console_change sid w w'
| cc_added output stdin :
    consoles w' = <[sid := {| ac_id := next_console w; ac_stdin := stdin |}]> (consoles w) ->
    pumps w' = pumps w ++ [{| pt_server_id := sid; pt_console := next_console w; pt_output := output |}] ->
    next_console w' = S (next_console w) -> console_change sid w w'.

Record turn_ok (sid : string) (w w' : W) : Prop := {
  ok_accesses : volumes_root d <> "" -> backups_root d <> "" ->
    exists cs, accesses (w_fs w') = accesses (w_fs w) ++ cs /\
      Forall (allowed (volume d sid) (backups_of d sid)) cs;
  ok_events : exists es, events w' = events w ++ es /\ Forall (fun e => ev_server_id e = sid) es;
  ok_tracked sid' : sid' <> sid -> tracked w' !! sid' = tracked w !! sid';
  ok_consoles : console_change sid w w';
}.

(** A turn that changes only what the record leaves open. *)
Lemma turn_ok_frame sid (w w' : W) :
  accesses (w_fs w') = accesses (w_fs w) -> events w' = events w -> tracked w' = tracked w ->
  consoles w' = consoles w -> pumps w' = pumps w -> next_console w' = next_console w ->
  turn_ok sid w w'.
Proof.
  intros Ha He Ht Hc Hp Hn. split.
  - exists []. by rewrite app_nil_r.
  - exists []. by rewrite app_nil_r.
  - by rewrite Ht.
  - by apply cc_same.
Qed.

Lemma turn_ok_refl sid (w : W) : turn_ok sid w w.
Proof. by apply turn_ok_frame. Qed.

Lemma turn_ok_gets {A} sid (f : W -> A) w : turn_ok sid w (gets f w).1.
Proof. apply turn_ok_refl. Qed.
Lemma turn_ok_rt {A} sid (m : M R A) w : turn_ok sid w (on_rt m w).1.
Proof. unfold on_rt. destruct (m (w_rt w)). by apply turn_ok_frame. Qed.
Lemma turn_ok_rt2 {A B} sid (m : M R A) (k : A -> M R B) w :
  turn_ok sid w (mbind (M := M W) (fun a => on_rt (k a)) (on_rt m) w).1.
Proof.
  unfold mbind, M_bind, on_rt. destruct (m (w_rt w)) as [r [a|e]]; [|by apply turn_ok_frame].
  cbn. destruct (k a r). by apply turn_ok_frame.
Qed.
Lemma turn_ok_try {A} sid (m : M W A) w : turn_ok sid w (m w).1 -> turn_ok sid w (mtry m w).1.
Proof. unfold mtry. by destruct (m w). Qed.
Lemma turn_ok_db {A} sid (m : M (SqlState Q) A) w : turn_ok sid w (on_db m w).1.
Proof. unfold on_db. destruct (m (w_db w)). by apply turn_ok_frame. Qed.
Lemma turn_ok_container_for sid cmd w : turn_ok sid w (container_for cmd w).1.
Proof. rewrite container_for_spec. apply turn_ok_refl. Qed.

Lemma turn_ok_fs {A} sid (m : M (FsState F) A) w :
  (volumes_root d <> "" -> backups_root d <> "" ->
   all_calls accesses (allowed (volume d sid) (backups_of d sid)) m) ->
  turn_ok sid w (on_fs m w).1.
Proof.
  intros Hm. unfold on_fs. split.
  - intros Hv Hb. destruct (Hm Hv Hb (w_fs w)) as (cs & Hc & Hp). destruct (m (w_fs w)) as [f r].
    by exists cs.
  - destruct (m (w_fs w)). exists []. by rewrite app_nil_r.
  - by destruct (m (w_fs w)).
  - destruct (m (w_fs w)). by apply cc_same.
Qed.

Lemma turn_ok_track sid id w : turn_ok sid w (track sid id w).1.
Proof.
  split; cbn; [exists []; by rewrite app_nil_r..| |by apply cc_same].
  intros sid' Hne. by rewrite lookup_insert_ne.
Qed.
Lemma turn_ok_untrack sid w : turn_ok sid w (untrack sid w).1.
Proof.
  split; cbn; [exists []; by rewrite app_nil_r..| |by apply cc_same].
  intros sid' Hne. by rewrite lookup_delete_ne.
Qed.
Lemma turn_ok_emit sid kind msg w : turn_ok sid w (emit sid kind msg w).1.
Proof.
  split; cbn; [exists []; by rewrite app_nil_r| |done|by apply cc_same].
  destruct (events_open w); [|exists []; by rewrite app_nil_r].
  eexists. split; [done|]. by repeat constructor.
Qed.
Lemma turn_ok_remove_console sid w :
  turn_ok sid w (modify (fun w : W => set_consoles (delete sid (consoles w)) w) w).1.
Proof. split; cbn; [exists []; by rewrite app_nil_r..|done|by apply cc_removed]. Qed.
Lemma turn_ok_spawn sid output stdin w :
  turn_ok sid w (modify (fun w : W => spawn_pump sid output
    (set_consoles (<[sid := {| ac_id := next_console w; ac_stdin := stdin |}]> (consoles w)) w)) w).1.
Proof. split; cbn; [exists []; by rewrite app_nil_r..|done|by eapply cc_added]. Qed.
End tasks.

#[export] Hint Resolve turn_ok_gets turn_ok_rt turn_ok_rt2 turn_ok_try turn_ok_db turn_ok_container_for
  turn_ok_track turn_ok_untrack turn_ok_emit turn_ok_remove_console turn_ok_spawn : conc.

Section guarantee.
Context {R F Q : Type} `{ContainerRuntime R} `{FileSystem F} `{Archive F} `{MariaDb Q} `{Base64}.
Variable d : Dispatcher.
Abbreviation W := (World R F Q).

(** Opens a task at its turns and looks each one up. *)
Ltac guaranteed :=
  lazymatch goal with
  | |- steps_in _ (pure _ ≫= _) => apply steps_in_pure_bind; intros ? ?; guaranteed
  | |- steps_in _ (_ ≫= _) => apply steps_in_bind; [guaranteed|intros ?; guaranteed]
  | |- steps_in _ (task_try _) => apply steps_in_try; guaranteed
  | |- steps_in _ (atomic _) => apply steps_in_atomic; intros ?; eauto with conc
  | |- steps_in _ (match ?x with _ => _ end) => destruct x eqn:?; guaranteed
  | |- steps_in _ (let _ := _ in _) => cbv zeta; guaranteed
  | |- steps_in _ (mret _) => exact I
  | |- steps_in _ (pure _) => exact I
  | |- _ => idtac
  end.

Lemma console_task_ok sid id : steps_in (turn_ok d sid) (console_task sid id : task W unit).
Proof. unfold console_task. guaranteed. Qed.

(** A path of the server's volume, when there are volumes. *)
Definition inside (sid : string) (p : path) : Prop := volumes_root d <> "" -> below (volume d sid) p.

Lemma resolve_inside sid rel p : resolve d sid rel = Ok p -> inside sid p.
Proof. intros Hp Hv. by eapply resolve_below. Qed.

Lemma turn_ok_access {A} sid a (m : M F A) msg (w : W) :
  (volumes_root d <> "" -> allowed (volume d sid) (backups_of d sid) a) ->
  turn_ok d sid w (on_fs (mcontext msg (access_fs a m)) w).1.
Proof. intros Ha. apply turn_ok_fs. intros Hv _. apply all_context, all_access. auto. Qed.

Lemma inside_allowed sid p (a : access) :
  inside sid p -> access_paths a = [p] -> volumes_root d <> "" ->
  allowed (volume d sid) (backups_of d sid) a.
Proof.
  intros Hp Ha Hv. specialize (Hp Hv).
  destruct a; cbn in *; simplify_eq; try (constructor; [by left|constructor]). by left.
Qed.

Lemma read_file_task_ok sid p :
  inside sid p -> steps_in (turn_ok d sid) (read_file_task p : task W _).
Proof.
  intros Hp. unfold read_file_task. guaranteed; apply turn_ok_access; by eapply inside_allowed.
Qed.

Lemma write_file_task_ok sid p content :
  inside sid p -> steps_in (turn_ok d sid) (write_file_task p content : task W _).
Proof.
  intros Hp. unfold write_file_task.
  guaranteed; apply turn_ok_access; try (by eapply inside_allowed).
  intros Hv. right; right. eauto.
Qed.

Lemma delete_path_task_ok sid p :
  inside sid p -> steps_in (turn_ok d sid) (delete_path_task p : task W _).
Proof.
  intros Hp. unfold delete_path_task. guaranteed; apply turn_ok_access; by eapply inside_allowed.
Qed.

Lemma create_backup_task_ok sid :
  steps_in (turn_ok d sid) (create_backup_task d sid : task W _).
Proof.
  unfold create_backup_task. guaranteed.
  - apply turn_ok_access. intros _. right; left. apply below_refl.
  - apply steps_in_timed. intros now w. cbv zeta.
    match goal with |- context [on_fs ?m] => pose proof (turn_ok_fs d sid m w) as Ht end.
    specialize (Ht (fun Hv Hb => all_context _ _ (archive_allowed d sid Hv Hb now))).
    unfold mbind, M_bind. by destruct (on_fs _ w) as [w' [n|e]].
Qed.

Lemma create_database_task_ok sid name user password :
  steps_in (turn_ok d sid) (create_database_task name user password : task W _).
Proof. unfold create_database_task, create_rest_task. guaranteed. Qed.
Lemma delete_database_task_ok sid name user :
  steps_in (turn_ok d sid) (delete_database_task name user : task W _).
Proof. unfold delete_database_task. guaranteed. Qed.

(** Every turn of every command stays within its server. *)
Lemma handle_task_ok cmd :
  steps_in (turn_ok d (cmd_server_id cmd)) (handle_task d cmd : task W _).
Proof.
  unfold handle_task. set (sid := cmd_server_id cmd). cbv zeta.
  destruct (cmd_action cmd); guaranteed;
    repeat match goal with H : resolve d sid _ = Ok _ |- _ => apply resolve_inside in H end;
    lazymatch goal with
    | |- steps_in _ (console_task _ _) => apply console_task_ok
    | |- steps_in _ (read_file_task _) => by apply read_file_task_ok
    | |- steps_in _ (write_file_task _ _) => by apply write_file_task_ok
    | |- steps_in _ (delete_path_task _) => by apply delete_path_task_ok
    | |- steps_in _ (create_backup_task _ _) => apply create_backup_task_ok
    | |- steps_in _ (create_database_task _ _ _) => apply create_database_task_ok
    | |- steps_in _ (delete_database_task _ _) => apply delete_database_task_ok
    | |- _ => apply turn_ok_fs
    end.
  - intros Hv Hb. apply list_files_allowed; auto.
  - intros Hv Hb. apply all_context, all_access.
    constructor; [left; auto|constructor; [left; auto|constructor]].
  - intros Hv Hb. apply all_context, all_access. left. auto.
  - intros Hv Hb. by apply list_backups_allowed.
  - intros Hv Hb. by apply restore_backup_allowed.
  - intros Hv Hb. by apply delete_backup_allowed.
Qed.
End guarantee.

(** ** How many turns a command has *)

Section turns.
Context {R F Q : Type} `{ContainerRuntime R} `{FileSystem F} `{Archive F} `{MariaDb Q} `{Base64}.
Variable d : Dispatcher.
Abbreviation W := (World R F Q).

(** The longest command, a start, has seven. *)
Definition MAX_TURNS : nat := 7.

Lemma bounded_atomic_bind {A B} n (m : M W A) (k : A -> task W B) :
  (forall a, bounded n (k a)) -> bounded (S n) (atomic m ≫= k).
Proof. intros Hk. apply (bounded_bind 1 n); [apply bounded_timed|done]. Qed.
Lemma bounded_pure_bind {A B} n (r : result A) (k : A -> task W B) :
  (forall a, bounded n (k a)) -> bounded n (pure r ≫= k).
Proof. intros Hk. destruct r; [apply Hk|done]. Qed.

Ltac count_turns :=
  lazymatch goal with
  | |- bounded _ (pure _ ≫= _) => apply bounded_pure_bind; intros ?; count_turns
  | |- bounded _ (mret ?a ≫= _) => apply (bounded_pure_bind _ (Ok a)); intros ?; count_turns
  | |- bounded _ (atomic _ ≫= _) => apply bounded_atomic_bind; intros ?; count_turns
  | |- bounded _ (match ?x with _ => _ end ≫= _) => destruct x; count_turns
  | |- bounded _ (match ?x with _ => _ end) => destruct x; count_turns
  | |- bounded _ (atomic _) => eapply bounded_mono; [|apply bounded_timed]; lia
  | |- bounded _ (timed _) => eapply bounded_mono; [|apply bounded_timed]; lia
  | |- bounded _ (mret _) => exact I
  | |- bounded _ (pure _) => exact I
  | |- _ => idtac
  end.

Lemma console_task_turns sid id : bounded 3 (console_task sid id : task W unit).
Proof. unfold console_task. count_turns. Qed.
Lemma read_file_turns p : bounded 2 (read_file_task p : task W _).
Proof. unfold read_file_task. count_turns. Qed.
Lemma write_file_turns p content : bounded 2 (write_file_task p content : task W _).
Proof. unfold write_file_task. count_turns. Qed.
Lemma delete_path_turns p : bounded 2 (delete_path_task p : task W _).
Proof. unfold delete_path_task. count_turns. Qed.
Lemma create_backup_turns sid : bounded 2 (create_backup_task d sid : task W _).
Proof. unfold create_backup_task. cbv zeta. count_turns. Qed.

Lemma create_rest_turns name user pass : bounded 2 (create_rest_task name user pass : task W _).
Proof. unfold create_rest_task. count_turns. Qed.
Lemma create_database_turns name user password : bounded 6 (create_database_task name user password : task W _).
Proof.
  unfold create_database_task. cbv zeta. count_turns.
  apply (bounded_bind 2 2); [apply bounded_try, create_rest_turns|]. intros [|e]; count_turns.
Qed.
Lemma delete_database_turns name user : bounded 4 (delete_database_task name user : task W _).
Proof. unfold delete_database_task. count_turns. Qed.

Lemma handle_task_turns cmd : bounded MAX_TURNS (handle_task d cmd : task W _).
Proof.
  unfold handle_task, MAX_TURNS. cbv zeta. destruct (cmd_action cmd); count_turns.
  - apply (bounded_bind 3 0); [apply console_task_turns|done].
  - apply (bounded_bind 2 5); [apply read_file_turns|done].
  - apply (bounded_bind 2 5); [apply write_file_turns|done].
  - apply (bounded_bind 2 5); [apply delete_path_turns|done].
  - apply (bounded_bind 2 5); [apply create_backup_turns|]. intros r. count_turns.
  - apply (bounded_bind 6 1); [apply create_database_turns|done].
  - apply (bounded_bind 4 3); [apply delete_database_turns|done].
Qed.
End turns.

(** ** A running command and its acknowledgement *)

Record Job (R F Q : Type) := { j_cmd : CommandPayload; j_task : task (World R F Q) (option json) }.
Arguments Build_Job {R F Q} _ _.
Arguments j_cmd {R F Q} _.
Arguments j_task {R F Q} _.

(** The match of [Dispatcher::handle]. *)
Definition ack_of (cmd : CommandPayload) (r : result (option json)) : AckPayload :=
  match r with
  | Ok result => {| ack_command_id := cmd_command_id cmd; ack_ok := true;
                    ack_error := None; ack_result := result |}
  | Err err => {| ack_command_id := cmd_command_id cmd; ack_ok := false;
                  ack_error := Some err; ack_result := None |}
  end.

Lemma ack_of_id cmd r : ack_command_id (ack_of cmd r) = cmd_command_id cmd.
Proof. by destruct r. Qed.

Section jobs.
Context {R F Q : Type} `{ContainerRuntime R} `{FileSystem F} `{Archive F} `{MariaDb Q} `{Base64}.
Variable d : Dispatcher.
Abbreviation W := (World R F Q).
Abbreviation J := (Job R F Q).

Lemma handle_ack_of now cmd (w : World R F Q) :
  handle d now cmd w = let '(w', r) := handle_inner d now cmd w in (w', ack_of cmd r).
Proof. unfold handle. by destruct (handle_inner d now cmd w) as [w' [|]]. Qed.

(** A command as the session spawns it. *)
Definition job_new (cmd : CommandPayload) : J := {| j_cmd := cmd; j_task := handle_task d cmd |}.

(** The streams a turn left behind. *)
Definition spawned (w w' : W) : list stream := Pumping <$> drop (length (pumps w)) (pumps w').

(** Something outside the daemon acts. *)
Definition outside (r : R) (f : F) (q : Q) (w : W) : W :=
  set_rt r (set_fs {| disk := f; accesses := accesses (w_fs w) |}
    (set_db_state {| server := q; queries := queries (w_db w) |} w)).

(** What is known of a command at any point of its run. *)
Definition job_sane (j : J) : Prop :=
  steps_in (turn_ok d (cmd_server_id (j_cmd j))) (j_task j) /\ bounded MAX_TURNS (j_task j).

Lemma job_new_sane cmd : job_sane (job_new cmd).
Proof. split; [apply handle_task_ok|apply handle_task_turns]. Qed.

Lemma job_sane_turn cmd f now w :
  job_sane {| j_cmd := cmd; j_task := Step f |} ->
  turn_ok d (cmd_server_id cmd) w (f now w).1 /\ job_sane {| j_cmd := cmd; j_task := (f now w).2 |}.
Proof.
  intros [Hs Hb]. cbn in Hs, Hb. apply (steps_in_turn _ _ now w) in Hs as [Hg Hs].
  split; [done|]. split; [done|]. eapply bounded_mono; [|exact (bounded_turn _ _ now w Hb)].
  unfold MAX_TURNS. lia.
Qed.
End jobs.
