(* ===== verification/Pool.v ===== *)
(** * All interleavings of a node

    [nstep] is one step of the daemon seen as a whole: a command arrives, one of
    the running commands makes a turn or is acknowledged, a console stream makes
    a turn, or something outside changes (containers and other processes act on
    the runtime, the files and the database, the event receiver goes away). The
    theorems are about every sequence of such steps. *)

From S2P Require Import Prelude Trace RustStr Paths Json Payloads Runtime FakeRuntime Db Fs.
From S2P Require Import Backup MemFs Dispatcher ToyNode DispatcherSpec Task ConsoleStream Concurrent.
From stdpp Require Import options.
Set Default Proof Using "Type*".

Section pool.
Context {R F Q : Type} `{ContainerRuntime R} `{FileSystem F} `{Archive F} `{MariaDb Q} `{Base64}.
Variable d : Dispatcher.
Abbreviation W := (World R F Q).

(** The node, with every command that ever arrived. *)
Record Node := {
  n_world : W;
  n_jobs : list (Job R F Q);
  n_streams : list stream;
  n_acks : list AckPayload;
  n_arrived : list CommandPayload;
}.

Definition node_new (w : W) : Node :=
  {| n_world := w; n_jobs := []; n_streams := []; n_acks := []; n_arrived := [] |}.

Definition close_events (w : W) : W :=
  {| w_rt := w_rt w; w_fs := w_fs w; w_db := w_db w; tracked := tracked w; consoles := consoles w;
     events := events w; events_open := false; pumps := pumps w; next_console := next_console w |}.

Definition set_n_world (w : W) (n : Node) : Node :=
  {| n_world := w; n_jobs := n_jobs n; n_streams := n_streams n; n_acks := n_acks n;
     n_arrived := n_arrived n |}.

Definition arrive (cmd : CommandPayload) (n : Node) : Node :=
  {| n_world := n_world n; n_jobs := n_jobs n ++ [job_new d cmd];
     n_streams := n_streams n; n_acks := n_acks n; n_arrived := n_arrived n ++ [cmd] |}.

Definition job_turn (i : nat) (cmd : CommandPayload) (w' : W) (t : task W (option json)) (n : Node) : Node :=
  {| n_world := w'; n_jobs := <[i := {| j_cmd := cmd; j_task := t |}]> (n_jobs n);
     n_streams := n_streams n ++ spawned (n_world n) w'; n_acks := n_acks n; n_arrived := n_arrived n |}.

Definition job_done (i : nat) (ack : AckPayload) (n : Node) : Node :=
  {| n_world := n_world n; n_jobs := delete i (n_jobs n); n_streams := n_streams n;
     n_acks := n_acks n ++ [ack]; n_arrived := n_arrived n |}.

Definition set_stream (i : nat) (w' : W) (o : option stream) (n : Node) : Node :=
  {| n_world := w'; n_jobs := n_jobs n;
     n_streams := match o with Some s => <[i := s]> (n_streams n) | None => delete i (n_streams n) end;
     n_acks := n_acks n; n_arrived := n_arrived n |}.

Inductive nstep : Node -> Node -> Prop :=
| n_arrives n cmd : nstep n (arrive cmd n)
| n_turn n i cmd f now :
    n_jobs n !! i = Some {| j_cmd := cmd; j_task := Step f |} ->
    nstep n (job_turn i cmd (f now (n_world n)).1 (f now (n_world n)).2 n)
| n_done n i cmd r :
    n_jobs n !! i = Some {| j_cmd := cmd; j_task := Done r |} -> nstep n (job_done i (ack_of cmd r) n)
| n_stream n i s :
    n_streams n !! i = Some s ->
    nstep n (set_stream i (stream_turn s (n_world n)).1 (stream_turn s (n_world n)).2 n)
| n_outside n r f q : nstep n (set_n_world (outside r f q (n_world n)) n)
| n_close n : nstep n (set_n_world (close_events (n_world n)) n).

(** ** What every interleaving keeps *)

(** The shared state, after the commands [cmds] arrived on a node in state [w0]. *)
Record world_ok (w0 : W) (cmds : list CommandPayload) (w : W) : Prop := {
  wo_accesses : volumes_root d <> "" -> backups_root d <> "" ->
    exists cs, accesses (w_fs w) = accesses (w_fs w0) ++ cs /\
    Forall (fun a => exists cmd, cmd ∈ cmds /\
      allowed (volume d (cmd_server_id cmd)) (backups_of d (cmd_server_id cmd)) a) cs;
  wo_events : exists es, events w = events w0 ++ es /\
    Forall (fun e => ev_server_id e ∈ cmd_server_id <$> cmds) es;
  wo_tracked sid : sid ∉ cmd_server_id <$> cmds -> tracked w !! sid = tracked w0 !! sid;
  wo_consoles sid : sid ∉ cmd_server_id <$> cmds -> consoles w !! sid = consoles w0 !! sid;
}.

Lemma world_ok_refl w : world_ok w [] w.
Proof.
  split; [intros _ _| |done..]; exists []; rewrite app_nil_r; (split; [done|constructor]).
Qed.

Lemma world_ok_mono w0 cmds cmds' w : cmds ⊆ cmds' -> world_ok w0 cmds w -> world_ok w0 cmds' w.
Proof.
  intros Hsub [Ha (es & He & Hes) Ht Hc].
  assert (Hs : cmd_server_id <$> cmds ⊆ cmd_server_id <$> cmds').
  { intros sid (cmd & -> & Hin)%list_elem_of_fmap. apply list_elem_of_fmap_2. by apply Hsub. }
  split.
  - intros Hv Hb. destruct (Ha Hv Hb) as (cs & Hac & Hcs). exists cs. split; [done|].
    eapply Forall_impl; [exact Hcs|]. intros a (cmd & Hin & Hal). eauto.
  - exists es. split; [done|]. eapply Forall_impl; [exact Hes|]. intros e He'. by apply Hs.
  - intros sid Hsid. apply Ht. by intros Hin%Hs.
  - intros sid Hsid. apply Hc. by intros Hin%Hs.
Qed.

(** A step that only touches what is not counted. *)
Lemma world_ok_frame w0 cmds w w' :
  accesses (w_fs w') = accesses (w_fs w) -> events w' = events w -> tracked w' = tracked w ->
  consoles w' = consoles w -> world_ok w0 cmds w -> world_ok w0 cmds w'.
Proof. intros Ha He Ht Hc []. split; by rewrite ?Ha, ?He, ?Ht, ?Hc. Qed.

Lemma console_change_other sid sid' (w w' : W) :
  console_change sid w w' -> sid' <> sid -> consoles w' !! sid' = consoles w !! sid'.
Proof.
  intros [Hc|Hc|out stdin Hc] Hne; rewrite Hc; [done|by rewrite lookup_delete_ne|by rewrite lookup_insert_ne].
Qed.

Lemma world_ok_turn w0 cmds cmd w w' :
  cmd ∈ cmds -> turn_ok d (cmd_server_id cmd) w w' -> world_ok w0 cmds w -> world_ok w0 cmds w'.
Proof.
  intros Hin [Ha' (es' & He' & Hes') Ht' Hc'] [Ha (es & He & Hes) Ht Hc].
  assert (Hs : cmd_server_id cmd ∈ cmd_server_id <$> cmds) by by apply list_elem_of_fmap_2.
  split.
  - intros Hv Hb. destruct (Ha Hv Hb) as (cs & Hac & Hcs), (Ha' Hv Hb) as (cs' & Hac' & Hcs').
    exists (cs ++ cs'). rewrite Hac', Hac, app_assoc. split; [done|]. apply Forall_app. split; [done|].
    eapply Forall_impl; [exact Hcs'|]. eauto.
  - exists (es ++ es'). rewrite He', He, app_assoc. split; [done|]. apply Forall_app. split; [done|].
    eapply Forall_impl; [exact Hes'|]. by intros e ->.
  - intros sid Hsid. rewrite Ht' by (intros ->; done). by apply Ht.
  - intros sid Hsid. rewrite (console_change_other _ _ _ _ Hc') by (intros ->; done). by apply Hc.
Qed.

Lemma world_ok_stream w0 cmds s w :
  pt_server_id (pump_of s) ∈ cmd_server_id <$> cmds -> world_ok w0 cmds w ->
  world_ok w0 cmds (stream_turn s w).1 /\
  forall s', (stream_turn s w).2 = Some s' -> pump_of s' = pump_of s.
Proof.
  intros Hin Hok. destruct s as [t|t]; cbn [stream_turn pump_of] in *.
  - destruct (console_recv (pt_output t) (w_rt w)) as [r [line| |]]; cbn;
      [|split; [by eapply world_ok_frame; [..|exact Hok]|by intros s' [= <-]]..].
    destruct (events_open w) eqn:Ho; cbn; (split; [|by intros s' [= <-]]).
    + destruct Hok as [Ha (es & He & Hes) Ht Hc]. split; cbn; try done. rewrite Ho.
      eexists (es ++ [_]). rewrite He, app_assoc. split; [done|]. apply Forall_app. split; [done|].
      by apply Forall_singleton.
    + by eapply world_ok_frame; [..|exact Hok].
  - split; [|done]. destruct Hok as [Ha He Ht Hc]. split; cbn; try done.
    intros sid Hsid. rewrite lookup_delete_ne by (intros Heq; by rewrite Heq in Hin). by apply Hc.
Qed.

(** What is known of each running command. *)
Definition job_ok (cmds : list CommandPayload) (j : Job R F Q) : Prop :=
  job_sane d j /\ j_cmd j ∈ cmds.

Record node_ok (w0 : W) (n : Node) : Prop := {
  no_world : world_ok w0 (n_arrived n) (n_world n);
  no_streams : Forall (fun s => pt_server_id (pump_of s) ∈ cmd_server_id <$> n_arrived n) (n_streams n);
  no_stream_ok : stream_ok (n_world n) (pump_of <$> n_streams n);
  no_jobs : Forall (job_ok (n_arrived n)) (n_jobs n);
  no_ids : cmd_command_id <$> n_arrived n
    ≡ₚ (cmd_command_id ∘ j_cmd <$> n_jobs n) ++ (ack_command_id <$> n_acks n);
}.

Lemma node_ok_new w : consoles w = ∅ -> node_ok w (node_new w).
Proof.
  intros Hc. split; cbn; [apply world_ok_refl|apply Forall_nil_2| |apply Forall_nil_2|done].
  split; [intros sid a; by rewrite Hc|set_solver|apply NoDup_nil_2].
Qed.

(** The streams a turn leaves behind are its server's and have its console. *)
Lemma spawned_ok sid (w w' : W) ss :
  console_change sid w w' -> stream_ok w (pump_of <$> ss) ->
  stream_ok w' (pump_of <$> ss ++ spawned w w') /\
  Forall (fun s => pt_server_id (pump_of s) = sid) (spawned w w').
Proof.
  intros Hc Hok. unfold spawned.
  destruct Hc as [Hc Hp Hn|Hc Hp Hn|out stdin Hc Hp Hn]; rewrite Hp.
  - rewrite drop_all. cbn. rewrite app_nil_r. split; [by eapply stream_ok_same|constructor].
  - rewrite drop_all. cbn. rewrite app_nil_r. split; [by eapply stream_ok_delete|constructor].
  - rewrite drop_app_length. cbn. rewrite fmap_app. split; [|by repeat constructor].
    by eapply stream_ok_spawn.
Qed.

Lemma node_ok_arrive w0 cmd n : node_ok w0 n -> node_ok w0 (arrive cmd n).
Proof.
  intros [Hw Hs Hso Hj Hi]. split; cbn; [| |done| |].
  - eapply world_ok_mono; [|done]. set_solver.
  - eapply Forall_impl; [exact Hs|]. intros s Hin. rewrite fmap_app. set_solver.
  - apply Forall_app. split.
    + eapply Forall_impl; [exact Hj|]. intros j [Hsane Hin]. split; [done|]. set_solver.
    + apply Forall_singleton. split; [apply job_new_sane|]. cbn. set_solver.
  - rewrite !fmap_app, Hi. cbn. rewrite <- !app_assoc. by rewrite (Permutation_app_comm (ack_command_id <$> _)).
Qed.

Lemma node_ok_turn w0 n i cmd f now :
  n_jobs n !! i = Some {| j_cmd := cmd; j_task := Step f |} -> node_ok w0 n ->
  node_ok w0 (job_turn i cmd (f now (n_world n)).1 (f now (n_world n)).2 n).
Proof.
  intros Hi [Hw Hs Hso Hj Hids]. destruct (Forall_lookup_1 _ _ _ _ Hj Hi) as [Hst Hin]. cbn in Hin.
  apply (job_sane_turn d cmd f now (n_world n)) in Hst as [Hg Hst].
  destruct (spawned_ok _ _ _ _ (ok_consoles _ _ _ _ Hg) Hso) as [Hso' Hsp].
  split; cbn; [|  |done| |].
  - by eapply world_ok_turn.
  - apply Forall_app. split; [done|]. eapply Forall_impl; [exact Hsp|].
    intros s ->. by apply list_elem_of_fmap_2.
  - by apply Forall_insert.
  - rewrite list_fmap_insert, list_insert_id; [done|]. by rewrite list_lookup_fmap, Hi.
Qed.

Lemma node_ok_done w0 n i cmd r :
  n_jobs n !! i = Some {| j_cmd := cmd; j_task := Done r |} -> node_ok w0 n ->
  node_ok w0 (job_done i (ack_of cmd r) n).
Proof.
  intros Hi [Hw Hs Hso Hj Hids]. split; cbn; try done.
  - rewrite delete_take_drop. apply Forall_app. split; [by apply Forall_take|by apply Forall_drop].
  - rewrite Hids, fmap_app, list_fmap_delete. cbn.
    assert (Hk : (cmd_command_id ∘ j_cmd <$> n_jobs n) !! i = Some (cmd_command_id cmd))
      by (by rewrite list_lookup_fmap, Hi).
    rewrite ack_of_id, (delete_Permutation _ _ _ Hk) at 1. cbn.
    by rewrite app_assoc, (Permutation_app_comm _ [cmd_command_id cmd]).
Qed.

Lemma node_ok_stream w0 n i s :
  n_streams n !! i = Some s -> node_ok w0 n ->
  node_ok w0 (set_stream i (stream_turn s (n_world n)).1 (stream_turn s (n_world n)).2 n).
Proof.
  intros Hi [Hw Hs Hso Hj Hids]. pose proof (Forall_lookup_1 _ _ _ _ Hs Hi) as Hin. cbn in Hin.
  destruct (world_ok_stream _ _ _ _ Hin Hw) as [Hw' Hp].
  pose proof (stream_ok_turn _ _ _ _ Hi Hso) as Hso'. destruct (stream_turn s (n_world n)) as [w' o].
  cbn in *. split; cbn; try done. destruct o as [s'|].
  - apply Forall_insert; [done|]. by rewrite (Hp s' eq_refl).
  - rewrite delete_take_drop. apply Forall_app. split; [by apply Forall_take|by apply Forall_drop].
Qed.

Lemma node_ok_frame w0 n w' :
  accesses (w_fs w') = accesses (w_fs (n_world n)) -> events w' = events (n_world n) ->
  tracked w' = tracked (n_world n) -> consoles w' = consoles (n_world n) ->
  next_console w' = next_console (n_world n) -> node_ok w0 n -> node_ok w0 (set_n_world w' n).
Proof.
  intros Ha He Ht Hc Hn [Hw Hs Hso Hj Hids]. split; cbn; try done.
  - by eapply world_ok_frame.
  - by eapply stream_ok_same.
Qed.

Lemma node_ok_step w0 n n' :
  nstep n n' -> node_ok w0 n -> node_ok w0 n'.
Proof.
  intros [n1 cmd|n1 i cmd f now Hi|n1 i cmd r Hi|n1 i s Hi|n1 r f q|n1].
  - by apply node_ok_arrive.
  - by apply node_ok_turn.
  - by apply node_ok_done.
  - by apply node_ok_stream.
  - by apply node_ok_frame.
  - by apply node_ok_frame.
Qed.

Lemma reachable_ok w0 n :
  consoles w0 = ∅ -> rtc nstep (node_new w0) n -> node_ok w0 n.
Proof.
  intros Hc Hr. pose proof (node_ok_new w0 Hc) as Hok. revert Hok.
  induction Hr as [n|n1 n2 n3 Hs _ IH]; [done|]. eauto using node_ok_step.
Qed.

Lemma delete_insert_same {A} (l : list A) i x : delete i (<[i := x]> l) = delete i l.
Proof. revert i. induction l as [|y l IH]; intros [|i]; cbn; [done..|]. by f_equal. Qed.

(** A command that is given all its turns in a row. *)
Lemma job_alone now k n i cmd t :
  n_jobs n !! i = Some {| j_cmd := cmd; j_task := t |} -> bounded k t ->
  exists m n', m <= S k /\ nsteps nstep m n n' /\ n_world n' = (run_task now t (n_world n)).1 /\
    n_jobs n' = delete i (n_jobs n) /\
    n_acks n' = n_acks n ++ [ack_of cmd (run_task now t (n_world n)).2] /\ n_arrived n' = n_arrived n.
Proof.
  revert k n. induction t as [r|f IH] using task_ind'; intros k n Hi Hb.
  { exists 1, (job_done i (ack_of cmd r) n). split; [lia|]. split; [|done].
    apply nsteps_once. by apply (n_done n i cmd r). }
  destruct k as [|k]; [by cbn in Hb|]. pose proof (bounded_turn _ _ now (n_world n) Hb) as Hb'.
  set (n1 := job_turn i cmd (f now (n_world n)).1 (f now (n_world n)).2 n).
  assert (Hi1 : n_jobs n1 !! i = Some {| j_cmd := cmd; j_task := (f now (n_world n)).2 |}).
  { cbn. apply list_lookup_insert_eq. by eapply lookup_lt_Some. }
  destruct (IH now (n_world n) k n1 Hi1 Hb') as (m & n' & Hm & Hs & Hw & Hj & Ha & Har).
  exists (S m), n'. split; [lia|]. split; [eapply nsteps_l; [by apply n_turn|exact Hs]|].
  cbn in Hw, Hj, Ha, Har |- *. destruct (f now (n_world n)) as [w' t']. cbn in *. split_and!; try done.
  by rewrite Hj, delete_insert_same.
Qed.

(** ** Properties *)



End pool.
Arguments Node : clear implicits.

(** ** Schedules *)

Inductive choice := Arrive (cmd : CommandPayload) | RunJob (i : nat) (now : Z) | RunStream (i : nat).

Section play.
Context {R F Q : Type} `{ContainerRuntime R} `{FileSystem F} `{Archive F} `{MariaDb Q} `{Base64}.
Variable d : Dispatcher.

Definition play_one (n : Node R F Q) (c : choice) : Node R F Q :=
  match c with
  | Arrive cmd => arrive d cmd n
  | RunJob i now =>
      match n_jobs n !! i with
      | Some {| j_cmd := cmd; j_task := Step f |} => job_turn i cmd (f now (n_world n)).1 (f now (n_world n)).2 n
      | Some {| j_cmd := cmd; j_task := Done r |} => job_done i (ack_of cmd r) n
      | None => n
      end
  | RunStream i =>
      match n_streams n !! i with
      | Some s => set_stream i (stream_turn s (n_world n)).1 (stream_turn s (n_world n)).2 n
      | None => n
      end
  end.
Definition play : list choice -> Node R F Q -> Node R F Q := flip (foldl play_one).

Lemma play_steps l n : rtc (nstep d) n (play l n).
Proof.
  revert n. induction l as [|c l IH]; intros n; [done|]. cbn. etrans; [|apply IH].
  destruct c as [cmd|i now|i]; cbn.
  - apply rtc_once, n_arrives.
  - destruct (n_jobs n !! i) as [[cmd [r|f]]|] eqn:Hi; [..|done]; apply rtc_once; by constructor.
  - destruct (n_streams n !! i) as [s|] eqn:Hi; [|done]. apply rtc_once. by constructor.
Qed.
End play.

(** ** On a node in memory *)

Abbreviation toy_node := (Node FakeState memfs ToyDb.state).
Definition start_s1 : CommandPayload := Toy.command Start "s1" None None.
Definition remove_s1 : CommandPayload := Toy.command Remove "s1" None None.
Definition create_s1 : CommandPayload := Toy.command Create "s1" None None.

(** A job runs to its acknowledgement. *)
Definition to_end (i : nat) : list choice := replicate 8 (RunJob i 7).

(** The server is created and started by one command after the other. *)
Definition created : toy_node :=
  play Toy.node ([Arrive create_s1] ++ replicate 3 (RunJob 0 7)) (node_new Toy.start).
Definition started : toy_node := play Toy.node (Arrive start_s1 :: to_end 0) created.

(** A start and a removal of the same server overlap: the removal runs between
    the start of the container and its tracking. *)
Definition overlapped : toy_node :=
  play Toy.node ([Arrive start_s1; Arrive remove_s1] ++ replicate 2 (RunJob 0 7) ++
                 replicate 5 (RunJob 1 7) ++ replicate 6 (RunJob 0 7)) created.

(** Two starts of the same server whose lookups both come before either insert;
    then the first one's stream ends. *)
Definition raced : toy_node :=
  play Toy.node ([Arrive start_s1; Arrive start_s1] ++ replicate 5 (RunJob 0 7) ++
                 replicate 5 (RunJob 1 7) ++ [RunJob 0 7; RunJob 1 7; RunJob 0 7; RunJob 1 7; RunJob 0 7; RunJob 0 7;
                 RunStream 0; RunStream 0]) created.

(** The container is removed while its stream has seen the end and not yet
    cleaned up, and the server is created and started anew; only then does the
    old stream clean up. *)
Definition overtaken : toy_node :=
  play Toy.node ([Arrive remove_s1] ++ replicate 2 (RunJob 0 7) ++ [RunStream 0] ++
                 replicate 3 (RunJob 0 7) ++ [Arrive create_s1] ++ to_end 0 ++
                 [Arrive start_s1] ++ to_end 0 ++ [RunStream 0]) started.

(** A live stream whose server has no console to type into. *)
Definition orphaned (n : toy_node) : Prop :=
  n_jobs n = [] /\ exists t, n_streams n = [Pumping t] /\ pt_server_id t = "s1" /\
    (stream_turn (Pumping t) (n_world n)).2 = Some (Pumping t) /\
    consoles (n_world n) !! "s1" = None /\
    ack_error (handle Toy.node 7 (Toy.command ConsoleInput "s1" (Some "say hi") None) (n_world n)).2
      = Some "no active console session for server s1".

Lemma created_steps : rtc (nstep Toy.node) (node_new Toy.start) created.
Proof. apply play_steps. Qed.
Lemma started_steps : rtc (nstep Toy.node) (node_new Toy.start) started.
Proof. etrans; [apply created_steps|apply play_steps]. Qed.
Lemma raced_steps : rtc (nstep Toy.node) (node_new Toy.start) raced.
Proof. etrans; [apply created_steps|apply play_steps]. Qed.




(** Two commands of the same server in the middle of their work. *)
Definition busy : toy_node :=
  play Toy.node [Arrive start_s1; Arrive remove_s1; RunJob 0 7; RunJob 1 7; RunJob 0 7] created.

