(* ===== verification/Session.v ===== *)
(** * One connection to the panel (daemon/src/agent/session.rs)

    The select loop is a step function: its argument says which branch became
    ready, with the clock readings, random bytes and send outcomes the code sees
    while it handles it. Spawned commands run between the loop's turns, one
    turn of [handle_task] at a time, interleaved in any order. A heartbeat is
    made inside its branch: until it is sent the loop polls nothing else, while
    commands and streams go on. *)

From S2P Require Import Prelude RustStr Json Crypto Payloads Envelope NonceCache Runtime Db Fs.
From S2P Require Import Backup Dispatcher Heartbeat Task ConsoleStream Concurrent.
From stdpp Require Import options.
From Stdlib Require Import Sorting.Sorted.
Set Default Proof Using "Type*".

(** [env!("CARGO_PKG_VERSION")] *)
Definition AGENT_VERSION : string := "0.6.0".

(** 120 seconds, in the nanoseconds of the monotonic clock. *)
Definition NONCE_CACHE_TTL : Z := (120 * 1000000000)%Z.

(** [serde_json] on whole envelopes, whose payload is kept as raw text. *)
Class WireJson := {
  envelope_to_text : Envelope -> result string;
  envelope_from_text : string -> option Envelope;
}.
Class WireJsonLaws `{WireJson} := {
  envelope_roundtrip e t : envelope_to_text e = Ok t -> envelope_from_text t = Some e;
  envelope_timestamp t e : envelope_from_text t = Some e -> in_i64 (env_timestamp e);
}.

(** A message that went out: its kind, the tree of its payload, its text. *)
Record Sent := { sent_kind : string; sent_payload : json; sent_text : string }.

(** The session with what it shares with the tasks it spawns: the dispatcher's
    state, the commands and console streams still running, the channel of
    finished acks, how many of the dispatcher's events were taken from
    [events_rx], and the wire. [orphans] are commands of earlier connections
    that still run. [beating] is the heartbeat the loop is busy with. *)
Record Session (R F Q : Type) := {
  world : World R F Q;
  incoming_nonces : NonceCache;
  in_flight : list (Job R F Q);
  orphans : list (Job R F Q);
  streams : list stream;
  ack_queue : list AckPayload;
  events_taken : nat;
  wire : list Sent;
  beating : option beat;
}.
Arguments world {R F Q} _.
Arguments incoming_nonces {R F Q} _.
Arguments in_flight {R F Q} _.
Arguments orphans {R F Q} _.
Arguments streams {R F Q} _.
Arguments ack_queue {R F Q} _.
Arguments events_taken {R F Q} _.
Arguments wire {R F Q} _.
Arguments beating {R F Q} _.

(** How a turn of the loop ends. *)
Inductive flow := Continue | Return (r : result unit) | Panic.

(** What the loop is woken by. A turn that sends carries the wall clock, the
    random bytes and the outcome of the send; one that receives a text carries
    the wall clock in seconds and the monotonic clock in nanoseconds.
    [HeartbeatRuns] is the next turn of the heartbeat the loop is in. The last
    four happen beside the loop: a turn of a command of this connection, of an
    earlier one, of a console stream, and containers and other processes acting
    on the runtime, the files and the database. *)
Inductive wakeup {R F Q : Type} :=
| Cancelled
| HeartbeatTick
| HeartbeatRuns (now : Z) (rand : list byte) (send : result unit)
| EventReady (now : Z) (rand : list byte) (send : result unit)
| AckReady (now : Z) (rand : list byte) (send : result unit)
| StreamEnd
| StreamError (e : string)
| Text (wall mono : Z) (text : string)
| CloseFrame
| OtherFrame
| CommandRuns (i : nat) (now : Z)
| OrphanRuns (i : nat) (now : Z)
| PumpRuns (i : nat)
| Outside (r : R) (f : F) (q : Q).

(** What happens whether or not a connection is up. *)
Definition beside {R F Q} (i : wakeup (R := R) (F := F) (Q := Q)) : bool :=
  match i with
  | CommandRuns _ _ | OrphanRuns _ _ | PumpRuns _ | Outside _ _ _ => true
  | _ => false
  end.

(** Inside the heartbeat branch only the heartbeat itself goes on. *)
Definition ready {R F Q} (s : Session R F Q) (i : wakeup (R := R) (F := F) (Q := Q)) : bool :=
  match beating s, i with
  | Some _, HeartbeatRuns _ _ _ => true
  | Some _, _ => beside i
  | None, HeartbeatRuns _ _ _ => false
  | None, _ => true
  end.

Section session.
Context {R F Q : Type}.
Context `{ContainerRuntime R} `{FileSystem F} `{Archive F} `{MariaDb Q} `{Base64}.
Context `{Crypto} `{SerdeJson} `{WireJson}.
Variable p : profile.
Variable d : Dispatcher.
Variable node_token : string.
Abbreviation S := (Session R F Q).

Definition session_new (w : World R F Q) (taken : nat) (running : list (Job R F Q))
    (pumping : list stream) : S :=
  {| world := w; incoming_nonces := NonceCache.new NONCE_CACHE_TTL; in_flight := [];
     orphans := running; streams := pumping; ack_queue := []; events_taken := taken; wire := [];
     beating := None |}.

(** ** Field updates *)

Definition set_world (w : World R F Q) (s : S) : S :=
  {| world := w; incoming_nonces := incoming_nonces s; in_flight := in_flight s; orphans := orphans s;
     streams := streams s; ack_queue := ack_queue s; events_taken := events_taken s; wire := wire s;
     beating := beating s |}.
Definition set_nonces (c : NonceCache) (s : S) : S :=
  {| world := world s; incoming_nonces := c; in_flight := in_flight s; orphans := orphans s;
     streams := streams s; ack_queue := ack_queue s; events_taken := events_taken s; wire := wire s;
     beating := beating s |}.
Definition set_in_flight (l : list (Job R F Q)) (s : S) : S :=
  {| world := world s; incoming_nonces := incoming_nonces s; in_flight := l; orphans := orphans s;
     streams := streams s; ack_queue := ack_queue s; events_taken := events_taken s; wire := wire s;
     beating := beating s |}.
Definition set_orphans (l : list (Job R F Q)) (s : S) : S :=
  {| world := world s; incoming_nonces := incoming_nonces s; in_flight := in_flight s; orphans := l;
     streams := streams s; ack_queue := ack_queue s; events_taken := events_taken s; wire := wire s;
     beating := beating s |}.
Definition set_streams (l : list stream) (s : S) : S :=
  {| world := world s; incoming_nonces := incoming_nonces s; in_flight := in_flight s; orphans := orphans s;
     streams := l; ack_queue := ack_queue s; events_taken := events_taken s; wire := wire s;
     beating := beating s |}.
Definition set_acks (l : list AckPayload) (s : S) : S :=
  {| world := world s; incoming_nonces := incoming_nonces s; in_flight := in_flight s; orphans := orphans s;
     streams := streams s; ack_queue := l; events_taken := events_taken s; wire := wire s;
     beating := beating s |}.
Definition take_event (s : S) : S :=
  {| world := world s; incoming_nonces := incoming_nonces s; in_flight := in_flight s; orphans := orphans s;
     streams := streams s; ack_queue := ack_queue s; events_taken := events_taken s + 1; wire := wire s;
     beating := beating s |}.
Definition push_wire (m : Sent) (s : S) : S :=
  {| world := world s; incoming_nonces := incoming_nonces s; in_flight := in_flight s; orphans := orphans s;
     streams := streams s; ack_queue := ack_queue s; events_taken := events_taken s; wire := wire s ++ [m];
     beating := beating s |}.

Definition set_beating (b : option beat) (s : S) : S :=
  {| world := world s; incoming_nonces := incoming_nonces s; in_flight := in_flight s; orphans := orphans s;
     streams := streams s; ack_queue := ack_queue s; events_taken := events_taken s; wire := wire s;
     beating := b |}.

(** ** Sending *)

Definition send_signed (kind : string) (payload : json) (now : Z) (rand : list byte)
    (send : result unit) : M S unit :=
  envelope ← lift (signed (as_bytes node_token) kind payload now rand);
  text ← lift (envelope_to_text envelope);
  _ ← lift send;
  modify (push_wire {| sent_kind := kind; sent_payload := payload; sent_text := text |}).

Definition capabilities : list string :=
  [CAP_PULL_IMAGE] ++ (if database_enabled d then [CAP_DATABASES] else []).

Definition hello : HelloPayload :=
  {| hello_node_token := node_token; hello_agent_version := AGENT_VERSION;
     hello_capabilities := capabilities |}.

(** [?] inside the loop. *)
Definition or_return {A} (r : result A) : flow :=
  match r with Ok _ => Continue | Err e => Return (Err e) end.

(** ** Receiving *)

Definition handle_incoming (wall mono : Z) (text : string) (s : S) : S * flow :=
  match envelope_from_text text with
  | None => (s, Continue)
  | Some envelope =>
      match verify p wall (as_bytes node_token) envelope with
      | None => (s, Panic)
      | Some false =>
          (s, Return (Err ("rejecting envelope with invalid signature or stale timestamp (type="
                           +:+ env_kind envelope +:+ ")")))
      | Some true =>
          let '(cache, fresh) := check_and_record (incoming_nonces s) mono (env_nonce envelope) in
          let s := set_nonces cache s in
          if negb fresh then
            (s, Return (Err ("rejecting replayed nonce (type=" +:+ env_kind envelope +:+ ")")))
          else if bool_decide (env_kind envelope <> envelope_type.COMMAND) then (s, Continue)
          else
            match decode_payload dec_command envelope with
            | None => (s, Continue)
            | Some cmd => (set_in_flight (in_flight s ++ [job_new d cmd]) s, Continue)
            end
      end
  end.

(** ** The loop *)

(** The streams a command's turn left behind, since the state [w] before it. *)
Definition leave_streams (w : World R F Q) (s : S) : S :=
  set_streams (streams s ++ spawned w (world s)) s.

(** A branch that is ready. *)
Definition branch (i : wakeup) (s : S) : S * flow :=
  match i with
  | Cancelled => (s, Return (Ok tt))
  | HeartbeatTick => (set_beating (Some (beat_new (world s))) s, Continue)
  | HeartbeatRuns now rand send =>
      match beating s with
      | None => (s, Continue)
      | Some b =>
          match beat_done b with
          | Some payload =>
              let '(s, r) := mcontext "send heartbeat"
                (send_signed envelope_type.HEARTBEAT (enc_heartbeat payload) now rand send)
                (set_beating None s) in
              (s, or_return r)
          | None =>
              let '(w, b') := beat_turn b (world s) in
              (set_beating (Some b') (set_world w s), Continue)
          end
      end
  | EventReady now rand send =>
      match events (world s) !! events_taken s with
      | None => (s, Continue)
      | Some event =>
          let '(s, r) := mcontext "send event"
            (send_signed envelope_type.EVENT (enc_event event) now rand send) (take_event s) in
          (s, or_return r)
      end
  | AckReady now rand send =>
      match ack_queue s with
      | [] => (s, Continue)
      | ack :: acks =>
          let '(s, r) := mcontext "send ack"
            (send_signed envelope_type.ACK (enc_ack ack) now rand send) (set_acks acks s) in
          (s, or_return r)
      end
  | StreamEnd => (s, Return (Ok tt))
  | StreamError e => (s, Return (Err e))
  | Text wall mono text => handle_incoming wall mono text s
  | CloseFrame => (s, Return (Ok tt))
  | OtherFrame => (s, Continue)
  | CommandRuns i now =>
      match in_flight s !! i with
      | None => (s, Continue)
      | Some {| j_cmd := cmd; j_task := Done r |} =>
          (set_acks (ack_queue s ++ [ack_of cmd r]) (set_in_flight (delete i (in_flight s)) s), Continue)
      | Some {| j_cmd := cmd; j_task := Step f |} =>
          let '(w, t) := f now (world s) in
          (set_in_flight (<[i := {| j_cmd := cmd; j_task := t |}]> (in_flight s))
             (leave_streams (world s) (set_world w s)), Continue)
      end
  | OrphanRuns i now =>
      match orphans s !! i with
      | None => (s, Continue)
      | Some {| j_task := Done _ |} => (set_orphans (delete i (orphans s)) s, Continue)
      | Some {| j_cmd := cmd; j_task := Step f |} =>
          let '(w, t) := f now (world s) in
          (set_orphans (<[i := {| j_cmd := cmd; j_task := t |}]> (orphans s))
             (leave_streams (world s) (set_world w s)), Continue)
      end
  | PumpRuns i =>
      match streams s !! i with
      | None => (s, Continue)
      | Some st =>
          let '(w, next) := stream_turn st (world s) in
          (set_streams match next with
                       | Some st' => <[i := st']> (streams s)
                       | None => delete i (streams s)
                       end (set_world w s), Continue)
      end
  | Outside r f q => (set_world (outside r f q (world s)) s, Continue)
  end.

(** A wake-up the loop cannot take does not happen. *)
Definition turn (i : wakeup) (s : S) : S * flow :=
  if ready s i then branch i s else (s, Continue).

Fixpoint loop (l : list wakeup) (s : S) : S * flow :=
  match l with
  | [] => (s, Continue)
  | i :: l' => let '(s', f) := turn i s in match f with Continue => loop l' s' | _ => (s', f) end
  end.

(** [run]: the hello, then the loop. *)
Definition run_session (now : Z) (rand : list byte) (send : result unit) (l : list wakeup) (s : S) : S * flow :=
  let '(s, r) := mcontext "send hello"
    (send_signed envelope_type.HELLO (enc_hello hello) now rand send) s in
  match r with
  | Ok _ => loop l s
  | Err e => (s, Return (Err e))
  end.
End session.
