(* ===== verification/WireText.v ===== *)
(** * Envelopes as JSON texts

    An instance of [WireJson]: envelopes as [serde_json] writes them, with the
    payload's text embedded as it is and cut out of the text again when an
    envelope is read. The witnesses and the transcribed tests of the session
    run on it. *)

From S2P Require Import Prelude RustStr Json JsonText Envelope Session.
From stdpp Require Import options.

Definition member_text (name : string) (value : list byte) : list byte :=
  print_string name ++ ":"%char :: value.

Definition print_envelope (e : Envelope) : list byte :=
  "{"%char :: member_text "type" (print_string (env_kind e))
  ++ ","%char :: member_text "timestamp" (print_int (env_timestamp e))
  ++ ","%char :: member_text "nonce" (print_string (env_nonce e))
  ++ ","%char :: member_text "payload" (as_bytes (env_payload e))
  ++ ","%char :: member_text "sig" (print_string (env_sig e)) ++ ["}"%char].

(** The text of one value, and what follows it. *)
Definition cut_value (l : list byte) : option (list byte * list byte) :=
  let l := skip_ws l in
  '(_, r) ← parse_value (S (length l)) l;
  Some (take (length l - length r) l, r).

(** The members of an object, with the texts of their values. *)
Fixpoint cut_members (fuel : nat) (l : list byte) : option (list (string * list byte) * list byte) :=
  match fuel with
  | 0 => None
  | S fuel =>
      match skip_ws l with
      | "034"%char :: l =>
          '(k, r) ← parse_string l;
          match skip_ws r with
          | ":"%char :: r =>
              '(v, r) ← cut_value r;
              match skip_ws r with
              | ","%char :: r => '(kvs, r) ← cut_members fuel r; Some ((k, v) :: kvs, r)
              | "}"%char :: r => Some ([(k, v)], r)
              | _ => None
              end
          | _ => None
          end
      | _ => None
      end
  end.

(** A field that must be there, once. *)
Definition one_member (k : string) (kvs : list (string * list byte)) : option (list byte) :=
  match filter (fun kv => kv.1 = k) kvs with [(_, v)] => Some v | _ => None end.

Definition field {A} (d : dec A) (k : string) (kvs : list (string * list byte)) : option A :=
  v ← one_member k kvs; j ← parse_json v; d j.

Definition envelope_of (kvs : list (string * list byte)) : option Envelope :=
  kind ← field dec_string "type" kvs;
  timestamp ← field dec_i64 "timestamp" kvs;
  nonce ← field dec_string "nonce" kvs;
  payload ← one_member "payload" kvs;
  sig ← field dec_string "sig" kvs;
  Some {| env_kind := kind; env_timestamp := timestamp; env_nonce := nonce;
          env_payload := of_bytes payload; env_sig := sig |}.

Definition cut_object (l : list byte) : option (list (string * list byte)) :=
  match skip_ws l with
  | "{"%char :: l =>
      '(kvs, r) ← cut_members (S (length l)) l;
      match skip_ws r with [] => Some kvs | _ => None end
  | _ => None
  end.

Definition parse_envelope (l : list byte) : option Envelope := cut_object l ≫= envelope_of.

(** An envelope with a payload that is no JSON text is refused. *)
Global Instance text_wire : WireJson := {|
  envelope_to_text := fun e =>
    let t := print_envelope e in
    if bool_decide (parse_envelope t = Some e) then Ok (of_bytes t) else Err "refused";
  envelope_from_text := fun t => parse_envelope (as_bytes t);
|}.

Lemma dec_i64_range j z : dec_i64 j = Some z -> in_i64 z.
Proof.
  unfold dec_i64, dec_int. destruct j; try done. destruct (_ && _) eqn:Hb; [|done].
  intros [= <-]. unfold in_i64. lia.
Qed.

Global Instance text_wire_laws : WireJsonLaws.
Proof.
  split; cbn [envelope_to_text envelope_from_text text_wire].
  - intros e t. case_bool_decide as He; [|done]. intros Ht.
    assert (t = of_bytes (print_envelope e)) as -> by congruence. by rewrite as_of_bytes.
  - intros t e. unfold parse_envelope. destruct (cut_object (as_bytes t)) as [kvs|]; [|done]. cbn.
    unfold envelope_of. destruct (field dec_string "type" kvs); [|done]. cbn.
    destruct (field dec_i64 "timestamp" kvs) as [ts|] eqn:Hts; [|done]. cbn.
    destruct (field dec_string "nonce" kvs); [|done]. cbn. destruct (one_member "payload" kvs); [|done]. cbn.
    destruct (field dec_string "sig" kvs); [|done]. intros [= <-]. cbn. 
    apply bind_Some in Hts as (v & _ & (j & _ & Hd)%bind_Some). by eapply dec_i64_range.
Qed.
