(* ===== verification/SessionSpec.v ===== *)
(** * What a session guarantees

    Replay protection within one connection and its end at a reconnect, which
    messages become commands, that everything sent verifies at the panel, and
    the fate of events and acknowledgements. *)

From S2P Require Import Prelude Trace RustStr Json Crypto Instances Payloads Envelope NonceCache.
From S2P Require Import Runtime FakeRuntime Db Fs Backup MemFs Dispatcher DispatcherSpec ToyNode.
From S2P Require Import Heartbeat Task ConsoleStream Concurrent Session WireText.
From stdpp Require Import options.
From Stdlib Require Import Sorting.Sorted.
Set Default Proof Using "Type*".

(** ** Freshness at two times *)

(** Wall clocks between 1970 and 2^62 seconds. *)
Definition plausible (wall : Z) : Prop := (0 <= wall < 2 ^ 62)%Z.

Lemma fresh_window p now e :
  plausible now -> in_i64 (env_timestamp e) -> timestamp_is_fresh p now e = Some true ->
  (Z.abs (now - env_timestamp e) <= 30)%Z \/ env_timestamp e = (now - 2 ^ 63)%Z.
Proof.
  intros Hn Hi. destruct p.
  - unfold timestamp_is_fresh, arith_i64. case_bool_decide as Hd; cbn; [|done].
    case_bool_decide; cbn; [|done]. intros [= Hb%bool_decide_eq_true]. left. exact Hb.
  - rewrite timestamp_is_fresh_wrapping by done. intros [= Hb%bool_decide_eq_true]. exact Hb.
Qed.

(** A message can only be fresh for a minute. *)
Lemma fresh_twice p w1 w2 e :
  plausible w1 -> plausible w2 -> in_i64 (env_timestamp e) ->
  timestamp_is_fresh p w1 e = Some true -> timestamp_is_fresh p w2 e = Some true ->
  (w2 - w1 <= 60)%Z.
Proof.
  intros H1 H2 Hi F1%fresh_window F2%fresh_window; [|done..]. unfold plausible in *. lia.
Qed.

Lemma verify_fresh `{Crypto} p now secret e :
  verify p now secret e = Some true ->
  timestamp_is_fresh p now e = Some true /\
  verify_sig secret (env_kind e) (env_timestamp e) (env_nonce e) (as_bytes (env_payload e)) (env_sig e) = true.
Proof.
  unfold verify. destruct (timestamp_is_fresh p now e) as [[]|]; cbn; [|done..]. by intros [= ->].
Qed.

(** ** Clocks *)

(** Two readings of (wall seconds, monotonic nanoseconds), in order: the
    monotonic clock does not go back, and the wall clock is not set back by a
    minute or more between them. *)
Definition clock_ok (c1 c2 : Z * Z) : Prop :=
  (c1.2 <= c2.2)%Z /\ (c2.2 - c1.2 < (c2.1 - c1.1 + 60) * 1000000000)%Z.

Definition clock_of {R F Q} (i : wakeup (R := R) (F := F) (Q := Q)) : option (Z * Z) :=
  match i with Text wall mono _ => Some (wall, mono) | _ => None end.

Section spec.
Context {R F Q : Type}.
Context `{ContainerRuntime R} `{FileSystem F} `{Archive F} `{MariaDb Q} `{Base64}.
Context `{Crypto} `{SerdeJson} `{WireJson}.
Variable p : profile.
Variable d : Dispatcher.
Variable node_token : string.
Abbreviation Se := (Session R F Q).
Abbreviation turn := (turn p d node_token).
Abbreviation loop := (loop p d node_token).
Abbreviation secret := (as_bytes node_token).

(** ** Which messages become commands *)

(** The envelope a turn spawns a command for, if it spawns one. *)
Definition dispatched_by (i : wakeup) (s : Se) : option Envelope :=
  match i with
  | Text _ _ text =>
      if bool_decide (length (in_flight s) < length (in_flight (turn i s).1))
      then envelope_from_text text else None
  | _ => None
  end.

(** Over a whole loop, in order. *)
Fixpoint dispatched (l : list wakeup) (s : Se) : list Envelope :=
  match l with
  | [] => []
  | i :: l' =>
      option_list (dispatched_by i s) ++
      match turn i s with (s', Continue) => dispatched l' s' | _ => [] end
  end.

(** What a text does, on every branch. *)
Inductive incoming (wall mono : Z) (text : string) (s : Se) : Se * flow -> Prop :=
| in_malformed : envelope_from_text text = None -> incoming wall mono text s (s, Continue)
| in_panic e : envelope_from_text text = Some e -> verify p wall secret e = None ->
    incoming wall mono text s (s, Panic)
| in_forged e msg : envelope_from_text text = Some e -> verify p wall secret e = Some false ->
    incoming wall mono text s (s, Return (Err msg))
| in_replayed e c msg : envelope_from_text text = Some e -> verify p wall secret e = Some true ->
    check_and_record (incoming_nonces s) mono (env_nonce e) = (c, false) ->
    incoming wall mono text s (set_nonces c s, Return (Err msg))
| in_ignored e c : envelope_from_text text = Some e -> verify p wall secret e = Some true ->
    check_and_record (incoming_nonces s) mono (env_nonce e) = (c, true) ->
    (env_kind e = envelope_type.COMMAND -> decode_payload dec_command e = None) ->
    incoming wall mono text s (set_nonces c s, Continue)
| in_command e c cmd : envelope_from_text text = Some e -> verify p wall secret e = Some true ->
    check_and_record (incoming_nonces s) mono (env_nonce e) = (c, true) ->
    env_kind e = envelope_type.COMMAND -> decode_payload dec_command e = Some cmd ->
    incoming wall mono text s
      (set_in_flight (in_flight s ++ [job_new d cmd]) (set_nonces c s), Continue).

Lemma handle_incoming_cases wall mono text (s : Se) :
  incoming wall mono text s (handle_incoming p d node_token wall mono text s).
Proof.
  unfold handle_incoming. destruct (envelope_from_text text) as [e|] eqn:He; [|by constructor].
  destruct (verify p wall secret e) as [[]|] eqn:Hv; [|by econstructor..].
  destruct (check_and_record _ mono (env_nonce e)) as [c []] eqn:Hc; cbn [negb]; [|by eapply in_replayed].
  case_bool_decide as Hk; [by eapply in_ignored|].
  destruct (decode_payload dec_command e) as [cmd|] eqn:Hd; [exact (in_command _ _ _ s e c cmd He Hv Hc Hk Hd)|by eapply in_ignored].
Qed.

Lemma dispatched_by_spec i (s : Se) e :
  dispatched_by i s = Some e ->
  exists wall mono text c cmd, i = Text wall mono text /\ envelope_from_text text = Some e /\
    verify p wall secret e = Some true /\
    check_and_record (incoming_nonces s) mono (env_nonce e) = (c, true) /\
    env_kind e = envelope_type.COMMAND /\ decode_payload dec_command e = Some cmd /\
    turn i s = (set_in_flight (in_flight s ++ [job_new d cmd]) (set_nonces c s), Continue).
Proof.
  destruct i as [| | | | | | |wall mono text| | | | | |]; cbn [dispatched_by]; try done.
  unfold Session.turn. destruct (ready s _); [|rewrite bool_decide_false by (cbn; lia); done].
  cbn [branch]. pose proof (handle_incoming_cases wall mono text s) as Hc.
  destruct Hc; cbn; rewrite ?length_app; case_bool_decide; cbn in *; try lia; try done.
  intros He. assert (e0 = e) as -> by congruence. eauto 15.
Qed.

(** ** Replays within a connection *)

(** What is known of a session that has used the nonces [hist] and dispatched
    the envelopes [used] at their clock readings, for all readings [future]
    still to come. *)
Record guarded (last : Z) (hist : list (Z * string)) (used : list (Envelope * (Z * Z)))
    (future : list (Z * Z)) (s : Se) : Prop := {
  g_tracks : tracks last hist (incoming_nonces s);
  g_ttl : ttl (incoming_nonces s) = NONCE_CACHE_TTL;
  g_last c : c ∈ future -> (last <= c.2)%Z;
  g_used e c : (e, c) ∈ used ->
    (c.2, env_nonce e) ∈ hist /\ plausible c.1 /\ in_i64 (env_timestamp e) /\
    timestamp_is_fresh p c.1 e = Some true /\ forall c', c' ∈ future -> clock_ok c c';
}.

(** Turns other than a text's do not touch the nonces. *)
Lemma turn_nonces i (s : Se) :
  clock_of i = None -> incoming_nonces (turn i s).1 = incoming_nonces s.
Proof.
  intros Hi. unfold Session.turn. destruct (ready s i); [|done].
  destruct i; try done; cbn; unfold mcontext, send_signed;
    repeat (run; case_match; simplify_eq/=; try done).
Qed.

Lemma guarded_other i last hist used future (s : Se) :
  clock_of i = None -> guarded last hist used future s -> guarded last hist used future (turn i s).1.
Proof. intros Hi [H1' H2' H3' H4']. split; by rewrite ?turn_nonces. Qed.

Lemma spec_step_sub ttl hist now n x : x ∈ hist -> x ∈ (spec_step ttl hist now n).1.
Proof. unfold spec_step. case_match; cbn; set_solver. Qed.

Lemma guarded_check `{!WireJsonLaws} wall mono text e last hist used future (s : Se) :
  envelope_from_text text = Some e -> verify p wall secret e = Some true -> plausible wall ->
  Forall (clock_ok (wall, mono)) future ->
  guarded last hist used ((wall, mono) :: future) s ->
  let '(c, b) := check_and_record (incoming_nonces s) mono (env_nonce e) in
  let hist' := (spec_step NONCE_CACHE_TTL hist mono (env_nonce e)).1 in
  guarded mono hist' used future (set_nonces c s) /\
  (b = true -> guarded mono hist' ((e, (wall, mono)) :: used) future (set_nonces c s) /\
               ~ e ∈ used.*1).
Proof.
  intros He Hv Hp Hf [Ht Httl Hl Hu].
  assert (Hlm : (last <= mono)%Z) by (apply (Hl (wall, mono)); set_solver).
  pose proof (tracks_step last hist (incoming_nonces s) mono (env_nonce e) Ht Hlm) as Hs.
  rewrite Httl in Hs. destruct (check_and_record _ mono (env_nonce e)) as [c b].
  pose proof (spec_step_sub NONCE_CACHE_TTL hist mono (env_nonce e)) as Hsub.
  destruct (spec_step NONCE_CACHE_TTL hist mono (env_nonce e)) as [hist' b'] eqn:Hstep. cbn [fst] in *.
  destruct Hs as (<- & Ht' & Httl'). apply verify_fresh in Hv as [Hfr _]. rewrite Forall_forall in Hf.
  assert (Hg : guarded mono hist' used future (set_nonces c s)).
  { split; cbn; [done|done| |].
    - intros c' Hc'. apply (Hf c'). done.
    - intros e' c' Hin. destruct (Hu _ _ Hin) as (Hh & ? & ? & ? & Hc). split_and!; auto.
      intros c'' Hc''. apply Hc. set_solver. }
  split; [exact Hg|]. intros ->. unfold spec_step in Hstep.
  destruct (spec_accepts _ hist mono _) eqn:Hacc; [|done]. injection Hstep as <-. split.
  - destruct Hg as [G1 G2 G3 G4]. split; try done.
    intros e' c' [[= -> ->]|Hin]%elem_of_cons; [|by apply G4].
    split_and!; [set_solver|done|by eapply envelope_timestamp|done|done].
  - intros ([e' c'] & -> & Hin)%list_elem_of_fmap. cbn in *.
    destruct (Hu _ _ Hin) as (Hh & Hp' & Hi & Hfr' & Hc).
    pose proof (proj1 (spec_accepts_spec _ _ _ _) Hacc _ Hh) as Hold.
    destruct (Hc (wall, mono)) as [_ Hclk]; [set_solver|]. cbn in Hclk.
    pose proof (fresh_twice p c'.1 wall e' Hp' Hp Hi Hfr' Hfr). unfold NONCE_CACHE_TTL in Hold. lia.
Qed.

Lemma dispatched_guarded `{!WireJsonLaws} l last hist used (s : Se) :
  StronglySorted clock_ok (omap clock_of l) -> Forall (fun c => plausible c.1) (omap clock_of l) ->
  guarded last hist used (omap clock_of l) s ->
  NoDup (dispatched l s) /\ forall e, e ∈ dispatched l s -> ~ e ∈ used.*1.
Proof.
  revert last hist used s. induction l as [|i l IH]; intros last hist used s Hs Hp Hg.
  { split; [constructor|]. cbn. set_solver. }
  cbn [dispatched]. destruct (clock_of i) as [c|] eqn:Hi.
  2: { assert (Hd : dispatched_by i s = None) by (by destruct i). rewrite Hd. cbn [option_list app].
       cbn [omap list_omap] in Hs, Hp, Hg. rewrite Hi in Hs, Hp, Hg.
       pose proof (guarded_other i _ _ _ _ s Hi Hg) as Hg'.
       destruct (turn i s) as [s' []]; [by eapply IH|split; [constructor|set_solver]..]. }
  destruct i as [| | | | | | |wall mono text| | | | | |]; try done. cbn in Hi. injection Hi as <-.
  cbn [omap list_omap clock_of] in Hs, Hp, Hg. inversion Hs as [|? ? Hs' Hsf]; subst.
  inversion Hp as [|? ? Hpw Hp']; subst. cbn in Hpw.
  assert (Hsame : guarded last hist used (omap clock_of l) s).
  { destruct Hg as [G1 G2 G3 G4]. split; try done.
    - intros c Hc. apply G3. set_solver.
    - intros e c Hin. destruct (G4 _ _ Hin) as (? & ? & ? & ? & Hcc). split_and!; try done.
      intros c' Hc'. apply Hcc. set_solver. }
  assert (Hnil : NoDup ([] : list Envelope) /\ forall e : Envelope, e ∈ [] -> ~ e ∈ used.*1)
    by (split; [constructor|set_solver]).
  cbn [dispatched_by]. unfold Session.turn.
  destruct (ready s _); [|rewrite bool_decide_false by (cbn; lia); by eapply IH].
  cbn [branch]. pose proof (handle_incoming_cases wall mono text s) as Hc.
  destruct Hc as [He|e He Hv|e msg He Hv|e c msg He Hv Hc|e c He Hv Hc Hk|e c cmd He Hv Hc Hk Hdec];
    [..|rewrite bool_decide_true by (cbn; rewrite length_app; cbn; lia)];
    try (rewrite bool_decide_false by (cbn; lia)); cbn [option_list app]; try exact Hnil.
  - by eapply IH.
  - pose proof (guarded_check wall mono text e _ _ _ _ s He Hv Hpw Hsf Hg) as Hgc. rewrite Hc in Hgc.
    destruct Hgc as [Hg' _]. by eapply IH.
  - pose proof (guarded_check wall mono text e _ _ _ _ s He Hv Hpw Hsf Hg) as Hgc. rewrite Hc in Hgc.
    destruct Hgc as [_ Hgc]. destruct (Hgc eq_refl) as [Hg' Hnew]. rewrite He.
    destruct (IH mono (spec_step NONCE_CACHE_TTL hist mono (env_nonce e)).1 ((e, (wall, mono)) :: used)
      (set_in_flight (in_flight s ++ [job_new d cmd]) (set_nonces c s)) Hs' Hp') as [Hnd Hdis].
    { destruct Hg'. by split. }
    cbn [option_list app]. split.
    + constructor; [|done]. intros Hin. apply (Hdis _ Hin). cbn. set_solver.
    + intros e' [->|Hin]%elem_of_cons; [done|]. specialize (Hdis _ Hin). cbn in Hdis. set_solver.
Qed.

(** C2: replay protection. Over a whole connection, however messages, ticks and
    commands interleave, no envelope is dispatched twice: the nonces outlive the
    freshness window. This relies on the wall clock not being set back by a
    minute or more while the connection lasts. *)
Theorem no_replay `{!WireJsonLaws} l (w : World R F Q) taken running pumping :
  StronglySorted clock_ok (omap clock_of l) -> Forall (fun c => plausible c.1) (omap clock_of l) ->
  NoDup (dispatched l (session_new w taken running pumping)).
Proof.
  intros Hs Hp. destruct (omap clock_of l) as [|c cs] eqn:Hc.
  - apply (dispatched_guarded l 0 [] []); rewrite ?Hc; [done..|].
    split; [apply tracks_new|done|set_solver|set_solver].
  - apply (dispatched_guarded l c.2 [] []); rewrite ?Hc; [done..|].
    split; [apply tracks_new|done| |set_solver].
    inversion Hs as [|? ? _ Hf]; subst. rewrite Forall_forall in Hf.
    intros c' [->|Hin]%elem_of_cons; [done|]. apply (Hf _ Hin).
Qed.

(** C6: only authentic messages run. Every envelope that was dispatched in a
    connection is a command envelope whose signature is the node token's MAC of
    exactly its kind, timestamp, nonce and payload text, and whose payload is a
    well-formed command. *)
Theorem dispatched_authentic `{!CryptoLaws} l (s : Se) e :
  e ∈ dispatched l s ->
  env_kind e = envelope_type.COMMAND /\
  env_sig e = sign secret (env_kind e) (env_timestamp e) (env_nonce e) (as_bytes (env_payload e)) /\
  is_Some (decode_payload dec_command e).
Proof.
  revert s. induction l as [|i l IH]; intros s; cbn [dispatched]; [set_solver|].
  intros [Hin|Hin]%elem_of_app.
  - destruct (dispatched_by i s) as [e'|] eqn:Hd; cbn in Hin; [|set_solver].
    apply list_elem_of_singleton in Hin as ->.
    apply dispatched_by_spec in Hd as (wall & mono & text & c & cmd & _ & _ & Hv & _ & Hk & Hdec & _).
    apply verify_fresh in Hv as [_ Hv%verify_sig_spec]. eauto.
  - destruct (turn i s) as [s' []]; [by eapply IH|set_solver..].
Qed.

(** C35: the replay window reopens with every reconnect. A command is dispatched;
    its replay in the same connection is refused and tears the connection down;
    the next connection starts with an empty nonce cache and dispatches the same
    message again, as long as it is still fresh. *)
Theorem replay_after_reconnect text e cmd (w : World R F Q) taken running pumping w1 m1 w2 m2 w3 m3 :
  envelope_from_text text = Some e -> env_kind e = envelope_type.COMMAND ->
  decode_payload dec_command e = Some cmd ->
  verify p w1 secret e = Some true -> verify p w2 secret e = Some true ->
  verify p w3 secret e = Some true -> (m1 <= m2 < m1 + NONCE_CACHE_TTL)%Z ->
  let '(s1, f1) := turn (Text w1 m1 text) (session_new w taken running pumping) in
  let '(s2, f2) := turn (Text w2 m2 text) s1 in
  let '(s3, f3) := turn (Text w3 m3 text)
    (session_new (world s2) (events_taken s2) (orphans s2 ++ in_flight s2) (streams s2)) in
  f1 = Continue /\ in_flight s1 = [job_new d cmd] /\
  f2 = Return (Err "rejecting replayed nonce (type=command)") /\ in_flight s2 = [job_new d cmd] /\
  f3 = Continue /\ in_flight s3 = [job_new d cmd] /\ orphans s3 = running ++ [job_new d cmd].
Proof.
  intros He Hk Hdec V1 V2 V3 Hm. unfold Session.turn. cbn [ready beating session_new branch].
  unfold handle_incoming. rewrite He, V1.
  assert (Hnew : forall m, check_and_record (NonceCache.new NONCE_CACHE_TTL) m (env_nonce e)
    = ({| seen := {[env_nonce e := m]}; ttl := NONCE_CACHE_TTL |}, true)).
  { intros m. unfold check_and_record. cbn. rewrite map_filter_empty. by rewrite lookup_empty. }
  cbn [session_new incoming_nonces]. rewrite Hnew. cbn [negb].
  rewrite bool_decide_false by (intros Hne; by apply Hne). rewrite Hdec. cbn [negb app in_flight set_nonces set_in_flight].
  rewrite V2. unfold check_and_record at 1. cbn [seen ttl incoming_nonces].
  rewrite (map_lookup_filter_Some_2 _ _ (env_nonce e) m1).
  2: { apply lookup_singleton_eq. }
  2: { unfold young, duration_since, NONCE_CACHE_TTL in *. cbn. lia. }
  cbn [negb session_new incoming_nonces]. rewrite V3, Hnew. cbn. by rewrite Hk.
Qed.

(** ** The wire *)

(** A message made by [send_signed]. *)
Definition genuine (m : Sent) : Prop :=
  exists now rand e, signed secret (sent_kind m) (sent_payload m) now rand = Ok e /\
    envelope_to_text e = Ok (sent_text m).

Lemma send_signed_spec kind payload now rand send (s : Se) :
  match send_signed node_token kind payload now rand send s with
  | (s', Ok _) => exists text, s' = push_wire {| sent_kind := kind; sent_payload := payload; sent_text := text |} s /\
      genuine {| sent_kind := kind; sent_payload := payload; sent_text := text |}
  | (s', Err _) => s' = s
  end.
Proof.
  unfold send_signed. run. destruct (signed _ _ _ _ _) as [e|] eqn:Hs; cbn; [|done].
  destruct (envelope_to_text e) as [text|] eqn:Ht; cbn; [|done]. destruct send; cbn; [|done].
  exists text. split; [done|]. by exists now, rand, e.
Qed.

(** Every running command, of this connection or an earlier one, is one the
    session spawned. *)
Record sane (s : Se) : Prop := {
  sn_in_flight : Forall (job_sane d) (in_flight s);
  sn_orphans : Forall (job_sane d) (orphans s);
}.

(** How a turn changes what is counted below. [Quiet] turns take nothing from
    the event or ack channels and send at most a heartbeat. *)
Inductive effect (s : Se) : option CommandPayload -> Se * flow -> Prop :=
| Quiet s' f ms :
    (sane s -> events (world s) `prefix_of` events (world s')) -> events_taken s' = events_taken s ->
    ack_queue s' = ack_queue s -> j_cmd <$> in_flight s' = j_cmd <$> in_flight s ->
    wire s' = wire s ++ ms -> Forall (fun m => sent_kind m = envelope_type.HEARTBEAT /\ genuine m) ms ->
    effect s None (s', f)
| Spawned s' cmd :
    world s' = world s -> events_taken s' = events_taken s -> ack_queue s' = ack_queue s ->
    in_flight s' = in_flight s ++ [job_new d cmd] -> wire s' = wire s ->
    effect s (Some cmd) (s', Continue)
| EventSent ev m :
    events (world s) !! events_taken s = Some ev -> sent_kind m = envelope_type.EVENT ->
    sent_payload m = enc_event ev -> genuine m ->
    effect s None (push_wire m (take_event s), Continue)
| EventLost ev e :
    events (world s) !! events_taken s = Some ev -> effect s None (take_event s, Return (Err e))
| AckSent ack acks m :
    ack_queue s = ack :: acks -> sent_kind m = envelope_type.ACK ->
    sent_payload m = enc_ack ack -> genuine m ->
    effect s None (push_wire m (set_acks acks s), Continue)
| AckLost ack acks e :
    ack_queue s = ack :: acks -> effect s None (set_acks acks s, Return (Err e))
| CommandDone i j ack :
    in_flight s !! i = Some j -> ack_command_id ack = cmd_command_id (j_cmd j) ->
    effect s None (set_acks (ack_queue s ++ [ack])
                (set_in_flight (delete i (in_flight s)) s), Continue).

Lemma effect_refl (s : Se) f : effect s None (s, f).
Proof. apply (Quiet s s f []); rewrite ?app_nil_r; by try constructor. Qed.

(** The command a turn spawns. *)
Definition spawned_by (i : wakeup) (s : Se) : option CommandPayload :=
  dispatched_by i s ≫= decode_payload dec_command.

Lemma spawned_dispatched i (s : Se) :
  omap (decode_payload dec_command) (option_list (dispatched_by i s)) = option_list (spawned_by i s).
Proof. unfold spawned_by. destruct (dispatched_by i s); [|done]. cbn. by destruct (decode_payload _ _). Qed.

Lemma effect_incoming wall mono text (s : Se) :
  effect s (spawned_by (Text wall mono text) s) (turn (Text wall mono text) s).
Proof.
  unfold spawned_by. cbn [dispatched_by]. unfold Session.turn.
  destruct (ready s _); [|rewrite bool_decide_false by (cbn; lia); apply effect_refl]. cbn [branch].
  pose proof (handle_incoming_cases wall mono text s) as Hc.
  destruct Hc as [| | |e c msg|e c|e c cmd He Hv Hc Hk Hdec];
    [..|rewrite bool_decide_true by (cbn; rewrite length_app; cbn; lia)];
    try (rewrite bool_decide_false by (cbn; lia)); cbn [mbind option_bind]; try apply effect_refl.
  - apply (Quiet s _ _ []); cbn; rewrite ?app_nil_r; by try constructor.
  - apply (Quiet s _ _ []); cbn; rewrite ?app_nil_r; by try constructor.
  - rewrite He. cbn. rewrite Hdec. by apply Spawned.
Qed.

Lemma sane_turn_events cmd f now (w : World R F Q) :
  job_sane d {| j_cmd := cmd; j_task := Step f |} -> events w `prefix_of` events (f now w).1.
Proof. intros [Hg _]%(job_sane_turn d cmd f now w). destruct (ok_events _ _ _ _ Hg) as (es & -> & _). by eexists. Qed.

Lemma sane_same (s s' : Se) :
  in_flight s' = in_flight s -> orphans s' = orphans s -> sane s -> sane s'.
Proof. intros Hi Ho [H1' H2']. split; by rewrite ?Hi, ?Ho. Qed.

Lemma sane_send kind payload now rand send msg (s : Se) :
  sane s -> sane (mcontext msg (send_signed node_token kind payload now rand send) s).1.
Proof.
  unfold mcontext. pose proof (send_signed_spec kind payload now rand send s) as Hs.
  destruct (send_signed _ _ _ _ _ _ s) as [s' [[]|e]]; cbn; [|by subst].
  destruct Hs as (text & -> & _). by apply sane_same.
Qed.

Lemma turn_sane i (s : Se) : sane s -> sane (turn i s).1.
Proof.
  intros Hs. unfold Session.turn. destruct (ready s i); [|done].
  destruct i as [| |now rand send|now rand send|now rand send| |e|wall mono text| | |i now|i now|i|r f q];
    cbn [branch]; try done.
  - by eapply sane_same; [..|exact Hs].
  - destruct (beating s) as [b|]; [|done]. destruct (beat_done b) as [hb|].
    + assert (Hs' : sane (set_beating None s)) by by eapply sane_same; [..|exact Hs].
      apply (sane_send envelope_type.HEARTBEAT (enc_heartbeat hb) now rand send "send heartbeat") in Hs'.
      by destruct (mcontext _ _ _).
    + destruct (beat_turn b (world s)) as [w b']. by eapply sane_same; [..|exact Hs].
  - destruct (events (world s) !! events_taken s) as [ev|]; [|done].
    assert (Hs' : sane (take_event s)) by by eapply sane_same; [..|exact Hs].
    apply (sane_send envelope_type.EVENT (enc_event ev) now rand send "send event") in Hs'.
    by destruct (mcontext _ _ _).
  - destruct (ack_queue s) as [|ack acks]; [done|].
    assert (Hs' : sane (set_acks acks s)) by by eapply sane_same; [..|exact Hs].
    apply (sane_send envelope_type.ACK (enc_ack ack) now rand send "send ack") in Hs'.
    by destruct (mcontext _ _ _).
  - destruct (handle_incoming_cases wall mono text s); cbn [fst]; try done;
      try (by eapply sane_same; [..|exact Hs]).
    destruct Hs. split; cbn; [|done]. apply Forall_app. split; [done|]. apply Forall_singleton, job_new_sane.
  - destruct Hs as [Hi Ho]. destruct (in_flight s !! i) as [[cmd [r|f]]|] eqn:Hj; [..|done].
    + split; cbn; [|done]. by apply Forall_delete.
    + pose proof (Forall_lookup_1 _ _ _ _ Hi Hj) as [_ Ht]%(job_sane_turn d cmd f now (world s)).
      destruct (f now (world s)) as [w t]. split; cbn; [|done]. by apply Forall_insert.
  - destruct Hs as [Hi Ho]. destruct (orphans s !! i) as [[cmd [r|f]]|] eqn:Hj; [..|done].
    + split; cbn; [done|]. by apply Forall_delete.
    + pose proof (Forall_lookup_1 _ _ _ _ Ho Hj) as [_ Ht]%(job_sane_turn d cmd f now (world s)).
      destruct (f now (world s)) as [w t]. split; cbn; [done|]. by apply Forall_insert.
  - destruct (streams s !! i) as [st|]; [|done]. destruct (stream_turn st (world s)).
    by eapply sane_same; [..|exact Hs].
  - by eapply sane_same; [..|exact Hs].
Qed.

Lemma loop_sane l (s : Se) : sane s -> sane (loop l s).1.
Proof.
  revert s. induction l as [|i l IH]; intros s Hs; cbn [Session.loop]; [done|].
  pose proof (turn_sane i s Hs) as Hs'. destruct (turn i s) as [s1 []]; [by apply IH|done..].
Qed.

Lemma session_sane now rand send l (s : Se) :
  sane s -> sane (run_session p d node_token now rand send l s).1.
Proof.
  intros Hs. unfold run_session.
  pose proof (sane_send envelope_type.HELLO (enc_hello (hello d node_token)) now rand send "send hello" s Hs) as Hs'.
  destruct (mcontext _ _ _) as [s1 [[]|e]]; cbn [fst] in Hs'; [by apply loop_sane|done].
Qed.

Lemma turn_effect i (s : Se) : effect s (spawned_by i s) (turn i s).
Proof.
  destruct i as [| |now rand send|now rand send|now rand send| |e|wall mono text| | |i now|i now|i|r f q];
    try (apply effect_incoming); cbn [spawned_by dispatched_by mbind option_bind];
    unfold Session.turn; (destruct (ready s _); [|apply effect_refl]); cbn [branch]; try apply effect_refl.
  - apply (Quiet s _ _ []); cbn; rewrite ?app_nil_r; by try constructor.
  - destruct (beating s) as [b|]; [|apply effect_refl]. destruct (beat_done b) as [hb|].
    + unfold mcontext. pose proof (send_signed_spec envelope_type.HEARTBEAT (enc_heartbeat hb) now rand send
        (set_beating None s)) as Hs.
      destruct (send_signed _ _ _ _ _ _ _) as [s' [[]|e]]; cbn.
      * destruct Hs as (text & -> & Hg). eapply (Quiet s _ _ [_]); cbn; try done. by repeat constructor.
      * subst s'. apply (Quiet s _ _ []); cbn; rewrite ?app_nil_r; by try constructor.
    + destruct (beat_turn_rt b (world s)) as [r Hr]. destruct (beat_turn b (world s)) as [w b'].
      cbn in Hr. subst w. apply (Quiet s _ _ []); cbn; rewrite ?app_nil_r; by try constructor.
  - destruct (events (world s) !! events_taken s) as [ev|] eqn:He; [|apply effect_refl].
    unfold mcontext. pose proof (send_signed_spec envelope_type.EVENT (enc_event ev) now rand send (take_event s)) as Hs.
    destruct (send_signed _ _ _ _ _ _ _) as [s' [[]|e]]; cbn.
    + destruct Hs as (text & -> & Hg). by eapply EventSent.
    + subst s'. by eapply EventLost.
  - destruct (ack_queue s) as [|ack acks] eqn:Ha; [apply effect_refl|].
    unfold mcontext. pose proof (send_signed_spec envelope_type.ACK (enc_ack ack) now rand send (set_acks acks s)) as Hs.
    destruct (send_signed _ _ _ _ _ _ _) as [s' [[]|e]]; cbn.
    + destruct Hs as (text & -> & Hg). by eapply AckSent.
    + subst s'. by eapply AckLost.
  - destruct (in_flight s !! i) as [[cmd [r|f]]|] eqn:Hi; [..|apply effect_refl].
    + eapply CommandDone; [exact Hi|apply ack_of_id].
    + pose proof (fun Hs => sane_turn_events cmd f now (world s) (Forall_lookup_1 _ _ _ _ (sn_in_flight s Hs) Hi)) as Hp.
      destruct (f now (world s)) as [w t]. apply (Quiet s _ _ []); cbn; rewrite ?app_nil_r; try done.
      rewrite list_fmap_insert. apply list_insert_id. by rewrite list_lookup_fmap, Hi.
  - destruct (orphans s !! i) as [[cmd [r|f]]|] eqn:Hi; [..|apply effect_refl].
    + apply (Quiet s _ _ []); cbn; rewrite ?app_nil_r; by try constructor.
    + pose proof (fun Hs => sane_turn_events cmd f now (world s) (Forall_lookup_1 _ _ _ _ (sn_orphans s Hs) Hi)) as Hp.
      destruct (f now (world s)) as [w t]. apply (Quiet s _ _ []); cbn; rewrite ?app_nil_r; by try constructor.
  - destruct (streams s !! i) as [st|]; [|apply effect_refl].
    pose proof (stream_turn_events st (world s)) as Hp. destruct (stream_turn st (world s)) as [w o].
    apply (Quiet s _ _ []); cbn; rewrite ?app_nil_r; by try constructor.
  - apply (Quiet s _ _ []); cbn; rewrite ?app_nil_r; by try constructor.
Qed.

Lemma effect_wire o (s : Se) r :
  effect s o r ->
  exists ms, wire r.1 = wire s ++ ms /\
    Forall (fun m => sent_kind m ∈ [envelope_type.HEARTBEAT; envelope_type.EVENT; envelope_type.ACK]
                     /\ genuine m) ms.
Proof.
  intros He. destruct He as [s' f ms _ _ _ _ Hw Hm|s' cmd _ _ _ _ Hw|ev m _ Hk _ Hg| |ack acks m _ Hk _ Hg| |].
  - exists ms. split; [done|]. eapply Forall_impl; [exact Hm|]. intros m [-> ?]. split; [set_solver|done].
  - exists []. rewrite app_nil_r. split; [done|constructor].
  - exists [m]. split; [done|]. constructor; [|constructor]. rewrite Hk. split; [set_solver|done].
  - exists []. cbn. rewrite app_nil_r. split; [done|constructor].
  - exists [m]. split; [done|]. constructor; [|constructor]. rewrite Hk. split; [set_solver|done].
  - exists []. cbn. rewrite app_nil_r. split; [done|constructor].
  - exists []. cbn. rewrite app_nil_r. split; [done|constructor].
Qed.

Lemma loop_wire l (s : Se) :
  exists ms, wire (loop l s).1 = wire s ++ ms /\
    Forall (fun m => sent_kind m ∈ [envelope_type.HEARTBEAT; envelope_type.EVENT; envelope_type.ACK]
                     /\ genuine m) ms.
Proof.
  revert s. induction l as [|i l IH]; intros s; cbn [Session.loop].
  { exists []. rewrite app_nil_r. split; [done|constructor]. }
  destruct (effect_wire _ _ _ (turn_effect i s)) as (ms & Hw & Hm).
  destruct (turn i s) as [s1 []]; cbn in Hw; [|by exists ms..].
  destruct (IH s1) as (ms' & Hw' & Hm'). exists (ms ++ ms').
  rewrite Hw', Hw, app_assoc. split; [done|]. by apply Forall_app.
Qed.

Lemma genuine_verifies `{!CryptoLaws} `{!SerdeJsonLaws} `{!WireJsonLaws} m :
  genuine m ->
  exists e, envelope_from_text (sent_text m) = Some e /\ env_kind e = sent_kind m /\
    to_text (sent_payload m) = Ok (env_payload e) /\
    forall p' now', (Z.abs (now' - env_timestamp e) <= 30)%Z -> verify p' now' secret e = Some true.
Proof.
  intros (now & rand & e & (Ht & Hk & Hts & _ & Hv)%signed_inv & He). exists e.
  split_and!; [by apply envelope_roundtrip|done|done|]. intros p' now' Hn.
  by rewrite verify_exact, Hk, Hts, Hv.
Qed.

(** C10: everything a session puts on the wire is a message the panel accepts: it
    parses back to an envelope of the announced kind that carries exactly the
    serialised payload and verifies under the node token for thirty seconds
    around its timestamp. The first message is the hello, with the capability
    list, and it is the only hello. *)
Theorem wire_verifies `{!CryptoLaws} `{!SerdeJsonLaws} `{!WireJsonLaws} now rand send l (w : World R F Q) taken running pumping :
  let s' := (run_session p d node_token now rand send l (session_new w taken running pumping)).1 in
  (wire s' = [] \/
   exists m ms, wire s' = m :: ms /\ sent_kind m = envelope_type.HELLO /\
     sent_payload m = enc_hello (hello d node_token) /\
     Forall (fun m => sent_kind m <> envelope_type.HELLO) ms) /\
  forall m, m ∈ wire s' ->
  exists e, envelope_from_text (sent_text m) = Some e /\ env_kind e = sent_kind m /\
    to_text (sent_payload m) = Ok (env_payload e) /\
    forall p' now', (Z.abs (now' - env_timestamp e) <= 30)%Z -> verify p' now' secret e = Some true.
Proof.
  unfold run_session, mcontext.
  pose proof (send_signed_spec envelope_type.HELLO (enc_hello (hello d node_token)) now rand send
    (session_new w taken running pumping)) as Hs.
  destruct (send_signed _ _ _ _ _ _ _) as [s1 [[]|e]]; cbn.
  2: { subst s1. cbn. split; [by left|]. set_solver. }
  destruct Hs as (text & -> & Hg).
  match goal with |- context [Session.loop _ _ _ l ?s1] => destruct (loop_wire l s1) as (ms & -> & Hm) end.
  cbn. split.
  - right. eexists _, ms. split_and!; try done. eapply Forall_impl; [exact Hm|].
    intros m [Hk _] Hh. rewrite Hh in Hk. set_solver.
  - intros m [->|Hin]%elem_of_cons; [by apply genuine_verifies|].
    rewrite Forall_forall in Hm. by apply genuine_verifies, Hm.
Qed.

(** ** Without a connection *)

(** Beside a connection events are only added, and none is taken. *)
Lemma beside_turn i (s : Se) :
  beside i = true -> sane s ->
  exists s', turn i s = (s', Continue) /\ events (world s) `prefix_of` events (world s') /\
    events_taken s' = events_taken s.
Proof.
  intros Hi Hs. assert (Hr : ready s i = true) by (unfold ready; destruct (beating s); by destruct i).
  unfold Session.turn. rewrite Hr. destruct i as [| | | | | | | | | |i now|i now|i|r f q]; try done; cbn [branch].
  - destruct (in_flight s !! i) as [[cmd [r|f]]|] eqn:Hj; [by eexists| |by eexists].
    pose proof (sane_turn_events cmd f now (world s) (Forall_lookup_1 _ _ _ _ (sn_in_flight s Hs) Hj)).
    destruct (f now (world s)). by eexists.
  - destruct (orphans s !! i) as [[cmd [r|f]]|] eqn:Hj; [by eexists| |by eexists].
    pose proof (sane_turn_events cmd f now (world s) (Forall_lookup_1 _ _ _ _ (sn_orphans s Hs) Hj)).
    destruct (f now (world s)). by eexists.
  - destruct (streams s !! i) as [st|]; [|by eexists].
    pose proof (stream_turn_events st (world s)). destruct (stream_turn st (world s)). by eexists.
  - by eexists.
Qed.

Lemma beside_loop l (s : Se) :
  sane s -> let s' := (loop (filter beside l) s).1 in
  sane s' /\ events (world s) `prefix_of` events (world s') /\ events_taken s' = events_taken s.
Proof.
  revert s. induction l as [|i l IH]; intros s Hs; [done|]. rewrite filter_cons.
  case_decide as Hi; [|by apply IH]. cbn [Session.loop].
  destruct (beside_turn i s (Is_true_true_1 _ Hi) Hs) as (s1 & Ht & Hp & Hn).
  pose proof (turn_sane i s Hs) as Hs1. rewrite Ht in *. cbn [fst] in Hs1.
  destruct (IH s1 Hs1) as (Hs' & Hp' & Hn'). split_and!; [done|by etrans|by rewrite Hn'].
Qed.

(** ** Events and acknowledgements *)

(** The payloads of one kind, in the order they were sent. *)
Definition payloads (kind : string) (l : list Sent) : list json :=
  sent_payload <$> filter (fun m => sent_kind m = kind) l.

Lemma payloads_app kind l k : payloads kind (l ++ k) = payloads kind l ++ payloads kind k.
Proof. unfold payloads. by rewrite filter_app, fmap_app. Qed.

Lemma payloads_one kind m : sent_kind m = kind -> payloads kind [m] = [sent_payload m].
Proof. intros Hk. unfold payloads. by rewrite filter_cons_True. Qed.
Lemma payloads_other kind m : sent_kind m <> kind -> payloads kind [m] = [].
Proof. intros Hk. unfold payloads. by rewrite filter_cons_False. Qed.

Lemma payloads_none kind ms (P : Sent -> Prop) :
  kind <> envelope_type.HEARTBEAT ->
  Forall (fun m => sent_kind m = envelope_type.HEARTBEAT /\ P m) ms -> payloads kind ms = [].
Proof.
  intros Hk Hm. unfold payloads. induction Hm as [|m ms [Hm _] _ IH]; [done|].
  rewrite filter_cons_False by (rewrite Hm; congruence). done.
Qed.

(** Between [s] and [s'] the events [sent] and then [lost] were taken from the
    channel, and [sent] went out. *)
Definition streamed (s s' : Se) (sent lost : list EventPayload) : Prop :=
  exists pre post, events (world s') = pre ++ sent ++ lost ++ post /\
    events (world s) `prefix_of` events (world s') /\
    events_taken s = length pre /\ events_taken s' = length (pre ++ sent ++ lost) /\
    payloads envelope_type.EVENT (wire s') = payloads envelope_type.EVENT (wire s) ++ (enc_event <$> sent).

Lemma streamed_quiet (s s' : Se) :
  events_taken s <= length (events (world s)) ->
  events (world s) `prefix_of` events (world s') -> events_taken s' = events_taken s ->
  payloads envelope_type.EVENT (wire s') = payloads envelope_type.EVENT (wire s) -> streamed s s' [] [].
Proof.
  intros Hle Hp Ht Hw. pose proof (prefix_length _ _ Hp).
  exists (take (events_taken s) (events (world s'))), (drop (events_taken s) (events (world s'))).
  rewrite !app_nil_r, length_take, Nat.min_l by lia. cbn. by rewrite take_drop.
Qed.

Lemma streamed_trans (s s1 s2 : Se) a b lost :
  streamed s s1 a [] -> streamed s1 s2 b lost -> streamed s s2 (a ++ b) lost.
Proof.
  intros (pre & post & E1 & P1 & T1 & T1' & W1) (pre' & post' & E2 & P2 & T2 & T2' & W2).
  rewrite app_nil_r in T1'. assert (Hpre : pre' = pre ++ a).
  { destruct P2 as [k P2]. rewrite P2, E1 in E2. rewrite T1' in T2.
    cbn in E2. rewrite <- !app_assoc in E2. rewrite (app_assoc pre a) in E2.
    by apply app_inj_1 in E2 as [<- _]. }
  subst pre'. exists pre, post'. split_and!.
  - by rewrite E2, !app_assoc.
  - by trans (events (world s1)).
  - done.
  - by rewrite T2', !app_assoc.
  - by rewrite W2, W1, fmap_app, app_assoc.
Qed.

Lemma effect_streamed o (s s1 : Se) f :
  effect s o (s1, f) -> sane s -> events_taken s <= length (events (world s)) ->
  exists sent lost, streamed s s1 sent lost /\
    (lost = [] \/ exists ev e, lost = [ev] /\ f = Return (Err e)).
Proof.
  intros He Hsane Hle.
  assert (Hq : forall s2 : Se, events (world s) `prefix_of` events (world s2) ->
    events_taken s2 = events_taken s ->
    payloads envelope_type.EVENT (wire s2) = payloads envelope_type.EVENT (wire s) ->
    exists sent lost, streamed s s2 sent lost /\ (lost = [] \/ exists ev e, lost = [ev] /\ f = Return (Err e))).
  { intros s2 ? ? ?. exists [], []. split; [by apply streamed_quiet|by left]. }
  inversion He as [s' f' ms Hp Ht _ _ Hw Hm|s' cmd Hwd Ht _ _ Hw|ev m Hev Hk Hpl Hg|ev e Hev
    |ack acks m _ Hk _ Hg|ack acks e|i j ack _ _]; subst.
  - apply Hq; [by apply Hp|done|]. rewrite Hw, payloads_app.
    by rewrite (payloads_none envelope_type.EVENT ms genuine), app_nil_r.
  - apply Hq; [by rewrite Hwd|done|by rewrite Hw].
  - exists [ev], []. split; [|by left]. apply take_drop_middle in Hev as Hev'.
    eexists _, _. split_and!; [symmetry; exact Hev'|done| | |].
    + rewrite length_take. lia.
    + cbn. rewrite length_app, length_take. cbn. lia.
    + cbn [wire push_wire take_event]. by rewrite payloads_app, (payloads_one _ m), Hpl.
  - exists [], [ev]. split; [|by eauto]. apply take_drop_middle in Hev as Hev'.
    eexists _, _. split_and!; [symmetry; exact Hev'|done| | |].
    + rewrite length_take. lia.
    + cbn. rewrite length_app, length_take. cbn. lia.
    + cbn. by rewrite app_nil_r.
  - apply Hq; [done|done|]. cbn [wire push_wire set_acks].
    by rewrite payloads_app, (payloads_other _ m), app_nil_r by (by rewrite Hk).
  - by apply Hq.
  - by apply Hq.
Qed.

Lemma loop_streamed l (s s' : Se) f :
  sane s -> events_taken s <= length (events (world s)) -> loop l s = (s', f) ->
  exists sent lost, streamed s s' sent lost /\
    (lost = [] \/ exists ev e, lost = [ev] /\ f = Return (Err e)).
Proof.
  revert s. induction l as [|i l IH]; intros s Hsane Hle; cbn [Session.loop].
  { intros [= <- <-]. exists [], []. split; [by apply streamed_quiet|by left]. }
  pose proof (turn_effect i s) as He. pose proof (turn_sane i s Hsane) as Hsane1.
  destruct (turn i s) as [s1 f1]. destruct (effect_streamed _ _ _ _ He Hsane Hle) as (sent & lost & Hst & Hlost).
  destruct f1; [|intros [= <- <-]; by exists sent, lost..].
  destruct Hlost as [->|(ev & e & _ & ?)]; [|done]. intros Hl.
  assert (Hle1 : events_taken s1 <= length (events (world s1))).
  { destruct Hst as (pre & post & Ev & _ & _ & -> & _). rewrite Ev, !length_app. cbn. lia. }
  destruct (IH s1 Hsane1 Hle1 Hl) as (sent' & lost' & Hst' & Hlost').
  exists (sent ++ sent'), lost'. split; [by eapply streamed_trans|done].
Qed.

(** The same for a whole connection, the hello included. *)
Lemma session_streamed now rand send l (s : Se) :
  sane s -> events_taken s <= length (events (world s)) ->
  exists sent lost, streamed s (run_session p d node_token now rand send l s).1 sent lost /\ length lost <= 1.
Proof.
  intros Hsane Hle. unfold run_session, mcontext.
  pose proof (send_signed_spec envelope_type.HELLO (enc_hello (hello d node_token)) now rand send s) as Hs.
  destruct (send_signed _ _ _ _ _ _ _) as [s1 [[]|e]]; cbn.
  2: { subst s1. exists [], []. split; [by apply streamed_quiet|cbn; lia]. }
  destruct Hs as (text & -> & _).
  match goal with |- context [Session.loop _ _ _ l ?s1] =>
    destruct (Session.loop p d node_token l s1) as [s2 f] eqn:Hl;
    destruct (loop_streamed l s1 s2 f) as (sent & lost & Hst & Hlost); [by eapply sane_same; [..|exact Hsane]|exact Hle|exact Hl|];
    exists sent, lost; split;
      [apply (streamed_trans s s1 s2 [] sent lost); [apply streamed_quiet; try done|done]|] end.
  - cbn [wire push_wire]. rewrite payloads_app, payloads_other by done. by rewrite app_nil_r.
  - destruct Hlost as [->|(ev & e & -> & _)]; cbn; lia.
Qed.

(** Events reach the wire once each and in order. What a stretch of the loop
    sends as events is exactly the next events of the dispatcher's channel, in
    channel order, with nothing left out, except that a send that fails takes
    one event from the channel that is never sent, and ends the session. *)
Theorem events_in_order l (s s' : Se) f :
  sane s -> events_taken s <= length (events (world s)) -> loop l s = (s', f) ->
  exists pre sent lost post,
    events (world s') = pre ++ sent ++ lost ++ post /\
    events_taken s = length pre /\ events_taken s' = length (pre ++ sent ++ lost) /\
    payloads envelope_type.EVENT (wire s') = payloads envelope_type.EVENT (wire s) ++ (enc_event <$> sent) /\
    (lost = [] \/ exists ev e, lost = [ev] /\ f = Return (Err e)).
Proof.
  intros Hsane Hle Hl. destruct (loop_streamed l s s' f Hsane Hle Hl)
    as (sent & lost & (pre & post & ? & ? & ? & ? & ?) & ?). exists pre, sent, lost, post. done.
Qed.

(** The ids still owed an acknowledgement, or that have one in the queue. *)
Definition owed (s : Se) : list string :=
  (cmd_command_id <$> (j_cmd <$> in_flight s)) ++ (ack_command_id <$> ack_queue s).

Lemma effect_acks o (s s1 : Se) :
  effect s o (s1, Continue) ->
  exists acks, payloads envelope_type.ACK (wire s1) = payloads envelope_type.ACK (wire s) ++ (enc_ack <$> acks) /\
    (cmd_command_id <$> option_list o) ++ owed s ≡ₚ owed s1 ++ (ack_command_id <$> acks).
Proof.
  unfold owed.
  inversion 1 as [s' f' ms _ _ Ha Hi Hw Hm|s' cmd _ _ Ha Hi Hw|ev m _ Hk _ _|
    |ack acks m Ha Hk Hpl Hg| |i j ack Hi Hid]; subst.
  - exists []. rewrite Hw, Ha, Hi, payloads_app, !app_nil_r.
    by rewrite (payloads_none envelope_type.ACK ms genuine), app_nil_r.
  - exists []. rewrite Hw, Ha, Hi, !app_nil_r. split; [done|]. cbn.
    rewrite !fmap_app. cbn. rewrite <- app_assoc. apply Permutation_middle.
  - exists []. cbn [wire push_wire take_event in_flight ack_queue fmap list_fmap option_list app].
    by rewrite payloads_app, (payloads_other _ m), !app_nil_r by (by rewrite Hk).
  - exists [ack]. cbn [wire push_wire set_acks in_flight ack_queue option_list].
    rewrite payloads_app, (payloads_one _ m), Hpl, Ha by done. split; [done|]. cbn.
    rewrite <- app_assoc. apply Permutation_app_head, Permutation_cons_append.
  - exists []. cbn. rewrite !app_nil_r. split; [done|]. rewrite fmap_app. cbn. rewrite Hid.
    rewrite (delete_Permutation (in_flight s) i j Hi) at 1. cbn.
    rewrite app_assoc. apply Permutation_cons_append.
Qed.

(** C11: no command is forgotten. While a connection lasts, the ids of the
    commands it dispatched are exactly, with multiplicity, those still running,
    those whose ack waits in the queue and those whose ack was sent. *)
Theorem acks_conserved l (w : World R F Q) taken running pumping s' :
  loop l (session_new w taken running pumping) = (s', Continue) ->
  exists acks, payloads envelope_type.ACK (wire s') = enc_ack <$> acks /\
    (cmd_command_id <$> omap (decode_payload dec_command) (dispatched l (session_new w taken running pumping)))
      ≡ₚ (cmd_command_id ∘ j_cmd <$> in_flight s') ++ (ack_command_id <$> ack_queue s') ++ (ack_command_id <$> acks).
Proof.
  cut (forall s : Se, loop l s = (s', Continue) ->
    exists acks, payloads envelope_type.ACK (wire s') = payloads envelope_type.ACK (wire s) ++ (enc_ack <$> acks) /\
    owed s ++ (cmd_command_id <$> omap (decode_payload dec_command) (dispatched l s))
      ≡ₚ owed s' ++ (ack_command_id <$> acks)).
  { intros Hall Hl. destruct (Hall _ Hl) as (acks & Hw & Hp). exists acks. split; [done|].
    etrans; [exact Hp|]. unfold owed. by rewrite <- list_fmap_compose, app_assoc. }
  induction l as [|i l IH]; intros s; cbn [Session.loop dispatched].
  { intros [= <-]. exists []. by rewrite !app_nil_r. }
  pose proof (turn_effect i s) as He. destruct (turn i s) as [s1 f1]. destruct f1; [|done..].
  intros Hl. destruct (effect_acks _ _ _ He) as (a1 & W1 & P1).
  destruct (IH s1 Hl) as (a2 & W2 & P2). exists (a1 ++ a2).
  rewrite W2, W1, fmap_app, app_assoc. split; [done|]. rewrite omap_app, fmap_app.
  rewrite spawned_dispatched, (app_assoc (owed s)), (Permutation_app_comm (owed s)), P1, <- app_assoc.
  rewrite (Permutation_app_comm (ack_command_id <$> a1)), app_assoc, P2, <- app_assoc, fmap_app.
  by rewrite (Permutation_app_comm (ack_command_id <$> a2)).
Qed.
End spec.

(** ** A connection in memory *)

Module ToyWire.
(** A command as the panel sends it. *)
Definition command : CommandPayload := Toy.command Mkdir "s1" (Some "d") None.
Definition envelope : Envelope :=
  match signed (as_bytes "token") envelope_type.COMMAND (enc_command command) 1700000000
          (as_bytes "0123456789abcdef") with
  | Ok e => e
  | Err _ => Build_Envelope "" 0 "" "" ""
  end.
Definition text : string := match envelope_to_text envelope with Ok t => t | Err _ => "" end.
Definition session : Session FakeState memfs ToyDb.state := session_new Toy.start 0 [] [].

(** The command arrives, runs and is acknowledged, then it is replayed. *)
Definition wakeups : list (wakeup (R := FakeState) (F := memfs) (Q := ToyDb.state)) :=
  [OtherFrame; Text 1700000001 5000000000 text; CommandRuns 0 1700000001; CommandRuns 0 1700000001;
   AckReady 1700000001 (as_bytes "fedcba9876543210") (Ok tt);
   Text 1700000030 34000000000 text; StreamEnd].
End ToyWire.

Lemma no_replay_witness :
  length (dispatched Wrapping Toy.node "token" ToyWire.wakeups ToyWire.session) = 1 /\
  NoDup (dispatched Wrapping Toy.node "token" ToyWire.wakeups ToyWire.session).
Proof.
  split; [vm_compute; reflexivity|]. apply (no_replay Wrapping Toy.node "token" ToyWire.wakeups Toy.start 0 [] []).
  - cbn. repeat constructor; cbn; lia.
  - cbn. repeat constructor; cbn; unfold plausible; lia.
Defined.

Lemma dispatched_authentic_witness :
  exists e, e ∈ dispatched Wrapping Toy.node "token" ToyWire.wakeups ToyWire.session /\
    env_sig e = sign (as_bytes "token") (env_kind e) (env_timestamp e) (env_nonce e)
                  (as_bytes (env_payload e)).
Proof.
  assert (Hd : exists e, dispatched Wrapping Toy.node "token" ToyWire.wakeups ToyWire.session = [e])
    by (eexists; vm_compute; reflexivity).
  destruct Hd as [e Hd]. exists e. assert (Hin : e ∈ dispatched Wrapping Toy.node "token" ToyWire.wakeups ToyWire.session)
    by (rewrite Hd; apply list_elem_of_singleton; reflexivity).
  split; [exact Hin|].
  exact (proj1 (proj2 (dispatched_authentic Wrapping Toy.node "token" ToyWire.wakeups ToyWire.session e Hin))).
Defined.

Lemma replay_after_reconnect_witness :
  let '(s1, f1) := turn Wrapping Toy.node "token" (Text 1700000001 0 ToyWire.text) ToyWire.session in
  let '(s2, f2) := turn Wrapping Toy.node "token" (Text 1700000002 1000000000 ToyWire.text) s1 in
  let '(s3, f3) := turn Wrapping Toy.node "token" (Text 1700000005 4000000000 ToyWire.text)
    (session_new (world s2) (events_taken s2) (orphans s2 ++ in_flight s2) (streams s2)) in
  f1 = Continue /\ in_flight s1 = [job_new Toy.node ToyWire.command] /\
  f2 = Return (Err "rejecting replayed nonce (type=command)") /\ in_flight s2 = [job_new Toy.node ToyWire.command] /\
  f3 = Continue /\ in_flight s3 = [job_new Toy.node ToyWire.command] /\ orphans s3 = [job_new Toy.node ToyWire.command].
Proof.
  apply (replay_after_reconnect Wrapping Toy.node "token" ToyWire.text ToyWire.envelope ToyWire.command
    Toy.start 0 [] [] 1700000001 0 1700000002 1000000000 1700000005 4000000000);
    try (vm_compute; reflexivity).
  unfold NONCE_CACHE_TTL. lia.
Defined.

Lemma wire_verifies_witness :
  let s' := (run_session Wrapping Toy.node "token" 1700000000 (as_bytes "r") (Ok tt) ToyWire.wakeups
               ToyWire.session).1 in
  length (wire s') = 2 /\
  forall m, m ∈ wire s' -> exists e, envelope_from_text (sent_text m) = Some e /\ env_kind e = sent_kind m.
Proof.
  intros s'. split; [vm_compute; reflexivity|]. intros m Hm.
  destruct (wire_verifies Wrapping Toy.node "token" 1700000000 (as_bytes "r") (Ok tt) ToyWire.wakeups
    Toy.start 0 [] []) as [_ H]. destruct (H m Hm) as (e & H1 & H2 & _). exists e. split; [exact H1|exact H2].
Defined.

Lemma events_in_order_witness :
  let s0 := set_world (push_event {| ev_server_id := "s1"; ev_kind := StateChanged; ev_message := "running" |}
                         Toy.start) ToyWire.session in
  let l := [EventReady 1700000000 (as_bytes "r") (Err "broken pipe")] in
  exists s' f lost, loop Wrapping Toy.node "token" l s0 = (s', f) /\ length lost = 1 /\
    payloads envelope_type.EVENT (wire s') = [] /\ events (world s') = lost.
Proof.
  intros s0 l. set (r := loop Wrapping Toy.node "token" l s0).
  destruct (events_in_order Wrapping Toy.node "token" l s0 r.1 r.2) as (pre & sent & lost & post & H1 & H2 & H3 & _).
  - by split.
  - vm_compute. lia.
  - apply surjective_pairing.
  - exists r.1, r.2, (events (world r.1)).
    split; [apply surjective_pairing|]. split; [vm_compute; reflexivity|].
    split; [vm_compute; reflexivity|reflexivity].
Defined.

Lemma acks_conserved_witness :
  let l := take 5 ToyWire.wakeups in
  exists s' acks, loop Wrapping Toy.node "token" l ToyWire.session = (s', Continue) /\
    payloads envelope_type.ACK (wire s') = enc_ack <$> acks /\
    ["c"] ≡ₚ (cmd_command_id ∘ j_cmd <$> in_flight s') ++ (ack_command_id <$> ack_queue s') ++ (ack_command_id <$> acks).
Proof.
  intros l. set (r := loop Wrapping Toy.node "token" l ToyWire.session).
  assert (Hf : r.2 = Continue) by (vm_compute; reflexivity).
  assert (Hr : loop Wrapping Toy.node "token" l ToyWire.session = (r.1, Continue))
    by (rewrite <- Hf; apply surjective_pairing).
  destruct (acks_conserved Wrapping Toy.node "token" l Toy.start 0 [] [] r.1 Hr) as (acks & H1 & H2).
  exists r.1, acks. split; [exact Hr|]. split; [exact H1|].
  assert (Hd : cmd_command_id <$> omap (decode_payload dec_command)
    (dispatched Wrapping Toy.node "token" l ToyWire.session) = ["c"]) by (vm_compute; reflexivity).
  unfold ToyWire.session in Hd. rewrite Hd in H2. exact H2.
Defined.
