(* ===== verification/SessionPool.v ===== *)
(** * A session refines the pool of running commands

    Whatever the session does is a sequence of steps of the node of [Pool]:
    receiving a command is an arrival, a wake-up of a command or a stream is its
    turn, and everything else leaves the dispatcher's state alone but for the
    runtime. So what holds of all interleavings holds of every connection. *)

From S2P Require Import Prelude Trace RustStr Json Crypto Payloads Envelope NonceCache Runtime Db Fs.
From S2P Require Import Backup Dispatcher DispatcherSpec Heartbeat Task ConsoleStream Concurrent.
From S2P Require Import Pool Session SessionSpec.
From stdpp Require Import options.
Set Default Proof Using "Type*".

Section sim.
Context {R F Q : Type}.
Context `{ContainerRuntime R} `{FileSystem F} `{Archive F} `{MariaDb Q} `{Base64}.
Context `{Crypto} `{SerdeJson} `{WireJson}.
Variable p : profile.
Variable d : Dispatcher.
Variable node_token : string.
Abbreviation Se := (Session R F Q).
Abbreviation turn := (turn p d node_token).
Abbreviation loop := (loop p d node_token).

(** The node a session runs on. The pool counts every acknowledgement and every
    arrival; the session does not keep those of commands it has forgotten. *)
Definition node_of (s : Se) (acks : list AckPayload) (arrived : list CommandPayload) : Node R F Q :=
  {| n_world := world s; n_jobs := orphans s ++ in_flight s; n_streams := streams s;
     n_acks := acks; n_arrived := arrived |}.

(** [s'] is reached from [s] by steps of the pool in which [cmds] arrive. *)
Definition simulated (s s' : Se) (cmds : list CommandPayload) : Prop :=
  forall acks arrived, exists acks',
    rtc (nstep d) (node_of s acks arrived) (node_of s' acks' (arrived ++ cmds)).

Lemma simulated_same (s s' : Se) :
  world s' = world s -> orphans s' = orphans s -> in_flight s' = in_flight s ->
  streams s' = streams s -> simulated s s' [].
Proof.
  intros Hw Ho Hi Hs acks arrived. exists acks. unfold node_of.
  by rewrite Hw, Ho, Hi, Hs, app_nil_r.
Qed.

Lemma simulated_trans (s s1 s2 : Se) a b :
  simulated s s1 a -> simulated s1 s2 b -> simulated s s2 (a ++ b).
Proof.
  intros Ha Hb acks arrived. destruct (Ha acks arrived) as [acks1 H1'].
  destruct (Hb acks1 (arrived ++ a)) as [acks2 H2']. exists acks2.
  rewrite app_assoc. by etrans.
Qed.

(** One step of the pool, with no arrival. *)
Lemma simulated_step (s s' : Se) :
  (forall acks arrived, exists acks', nstep d (node_of s acks arrived) (node_of s' acks' arrived)) ->
  simulated s s' [].
Proof.
  intros Hs acks arrived. destruct (Hs acks arrived) as [acks' Hs']. exists acks'.
  rewrite app_nil_r. by apply rtc_once.
Qed.

Lemma delete_app_l {A} (l k : list A) i : i < length l -> delete i (l ++ k) = delete i l ++ k.
Proof. revert i. induction l as [|x l IH]; intros [|i] Hi; cbn in *; [lia..|done|]. f_equal. apply IH. lia. Qed.
Lemma delete_app_r {A} (l k : list A) i : delete (length l + i) (l ++ k) = l ++ delete i k.
Proof. induction l as [|x l IH]; [done|]. cbn. by f_equal. Qed.

(** ** The turns *)

Lemma simulated_send kind payload now rand send msg (s s0 : Se) :
  simulated s0 s [] -> simulated s0 (mcontext msg (send_signed node_token kind payload now rand send) s).1 [].
Proof.
  intros H0'. apply (simulated_trans s0 s _ [] []); [done|]. unfold mcontext.
  pose proof (send_signed_spec node_token kind payload now rand send s) as Hs.
  destruct (send_signed _ _ _ _ _ _ s) as [s' [[]|e]]; cbn; [|subst]; [|by apply simulated_same].
  destruct Hs as (text & -> & _). by apply simulated_same.
Qed.

(** Only the runtime is called. *)
Lemma simulated_outside r f q (s : Se) : simulated s (set_world (outside r f q (world s)) s) [].
Proof. apply simulated_step. intros acks arrived. exists acks. apply n_outside. Qed.

Lemma simulated_beat b (s : Se) :
  simulated s (set_beating (Some (beat_turn b (world s)).2) (set_world (beat_turn b (world s)).1 s)) [].
Proof.
  destruct (beat_turn_rt b (world s)) as [r ->].
  pose proof (simulated_outside r (disk (w_fs (world s))) (server (w_db (world s))) s) as Ho.
  assert (Hw : outside r (disk (w_fs (world s))) (server (w_db (world s))) (world s) = set_rt r (world s))
    by by destruct (world s) as [? [] [] ? ? ? ? ? ?].
  rewrite Hw in Ho. exact Ho.
Qed.

Lemma simulated_text wall mono text (s : Se) :
  simulated s (turn (Text wall mono text) s).1
    (option_list (spawned_by p d node_token (Text wall mono text) s)).
Proof.
  unfold spawned_by. cbn [dispatched_by]. unfold Session.turn.
  destruct (ready s _); [|rewrite bool_decide_false by (cbn; lia); by apply simulated_same]. cbn [branch].
  pose proof (handle_incoming_cases p d node_token wall mono text s) as Hc.
  destruct Hc as [| | |e c msg|e c|e c cmd He Hv Hc Hk Hdec];
    [..|rewrite bool_decide_true by (cbn; rewrite length_app; cbn; lia)];
    try (rewrite bool_decide_false by (cbn; lia)); cbn [mbind option_bind]; try by apply simulated_same.
  rewrite He. cbn. rewrite Hdec. intros acks arrived. exists acks. apply rtc_once.
  pose proof (n_arrives d (node_of s acks arrived) cmd) as Hs. unfold arrive, node_of in Hs. cbn in Hs.
  by rewrite <- app_assoc in Hs.
Qed.

Lemma simulated_command i now (s : Se) : simulated s (branch p d node_token (CommandRuns i now) s).1 [].
Proof.
  cbn [branch]. destruct (in_flight s !! i) as [[cmd [r|f]]|] eqn:Hi; [..|by apply simulated_same].
  all: assert (Hj : (orphans s ++ in_flight s) !! (length (orphans s) + i) = in_flight s !! i)
    by (rewrite lookup_app_r by lia; f_equal; lia); rewrite Hi in Hj.
  - apply simulated_step. intros acks arrived. exists (acks ++ [ack_of cmd r]).
    pose proof (n_done d (node_of s acks arrived) _ cmd r Hj) as Hs.
    unfold job_done, node_of in Hs. cbn in Hs. by rewrite delete_app_r in Hs.
  - apply simulated_step. intros acks arrived. exists acks.
    pose proof (n_turn d (node_of s acks arrived) _ cmd f now Hj) as Hs.
    unfold job_turn, node_of in Hs. cbn in Hs. destruct (f now (world s)) as [w t].
    by rewrite insert_app_r in Hs.
Qed.

Lemma simulated_orphan i now (s : Se) : simulated s (branch p d node_token (OrphanRuns i now) s).1 [].
Proof.
  cbn [branch]. destruct (orphans s !! i) as [[cmd [r|f]]|] eqn:Hi; [..|by apply simulated_same].
  all: pose proof (lookup_app_l_Some _ (in_flight s) _ _ Hi) as Hj; apply lookup_lt_Some in Hi.
  - apply simulated_step. intros acks arrived. exists (acks ++ [ack_of cmd r]).
    pose proof (n_done d (node_of s acks arrived) _ cmd r Hj) as Hs.
    unfold job_done, node_of in Hs. cbn in Hs. by rewrite delete_app_l in Hs.
  - apply simulated_step. intros acks arrived. exists acks.
    pose proof (n_turn d (node_of s acks arrived) _ cmd f now Hj) as Hs.
    unfold job_turn, node_of in Hs. cbn in Hs. destruct (f now (world s)) as [w t].
    by rewrite insert_app_l in Hs.
Qed.

Lemma turn_simulated i (s : Se) :
  simulated s (turn i s).1 (option_list (spawned_by p d node_token i s)).
Proof.
  destruct i as [| |now rand send|now rand send|now rand send| |e|wall mono text| | |i now|i now|i|r f q];
    try apply simulated_text; cbn [spawned_by dispatched_by mbind option_bind option_list];
    unfold Session.turn; (destruct (ready s _); [|by apply simulated_same]); try by apply simulated_same.
  - cbn [branch]. destruct (beating s) as [b|]; [|by apply simulated_same].
    destruct (beat_done b) as [hb|].
    + pose proof (simulated_send envelope_type.HEARTBEAT (enc_heartbeat hb) now rand send "send heartbeat"
        (set_beating None s) s) as Hs.
      destruct (mcontext _ _ _). apply Hs. by apply simulated_same.
    + pose proof (simulated_beat b s) as Hs. by destruct (beat_turn b (world s)).
  - cbn [branch]. destruct (events (world s) !! events_taken s) as [ev|]; [|by apply simulated_same].
    pose proof (simulated_send envelope_type.EVENT (enc_event ev) now rand send "send event" (take_event s) s) as Hs.
    destruct (mcontext _ _ _). apply Hs. by apply simulated_same.
  - cbn [branch]. destruct (ack_queue s) as [|ack acks]; [by apply simulated_same|].
    pose proof (simulated_send envelope_type.ACK (enc_ack ack) now rand send "send ack" (set_acks acks s) s) as Hs.
    destruct (mcontext _ _ _). apply Hs. by apply simulated_same.
  - apply simulated_command.
  - apply simulated_orphan.
  - cbn [branch]. destruct (streams s !! i) as [st|] eqn:Hi; [|by apply simulated_same].
    apply simulated_step. intros acks arrived. exists acks.
    pose proof (n_stream d (node_of s acks arrived) i st Hi) as Hs. unfold set_stream, node_of in Hs. cbn in Hs.
    by destruct (stream_turn st (world s)) as [w o].
  - apply simulated_outside.
Qed.

(** The commands a loop spawns, in order. *)
Definition commands (l : list wakeup) (s : Se) : list CommandPayload :=
  omap (decode_payload dec_command) (dispatched p d node_token l s).

Lemma loop_simulated l (s : Se) : simulated s (loop l s).1 (commands l s).
Proof.
  unfold commands. revert s. induction l as [|i l IH]; intros s; cbn [Session.loop dispatched].
  { by apply simulated_same. }
  pose proof (turn_simulated i s) as Ht. rewrite omap_app, spawned_dispatched. destruct (turn i s) as [s1 []]; cbn [fst] in Ht; [|by rewrite app_nil_r..].
  by eapply simulated_trans.
Qed.

(** The panel ordered [cmd]: a text among the wake-ups is an envelope that
    verified under the node token when it came in and carries the command. *)
Definition ordered (l : list wakeup) (cmd : CommandPayload) : Prop :=
  exists wall mono text e, (Text wall mono text : wakeup (R := R) (F := F) (Q := Q)) ∈ l /\
    envelope_from_text text = Some e /\ verify p wall (as_bytes node_token) e = Some true /\
    env_kind e = envelope_type.COMMAND /\ decode_payload dec_command e = Some cmd.

Lemma ordered_mono l k cmd : l ⊆ k -> ordered l cmd -> ordered k cmd.
Proof. intros Hlk (wall & mono & text & e & Hin & He). exists wall, mono, text, e. split; [by apply Hlk|done]. Qed.

Lemma commands_ordered l (s : Se) : Forall (ordered l) (commands l s).
Proof.
  unfold commands. revert s. induction l as [|i l IH]; intros s; cbn [dispatched]; [constructor|].
  rewrite omap_app, spawned_dispatched. apply Forall_app. split.
  - unfold spawned_by. destruct (dispatched_by p d node_token i s) as [e|] eqn:Hd; cbn; [|constructor].
    apply dispatched_by_spec in Hd as (wall & mono & text & c & cmd & -> & He & Hv & _ & Hk & Hdec & _).
    rewrite Hdec. apply Forall_singleton. exists wall, mono, text, e. split_and!; try done. set_solver.
  - destruct (turn i s) as [s1 []]; [|constructor..].
    eapply Forall_impl; [apply IH|]. intros cmd. apply ordered_mono. set_solver.
Qed.

Lemma session_simulated now rand send l (s : Se) :
  exists cmds, simulated s (run_session p d node_token now rand send l s).1 cmds /\ Forall (ordered l) cmds.
Proof.
  unfold run_session.
  pose proof (simulated_send envelope_type.HELLO (enc_hello (hello d node_token)) now rand send
    "send hello" s s ltac:(by apply simulated_same)) as Hs.
  destruct (mcontext _ _ _) as [s1 [[]|e]]; cbn [fst] in Hs; [|exists []; split; [done|constructor]].
  exists (commands l s1). split; [|apply commands_ordered].
  apply (simulated_trans s s1 _ [] _); [done|]. apply loop_simulated.
Qed.
End sim.
