(* ===== verification/SessionLive.v ===== *)
(** * Every command is answered

    A connection that stays up, seen as an endless sequence of turns. The
    scheduler is fair when every running command gets another turn and the loop,
    outside its heartbeats, sends finished acknowledgements again and again; then a command the panel signed
    is received, run and answered, whatever else arrives meanwhile. *)

From S2P Require Import Prelude RustStr Json Crypto Instances Payloads Wire Envelope NonceCache.
From S2P Require Import Runtime FakeRuntime Db Fs Backup MemFs Dispatcher ToyNode DispatcherSpec.
From S2P Require Import DispatcherWire Heartbeat Task ConsoleStream Concurrent Session SessionSpec.
From stdpp Require Import options.
Set Default Proof Using "Type*".

(** The loop takes an acknowledgement. *)
Definition takes_ack {R F Q} (s : Session R F Q) (i : wakeup (R := R) (F := F) (Q := Q)) : bool :=
  match i with AckReady _ _ _ => ready s i | _ => false end.

Section live.
Context {R F Q : Type}.
Context `{ContainerRuntime R} `{FileSystem F} `{Archive F} `{MariaDb Q} `{Base64}.
Context `{Crypto} `{SerdeJson} `{WireJson}.
Variable p : profile.
Variable d : Dispatcher.
Variable node_token : string.
Abbreviation Se := (Session R F Q).
Abbreviation turn := (turn p d node_token).
Abbreviation secret := (as_bytes node_token).

(** ** Endless runs *)

Variable sched : nat -> wakeup (R := R) (F := F) (Q := Q).
Variable s0 : Se.

Fixpoint at_turn (n : nat) : Se :=
  match n with 0 => s0 | S n => (turn (sched n) (at_turn n)).1 end.

(** Where the command at position [k] of the running ones is after a turn;
    [None] when the turn is its own. *)
Definition ends_at (s : Se) (i : nat) : bool :=
  match in_flight s !! i with Some {| j_task := Done _ |} => true | _ => false end.
Definition follow1 (i : wakeup (R := R) (F := F) (Q := Q)) (s : Se) (k : nat) : option nat :=
  match i with
  | CommandRuns j _ => if j =? k then None else Some (if (j <? k) && ends_at s j then k - 1 else k)
  | _ => Some k
  end.
Fixpoint follow (n k m : nat) : option nat :=
  match m with 0 => Some k | S m => k' ← follow n k m; follow1 (sched (n + m)) (at_turn (n + m)) k' end.

(** No turn ends the connection: in particular every send succeeds. *)
Definition stays_up : Prop := forall n, (turn (sched n) (at_turn n)).2 = Continue.

(** Every running command gets another turn. *)
Definition commands_fair : Prop :=
  forall n k, k < length (in_flight (at_turn n)) -> exists m, follow n k m = None.

(** While acknowledgements wait, one is sent sooner or later. *)
Definition acks_fair : Prop :=
  forall n, ack_queue (at_turn n) <> [] -> exists m, n <= m /\ takes_ack (at_turn m) (sched m) = true.

(** ** Lemmas *)

(** Only its own turn takes a command from the running ones, and only a send
    takes an acknowledgement. *)
Lemma send_keeps kind payload now rand send (s : Se) :
  let s' := (mcontext "" (send_signed node_token kind payload now rand send) s).1 in
  in_flight s' = in_flight s /\ ack_queue s' = ack_queue s.
Proof.
  unfold mcontext. pose proof (send_signed_spec node_token kind payload now rand send s) as Hs.
  destruct (send_signed _ _ _ _ _ _ s) as [s' [[]|e]]; cbn; [|by subst]. by destruct Hs as (text & -> & _).
Qed.

Lemma turn_keeps i (s : Se) :
  (forall j now, i <> CommandRuns j now) ->
  in_flight s `prefix_of` in_flight (turn i s).1 /\
  (takes_ack s i = false -> ack_queue (turn i s).1 = ack_queue s).
Proof.
  intros Hi. unfold Session.turn, takes_ack. destruct (ready s i); [|done].
  destruct i as [| |now rand send|now rand send|now rand send| |e|wall mono text| | |j now|j now|j|r f q];
    cbn [branch]; try done.
  - destruct (beating s) as [b|]; [|done]. destruct (beat_done b) as [hb|].
    + pose proof (send_keeps envelope_type.HEARTBEAT (enc_heartbeat hb) now rand send (set_beating None s)) as Hs.
      unfold mcontext in *. destruct (send_signed _ _ _ _ _ _ _) as [s' r]. cbn in Hs |- *. by destruct Hs as [-> ->].
    + by destruct (beat_turn b (world s)).
  - destruct (events (world s) !! events_taken s) as [ev|]; [|done].
    pose proof (send_keeps envelope_type.EVENT (enc_event ev) now rand send (take_event s)) as Hs.
    unfold mcontext in *. destruct (send_signed _ _ _ _ _ _ _) as [s' r]. cbn in Hs |- *. by destruct Hs as [-> ->].
  - destruct (ack_queue s) as [|ack acks]; [done|].
    pose proof (send_keeps envelope_type.ACK (enc_ack ack) now rand send (set_acks acks s)) as Hs.
    unfold mcontext in *. destruct (send_signed _ _ _ _ _ _ _) as [s' r]. cbn in Hs |- *. by destruct Hs as [-> ->].
  - pose proof (handle_incoming_cases p d node_token wall mono text s) as Hc.
    destruct Hc; cbn; try done. split; [by eexists|done].
  - by destruct (Hi j now).
  - destruct (orphans s !! j) as [[cmd [r|f]]|]; [done| |done]. by destruct (f now (world s)).
  - destruct (streams s !! j) as [st|]; [|done]. by destruct (stream_turn st (world s)).
Qed.

(** What a running command's own turn does. *)
Definition own_turn (j : Job R F Q) (now : Z) (s s' : Se) (k : nat) : Prop :=
  match j_task j with
  | Done r => ack_queue s' = ack_queue s ++ [ack_of (j_cmd j) r]
  | Step f => in_flight s' !! k = Some {| j_cmd := j_cmd j; j_task := (f now (world s)).2 |}
  end.

Lemma turn_in_flight i (s : Se) k j :
  in_flight s !! k = Some j ->
  match follow1 i s k with
  | Some k' => in_flight (turn i s).1 !! k' = Some j
  | None => exists now, i = CommandRuns k now /\ own_turn j now s (turn i s).1 k
  end.
Proof.
  intros Hk. assert (Hi : (forall j now, i <> CommandRuns j now) \/ exists j now, i = CommandRuns j now)
    by (destruct i; eauto; by left).
  destruct Hi as [Hi|(k1 & now & ->)].
  { assert (follow1 i s k = Some k) as -> by (destruct i; try done; by edestruct Hi).
    eapply prefix_lookup_Some; [done|]. by apply turn_keeps. }
  pose proof (lookup_lt_Some _ _ _ Hk) as Hlt.
  assert (Hr : ready s (CommandRuns k1 now) = true) by (unfold ready; by destruct (beating s)).
  unfold Session.turn. rewrite Hr. cbn [follow1 branch]. destruct (Nat.eqb_spec k1 k) as [->|Hne].
  - exists now. split; [done|]. rewrite Hk. destruct j as [cmd [r|f]]; unfold own_turn; cbn [j_task j_cmd]; [done|].
    destruct (f now (world s)) as [w t]. cbn. by apply list_lookup_insert_eq.
  - unfold ends_at. destruct (in_flight s !! k1) as [[cmd [r|f]]|] eqn:Hj.
    + cbn [fst in_flight set_acks set_in_flight]. destruct (Nat.ltb_spec k1 k); cbn [andb].
      * rewrite list_lookup_delete_ge by lia. by replace (S (k - 1)) with k by lia.
      * by rewrite list_lookup_delete_lt by lia.
    + rewrite andb_false_r. destruct (f now (world s)) as [w t]. cbn. by rewrite list_lookup_insert_ne.
    + by rewrite andb_false_r.
Qed.

Lemma follow_in_flight n k m k' j :
  in_flight (at_turn n) !! k = Some j -> follow n k m = Some k' ->
  in_flight (at_turn (n + m)) !! k' = Some j.
Proof.
  intros Hk. revert k'. induction m as [|m IH]; intros k' Hf; cbn [follow] in Hf.
  { simplify_eq. by rewrite Nat.add_0_r. }
  destruct (follow n k m) as [k1|]; [|done]. cbn in Hf. specialize (IH k1 eq_refl).
  rewrite Nat.add_succ_r. cbn [at_turn]. pose proof (turn_in_flight (sched (n + m)) _ _ _ IH) as Ht.
  by rewrite Hf in Ht.
Qed.

(** A running command gets its next turn, and nothing touched it before. *)
Lemma next_turn n k j :
  commands_fair -> in_flight (at_turn n) !! k = Some j ->
  exists m k' now, n <= m /\ own_turn j now (at_turn m) (at_turn (S m)) k'.
Proof.
  intros Hfair Hk. destruct (Hfair n k (lookup_lt_Some _ _ _ Hk)) as [m Hm].
  induction m as [|m IH]; [done|]. cbn [follow] in Hm.
  destruct (follow n k m) as [k'|] eqn:Hf; [|by apply IH]. cbn in Hm.
  pose proof (follow_in_flight _ _ _ _ _ Hk Hf) as Hk'.
  pose proof (turn_in_flight (sched (n + m)) _ _ _ Hk') as Ht. rewrite Hm in Ht.
  destruct Ht as (now & _ & Ht). exists (n + m), k', now. split; [lia|exact Ht].
Qed.

(** It ends, with one of its outcomes, and its acknowledgement waits. *)
Lemma command_runs n k j :
  commands_fair -> in_flight (at_turn n) !! k = Some j ->
  exists m r, n <= m /\ outcome (j_task j) r /\
    ack_queue (at_turn (S m)) = ack_queue (at_turn m) ++ [ack_of (j_cmd j) r].
Proof.
  intros Hfair. destruct j as [cmd t]. cbn [j_task j_cmd]. revert n k.
  induction t as [r|f IH] using task_ind'; intros n k Hk;
    destruct (next_turn _ _ _ Hfair Hk) as (m & k' & now & Hm & Ht); cbn in Ht.
  - exists m, r. split_and!; [done|constructor|exact Ht].
  - destruct (IH now (world (at_turn m)) (S m) k' Ht) as (m' & r & Hm' & Ho & Hq).
    exists m', r. split_and!; [lia| |exact Hq]. by econstructor.
Qed.

(** Until one is sent, the acknowledgements keep their places. *)
Lemma turn_acks_kept i (s : Se) :
  takes_ack s i = false -> ack_queue s `prefix_of` ack_queue (turn i s).1.
Proof.
  intros Hi. assert (Hc : (forall j now, i <> CommandRuns j now) \/ exists j now, i = CommandRuns j now)
    by (destruct i; eauto; by left).
  destruct Hc as [Hc|(j & now & ->)].
  - destruct (turn_keeps i s Hc) as [_ ->]; done.
  - unfold Session.turn. destruct (ready s _); [|done]. cbn [branch].
    destruct (in_flight s !! j) as [[cmd [r|f]]|]; [by eexists| |done].
    by destruct (f now (world s)).
Qed.

(** A send that succeeds takes the first acknowledgement. *)
Lemma turn_ack_sent i (s : Se) ack acks :
  takes_ack s i = true -> (turn i s).2 = Continue -> ack_queue s = ack :: acks ->
  exists m, turn i s = (push_wire m (set_acks acks s), Continue) /\
    sent_kind m = envelope_type.ACK /\ sent_payload m = enc_ack ack /\ genuine node_token m.
Proof.
  intros Hi Hc Ha. destruct i as [| | | |now rand send| | | | | | | | |]; try done. cbn [takes_ack] in Hi.
  unfold Session.turn in *. rewrite Hi in *. cbn [branch] in *.
  rewrite Ha in *. unfold mcontext in *.
  pose proof (send_signed_spec node_token envelope_type.ACK (enc_ack ack) now rand send (set_acks acks s)) as Hs.
  destruct (send_signed _ _ _ _ _ _ _) as [s' [[]|e]]; [|done].
  destruct Hs as (text & -> & Hg). by eexists.
Qed.

(** The next send after turn [n]. *)
Lemma next_send n :
  acks_fair -> ack_queue (at_turn n) <> [] ->
  exists m, n <= m /\ takes_ack (at_turn m) (sched m) = true /\ ack_queue (at_turn n) `prefix_of` ack_queue (at_turn m).
Proof.
  intros Hfair Hq. destruct (Hfair n Hq) as (m & Hle & Hs).
  assert (Hm : exists j, m = n + j) by (exists (m - n); lia). destruct Hm as [j ->]. clear Hle Hfair Hq.
  revert n Hs. induction j as [|j IH]; intros n Hs.
  { exists n. rewrite Nat.add_0_r in Hs. by split_and!. }
  destruct (takes_ack (at_turn n) (sched n)) eqn:Hn; [exists n; by split_and!|].
  destruct (IH (S n)) as (m & Hm & Hsm & Hp); [by rewrite Nat.add_succ_comm|].
  exists m. split_and!; [lia|done|]. etrans; [|exact Hp]. cbn [at_turn]. by apply turn_acks_kept.
Qed.

(** A waiting acknowledgement is sent. *)
Lemma ack_sent n k ack :
  stays_up -> acks_fair -> ack_queue (at_turn n) !! k = Some ack ->
  exists N m, n <= N /\ wire (at_turn (S N)) = wire (at_turn N) ++ [m] /\
    sent_kind m = envelope_type.ACK /\ sent_payload m = enc_ack ack /\ genuine node_token m.
Proof.
  intros Hup Hfair. revert n. induction k as [|k IH]; intros n Hk.
  all: destruct (next_send n Hfair) as (N & HN & Hs & Hp); [by intros E; rewrite E in Hk|].
  all: pose proof (prefix_lookup_Some _ _ _ _ Hk Hp) as Hk'.
  all: destruct (ack_queue (at_turn N)) as [|a acks] eqn:Hq; [done|].
  all: destruct (turn_ack_sent _ _ _ _ Hs (Hup N) Hq) as (m & Ht & Hkind & Hpay & Hg).
  - cbn in Hk'. simplify_eq. exists N, m. split_and!; try done. cbn [at_turn]. by rewrite Ht.
  - destruct (IH (S N)) as (N' & m' & HN' & Hrest); [cbn [at_turn]; by rewrite Ht|].
    exists N', m'. split; [lia|exact Hrest].
Qed.

(** ** From the panel and back *)

(** A command the panel signed arrives: it is spawned. *)
Lemma command_arrives `{!CryptoLaws} `{!SerdeJsonLaws} `{!WireJsonLaws} n cmd t0 rand0 e text wall mono :
  command_ok cmd -> json_plain recursion_limit (enc_command cmd) = true ->
  signed secret envelope_type.COMMAND (enc_command cmd) t0 rand0 = Ok e ->
  envelope_to_text e = Ok text ->
  sched n = Text wall mono text -> beating (at_turn n) = None -> (Z.abs (wall - t0) <= MAX_CLOCK_SKEW_SECS)%Z ->
  seen (incoming_nonces (at_turn n)) !! env_nonce e = None ->
  in_flight (at_turn (S n)) = in_flight (at_turn n) ++ [job_new d cmd].
Proof.
  intros Hok Hplain (Hpt & Hkind & Hts & _ & Hv)%signed_inv Htext Hsched Hbeat Hskew Hnonce.
  cbn [at_turn]. rewrite Hsched. unfold Session.turn, ready. rewrite Hbeat. cbn [branch].
  assert (Hver : verify p wall secret e = Some true).
  { rewrite verify_exact by (rewrite Hts; lia). by rewrite Hkind, Hts, Hv. }
  assert (Hdec : decode_payload dec_command e = Some cmd).
  { destruct (text_roundtrip _ Hplain) as (t & Ht & Hf). unfold decode_payload.
    assert (t = env_payload e) as <- by congruence. rewrite Hf. cbn. by apply dec_command_enc. }
  unfold handle_incoming. rewrite (envelope_roundtrip _ _ Htext), Hver.
  unfold check_and_record.
  assert (Hnone : filter (young mono (ttl (incoming_nonces (at_turn n))))
    (seen (incoming_nonces (at_turn n))) !! env_nonce e = None)
    by (apply map_lookup_filter_None; by left).
  rewrite Hnone. cbn [negb]. rewrite bool_decide_false by (rewrite Hkind; intros []; done).
  by rewrite Hdec.
Qed.

(** Whatever it finds, a command returns a value of its action's result type. *)
Lemma handle_task_answers cmd :
  returning (answer_type (cmd_action cmd)) (handle_task d cmd : task (World R F Q) _).
Proof.
  unfold handle_task. destruct (cmd_action cmd);
    repeat (apply returning_bind; intros ?);
    first [done | match goal with |- context [Some (to_value (_ ?r))] => exact (carries_result r) end].
Qed.

Lemma ack_of_readable cmd r :
  outcome (handle_task d cmd : task (World R F Q) _) r -> dec_ack (enc_ack (ack_of cmd r)) = Some (ack_of cmd r).
Proof.
  intros Ho. apply dec_ack_enc. destruct r as [x|e]; cbn; [|done].
  intros v Hx. eapply answer_value; [|exact Hx]. eapply returning_outcome; [apply handle_task_answers|exact Ho].
Qed.

(** C12: every command is answered. Over a connection that stays up under a fair
    scheduler, a command the panel signed, received outside a heartbeat within
    thirty seconds and with a nonce not in use, runs to its end and is acknowledged with one of the
    outcomes of [handle_inner], and the acknowledgement reaches the panel: a
    message that verifies there, under the command's id, from which the panel
    reads exactly the acknowledgement that was made. Other messages, commands,
    events and heartbeats may come in between its turns in any order. *)
Theorem command_answered `{!CryptoLaws} `{!SerdeJsonLaws} `{!WireJsonLaws} n cmd t0 rand0 e text wall mono :
  stays_up -> commands_fair -> acks_fair ->
  command_ok cmd -> json_plain recursion_limit (enc_command cmd) = true ->
  signed secret envelope_type.COMMAND (enc_command cmd) t0 rand0 = Ok e ->
  envelope_to_text e = Ok text ->
  sched n = Text wall mono text -> beating (at_turn n) = None -> (Z.abs (wall - t0) <= MAX_CLOCK_SKEW_SECS)%Z ->
  seen (incoming_nonces (at_turn n)) !! env_nonce e = None ->
  exists N r msg e', n < N /\ outcome (handle_task d cmd : task (World R F Q) _) r /\
    let ack := ack_of cmd r in
    wire (at_turn (S N)) = wire (at_turn N) ++ [msg] /\
    envelope_from_text (sent_text msg) = Some e' /\ env_kind e' = envelope_type.ACK /\
    (forall p' now', (Z.abs (now' - env_timestamp e') <= MAX_CLOCK_SKEW_SECS)%Z ->
       verify p' now' secret e' = Some true) /\
    ack_command_id ack = cmd_command_id cmd /\
    (json_plain recursion_limit (enc_ack ack) = true -> decode_payload dec_ack e' = Some ack).
Proof.
  intros Hup Hcf Haf Hok Hplain Hsig Htext Hsched Hbeat Hskew Hnonce.
  pose proof (command_arrives n cmd t0 rand0 e text wall mono Hok Hplain Hsig Htext Hsched Hbeat Hskew Hnonce) as Hin.
  assert (Hk : in_flight (at_turn (S n)) !! length (in_flight (at_turn n)) = Some (job_new d cmd))
    by (rewrite Hin; by apply list_lookup_middle).
  destruct (command_runs _ _ _ Hcf Hk) as (m & r & Hm & Ho & Hq). cbn in Ho, Hq.
  assert (Hak : ack_queue (at_turn (S m)) !! length (ack_queue (at_turn m)) = Some (ack_of cmd r))
    by (cbn; rewrite Hq; by apply list_lookup_middle).
  destruct (ack_sent _ _ _ Hup Haf Hak) as (N & msg & HN & Hw & Hkind & Hpay & Hg).
  destruct (genuine_verifies node_token msg Hg) as (e' & He' & Hke & Hte & Hve).
  exists N, r, msg, e'. split; [lia|]. split; [exact Ho|]. cbv zeta. split_and!; try done.
  - by rewrite Hke.
  - apply ack_of_id.
  - intros (t & Ht & Hf)%text_roundtrip. unfold decode_payload.
    assert (t = env_payload e') as <- by congruence. rewrite Hf. by apply ack_of_readable.
Qed.
End live.

(** ** A connection in memory *)

(** The command arrives, runs and is answered; then the scheduler goes on
    offering turns for ever. *)
Definition endless (n : nat) : wakeup (R := FakeState) (F := memfs) (Q := ToyDb.state) :=
  match n with
  | 0 => Text 1700000001 5000000000 ToyWire.text
  | S n' => if Nat.even n' then CommandRuns 0 1700000001
            else AckReady 1700000001 (as_bytes "fedcba9876543210") (Ok tt)
  end.

Abbreviation endless_at := (at_turn Wrapping Toy.node "token" endless ToyWire.session).

Lemma endless_idle n :
  in_flight (endless_at (5 + n)) = [] /\ ack_queue (endless_at (5 + n)) = [] /\
  beating (endless_at (5 + n)) = None.
Proof.
  induction n as [|n (Hf & Ha & Hb)]; [split_and!; vm_compute; reflexivity|].
  change (endless_at (5 + S n))
    with (turn Wrapping Toy.node "token" (endless (5 + n)) (endless_at (5 + n))).1.
  remember (endless_at (5 + n)) as s. cbn [endless Nat.add]. unfold turn, ready. rewrite Hb.
  destruct (Nat.even _); cbn [branch]; [rewrite Hf|rewrite Ha]; by split_and!.
Qed.

Lemma endless_calm n : beating (endless_at n) = None.
Proof.
  destruct n as [|[|[|[|[|n]]]]]; [vm_compute; reflexivity..|].
  change (S (S (S (S (S n))))) with (5 + n). apply endless_idle.
Qed.

Lemma endless_up : stays_up Wrapping Toy.node "token" endless ToyWire.session.
Proof.
  intros n. destruct n as [|[|[|[|[|n]]]]]; [vm_compute; reflexivity..|].
  change (S (S (S (S (S n))))) with (5 + n). destruct (endless_idle n) as (Hf & Ha & Hb).
  remember (endless_at (5 + n)) as s. cbn [endless Nat.add]. unfold turn, ready. rewrite Hb.
  destruct (Nat.even _); cbn [branch]; [by rewrite Hf|by rewrite Ha].
Qed.

Lemma endless_commands_fair : commands_fair Wrapping Toy.node "token" endless ToyWire.session.
Proof.
  intros n k Hk. assert (Hlen : length (in_flight (endless_at n)) = if (1 <=? n) && (n <=? 3) then 1 else 0).
  { destruct n as [|[|[|[|[|n]]]]]; [vm_compute; reflexivity..|].
    change (S (S (S (S (S n))))) with (5 + n). by rewrite (proj1 (endless_idle n)). }
  rewrite Hlen in Hk. destruct ((1 <=? n) && (n <=? 3)) eqn:Hn; [|lia].
  assert (k = 0) as -> by lia. destruct n as [|[|[|[|n]]]]; try discriminate Hn.
  - exists 1. reflexivity.
  - exists 2. reflexivity.
  - exists 1. reflexivity.
Qed.

Lemma endless_acks_fair : acks_fair Wrapping Toy.node "token" endless ToyWire.session.
Proof.
  intros n Hq. exists (2 * n + 2). split; [lia|].
  replace (2 * n + 2) with (S (S (2 * n))) by lia. cbn [endless].
  rewrite Nat.even_succ, Nat.odd_even. cbn [takes_ack]. unfold ready. by rewrite endless_calm.
Qed.

Lemma command_answered_witness :
  exists N r msg e', 0 < N /\ outcome (handle_task Toy.node ToyWire.command) r /\
    wire (endless_at (S N)) = wire (endless_at N) ++ [msg] /\
    envelope_from_text (sent_text msg) = Some e' /\ env_kind e' = envelope_type.ACK /\
    verify Wrapping (env_timestamp e') (as_bytes "token") e' = Some true /\
    ack_command_id (ack_of ToyWire.command r) = "c".
Proof.
  assert (Hsig : signed (as_bytes "token") envelope_type.COMMAND (enc_command ToyWire.command)
    1700000000 (as_bytes "0123456789abcdef") = Ok ToyWire.envelope) by (vm_compute; reflexivity).
  assert (Htext : envelope_to_text ToyWire.envelope = Ok ToyWire.text) by (vm_compute; reflexivity).
  assert (Hplain : json_plain recursion_limit (enc_command ToyWire.command) = true)
    by (vm_compute; reflexivity).
  destruct (command_answered Wrapping Toy.node "token" endless ToyWire.session 0 ToyWire.command
    1700000000 (as_bytes "0123456789abcdef") ToyWire.envelope ToyWire.text 1700000001 5000000000
    endless_up endless_commands_fair endless_acks_fair) as (N & r & msg & e' & HN & Ho & Hw & Hf & Hk & Hv & Hid & _);
    [intros s [= <-]; unfold spec_ok, in_i64, i64_min, i64_max; cbn; lia
    |exact Hplain|exact Hsig|exact Htext|reflexivity|reflexivity|vm_compute; discriminate|reflexivity|].
  exists N, r, msg, e'. split_and!; [exact HN|exact Ho|exact Hw|exact Hf|exact Hk| |exact Hid].
  apply Hv. rewrite Z.sub_diag. vm_compute. discriminate.
Defined.
