(* ===== verification/Client.v ===== *)
(** * Dialling and reconnecting (daemon/src/agent/client.rs)

    The daemon dials, runs one session per connection and sleeps before the next
    attempt, until it is cancelled. The event channel, the dispatcher and the
    commands still running outlive each session; the session's nonce cache and
    ack channel do not. *)

From S2P Require Import Prelude RustStr Json Crypto Instances Payloads Envelope NonceCache Config.
From S2P Require Import Runtime FakeRuntime Db Fs Backup MemFs Dispatcher DispatcherSpec ToyNode.
From S2P Require Import Docker Task ConsoleStream Concurrent Session SessionSpec.
From stdpp Require Import options.
Set Default Proof Using "Type*".

(** In seconds. *)
Definition MIN_BACKOFF : Z := 1.
Definition MAX_BACKOFF : Z := 30.

(** One round of the loop: the outcome of dialling, with what the session then
    sees, whether the token is cancelled before the sleep is over, and what
    happens beside the loop until the next connection is up: commands and
    console streams go on while the daemon dials and sleeps. *)
Inductive dial {R F Q : Type} :=
| DialFailed
| Connected (now : Z) (rand : list byte) (send : result unit) (wakeups : list (wakeup (R := R) (F := F) (Q := Q))).
Record attempt {R F Q : Type} :=
  { at_dial : dial (R := R) (F := F) (Q := Q); at_cancelled : bool;
    at_meanwhile : list (wakeup (R := R) (F := F) (Q := Q)) }.

(** The daemon between rounds. [sent] is everything sent over all connections,
    [slept] the sleeps so far. *)
Record Client (R F Q : Type) := {
  cl_world : World R F Q;
  cl_events_taken : nat;
  cl_running : list (Job R F Q);
  cl_streams : list stream;
  cl_backoff : Z;
  cl_sent : list Sent;
  cl_slept : list Z;
}.
Arguments cl_world {R F Q} _.
Arguments cl_events_taken {R F Q} _.
Arguments cl_running {R F Q} _.
Arguments cl_streams {R F Q} _.
Arguments cl_backoff {R F Q} _.
Arguments cl_sent {R F Q} _.
Arguments cl_slept {R F Q} _.

Section client.
Context {R F Q : Type}.
Context `{ContainerRuntime R} `{FileSystem F} `{Archive F} `{MariaDb Q} `{Base64}.
Context `{Crypto} `{SerdeJson} `{WireJson}.
Variable p : profile.
Variable d : Dispatcher.
Variable node_token : string.
Abbreviation C := (Client R F Q).

Definition client_new (w : World R F Q) : C :=
  {| cl_world := w; cl_events_taken := 0; cl_running := []; cl_streams := []; cl_backoff := MIN_BACKOFF; cl_sent := [];
     cl_slept := [] |}.

(** The [match connect_async(..)]: [None] is a panic inside the session, which
    takes the daemon down. Wake-ups after the one that ends the session are not
    looked at; a list that ends before that stands for a connection observed up
    to there. *)
Definition connect_once (a : dial) (c : C) : option C :=
  match a with
  | DialFailed => Some c
  | Connected now rand send wakeups =>
      let '(s, f) := run_session p d node_token now rand send wakeups
                       (session_new (cl_world c) (cl_events_taken c) (cl_running c) (cl_streams c)) in
      match f with
      | Panic => None
      | _ => Some {| cl_world := world s; cl_events_taken := events_taken s;
                     cl_running := orphans s ++ in_flight s; cl_streams := streams s; cl_backoff := MIN_BACKOFF;
                     cl_sent := cl_sent c ++ wire s; cl_slept := cl_slept c |}
      end
  end.

Definition sleep_once (c : C) : C :=
  {| cl_world := cl_world c; cl_events_taken := cl_events_taken c; cl_running := cl_running c;
     cl_streams := cl_streams c;
     cl_backoff := Z.min (cl_backoff c * 2) MAX_BACKOFF; cl_sent := cl_sent c;
     cl_slept := cl_slept c ++ [cl_backoff c] |}.

(** Commands and streams run on, with nobody to send their acknowledgements. *)
Definition meanwhile (l : list wakeup) (c : C) : C :=
  let s := (loop p d node_token (filter beside l)
              (session_new (cl_world c) (cl_events_taken c) (cl_running c) (cl_streams c))).1 in
  {| cl_world := world s; cl_events_taken := events_taken s; cl_running := orphans s ++ in_flight s;
     cl_streams := streams s; cl_backoff := cl_backoff c; cl_sent := cl_sent c; cl_slept := cl_slept c |}.

(** The rounds until the list ends, the token is cancelled, or a panic. *)
Fixpoint run_client (l : list attempt) (c : C) : option C :=
  match l with
  | [] => Some c
  | a :: l' =>
      c ← connect_once (at_dial a) c;
      if at_cancelled a then Some c else run_client l' (meanwhile (at_meanwhile a) (sleep_once c))
  end.

(** ** Backoff *)

(** Which rounds slept, and whether they had connected. *)
Definition is_connected (a : attempt (R := R) (F := F) (Q := Q)) : bool :=
  match at_dial a with DialFailed => false | Connected _ _ _ _ => true end.
Fixpoint rounds (l : list (attempt (R := R) (F := F) (Q := Q))) : list bool :=
  match l with
  | [] => []
  | a :: l' => if at_cancelled a then [] else is_connected a :: rounds l'
  end.

(** How often the delay has doubled when the rounds [l] are over: once per
    round since the last connection, counting the connected round itself. *)
Fixpoint doublings (l : list bool) (k : nat) : nat :=
  match l with
  | [] => k
  | true :: l' => doublings l' 1
  | false :: l' => doublings l' (S k)
  end.

Definition capped (k : nat) : Z := Z.min MAX_BACKOFF (2 ^ Z.of_nat k).

Lemma capped_double k : Z.min (capped k * 2) MAX_BACKOFF = capped (S k).
Proof.
  unfold capped, MAX_BACKOFF. rewrite Nat2Z.inj_succ, Z.pow_succ_r by lia.
  pose proof (Z.pow_pos_nonneg 2 (Z.of_nat k) ltac:(lia) ltac:(lia)). lia.
Qed.

Lemma connect_backoff a (c c' : C) :
  connect_once a c = Some c' ->
  cl_slept c' = cl_slept c /\
  cl_backoff c' = match a with DialFailed => cl_backoff c | _ => MIN_BACKOFF end.
Proof.
  destruct a as [|now rand send l]; cbn; [by intros [= <-]|].
  destruct (run_session _ _ _ _ _ _ _ _) as [s []]; [by intros [= <-]..|done].
Qed.

Lemma run_client_slept l k (c c' : C) :
  cl_backoff c = capped k -> run_client l c = Some c' ->
  exists ds, cl_slept c' = cl_slept c ++ ds /\ length ds = length (rounds l) /\
    forall i x, ds !! i = Some x ->
      x = if default false (rounds l !! i) then 1%Z else capped (doublings (take i (rounds l)) k).
Proof.
  revert k c. induction l as [|a l IH]; intros k c Hb; cbn [run_client rounds].
  { intros [= <-]. exists []. by rewrite app_nil_r. }
  destruct (connect_once (at_dial a) c) as [c1|] eqn:Hc; [|done]. cbn [mbind option_bind].
  apply connect_backoff in Hc as [Hs Hk]. destruct (at_cancelled a).
  { intros [= <-]. exists []. by rewrite app_nil_r. }
  set (k' := if is_connected a then 0 else k).
  assert (Hb1 : cl_backoff c1 = capped k').
  { rewrite Hk. unfold k', is_connected. by destruct (at_dial a). }
  intros Hr. destruct (IH (S k') (meanwhile (at_meanwhile a) (sleep_once c1))) as (ds & Hds & Hl & Hi); [|done|].
  { cbn. by rewrite Hb1, capped_double. }
  exists (cl_backoff c1 :: ds). split_and!.
  - rewrite Hds. cbn. by rewrite Hs, <- app_assoc.
  - cbn. by rewrite Hl.
  - intros [|i] x; cbn.
    + intros [= <-]. rewrite Hb1. unfold k'. by destruct (is_connected a).
    + intros Hx. rewrite (Hi i x Hx). unfold k'. by destruct (is_connected a).
Qed.

(** C33: the reconnect delays. After a connection ended the daemon sleeps one
    second; otherwise the delay is two to the number of rounds since the last
    connection (or since the start), capped at thirty seconds. Every sleep is
    between one and thirty seconds, and there is exactly one per round. *)
Theorem backoff_spec l (w : World R F Q) c' :
  run_client l (client_new w) = Some c' ->
  length (cl_slept c') = length (rounds l) /\
  forall i x, cl_slept c' !! i = Some x ->
    (1 <= x <= 30)%Z /\
    x = if default false (rounds l !! i) then 1%Z
        else Z.min 30 (2 ^ Z.of_nat (doublings (take i (rounds l)) 0)).
Proof.
  intros Hr. destruct (run_client_slept l 0 (client_new w) c') as (ds & Hds & Hl & Hi); [done|done|].
  cbn in Hds. rewrite Hds. split; [done|]. intros i x Hx. specialize (Hi i x Hx). split; [|exact Hi].
  rewrite Hi. destruct (default false (rounds l !! i)); [lia|]. unfold capped, MAX_BACKOFF.
  pose proof (Z.pow_pos_nonneg 2 (Z.of_nat (doublings (take i (rounds l)) 0)) ltac:(lia) ltac:(lia)). lia.
Qed.

(** ** Events over reconnects *)

(** [sent] is what went out so far, with at most [n] events lost. *)
Record delivered (n : nat) (sent : list EventPayload) (c : C) : Prop := {
  dl_wire : payloads envelope_type.EVENT (cl_sent c) = enc_event <$> sent;
  dl_order : sent `sublist_of` take (cl_events_taken c) (events (cl_world c));
  dl_lost : cl_events_taken c <= length sent + n;
  dl_taken : cl_events_taken c <= length (events (cl_world c));
  dl_running : Forall (job_sane d) (cl_running c);
}.

Lemma connect_delivered a n sent (c c' : C) :
  delivered n sent c -> connect_once a c = Some c' ->
  exists sent', delivered (match a with DialFailed => n | _ => S n end) sent' c'.
Proof.
  intros [Hw Ho Hl Ht Hrun]. destruct a as [|now rand send l]; cbn [connect_once].
  { intros [= <-]. by exists sent. }
  assert (Hsane : sane d (session_new (cl_world c) (cl_events_taken c) (cl_running c) (cl_streams c)))
    by (split; cbn; [constructor|done]).
  pose proof (session_streamed p d node_token now rand send l _ Hsane Ht) as Hst.
  pose proof (session_sane p d node_token now rand send l _ Hsane) as [Hin Hor].
  destruct (run_session _ _ _ _ _ _ _ _) as [s f]. cbn [fst] in Hst, Hin, Hor.
  destruct Hst as (more & lost & (pre & post & Ev & [k Hk] & Tp & Te & Wi) & Hlost).
  cbn in Ev, Hk, Tp, Te, Wi.
  assert (Hpre : take (cl_events_taken c) (events (cl_world c)) = pre).
  { rewrite Hk in Ev. rewrite <- (take_app_length pre (more ++ lost ++ post)), <- Ev, <- Tp.
    by rewrite take_app_le by done. }
  intros Hc. assert (Hf : Some c' = Some {| cl_world := world s; cl_events_taken := events_taken s;
    cl_running := orphans s ++ in_flight s; cl_streams := streams s; cl_backoff := MIN_BACKOFF;
    cl_sent := cl_sent c ++ wire s; cl_slept := cl_slept c |}) by (destruct f; congruence).
  injection Hf as ->. clear Hc. exists (sent ++ more).
  split; cbn [cl_sent cl_events_taken cl_world cl_running].
  - rewrite payloads_app, Hw, Wi, fmap_app. done.
  - assert (Htk : take (events_taken s) (events (world s)) = pre ++ more ++ lost).
    { rewrite Ev, Te. replace (pre ++ more ++ lost ++ post) with ((pre ++ more ++ lost) ++ post)
        by (by rewrite <- !app_assoc). apply take_app_length. }
    rewrite Htk. apply sublist_app; [by rewrite <- Hpre|]. by apply sublist_inserts_r.
  - rewrite Te, !length_app in *. lia.
  - rewrite Te, Ev, !length_app. lia.
  - by apply Forall_app.
Qed.

Lemma meanwhile_delivered l n sent (c : C) : delivered n sent c -> delivered n sent (meanwhile l c).
Proof.
  intros [Hw Ho Hl Ht Hrun]. unfold meanwhile.
  set (s := session_new (cl_world c) (cl_events_taken c) (cl_running c) (cl_streams c)).
  assert (Hsane : sane d s) by (split; cbn; [constructor|done]).
  destruct (beside_loop p d node_token l s Hsane) as ([Hin Hor] & [more Hp] & Hn). cbn in Hp, Hn.
  split; cbn [cl_sent cl_events_taken cl_world cl_running]; rewrite ?Hn, ?Hp; try done.
  - by rewrite take_app_le.
  - rewrite length_app. lia.
  - by apply Forall_app.
Qed.

Lemma run_client_delivered l n sent (c c' : C) :
  delivered n sent c -> run_client l c = Some c' ->
  exists sent', delivered (n + length (filter is_connected l)) sent' c'.
Proof.
  revert n sent c. induction l as [|a l IH]; intros n sent c Hd; cbn [run_client].
  { intros [= <-]. exists sent. by rewrite Nat.add_0_r. }
  destruct (connect_once (at_dial a) c) as [c1|] eqn:Hc; [|done]. cbn [mbind option_bind].
  destruct (connect_delivered _ _ _ _ _ Hd Hc) as [sent1 Hd1].
  assert (Hmono : forall m1 m2 sn (x : C), m1 <= m2 -> delivered m1 sn x -> delivered m2 sn x).
  { intros m1 m2 sn x Hm [? ? ? ? ?]. split; try done. lia. }
  assert (Hcount : match at_dial a with DialFailed => n | _ => S n end + length (filter is_connected l)
    = n + length (filter is_connected (a :: l))).
  { rewrite filter_cons. assert (Ha : is_connected a = match at_dial a with DialFailed => false | _ => true end)
      by done. case_decide as Hca; rewrite Ha in Hca; destruct (at_dial a); cbn in *; (done || lia). }
  destruct (at_cancelled a).
  { intros [= <-]. exists sent1. eapply Hmono; [|exact Hd1]. lia. }
  intros Hr. rewrite <- Hcount. eapply (IH _ sent1); [|exact Hr]. apply meanwhile_delivered. by destruct Hd1.
Qed.

(** C18: events over reconnects. Whatever happens to the connections, the events
    the daemon has sent are, in order and without repetition, events of the
    dispatcher's channel; what it took from the channel and did not send is at
    most one event per connection, and everything emitted while disconnected is
    still queued. *)
Theorem events_over_reconnects l (w : World R F Q) c' :
  run_client l (client_new w) = Some c' ->
  exists sent, payloads envelope_type.EVENT (cl_sent c') = enc_event <$> sent /\
    sent `sublist_of` take (cl_events_taken c') (events (cl_world c')) /\
    cl_events_taken c' <= length sent + length (filter is_connected l) /\
    cl_events_taken c' <= length (events (cl_world c')).
Proof.
  intros Hr. destruct (run_client_delivered l 0 [] (client_new w) c') as [sent [H1' H2' H3' H4' _]]; [|done|].
  { split; cbn; [done|apply sublist_nil_l|lia|lia|constructor]. }
  by exists sent.
Qed.
End client.

(** ** A daemon in memory *)

Definition sample_attempts : list (attempt (R := FakeState) (F := memfs) (Q := ToyDb.state)) :=
  [{| at_dial := DialFailed; at_cancelled := false; at_meanwhile := [] |};
   {| at_dial := DialFailed; at_cancelled := false; at_meanwhile := [] |};
   {| at_dial := Connected 1700000000 (as_bytes "r") (Ok tt)
        (ToyWire.wakeups ++ [EventReady 1700000040 (as_bytes "q") (Ok tt)]); at_cancelled := false; at_meanwhile := [] |};
   {| at_dial := DialFailed; at_cancelled := false; at_meanwhile := [] |};
   {| at_dial := DialFailed; at_cancelled := true; at_meanwhile := [] |}].

Abbreviation sample_run :=
  (run_client Wrapping Toy.node "token" sample_attempts (client_new Toy.start)).

Lemma backoff_spec_witness :
  exists c, sample_run = Some c /\ cl_slept c = [1; 2; 1; 2]%Z /\
    forall i x, cl_slept c !! i = Some x -> (1 <= x <= 30)%Z.
Proof.
  assert (Hs : cl_slept <$> sample_run = Some [1; 2; 1; 2]%Z) by (vm_compute; reflexivity).
  destruct sample_run as [c|] eqn:Hr; [|discriminate Hs].
  exists c. split; [reflexivity|]. split; [injection Hs; exact (fun H => H)|].
  intros i x Hx.
  destruct (backoff_spec Wrapping Toy.node "token" sample_attempts Toy.start c Hr) as [_ H].
  exact (proj1 (H i x Hx)).
Defined.

Lemma events_over_reconnects_witness :
  exists c sent, sample_run = Some c /\ payloads envelope_type.EVENT (cl_sent c) = enc_event <$> sent /\
    cl_events_taken c <= length sent + 1.
Proof.
  assert (Hs : bool_decide (is_Some sample_run) = true) by (vm_compute; reflexivity).
  destruct sample_run as [c|] eqn:Hr; [|discriminate Hs].
  destruct (events_over_reconnects Wrapping Toy.node "token" sample_attempts Toy.start c Hr)
    as (sent & H1 & _ & H2 & _).
  exists c, sent. split; [reflexivity|]. split; [exact H1|exact H2].
Defined.
