(* ===== verification/Daemon.v ===== *)
(** * The daemon from end to end

    Over all its connections, and while it is disconnected, the daemon is the
    node of [Pool], on which only commands the panel ordered arrive. *)

From S2P Require Import Prelude Trace RustStr Paths Json Crypto Instances Payloads Envelope NonceCache.
From S2P Require Import Runtime FakeRuntime Db Fs Backup MemFs Dispatcher DispatcherSpec ToyNode Task.
From S2P Require Import ConsoleStream Concurrent Pool Session SessionSpec SessionPool Client.
From stdpp Require Import options.
Set Default Proof Using "Type*".

Section daemon.
Context {R F Q : Type}.
Context `{ContainerRuntime R} `{FileSystem F} `{Archive F} `{MariaDb Q} `{Base64}.
Context `{Crypto} `{SerdeJson} `{WireJson}.
Variable p : profile.
Variable d : Dispatcher.
Variable node_token : string.
Abbreviation C := (Client R F Q).

(** Everything that came over the connections. *)
Definition heard (l : list attempt) : list (wakeup (R := R) (F := F) (Q := Q)) :=
  l ≫= fun a => match at_dial a with DialFailed => [] | Connected _ _ _ wakeups => wakeups end.

(** The client's state as the next session finds it. *)
Definition as_session (c : C) : Session R F Q :=
  session_new (cl_world c) (cl_events_taken c) (cl_running c) (cl_streams c).

Abbreviation simulated := (simulated d).
Abbreviation ordered := (ordered p node_token).

Lemma simulated_handover (s0 s : Session R F Q) n cmds :
  simulated s0 s cmds ->
  simulated s0 (session_new (world s) n (orphans s ++ in_flight s) (streams s)) cmds.
Proof.
  intros Hs acks arrived. destruct (Hs acks arrived) as [acks' Hr]. exists acks'.
  unfold node_of in *. cbn. by rewrite app_nil_r.
Qed.

Lemma connect_simulated a (c c' : C) :
  connect_once p d node_token a c = Some c' ->
  exists cmds, simulated (as_session c) (as_session c') cmds /\
    Forall (ordered match a with DialFailed => [] | Connected _ _ _ l => l end) cmds.
Proof.
  destruct a as [|now rand send l]; cbn [connect_once].
  { intros [= <-]. exists []. split; [by apply simulated_same|constructor]. }
  destruct (session_simulated p d node_token now rand send l (as_session c)) as (cmds & Hs & Ho).
  fold (as_session c). destruct (run_session _ _ _ _ _ _ _ _) as [s f]. intros Hc. exists cmds. split; [|done].
  assert (Hf : as_session c' = session_new (world s) (events_taken s) (orphans s ++ in_flight s) (streams s))
    by (destruct f; by simplify_eq).
  rewrite Hf. by apply simulated_handover.
Qed.

(** Nothing arrives without a connection. *)
Lemma beside_commands l (s : Session R F Q) : commands p d node_token (filter beside l) s = [].
Proof.
  unfold commands. revert s. induction l as [|i l IH]; intros s; [done|]. rewrite filter_cons.
  case_decide as Hi; [|apply IH]. cbn [dispatched]. rewrite omap_app.
  assert (Hd : dispatched_by p d node_token i s = None) by (by destruct i). rewrite Hd. cbn [option_list omap list_omap app].
  destruct (turn p d node_token i s) as [s1 []]; [apply IH|done..].
Qed.

Lemma meanwhile_simulated l (c : C) :
  simulated (as_session c) (as_session (meanwhile p d node_token l c)) [].
Proof.
  unfold meanwhile. fold (as_session c). apply simulated_handover.
  rewrite <- (beside_commands l (as_session c)). apply loop_simulated.
Qed.

Lemma client_simulated l (c c' : C) :
  run_client p d node_token l c = Some c' ->
  exists cmds, simulated (as_session c) (as_session c') cmds /\ Forall (ordered (heard l)) cmds.
Proof.
  revert c. induction l as [|a l IH]; intros c; cbn [run_client].
  { intros [= <-]. exists []. split; [by apply simulated_same|constructor]. }
  destruct (connect_once p d node_token (at_dial a) c) as [c1|] eqn:Hc; [|done]. cbn [mbind option_bind].
  destruct (connect_simulated _ _ _ Hc) as (cmds1 & Hs1 & Ho1).
  assert (Hone : Forall (ordered (heard (a :: l))) cmds1).
  { eapply Forall_impl; [exact Ho1|]. intros cmd. apply ordered_mono. unfold heard. cbn. set_solver. }
  destruct (at_cancelled a).
  { intros [= <-]. by exists cmds1. }
  intros Hr. destruct (IH _ Hr) as (cmds2 & Hs2 & Ho2). exists (cmds1 ++ cmds2). split.
  - eapply simulated_trans; [exact Hs1|].
    exact (simulated_trans d _ _ _ [] cmds2 (meanwhile_simulated (at_meanwhile a) (sleep_once c1)) Hs2).
  - apply Forall_app. split; [done|]. eapply Forall_impl; [exact Ho2|]. intros cmd.
    apply ordered_mono. unfold heard. cbn. set_solver.
Qed.

(** C1: the daemon as a whole. Over all connections and reconnections, and
    however commands, console streams, containers and other processes
    interleave, every file the daemon touches lies below the volume or backup
    directory of the server of a command that came in as a text which verified
    under the node token when it was received; every event it makes is about
    such a server; and what it tracks and streams for any other server is
    untouched. *)
Theorem daemon_confined l (w : World R F Q) c' :
  volumes_root d <> "" -> backups_root d <> "" -> consoles w = ∅ ->
  run_client p d node_token l (client_new w) = Some c' ->
  (exists cs, accesses (w_fs (cl_world c')) = accesses (w_fs w) ++ cs /\
     Forall (fun a => exists cmd, ordered (heard l) cmd /\
       allowed (volume d (cmd_server_id cmd)) (backups_of d (cmd_server_id cmd)) a) cs) /\
  (exists es, events (cl_world c') = events w ++ es /\
     Forall (fun ev => exists cmd, ordered (heard l) cmd /\ ev_server_id ev = cmd_server_id cmd) es) /\
  forall sid, (forall cmd, ordered (heard l) cmd -> cmd_server_id cmd <> sid) ->
    tracked (cl_world c') !! sid = tracked w !! sid /\ consoles (cl_world c') !! sid = None.
Proof.
  intros Hv Hb Hc Hr. destruct (client_simulated _ _ _ Hr) as (cmds & Hs & Ho).
  destruct (Hs [] []) as [acks Hn]. apply reachable_ok in Hn; [|exact Hc].
  destruct (no_world _ _ _ Hn) as [Ha (es & He & Hes) Ht Hco]. cbn in Ha, He, Hes, Ht, Hco.
  rewrite Forall_forall in Ho. split_and!.
  - destruct (Ha Hv Hb) as (cs & Hcs & Hal). exists cs. split; [done|].
    eapply Forall_impl; [exact Hal|]. intros a (cmd & Hin & Hok). eauto.
  - exists es. split; [done|]. eapply Forall_impl; [exact Hes|].
    intros ev (cmd & Heq & Hin)%list_elem_of_fmap. eauto.
  - intros sid Hsid. assert (Hni : sid ∉ cmd_server_id <$> cmds).
    { intros (cmd & -> & Hin)%list_elem_of_fmap. by apply (Hsid cmd); [apply Ho|]. }
    split; [by apply Ht|]. by rewrite Hco, Hc.
Qed.

(** C13: the daemon refines the pool. Every run of the client, however it
    connects, is told things and loses its connection, ends in a state of the
    dispatcher, of the running commands and of the console streams that the
    pool of interleaved commands reaches from a fresh node, with only commands
    the panel ordered arriving there. *)
Theorem client_refines_pool l (w : World R F Q) c' :
  run_client p d node_token l (client_new w) = Some c' ->
  exists n, rtc (nstep d) (node_new w) n /\ n_world n = cl_world c' /\ n_jobs n = cl_running c' /\
    n_streams n = cl_streams c' /\ Forall (ordered (heard l)) (n_arrived n).
Proof.
  intros Hr. destruct (client_simulated _ _ _ Hr) as (cmds & Hs & Ho). destruct (Hs [] []) as [acks Hn].
  eexists. split; [exact Hn|]. cbn. by rewrite app_nil_r.
Qed.
End daemon.

(** ** A daemon in memory *)

Lemma daemon_confined_witness :
  exists c, sample_run = Some c /\ length (accesses (w_fs (cl_world c))) = 1 /\
    Forall (fun a => exists cmd, ordered Wrapping "token" (heard sample_attempts) cmd /\
      allowed (volume Toy.node (cmd_server_id cmd)) (backups_of Toy.node (cmd_server_id cmd)) a)
      (accesses (w_fs (cl_world c))).
Proof.
  assert (Hs : (fun c => length (accesses (w_fs (cl_world c)))) <$> sample_run = Some 1)
    by (vm_compute; reflexivity).
  destruct sample_run as [c|] eqn:Hr; [|discriminate Hs]. exists c. split; [reflexivity|].
  split; [injection Hs as Hs; exact Hs|].
  destruct (daemon_confined Wrapping Toy.node "token" sample_attempts Toy.start c) as ((cs & Hcs & Hall) & _);
    [discriminate|discriminate|reflexivity|exact Hr|].
  rewrite Hcs. exact Hall.
Defined.

Lemma client_refines_pool_witness :
  exists c n, sample_run = Some c /\ rtc (nstep Toy.node) (node_new Toy.start) n /\
    n_world n = cl_world c /\ length (n_jobs n) = 0.
Proof.
  assert (Hs : (fun c => length (cl_running c)) <$> sample_run = Some 0) by (vm_compute; reflexivity).
  destruct sample_run as [c|] eqn:Hr; [|discriminate Hs]. injection Hs as Hs. exists c.
  destruct (client_refines_pool Wrapping Toy.node "token" sample_attempts Toy.start c Hr)
    as (n & Hn & Hw & Hj & _).
  exists n. split; [reflexivity|]. split; [exact Hn|]. split; [exact Hw|]. rewrite Hj. exact Hs.
Defined.
