(* ===== verification/Main.v ===== *)
(** * Start-up (daemon/src/main.rs)

    The configuration read from the environment, the dispatcher built from it
    over the Docker runtime, the reconciliation, and the client's loop. *)

From S2P Require Import Prelude RustStr Json Crypto Payloads Envelope NonceCache Config Firewall.
From S2P Require Import Demux Http Runtime Docker Db Fs Backup Dispatcher Session Client.
From stdpp Require Import options.
Set Default Proof Using "Type*".

(** [None] is [exit(1)]. *)
Definition startup (cfg : Config) : option (DockerRuntime * Dispatcher) :=
  if is_empty (node_token cfg) then None else
  let rt := {| socket_path := docker_socket cfg; dns := container_dns cfg;
               firewall_mode := manage_firewall cfg |} in
  let dispatcher := dispatcher_new (Config.volumes_root cfg) (Config.backups_root cfg) in
  let dispatcher := match database cfg with
                    | Some dbcfg => set_db (db_new dbcfg) dispatcher
                    | None => dispatcher
                    end in
  Some (rt, dispatcher).

(** C40: what the panel is told about databases is what the operator configured.
    The daemon refuses to start exactly when the node token is missing or empty;
    otherwise it announces image pulls always, and databases exactly when an
    admin user is set, and serves the configured directories. *)
Theorem startup_spec (var : string -> option string) :
  match startup (from_env var) with
  | None => default "" (var "SKY_NODE_TOKEN") = ""
  | Some (rt, d) =>
      default "" (var "SKY_NODE_TOKEN") <> "" /\
      CAP_PULL_IMAGE ∈ capabilities d /\
      (CAP_DATABASES ∈ capabilities d <-> default "" (var "SKY_DB_ADMIN_USER") <> "") /\
      volumes_root d = default "/srv/sky-panel/volumes" (var "SKY_VOLUMES_ROOT") /\
      backups_root d = default "/srv/sky-panel/backups" (var "SKY_BACKUPS_ROOT")
  end.
Proof.
  unfold startup, from_env, var_or_default, database_from_env. cbn [node_token database].
  destruct (default "" (var "SKY_NODE_TOKEN")) as [|c t] eqn:Ht; [done|]. cbn [is_empty].
  unfold var_or_default. unfold capabilities.
  destruct (default "" (var "SKY_DB_ADMIN_USER")) as [|c' u]; cbn; split_and!; try done; set_solver.
Qed.

Section daemon.
Context {E F Q : Type} `{Engine E} `{Host} `{HttpParse} `{FileSystem F} `{Archive F} `{MariaDb Q} `{Base64}.
Context `{Crypto} `{SerdeJson} `{WireJson}.

(** The whole daemon on an environment: it exits, or reconciles what Docker has
    and then runs the client's rounds; the inner [None] is a panic. *)
Definition daemon (p : profile) (cfg : Config) (w : World (DState E) F Q) (l : list attempt)
    : option (option (Client (DState E) F Q)) :=
  '(rt, d) ← startup cfg;
  let RT := docker_runtime rt in
  let w := (reconcile w).1 in
  Some (run_client p d (node_token cfg) l (client_new w)).
End daemon.
