(* ===== verification/TestKit.v ===== *)
(** * The repository's unit tests, run on the model: shared parts

    The [#[cfg(test)]] modules of the sources are transcribed in the files
    TestProtocol, TestSkyperf, TestRuntime and TestAgent, one definition per
    test, and evaluated. They tie the model to what the authors check of the
    code. A test is a computation that may fail: [None] is a failed assertion
    or an [unwrap] of an error. *)

From S2P Require Import Prelude RustStr.
From stdpp Require Import options.

Abbreviation test := (option unit).

(** [assert!], [assert_eq!], [unwrap]. *)
Definition assert (b : bool) : test := if b then Some tt else None.
Definition assert_eq {A} `{EqDecision A} (a b : A) : test := assert (bool_decide (a = b)).
Definition unwrap {A} (r : result A) : option A := result_ok r.

(** Rust string literals: the escapes for line feed, carriage return and
    backslash; a double quote is written as a backslash and a single one. *)
Fixpoint unescape (l : list byte) : list byte :=
  match l with
  | "\"%char :: "n"%char :: l' => "010"%char :: unescape l'
  | "\"%char :: "r"%char :: l' => "013"%char :: unescape l'
  | "\"%char :: "'"%char :: l' => "034"%char :: unescape l'
  | "\"%char :: "\"%char :: l' => "\"%char :: unescape l'
  | c :: l' => c :: unescape l'
  | [] => []
  end.
Definition rb (s : string) : list byte := unescape (as_bytes s).
Definition rs (s : string) : string := of_bytes (rb s).

(** Every test of a list passes. *)
Definition passing (ts : list test) : bool := forallb (fun t => bool_decide (t = Some tt)) ts.
