(* ===== verification/TestSkyperf.v ===== *)
(** * Unit tests of skyperf-core: tail.rs, backup.rs, dirsize.rs *)

From S2P Require Import Prelude RustStr Paths Fs Backup MemFs Dirsize Tail TestKit.
From stdpp Require Import options.

(** ** tail.rs *)

Definition cursor (s : string) : Reader := {| r_data := rb s; r_error := None |}.

Definition returns_all_lines_when_fewer_than_n : test :=
  lines ← unwrap (last_n_lines (cursor "one\ntwo\nthree\n") 200);
  assert_eq lines ["one"; "two"; "three"].

Definition returns_only_last_n_lines : test :=
  lines ← unwrap (last_n_lines (cursor "1\n2\n3\n4\n5\n") 3);
  assert_eq lines ["3"; "4"; "5"].

Definition handles_no_trailing_newline_on_final_line : test :=
  lines ← unwrap (last_n_lines (cursor "a\nb\nc") 200);
  assert_eq lines ["a"; "b"; "c"].

Definition handles_crlf_line_endings : test :=
  lines ← unwrap (last_n_lines (cursor "a\r\nb\r\nc\r\n") 200);
  assert_eq lines ["a"; "b"; "c"].

Definition empty_input_yields_no_lines : test :=
  lines ← unwrap (last_n_lines (cursor "") 200);
  assert_eq lines [].

Definition n_zero_yields_no_lines : test :=
  lines ← unwrap (last_n_lines (cursor "a\nb\nc\n") 0);
  assert_eq lines [].

(** The other thread appends between two polls; the callback sets the stop flag
    for the poll after the line was seen. *)
Definition follow_emits_appended_lines_and_stops_on_flag : test :=
  let poll stop text := {| stop := stop; len := Some (Z.of_nat (length (rb text))); file := Ok (cursor text) |} in
  let '(seen, outcome) := follow (Ok (Z.of_nat (length (rb "first\n"))))
    [poll false "first\n"; poll false "first\n"; poll false "first\nsecond\n"; poll true "first\nsecond\n"] in
  _ ← match outcome with inr r => unwrap r | inl _ => None end;
  assert_eq seen ["second"].

(** ** backup.rs *)

Abbreviation disk_state := (FsState memfs).

(** Two temporary directories. *)
Definition src_dir : path := as_bytes "/tmp/src".
Definition workdir : path := as_bytes "/tmp/work".
Definition tempdirs : disk_state :=
  {| disk := <[workdir := Dir]> (<[src_dir := Dir]> ∅); accesses := [] |}.

Definition exists_at (p : path) (s : disk_state) : bool := is_ok (fs_metadata p (disk s)).2.

(** A test on files: the operations in sequence, then the assertion. *)
Definition on_disk {A} (m : M disk_state A) : option A := unwrap (m tempdirs).2.

Definition write_file (p : path) (contents : string) : M disk_state unit := write p (as_bytes contents).

Definition create_and_restore_round_trip : test :=
  results ← on_disk (
    _ ← write_file (join src_dir (as_bytes "top.txt")) "top level";
    _ ← create_dir_all (join src_dir (as_bytes "sub/nested"));
    _ ← write_file (join src_dir (as_bytes "sub/mid.txt")) "middle level";
    _ ← write_file (join src_dir (as_bytes "sub/nested/deep.txt")) "deep level";
    let archive_path := join workdir (as_bytes "backup.tar.zst") in
    bytes ← create_backup src_dir archive_path;
    md ← metadata archive_path;
    let dest := join workdir (as_bytes "restored") in
    _ ← restore_backup archive_path dest;
    top ← read (join dest (as_bytes "top.txt"));
    mid ← read (join dest (as_bytes "sub/mid.txt"));
    deep ← read (join dest (as_bytes "sub/nested/deep.txt"));
    mret (bytes, md_len md, top, mid, deep));
  let '(bytes, len, top, mid, deep) := results in
  _ ← assert (0 <? bytes)%Z;
  _ ← assert_eq len bytes;
  _ ← assert_eq top (as_bytes "top level");
  _ ← assert_eq mid (as_bytes "middle level");
  assert_eq deep (as_bytes "deep level").

Definition create_fails_for_missing_source : test :=
  let missing_src := join workdir (as_bytes "nope") in
  let archive_path := join workdir (as_bytes "backup.tar.zst") in
  assert (negb (is_ok (create_backup missing_src archive_path tempdirs).2)).

(** An archive with one entry of the given path, in the format of the in-memory
    archive. *)
Definition build_malicious_archive (archive_path : path) (entry_path contents : string) : M disk_state unit :=
  write archive_path (as_bytes entry_path ++ [eq_sign] ++ as_bytes contents ++ [lf]).

Definition restore_rejects_path_traversal_entries : test :=
  let archive_path := join workdir (as_bytes "evil.tar.zst") in
  let dest := join workdir (as_bytes "dest") in
  let '(s, r) := (_ ← build_malicious_archive archive_path "../evil.txt" "pwned";
                  restore_backup archive_path dest : M disk_state unit) tempdirs in
  _ ← unwrap r;
  _ ← assert (negb (exists_at (join workdir (as_bytes "evil.txt")) s));
  assert (negb (exists_at (join dest (as_bytes "evil.txt")) s)).

Definition restore_rejects_absolute_path_entries : test :=
  let archive_path := join workdir (as_bytes "evil_abs.tar.zst") in
  let absolute_target := "/tmp/evil_abs_test_marker.txt" in
  let dest := join workdir (as_bytes "dest") in
  let '(s, r) := (_ ← build_malicious_archive archive_path absolute_target "pwned";
                  restore_backup archive_path dest : M disk_state unit) tempdirs in
  _ ← unwrap r;
  assert (negb (exists_at (as_bytes absolute_target) s)).

Definition is_safe_relative_path_rejects_traversal_and_absolute : test :=
  _ ← assert (negb (is_safe_relative_path (as_bytes "../escape.txt")));
  _ ← assert (negb (is_safe_relative_path (as_bytes "a/../../escape.txt")));
  _ ← assert (negb (is_safe_relative_path (as_bytes "/absolute/path.txt")));
  _ ← assert (is_safe_relative_path (as_bytes "fine/relative/path.txt"));
  assert (is_safe_relative_path (as_bytes "./fine.txt")).

(** ** dirsize.rs *)

(** A walk of the files in memory: the entries at and below a path. *)
Global Instance mem_walk : WalkDir memfs := {|
  symlink_metadata := fun p d => (fs_metadata p d).2;
  walk_dir := fun p d =>
    (fun qn : path * node => Ok {| we_is_file := md_is_file (node_metadata qn.2);
                                   we_metadata := Ok (node_metadata qn.2) |})
      <$> filter (fun qn : path * node => under p qn.1 = true) (map_to_list d);
|}.

Definition dir_size (s : disk_state) (p : path) : result Z :=
  default (Err "panic") (compute_dir_size Checked p (disk s)).

Definition sums_files_in_flat_directory : test :=
  let '(s, r) := (_ ← write_file (join src_dir (as_bytes "a.txt")) "hello";
                  write_file (join src_dir (as_bytes "b.txt")) "world!" : M disk_state unit) tempdirs in
  _ ← unwrap r;
  size ← unwrap (dir_size s src_dir);
  assert_eq size 11%Z.

Definition sums_files_recursively_in_subdirectories : test :=
  let '(s, r) := (_ ← write_file (join src_dir (as_bytes "a.txt")) "12345";
                  _ ← create_dir_all (join src_dir (as_bytes "sub/nested"));
                  _ ← write_file (join src_dir (as_bytes "sub/b.txt")) "1234567890";
                  write_file (join src_dir (as_bytes "sub/nested/c.txt")) "123" : M disk_state unit) tempdirs in
  _ ← unwrap r;
  size ← unwrap (dir_size s src_dir);
  assert_eq size 18%Z.

Definition empty_directory_is_zero : test :=
  size ← unwrap (dir_size tempdirs src_dir);
  assert_eq size 0%Z.

Definition missing_path_is_an_error : test :=
  assert (negb (is_ok (dir_size tempdirs (join src_dir (as_bytes "does-not-exist"))))).

(** The tree has a file and a link back to its root. *)
Definition does_not_follow_symlink_cycles : test :=
  let link := {| md_is_dir := false; md_is_file := false; md_len := 8; md_modified := None |} in
  size ← unwrap (default (Err "panic")
    (compute_dir_size Checked src_dir (TDir dir_md [TFile 5; TSpecial link])));
  assert_eq size 5%Z.

Example skyperf_tests_pass : passing
  [returns_all_lines_when_fewer_than_n; returns_only_last_n_lines;
   handles_no_trailing_newline_on_final_line; handles_crlf_line_endings;
   empty_input_yields_no_lines; n_zero_yields_no_lines;
   follow_emits_appended_lines_and_stops_on_flag; create_and_restore_round_trip;
   create_fails_for_missing_source; restore_rejects_path_traversal_entries;
   restore_rejects_absolute_path_entries; is_safe_relative_path_rejects_traversal_and_absolute;
   sums_files_in_flat_directory; sums_files_recursively_in_subdirectories;
   empty_directory_is_zero; missing_path_is_an_error; does_not_follow_symlink_cycles] = true.
Proof. vm_compute. reflexivity. Qed.
