(* ===== verification/TestProtocol.v ===== *)
(** * Unit tests of protocol: sign.rs, payloads.rs, envelope.rs *)

From S2P Require Import Prelude RustStr Json JsonText Crypto Instances Payloads Wire Envelope Session.
From S2P Require Import WireText TestKit.
From stdpp Require Import options.

#[local] Existing Instance sha2_crypto.

(** ** sign.rs *)

Definition sign_and_verify_round_trip : test :=
  let secret := as_bytes "node-secret-token" in
  let sig := sign secret "heartbeat" 1700000000 "abc123" (rb "{\'ok\':true}") in
  assert (verify_sig secret "heartbeat" 1700000000 "abc123" (rb "{\'ok\':true}") sig).

Definition verify_rejects_tampered_payload : test :=
  let secret := as_bytes "node-secret-token" in
  let sig := sign secret "heartbeat" 1700000000 "abc123" (rb "{\'ok\':true}") in
  assert (negb (verify_sig secret "heartbeat" 1700000000 "abc123" (rb "{\'ok\':false}") sig)).

Definition verify_rejects_wrong_secret : test :=
  let sig := sign (as_bytes "secret-a") "heartbeat" 1700000000 "abc123" (as_bytes "{}") in
  assert (negb (verify_sig (as_bytes "secret-b") "heartbeat" 1700000000 "abc123" (as_bytes "{}") sig)).

Definition verify_rejects_replayed_nonce_with_different_type : test :=
  let secret := as_bytes "node-secret-token" in
  let sig := sign secret "event" 1700000000 "abc123" (as_bytes "{}") in
  assert (negb (verify_sig secret "heartbeat" 1700000000 "abc123" (as_bytes "{}") sig)).

(** ** payloads.rs *)

(** [serde_json::to_string] and [from_str]. *)
Definition to_string (j : json) : option string := unwrap (to_text j).
Definition from_str {A} (d : dec A) (text : string) : option A := from_text text ≫= d.

Definition action_serializes_to_snake_case_matching_go_constants : test :=
  let name a := to_string (JStr (action_name a)) in
  _ ← assert_eq (name ConsoleInput) (Some (rs "\'console_input\'"));
  _ ← assert_eq (name ListFiles) (Some (rs "\'list_files\'"));
  _ ← assert_eq (name Create) (Some (rs "\'create\'"));
  assert_eq (name PullImage) (Some (rs "\'pull_image\'")).

(** A command with the given id, action and server, otherwise the default. *)
Definition command_for (id : string) (a : Action) (sid : string) : CommandPayload :=
  {| cmd_command_id := id; cmd_action := a; cmd_server_id := sid;
     cmd_container_id := None; cmd_spec := None; cmd_image := None;
     cmd_input := None; cmd_path := None; cmd_new_path := None;
     cmd_content_base64 := None; cmd_database_name := None;
     cmd_database_user := None; cmd_database_password := None |}.

Definition command_payload_omits_absent_optional_fields : test :=
  text ← to_string (enc_command (command_for "1" Start "s1"));
  _ ← assert (negb (contains text "container_id"));
  _ ← assert (negb (contains text "spec"));
  assert (negb (contains text "path")).

Definition decodes_panel_warm_pull_image_command : test :=
  let text := rs "{\'command_id\':\'abc-123\',\'action\':\'pull_image\',\'server_id\':\'\',\'image\':\'itzg/minecraft-server\'}" in
  cmd ← from_str dec_command text;
  _ ← assert_eq (cmd_action cmd) PullImage;
  assert_eq (cmd_image cmd) (Some "itzg/minecraft-server").

Definition decodes_panel_create_command : test :=
  let text := rs ("{\'command_id\':\'c2\',\'action\':\'create\',\'server_id\':\'s1\',\'spec\':{\'name\':\'sky-s1\',"
    +:+ "\'image\':\'itzg/minecraft-server\',\'cmd\':[],\'env\':[\'EULA=TRUE\',\'MEMORY=5632M\'],"
    +:+ "\'working_dir\':\'/home/container\',\'binds\':[\'/srv/sky-panel/volumes/s1:/home/container\'],"
    +:+ "\'port_bindings\':[{\'container_port\':\'25565/tcp\',\'host_port\':\'25565\'},"
    +:+ "{\'container_port\':\'25565/udp\',\'host_port\':\'25565\'}],\'memory_bytes\':5905580032,"
    +:+ "\'nano_cpus\':1000000000,\'labels\':{\'sky-panel.server_id\':\'s1\'}}}") in
  cmd ← from_str dec_command text;
  spec ← cmd_spec cmd;
  _ ← assert_eq (cmd_action cmd) Create;
  assert_eq (spec_image spec) "itzg/minecraft-server".

Definition decodes_create_with_null_cmd : test :=
  let text := rs ("{\'command_id\':\'c3\',\'action\':\'create\',\'server_id\':\'s1\',\'spec\':{\'name\':\'sky-s1\',"
    +:+ "\'image\':\'itzg/minecraft-server\',\'cmd\':null,\'env\':[\'EULA=TRUE\'],\'working_dir\':\'/home/container\',"
    +:+ "\'binds\':[\'/v:/home/container\'],\'port_bindings\':[],\'memory_bytes\':1,\'nano_cpus\':0,\'labels\':{}}}") in
  cmd ← from_str dec_command text;
  spec ← cmd_spec cmd;
  assert_eq (spec_cmd spec) [].

Definition event_kind_round_trips : test :=
  let ev := {| ev_server_id := "s1"; ev_kind := ConsoleLine; ev_message := "hello" |} in
  text ← to_string (enc_event ev);
  _ ← assert (contains text (rs "\'console_line\'"));
  decoded ← from_str dec_event text;
  assert_eq (ev_kind decoded) ConsoleLine.

(** ** envelope.rs *)

Record Dummy := { dummy_a : Z; dummy_b : string }.
Global Instance Dummy_eq_dec : EqDecision Dummy.
Proof. solve_decision. Defined.
Definition enc_dummy (d : Dummy) : json := JObj [("a", JInt (dummy_a d)); ("b", JStr (dummy_b d))].
Definition dec_dummy : dec Dummy := fun j =>
  vs ← field_values ["a"; "b"] j;
  match vs with
  | [a; b] => a ← required (dec_int (-2147483648) 2147483647) a; b ← required dec_string b;
              Some {| dummy_a := a; dummy_b := b |}
  | _ => None
  end.

(** The clock and the random bytes of a call; the two envelopes of a test get
    different bytes. *)
Definition test_now : Z := 1700000000.
Definition rand1 : list byte := as_bytes "0123456789abcdef".
Definition rand2 : list byte := as_bytes "fedcba9876543210".
Definition signed_event (d : Dummy) (rand : list byte) : option Envelope :=
  unwrap (signed (as_bytes "secret") "event" (enc_dummy d) test_now rand).
Definition verifies (secret : string) (e : Envelope) : option bool :=
  verify Checked test_now (as_bytes secret) e.

Definition signed_envelope_verifies_with_correct_secret : test :=
  env ← signed_event {| dummy_a := 1; dummy_b := "hi" |} rand1;
  ok ← verifies "secret" env;
  assert ok.

Definition signed_envelope_fails_with_wrong_secret : test :=
  env ← signed_event {| dummy_a := 1; dummy_b := "hi" |} rand1;
  ok ← verifies "wrong-secret" env;
  assert (negb ok).

Definition decode_payload_round_trips : test :=
  let payload := {| dummy_a := 42; dummy_b := "hello" |} in
  env ← signed_event payload rand1;
  decoded ← decode_payload dec_dummy env;
  assert_eq decoded payload.

Definition stale_timestamp_fails_verification : test :=
  env ← signed_event {| dummy_a := 1; dummy_b := "hi" |} rand1;
  let env := {| env_kind := env_kind env; env_timestamp := env_timestamp env - (MAX_CLOCK_SKEW_SECS + 5);
                env_nonce := env_nonce env; env_payload := env_payload env; env_sig := env_sig env |} in
  ok ← verifies "secret" env;
  fresh ← timestamp_is_fresh Checked test_now env;
  _ ← assert (negb ok);
  assert (negb fresh).

Definition two_signed_envelopes_get_distinct_nonces : test :=
  let payload := {| dummy_a := 1; dummy_b := "hi" |} in
  a ← signed_event payload rand1;
  b ← signed_event payload rand2;
  assert (negb (bool_decide (env_nonce a = env_nonce b))).

Definition wire_round_trip_via_json : test :=
  let payload := {| dummy_a := 7; dummy_b := "wire" |} in
  env ← signed_event payload rand1;
  wire ← unwrap (envelope_to_text env);
  parsed ← envelope_from_text wire;
  ok ← verifies "secret" parsed;
  _ ← assert ok;
  decoded ← decode_payload dec_dummy parsed;
  assert_eq decoded payload.

Example protocol_tests_pass : passing
  [sign_and_verify_round_trip; verify_rejects_tampered_payload; verify_rejects_wrong_secret;
   verify_rejects_replayed_nonce_with_different_type;
   action_serializes_to_snake_case_matching_go_constants;
   command_payload_omits_absent_optional_fields; decodes_panel_warm_pull_image_command;
   decodes_panel_create_command; decodes_create_with_null_cmd; event_kind_round_trips;
   signed_envelope_verifies_with_correct_secret; signed_envelope_fails_with_wrong_secret;
   decode_payload_round_trips; stale_timestamp_fails_verification;
   two_signed_envelopes_get_distinct_nonces; wire_round_trip_via_json] = true.
Proof. vm_compute. reflexivity. Qed.
