(* ===== verification/TestRuntime.v ===== *)
(** * Unit tests of daemon/src/runtime: docker.rs, stats.rs, demux.rs, firewall.rs, fake.rs *)

From S2P Require Import Prelude RustStr Json JsonText Payloads Config Firewall Demux Http Float64.
From S2P Require Import Stats Runtime FakeRuntime Docker TestKit.
From Stdlib Require Import SpecFloat.
From stdpp Require Import options.

(** ** docker.rs *)

Definition split_image_ref_handles_tags_registries_and_defaults : test :=
  let split s := split_image_ref (as_bytes s) in
  let pair a b := (as_bytes a, as_bytes b) in
  _ ← assert_eq (split "itzg/minecraft-server") (pair "itzg/minecraft-server" "latest");
  _ ← assert_eq (split "node:22-alpine") (pair "node" "22-alpine");
  _ ← assert_eq (split "itzg/minecraft-server:java21") (pair "itzg/minecraft-server" "java21");
  _ ← assert_eq (split "registry.example.com:5000/team/img")
        (pair "registry.example.com:5000/team/img" "latest");
  _ ← assert_eq (split "registry.example.com:5000/team/img:v2")
        (pair "registry.example.com:5000/team/img" "v2");
  assert_eq (split "itzg/minecraft-server@sha256:abc123") (pair "itzg/minecraft-server@sha256:abc123" "").

Definition looks_like_server_id_accepts_uuids_rejects_foreign_names : test :=
  let looks s := looks_like_server_id (as_bytes s) in
  _ ← assert (looks "b24aa5c8-a1ab-4a42-9edd-956dd23d017f");
  _ ← assert (negb (looks "panel"));
  _ ← assert (negb (looks "cache"));
  _ ← assert (negb (looks ""));
  _ ← assert (negb (looks "b24aa5c8-a1ab-4a42-9edd-956dd23d017"));
  _ ← assert (negb (looks "b24aa5c8xa1abx4a42x9eddx956dd23d017f"));
  assert (negb (looks "g24aa5c8-a1ab-4a42-9edd-956dd23d017f")).

Definition encode_query_escapes_only_unsafe_chars : test :=
  let encode s := encode_query (as_bytes s) in
  _ ← assert_eq (encode "itzg/minecraft-server") (as_bytes "itzg/minecraft-server");
  _ ← assert_eq (encode "node:22-alpine") (as_bytes "node:22-alpine");
  assert_eq (encode "weird&tag=x") (as_bytes "weird%26tag%3Dx").

Definition extract_pull_error_finds_terminal_error_in_stream : test :=
  let ok := rb "{\'status\':\'Pulling\'}\n{\'status\':\'Download complete\'}\n" in
  _ ← assert_eq (extract_pull_error ok) None;
  let failed := rb "{\'status\':\'Pulling\'}\n{\'error\':\'manifest unknown\'}\n" in
  _ ← assert_eq (extract_pull_error failed) (Some "manifest unknown");
  let detail := rb "{\'errorDetail\':{\'message\':\'not found\'}}\n" in
  assert_eq (extract_pull_error detail) (Some "not found").

Definition spec_with (image : string) (bindings : list PortBinding) : ContainerSpec :=
  {| spec_name := ""; spec_image := image; spec_cmd := []; spec_env := []; spec_working_dir := "";
     spec_binds := []; spec_port_bindings := bindings; spec_memory_bytes := 0; spec_nano_cpus := 0;
     spec_labels := ∅ |}.

Definition pb (container_port host_port : string) : PortBinding :=
  {| pb_container_port := container_port; pb_host_port := host_port |}.

Definition to_create_request_groups_port_bindings_by_container_port : test :=
  let spec := spec_with "itzg/minecraft-server" [pb "25565/tcp" "25565"; pb "25565/udp" "25565"] in
  let req := to_create_request spec [] in
  _ ← assert_eq (base.size (hc_port_bindings (cr_host_config req))) 2;
  bindings ← hc_port_bindings (cr_host_config req) !! "25565/tcp";
  first ← bindings !! 0;
  assert_eq (host_port first) "25565".

Definition to_create_request_keeps_default_caps_with_no_new_privileges : test :=
  let req := to_create_request (spec_with "test" []) [] in
  _ ← assert (negb (bool_decide ("ALL" ∈ hc_cap_drop (cr_host_config req))));
  assert_eq (hc_security_opt (cr_host_config req)) ["no-new-privileges"].

Definition to_create_request_sets_dns_when_provided : test :=
  let spec := spec_with "test" [] in
  let dns := ["1.1.1.1"; "8.8.8.8"] in
  _ ← assert_eq (hc_dns (cr_host_config (to_create_request spec dns))) dns;
  assert_eq (hc_dns (cr_host_config (to_create_request spec []))) [].

Definition parse_response_extracts_status_and_body : test :=
  let raw := rb "HTTP/1.1 201 Created\r\nContent-Type: application/json\r\n\r\n{\'Id\':\'abc\'}" in
  '(status, body) ← unwrap (parse_response raw);
  _ ← assert_eq status 201%Z;
  assert_eq body (rb "{\'Id\':\'abc\'}").

Definition parse_response_dechunks_chunked_body : test :=
  let raw := rb ("HTTP/1.1 200 OK\r\nContent-Type: application/json\r\nTransfer-Encoding: chunked\r\n\r\n"
                 +:+ "4\r\n[{\'a\r\n5\r\n\':1}]\r\n0\r\n\r\n") in
  '(status, body) ← unwrap (parse_response raw);
  _ ← assert_eq status 200%Z;
  _ ← assert_eq body (rb "[{\'a\':1}]");
  v ← from_text (of_bytes body);
  assert match v with JArr _ => true | _ => false end.

Definition dechunk_handles_size_extensions_and_terminator : test :=
  out ← unwrap (dechunk (rb "3;name=x\r\nabc\r\n0\r\n\r\n"));
  assert_eq out (as_bytes "abc").

Definition find_double_crlf_locates_header_terminator : test :=
  let buf := rb "HTTP/1.1 101 UPGRADED\r\nConnection: Upgrade\r\n\r\nleftover-bytes" in
  pos ← find_double_crlf buf;
  assert_eq (drop (pos + 4) buf) (as_bytes "leftover-bytes").

(** The frame as the test builds it, its size field set for the line feed too;
    the reader is at its end at once, so the channel is closed afterwards. *)
Definition pump_output_demuxes_leftover_and_streamed_frames : test :=
  let frame1 := [STREAM_STDOUT; "000"; "000"; "000"]%char ++ u32_to_be_bytes 6 ++ rb "hello\n" in
  let pump := pump_output frame1 [Some []] None in
  _ ← assert_eq (sent (p_tx pump)) ["hello"];
  assert (negb (running pump)).

(** ** stats.rs *)

Definition cpu_of (total system online : Z) : CpuStats :=
  {| cpu_usage := {| total_usage := total |}; system_cpu_usage := system; online_cpus := online |}.

Definition cpu_percent_matches_docker_formula : test :=
  let cur := cpu_of 50000000 200000000 4 in
  let prev := cpu_of 25000000 100000000 4 in
  assert (SFeqb (cpu_percent cur prev) (f64_of_Z 100)).

Definition cpu_percent_zero_when_system_delta_not_positive : test :=
  let cur := cpu_of 0 100 2 in
  let prev := cpu_of 0 100 0 in
  assert (SFeqb (cpu_percent cur prev) f64_zero).

Definition default_stats_response (mem : MemoryStats) (nets : gmap string NetworkStats) : DockerStatsResponse :=
  {| cpu_stats := default_cpu_stats; precpu_stats := default_cpu_stats; memory_stats := mem; networks := nets |}.

Definition parse_docker_stats_subtracts_cache_from_memory : test :=
  let raw := default_stats_response
    {| mem_usage := 1000; mem_limit := 2000; mem_stats := {| mem_cache := 300 |} |} ∅ in
  stats ← parse_docker_stats Checked raw;
  _ ← assert_eq (st_mem_used_bytes stats) 700%Z;
  assert_eq (st_mem_limit_bytes stats) 2000%Z.

Definition parse_docker_stats_aggregates_network_across_interfaces : test :=
  let raw := default_stats_response default_memory_stats
    (<["eth1" := {| rx_bytes := 200; tx_bytes := 75 |}]>
    (<["eth0" := {| rx_bytes := 100; tx_bytes := 50 |}]> ∅)) in
  stats ← parse_docker_stats Checked raw;
  _ ← assert_eq (st_net_rx_bytes stats) 300%Z;
  assert_eq (st_net_tx_bytes stats) 125%Z.

(** ** demux.rs *)

Definition frame (stream_type : byte) (payload : list byte) : list byte :=
  [stream_type; "000"; "000"; "000"]%char ++ u32_to_be_bytes (Z.of_nat (length payload)) ++ payload.

Definition parse_frame_header_reads_type_and_size : test :=
  header ← parse_frame_header (frame STREAM_STDOUT (as_bytes "hello"));
  _ ← assert_eq (stream_type header) STREAM_STDOUT;
  assert_eq (Demux.size header) 5%Z.

Definition parse_frame_header_none_when_incomplete : test :=
  assert match parse_frame_header ["001"; "002"; "003"]%char with None => true | Some _ => false end.

Definition line_splitter_yields_complete_lines : test :=
  let '(_, lines) := feed splitter_new (rb "hello\nworld\n") in
  assert_eq lines ["hello"; "world"].

Definition line_splitter_handles_partial_line_across_feeds : test :=
  let '(s, lines) := feed splitter_new (as_bytes "hel") in
  _ ← assert_eq lines [];
  let '(s, lines) := feed s (rb "lo\nwor") in
  _ ← assert_eq lines ["hello"];
  let '(_, lines) := feed s (rb "ld\n") in
  assert_eq lines ["world"].

Definition line_splitter_strips_carriage_return : test :=
  let '(_, lines) := feed splitter_new (rb "hello\r\n") in
  assert_eq lines ["hello"].

(** ** firewall.rs *)

Definition dedupes_tcp_udp_pairs_and_preserves_order : test :=
  let bindings := [pb "25565/tcp" "25565"; pb "25565/udp" "25565";
                   pb "25570/tcp" "25570"; pb "25570/udp" "25570"] in
  assert_eq (ports_from_bindings bindings) [25565; 25570]%Z.

Definition skips_unparseable_and_zero_ports : test :=
  let bindings := [pb "x/tcp" "not-a-port"; pb "0/tcp" "0"; pb "25565/tcp" "25565"] in
  assert_eq (ports_from_bindings bindings) [25565]%Z.

(** No process is spawned. *)
Definition off_mode_and_empty_ports_are_noops : test :=
  let fw := {| warned := false; spawned := []; fw_log := []; waited := 0 |} in
  let open mode ports := open_ports (fun _ => true) (fun _ _ _ => None) true mode ports in
  let fw := open Auto [] (open Off [25565%Z] fw) in
  _ ← assert_eq (spawned fw) [];
  assert_eq (waited fw) 0%Z.

(** ** fake.rs *)

Definition rt : ContainerRuntime FakeState := fake_runtime sample_uuid.
Global Existing Instance rt.

Definition create_start_stop_remove_lifecycle : test :=
  let '(s, id) := rt_create (spec_with "test" []) Fake.new in
  id ← unwrap id;
  let '(s, st) := rt_inspect id s in st ← unwrap st; _ ← assert (negb (cs_running st));
  let '(s, r) := rt_start id s in _ ← unwrap r;
  let '(s, st) := rt_inspect id s in st ← unwrap st; _ ← assert (cs_running st);
  let '(s, r) := rt_stop id 1 s in _ ← unwrap r;
  let '(s, st) := rt_inspect id s in st ← unwrap st; _ ← assert (negb (cs_running st));
  let '(s, r) := rt_remove id s in _ ← unwrap r;
  assert (negb (is_ok (rt_inspect id s).2)).

Definition operations_on_unknown_container_fail : test :=
  _ ← assert (negb (is_ok (rt_start "nonexistent" Fake.new).2));
  _ ← assert (negb (is_ok (rt_stop "nonexistent" 0 Fake.new).2));
  _ ← assert (negb (is_ok (rt_inspect "nonexistent" Fake.new).2));
  assert (negb (is_ok (rt_stats "nonexistent" Fake.new).2)).

Definition attach_records_stdin_writes : test :=
  let '(s, id) := rt_create (spec_with "test" []) Fake.new in
  id ← unwrap id;
  let '(s, console) := rt_attach id s in
  console ← unwrap console;
  let '(s, r) := console_write (con_stdin console) (rb "say hello\n") s in
  _ ← unwrap r;
  assert_eq (Fake.console_writes id s) [rs "say hello\n"].

Example runtime_tests_pass : passing
  [split_image_ref_handles_tags_registries_and_defaults;
   looks_like_server_id_accepts_uuids_rejects_foreign_names; encode_query_escapes_only_unsafe_chars;
   extract_pull_error_finds_terminal_error_in_stream;
   to_create_request_groups_port_bindings_by_container_port;
   to_create_request_keeps_default_caps_with_no_new_privileges; to_create_request_sets_dns_when_provided;
   parse_response_extracts_status_and_body; parse_response_dechunks_chunked_body;
   dechunk_handles_size_extensions_and_terminator; find_double_crlf_locates_header_terminator;
   pump_output_demuxes_leftover_and_streamed_frames; cpu_percent_matches_docker_formula;
   cpu_percent_zero_when_system_delta_not_positive; parse_docker_stats_subtracts_cache_from_memory;
   parse_docker_stats_aggregates_network_across_interfaces; parse_frame_header_reads_type_and_size;
   parse_frame_header_none_when_incomplete; line_splitter_yields_complete_lines;
   line_splitter_handles_partial_line_across_feeds; line_splitter_strips_carriage_return;
   dedupes_tcp_udp_pairs_and_preserves_order; skips_unparseable_and_zero_ports;
   off_mode_and_empty_ports_are_noops; create_start_stop_remove_lifecycle;
   operations_on_unknown_container_fail; attach_records_stdin_writes] = true.
Proof. vm_compute. reflexivity. Qed.
