(* ===== verification/TestAgent.v ===== *)
(** * Unit tests of the daemon: config.rs, db.rs, nonce_cache.rs, dispatcher.rs, session.rs *)

From S2P Require Import Prelude RustStr Paths Json JsonText Crypto Instances Payloads Wire Envelope.
From S2P Require Import NonceCache Config Runtime FakeRuntime Db Fs Backup MemFs Dispatcher ToyNode.
From S2P Require Import Task ConsoleStream Concurrent Session WireText TestKit TestProtocol TestRuntime.
From stdpp Require Import options.

(** ** config.rs *)

Definition firewall_mode_parses_known_values : test :=
  _ ← assert_eq (from_env_str "off") Off;
  _ ← assert_eq (from_env_str "OFF") Off;
  _ ← assert_eq (from_env_str "disabled") Off;
  _ ← assert_eq (from_env_str " sudo ") Sudo;
  assert_eq (from_env_str "auto") Auto.

(** [FirewallMode::default()] is the variant marked [#[default]]. *)
Definition firewall_mode_defaults_to_auto : test :=
  _ ← assert_eq (from_env_str "") Auto;
  assert_eq (from_env_str "garbage") Auto.

(** ** db.rs *)

Definition validate_ident_accepts_safe_names : test :=
  _ ← assert (is_ok (validate_ident "s_ab12_mydb" 64));
  assert (is_ok (validate_ident "u_deadbeef" 32)).

Definition validate_ident_rejects_injection : test :=
  _ ← assert (negb (is_ok (validate_ident "db`; DROP DATABASE x;--" 64)));
  _ ← assert (negb (is_ok (validate_ident "bad name" 64)));
  _ ← assert (negb (is_ok (validate_ident "" 64)));
  assert (negb (is_ok (validate_ident (of_bytes (replicate 65 "x"%char)) 64))).

Definition escape_sql_string_neutralizes_quotes : test :=
  _ ← assert_eq (escape_sql_string "a'b") "a\'b";
  assert_eq (escape_sql_string "a\b") "a\\b".

(** ** nonce_cache.rs *)

Definition seconds (n : Z) : Z := (n * 1000000000)%Z.

Definition first_use_of_a_nonce_is_accepted : test :=
  assert (check_and_record (NonceCache.new (seconds 30)) 0 "abc").2.

Definition replaying_the_same_nonce_is_rejected : test :=
  let '(cache, first) := check_and_record (NonceCache.new (seconds 30)) 0 "abc" in
  _ ← assert first;
  assert (negb (check_and_record cache 1000 "abc").2).

Definition distinct_nonces_are_independent : test :=
  let '(cache, first) := check_and_record (NonceCache.new (seconds 30)) 0 "a" in
  _ ← assert first;
  assert (check_and_record cache 1000 "b").2.

(** Forty milliseconds pass. *)
Definition a_nonce_is_accepted_again_after_the_ttl_expires : test :=
  let '(cache, first) := check_and_record (NonceCache.new 20000000) 0 "abc" in
  _ ← assert first;
  assert (check_and_record cache 40000000 "abc").2.

(** ** dispatcher.rs *)

(** A dispatcher over a fresh fake runtime and an empty temporary directory. *)
Abbreviation node_state := (World FakeState memfs ToyDb.state).
Definition tmp : string := "/tmp/t".
Definition fresh_node : node_state := world_new Fake.new (<[as_bytes tmp := Dir]> ∅) (∅, false).

(** [dispatcher_with_volumes]: the receiver of the events is dropped. *)
Definition volumes : Dispatcher := dispatcher_new tmp (tmp +:+ "/_backups").
Definition volumes_node : node_state :=
  {| w_rt := w_rt fresh_node; w_fs := w_fs fresh_node; w_db := w_db fresh_node;
     tracked := tracked fresh_node; consoles := consoles fresh_node; events := events fresh_node;
     events_open := false; pumps := pumps fresh_node; next_console := next_console fresh_node |}.

Definition cmd (a : Action) (server_id : string) : CommandPayload := command_for "cmd-1" a server_id.
Definition create_cmd (spec : ContainerSpec) (server_id : string) : CommandPayload :=
  {| cmd_command_id := "cmd-1"; cmd_action := Create; cmd_server_id := server_id;
     cmd_container_id := None; cmd_spec := Some spec; cmd_image := None;
     cmd_input := None; cmd_path := None; cmd_new_path := None; cmd_content_base64 := None;
     cmd_database_name := None; cmd_database_user := None; cmd_database_password := None |}.
Definition file_cmd (a : Action) (path new_path content : option string) : CommandPayload :=
  {| cmd_command_id := "cmd-1"; cmd_action := a; cmd_server_id := "server-1";
     cmd_container_id := None; cmd_spec := None; cmd_image := None;
     cmd_input := None; cmd_path := path; cmd_new_path := new_path; cmd_content_base64 := content;
     cmd_database_name := None; cmd_database_user := None; cmd_database_password := None |}.
Definition start_container (id : string) : CommandPayload :=
  {| cmd_command_id := "cmd-1"; cmd_action := Start; cmd_server_id := "server-1";
     cmd_container_id := Some id; cmd_spec := None; cmd_image := None;
     cmd_input := None; cmd_path := None; cmd_new_path := None; cmd_content_base64 := None;
     cmd_database_name := None; cmd_database_user := None; cmd_database_password := None |}.

Definition image_spec : ContainerSpec := spec_with "test" [].
Definition run_cmd (c : CommandPayload) (w : node_state) : node_state * AckPayload := handle volumes 0 c w.

Definition create_start_stop_remove_lifecycle : test :=
  let '(w, ack) := run_cmd (create_cmd image_spec "server-1") volumes_node in
  _ ← assert (ack_ok ack);
  let '(w, ack) := run_cmd (cmd Start "server-1") w in _ ← assert (ack_ok ack);
  let '(w, ack) := run_cmd (cmd Stop "server-1") w in _ ← assert (ack_ok ack);
  let '(w, ack) := run_cmd (cmd Remove "server-1") w in _ ← assert (ack_ok ack);
  let '(_, ack) := run_cmd (cmd Start "server-1") w in
  assert (negb (ack_ok ack)).

Definition pull_image_acks_ok_and_streams_console_progress : test :=
  let pull := {| cmd_command_id := "cmd-1"; cmd_action := PullImage; cmd_server_id := "server-1";
                 cmd_container_id := None; cmd_spec := None; cmd_image := Some "itzg/minecraft-server";
                 cmd_input := None; cmd_path := None; cmd_new_path := None; cmd_content_base64 := None;
                 cmd_database_name := None; cmd_database_user := None; cmd_database_password := None |} in
  let '(w, ack) := run_cmd pull fresh_node in
  _ ← assert (ack_ok ack);
  first ← events w !! 0;
  _ ← assert_eq (ev_kind first) ConsoleLine;
  _ ← assert_eq (ev_server_id first) "server-1";
  _ ← assert (contains (ev_message first) "pulling");
  second ← events w !! 1;
  assert (contains (ev_message second) "ready").

Definition pull_image_without_image_fails : test :=
  assert (negb (ack_ok (run_cmd (cmd PullImage "server-1") volumes_node).2)).

(** A container made behind the dispatcher's back. *)
Definition with_created (spec : ContainerSpec) (w : node_state) : option (string * node_state) :=
  let '(r, id) := rt_create spec (w_rt w) in
  id ← unwrap id;
  Some (id, set_rt r w).

Definition start_with_explicit_container_id_works_without_tracking : test :=
  '(id, w) ← with_created image_spec volumes_node;
  assert (ack_ok (run_cmd (start_container id) w).2).

Definition containers_of (w : node_state) : option (list ContainerHeartbeat) :=
  hb ← unwrap (heartbeat w).2; Some (hb_containers hb).
Definition one_running (server_id : string) (l : list ContainerHeartbeat) : test :=
  match l with
  | [c] => _ ← assert_eq (hb_server_id c) server_id; assert (hb_running c)
  | _ => None
  end.

Definition heartbeat_reports_tracked_containers : test :=
  let '(w, _) := run_cmd (create_cmd image_spec "server-1") volumes_node in
  let '(w, _) := run_cmd (cmd Start "server-1") w in
  hb ← containers_of w;
  one_running "server-1" hb.

Definition start_via_container_id_tracks_for_heartbeat : test :=
  '(id, w) ← with_created image_spec fresh_node;
  hb ← containers_of w;
  _ ← assert_eq (length hb) 0;
  let '(w, ack) := run_cmd (start_container id) w in
  _ ← assert (ack_ok ack);
  hb ← containers_of w;
  one_running "server-1" hb.

Definition labelled_spec : ContainerSpec :=
  {| spec_name := ""; spec_image := "test"; spec_cmd := []; spec_env := []; spec_working_dir := "";
     spec_binds := []; spec_port_bindings := []; spec_memory_bytes := 0; spec_nano_cpus := 0;
     spec_labels := {["sky-panel.server_id" := "server-42"]} |}.

Definition reconcile_rebuilds_tracking_after_restart : test :=
  '(id, w) ← with_created labelled_spec fresh_node;
  let '(r, started) := rt_start id (w_rt w) in
  _ ← unwrap started;
  let w := set_rt r w in
  hb ← containers_of w;
  _ ← assert_eq (length hb) 0;
  let '(w, _) := reconcile w in
  hb ← containers_of w;
  one_running "server-42" hb.

Definition tmp_path (rel : string) : path := as_bytes (tmp +:+ "/" +:+ rel).
Definition disk_has (p : path) (w : node_state) : bool := is_ok (fs_metadata p (disk (w_fs w))).2.

Definition file_roundtrip_write_list_read_rename_delete : test :=
  let '(fs, made) := create_dir_all (tmp_path "server-1") (w_fs volumes_node) in
  _ ← unwrap made;
  let w := set_fs fs volumes_node in
  let content := b64_encode (as_bytes "hello world") in
  let '(w, ack) := run_cmd (file_cmd WriteFile (Some "config.txt") None (Some content)) w in
  _ ← assert (ack_ok ack);
  let '(w, ack) := run_cmd (file_cmd ListFiles (Some "") None None) w in
  _ ← assert (ack_ok ack);
  result ← ack_result ack;
  listing ← dec_list_files result;
  _ ← assert_eq (fe_name <$> lf_entries listing) ["config.txt"];
  let '(w, ack) := run_cmd (file_cmd ReadFile (Some "config.txt") None None) w in
  result ← ack_result ack;
  file ← dec_read_file result;
  _ ← assert_eq (rf_content_base64 file) content;
  let '(w, ack) := run_cmd (file_cmd RenameFile (Some "config.txt") (Some "renamed.txt") None) w in
  _ ← assert (ack_ok ack);
  _ ← assert (disk_has (tmp_path "server-1/renamed.txt") w);
  let '(w, ack) := run_cmd (file_cmd DeleteFile (Some "renamed.txt") None None) w in
  _ ← assert (ack_ok ack);
  assert (negb (disk_has (tmp_path "server-1/renamed.txt") w)).

Definition mkdir_creates_nested_directories : test :=
  let '(w, ack) := run_cmd (file_cmd Mkdir (Some "a/b/c") None None) volumes_node in
  _ ← assert (ack_ok ack);
  md ← unwrap (fs_metadata (tmp_path "server-1/a/b/c") (disk (w_fs w))).2;
  assert (md_is_dir md).

Definition refused_with (word : string) (ack : AckPayload) : test :=
  _ ← assert (negb (ack_ok ack));
  err ← ack_error ack;
  assert (contains err word).

Definition path_traversal_is_rejected : test :=
  refused_with "escapes" (run_cmd (file_cmd ReadFile (Some "../../etc/passwd") None None) volumes_node).2.

Definition absolute_path_is_rejected : test :=
  refused_with "escapes" (run_cmd (file_cmd ReadFile (Some "/etc/passwd") None None) volumes_node).2.

Definition unknown_action_on_missing_container_fails_gracefully : test :=
  let ack := (run_cmd (cmd Start "server-1") volumes_node).2 in
  _ ← assert (negb (ack_ok ack));
  assert match ack_error ack with Some _ => true | None => false end.

Example agent_tests_pass : passing
  [firewall_mode_parses_known_values; firewall_mode_defaults_to_auto;
   validate_ident_accepts_safe_names; validate_ident_rejects_injection;
   escape_sql_string_neutralizes_quotes; first_use_of_a_nonce_is_accepted;
   replaying_the_same_nonce_is_rejected; distinct_nonces_are_independent;
   a_nonce_is_accepted_again_after_the_ttl_expires; create_start_stop_remove_lifecycle;
   pull_image_acks_ok_and_streams_console_progress; pull_image_without_image_fails;
   start_with_explicit_container_id_works_without_tracking; heartbeat_reports_tracked_containers;
   start_via_container_id_tracks_for_heartbeat; reconcile_rebuilds_tracking_after_restart;
   file_roundtrip_write_list_read_rename_delete; mkdir_creates_nested_directories;
   path_traversal_is_rejected; absolute_path_is_rejected;
   unknown_action_on_missing_container_fails_gracefully] = true.
Proof. vm_compute. reflexivity. Qed.
