(* ===== verification/TestSession.v ===== *)
(** * Unit tests of daemon/src/agent/session.rs

    The panel's end of the connection is the list of texts on the session's
    wire; what the panel sends, the ticks and the turns of the spawned commands
    are the wake-ups, in one of the orders the executor may choose. *)

From S2P Require Import Prelude RustStr Json JsonText Crypto Instances Payloads Wire Envelope NonceCache.
From S2P Require Import Runtime FakeRuntime Db Fs Backup MemFs Dispatcher ToyNode Task ConsoleStream.
From S2P Require Import Concurrent Session WireText TestKit TestProtocol TestRuntime TestAgent.
From stdpp Require Import options.

#[local] Existing Instance sha2_crypto.

Definition node_secret : string := "node-secret".
Definition test_dispatcher : Dispatcher := dispatcher_new "/tmp" "/tmp".
Abbreviation session_state := (Session FakeState memfs ToyDb.state).
Abbreviation event := (wakeup (R := FakeState) (F := memfs) (Q := ToyDb.state)).

Definition new_session : session_state := session_new fresh_node 0 [] [].
Definition run_from_hello (l : list event) : session_state * flow :=
  run_session Checked test_dispatcher node_secret test_now rand1 (Ok tt) l new_session.
Definition run_on (l : list event) (s : session_state) : session_state * flow :=
  loop Checked test_dispatcher node_secret l s.

(** [server.try_next()], the [n]-th message. *)
Definition nth_message (n : nat) (s : session_state) : option Envelope :=
  m ← wire s !! n; envelope_from_text (sent_text m).

(** [server.send(Message::Text(..))] of a signed envelope. *)
Definition signed_text (secret kind : string) (payload : json) (rand : list byte) : option string :=
  env ← unwrap (signed (as_bytes secret) kind payload test_now rand);
  unwrap (envelope_to_text env).
Definition receive (text : string) : event := Text test_now 0 text.

(** The timer, and the heartbeat of a node without containers. *)
Definition tick : list event := [HeartbeatTick; HeartbeatRuns test_now rand2 (Ok tt)].
Definition send_ack : event := AckReady test_now rand2 (Ok tt).
Definition send_event : event := EventReady test_now rand2 (Ok tt).
(** A command alone runs to its end. *)
Definition to_completion : list event := replicate (S MAX_TURNS) (CommandRuns 0 test_now).

Definition sends_signed_hello_and_heartbeat : test :=
  let '(s, _) := run_from_hello (tick ++ [Cancelled]) in
  hello_env ← nth_message 0 s;
  _ ← assert_eq (env_kind hello_env) envelope_type.HELLO;
  ok ← verifies node_secret hello_env;
  _ ← assert ok;
  hello ← decode_payload dec_hello hello_env;
  _ ← assert_eq (hello_node_token hello) "node-secret";
  hb_env ← nth_message 1 s;
  _ ← assert_eq (env_kind hb_env) envelope_type.HEARTBEAT;
  ok ← verifies node_secret hb_env;
  assert ok.

Definition with_id (id : string) (c : CommandPayload) : CommandPayload :=
  {| cmd_command_id := id; cmd_action := cmd_action c; cmd_server_id := cmd_server_id c;
     cmd_container_id := cmd_container_id c; cmd_spec := cmd_spec c; cmd_image := cmd_image c;
     cmd_input := cmd_input c; cmd_path := cmd_path c; cmd_new_path := cmd_new_path c;
     cmd_content_base64 := cmd_content_base64 c; cmd_database_name := cmd_database_name c;
     cmd_database_user := cmd_database_user c; cmd_database_password := cmd_database_password c |}.

Definition dispatches_signed_command_and_acks : test :=
  let cmd := create_cmd (spec_with "test-image" []) "server-1" in
  text ← signed_text node_secret envelope_type.COMMAND (enc_command cmd) rand2;
  let '(s, _) := run_from_hello (receive text :: to_completion ++ [send_ack; Cancelled]) in
  ack_env ← nth_message 1 s;
  _ ← assert_eq (env_kind ack_env) envelope_type.ACK;
  ack ← decode_payload dec_ack ack_env;
  _ ← assert (ack_ok ack);
  assert_eq (ack_command_id ack) "cmd-1".

(** [Dispatcher::container_id_for_server] *)
Definition container_id_for_server (server_id : string) (s : session_state) : option string :=
  tracked (world s) !! server_id.
(** [rt.emit_output(..)] *)
Definition emit_output (id line : string) (s : session_state) : session_state :=
  set_world (set_rt (Fake.emit_output id line (w_rt (world s))) (world s)) s.

Definition console_output_streams_as_signed_events_after_start : test :=
  let create := with_id "c1" (create_cmd (spec_with "test-image" []) "server-1") in
  let start := command_for "c2" Start "server-1" in
  create_text ← signed_text node_secret envelope_type.COMMAND (enc_command create) rand1;
  start_text ← signed_text node_secret envelope_type.COMMAND (enc_command start) rand2;
  let '(s, _) := run_from_hello (receive create_text :: to_completion ++ [send_ack] ++
                                 receive start_text :: to_completion ++ [send_ack; send_event]) in
  env2 ← nth_message 2 s;
  env3 ← nth_message 3 s;
  _ ← assert_eq (env_kind env2) envelope_type.ACK;
  _ ← assert_eq (env_kind env3) envelope_type.EVENT;
  container_id ← container_id_for_server "server-1" s;
  let '(s, _) := run_on [PumpRuns 0; send_event; Cancelled] (emit_output container_id "Server started!" s) in
  event_env ← nth_message 4 s;
  _ ← assert_eq (env_kind event_env) envelope_type.EVENT;
  ok ← verifies node_secret event_env;
  _ ← assert ok;
  ev ← decode_payload dec_event event_env;
  _ ← assert_eq (ev_server_id ev) "server-1";
  assert_eq (ev_message ev) "Server started!".

Definition undecodable_command_is_dropped_without_killing_the_session : test :=
  bogus ← signed_text node_secret envelope_type.COMMAND (JObj [("not", JStr "a command")]) rand1;
  let good := with_id "cmd-ok" (create_cmd image_spec "server-1") in
  good_text ← signed_text node_secret envelope_type.COMMAND (enc_command good) rand2;
  let '(s, _) := run_from_hello (receive bogus :: receive good_text :: to_completion ++ [send_ack; Cancelled]) in
  ack_env ← nth_message 1 s;
  _ ← assert_eq (env_kind ack_env) envelope_type.ACK;
  ack ← decode_payload dec_ack ack_env;
  assert_eq (ack_command_id ack) "cmd-ok".

Definition rejects_command_signed_with_wrong_secret : test :=
  forged ← signed_text "wrong-secret" envelope_type.COMMAND (enc_command (cmd Start "server-1")) rand2;
  let '(_, outcome) := run_from_hello [receive forged] in
  assert match outcome with Return r => negb (is_ok r) | _ => false end.

Example session_tests_pass : passing
  [sends_signed_hello_and_heartbeat; dispatches_signed_command_and_acks;
   console_output_streams_as_signed_events_after_start;
   undecodable_command_is_dropped_without_killing_the_session;
   rejects_command_signed_with_wrong_secret] = true.
Proof. vm_compute. reflexivity. Qed.
